(* ===== verification/_CoqProject ===== *)
-Q . S2P
Prelude.v
Utils.v
Spinlock.v
CString.v
Bytes.v
Print.v
Klog.v
Workqueue.v
Timer.v
Multiboot2.v
Pmm.v
Vmm.v
Alloc.v
Heap.v
Console.v
Task.v
Wait.v
Tty.v
Vfs.v
Ramfs.v
Files.v
Fd.v
Initramfs.v
Elf.v
Process.v
Syscall.v
Keyboard.v
Rtc.v
Device.v
Command.v
Output.v
Shell.v
ShellProps.v
Gdt.v
Irq.v
Mouse.v
UserMode.v
UserSpace.v
UserProps.v
UserRun.v
UserAccess.v
UserLib.v
UserLibProps.v
Jobs.v
JobsProps.v
Builtins.v
BootFs.v
BootIrq.v
Boot.v
BootHeap.v
BootProps.v
HeapTest.v
Faults.v
Demo.v
