(* ===== verification/Prelude.v ===== *)
(** * my-os: a verification development of the kernel

    The program is a small x86_64 kernel in C: it is loaded by a multiboot2
    boot loader, manages physical frames, page tables and a heap, runs
    cooperative tasks, reads a PS/2 keyboard into a terminal with a text
    console, keeps a file tree in memory that it fills from a tar archive,
    loads ELF programs and runs them as processes behind a system-call table,
    and offers a shell. This library models its components one file each and
    proves what makes them correct. Every definition that models code has the
    name of the C function, type or macro it models, or is a helper next to it
    (a loop body, one round of a blocking call).

    ** Files and sources

    - this file: machine integers ([src/include/types.h]) as [Z] with the
      wrap-around written out, arrays, rings, tactics, hint databases;
    - [Utils] ([src/kernel/utils.c]): alignment and ranges;
    - [Spinlock] ([src/kernel/spinlock.c]): the lock word and the interrupt
      flag; two contending agents as a step relation;
    - [CString], [Bytes]: the string routines that the kernel repeats in many
      files, and little-endian fields in memory;
    - [Print] ([src/kernel/print.c]): text output as a list of coloured
      characters; [Klog] ([src/kernel/klog.c]): the ring of the kernel log;
      [Console] ([src/kernel/console.c]): scrollback, viewport, VGA memory;
    - [Workqueue] ([src/kernel/workqueue.c]), [Timer] ([src/kernel/timer.c]):
      deferred work and timers that feed it;
    - [Multiboot2] ([src/kernel/multiboot2.c]), [Pmm] ([src/kernel/pmm.c]):
      the boot information and the frame bitmap built from it;
    - [Vmm] ([src/kernel/vmm.c]): four-level page tables in physical memory,
      frames taken from [Pmm];
    - [Alloc], [Heap] ([src/kernel/heap.c]): the class that states what the
      clients of [kmalloc] rely on, and the block-list heap that implements it;
    - [Task] ([src/kernel/task.c]), [Wait] ([src/kernel/wait.c]), [Tty]
      ([src/kernel/tty.c]), [Keyboard] ([src/kernel/keyboard.c]): the scheduler,
      wait queues threaded through the tasks, the key ring between interrupt and
      readers, and the scan code decoder that fills it;
    - [Vfs] ([src/kernel/vfs.c]), [Ramfs] ([src/kernel/ramfs.c]), [Files], [Fd]
      ([src/kernel/fd.c]): the node tree with its links, file contents in heap
      buffers, the theorems on both, and the descriptor table;
    - [Initramfs] ([src/kernel/initramfs.c]), [Elf] ([src/kernel/elf.c]): the
      tar loader and the ELF loader, on arbitrary input bytes;
    - [Process] ([src/kernel/process.c]), [Syscall] ([src/kernel/syscall.c]):
      the process table over the scheduler, and the system calls over
      descriptors, processes, user memory and the terminal;
    - [Rtc] ([src/kernel/rtc.c]): the CMOS clock;
    - [Device] ([src/kernel/device.c]), [Command] ([src/kernel/command.c]): the
      registries of devices and commands; [Output] ([src/kernel/serial.c] and the
      sinks of [print.c]): the characters on their way to console, serial port
      and log;
    - [Shell], [ShellProps] ([src/kernel/shell.c]): the line editor with history
      and completion, and the editor it refines;
    - [Gdt] ([src/arch/x86_64/gdt.c], [src/kernel/syscall_cpu.c]): segments, task
      state, system call registers; [Irq] ([src/kernel/idt.c], [irq.c], [pic.c],
      [pit.c]): gates, controller, dispatch, clock; [Mouse]
      ([src/kernel/mouse.c]): packets and wheel;
    - [UserMode] ([src/arch/x86_64/user_mode.c]): programs mapped, opened to user
      mode, run and unmapped; [UserSpace], [UserProps], [UserRun], [UserAccess]:
      the invariant of the address space, the operations on it, whole programs,
      and which pages a program can reach;
    - [UserLib], [UserLibProps] ([src/user/]): the user programs over the system
      calls;
    - [Jobs], [JobsProps]: the commands of [workqueue.c] and [timer.c] with the
      heap blocks their messages live in;
    - [Builtins]: the table of the built-in commands of all files and its
      registration; [BootFs], [BootIrq], [BootHeap]: files, interrupts and heap
      at boot; [Boot], [BootProps] ([src/kernel/kernel.c]): [kernel_main] and a
      round of its idle loop over all the components;
    - [HeapTest] ([heap_test] of [heap.c]); [Faults] ([src/kernel/panic.c],
      [idt_test_page_fault], [dmesg] and the test commands of [command.c]);
      [Demo] (the demo tasks of [task.c]): tasks with a function, over whole
      sequences of turns.

    ** How state and effects are modelled

    The static variables of a file are a record; a function is a Rocq function
    that takes and returns the records it touches; a null pointer is 0 or
    [None]; what is printed is a value of type [Print.output]. Linked lists that
    only grow (tasks, processes, file nodes) are lists and a pointer is a
    position; lists whose links the code rewrites (wait queues, siblings, heap
    blocks) keep their links, and the theorems relate them to lists. Memory that
    is parsed (boot information, tar, ELF, user buffers) is a function from
    addresses or a list of bytes with reads outside of it made visible. Blocking
    calls and interrupts are step relations: each stretch under a lock or with
    interrupts off is one step, and the theorems hold for every interleaving.

    Interfaces between components are classes: [Alloc.Allocator] ([kmalloc],
    [kfree] and their laws; [Heap] and a bump allocator are instances),
    [Ramfs.TtyDevice] (the functions behind [/dev/tty0];
    [Syscall.console_terminal] is the instance over [Console] and [Tty]) and
    [Irq.PicData] (what is known of the interrupt controller: its mask registers
    read back what was written).

    ** What the theorems show

    Refinement: the bitmap allocator is a set of free frames, the rings of the
    log, the workqueue and the terminal are bounded queues, the threaded wait
    queue is a queue, the path walk is the walk over path components, the
    system-call table is the function of the call number, the shell is a line
    editor over the list of all accepted lines, the deferred messages are a
    queue of messages. Invariants over every
    sequence or interleaving of operations: scheduler, process table,
    descriptor table, console, file tree with its heap buffers. Safety: mutual
    exclusion of the spinlock, no frame and no heap byte handed out twice, page
    mapping touches no other translation, no wake-up is lost, the ELF loader
    reads nothing outside the file, nothing of a user program stays mapped and no
    page-table entry but those on its way is opened to it, an interrupt runs its
    own handler and is acknowledged, a sleeping task is not resumed early, the
    heap's self test on the running kernel changes no live block. Composition:
    from the boot loader's registers [kernel_main] reaches its idle loop with
    every component in the state its own theorems start from, and the first
    round switches to the shell; every built-in command is reached by its name.
    Typing: each selector designates a segment
    of the right kind and privilege. Liveness and termination: a ready task is
    not starved, a timer fires once and not early, a wait returns after the
    process has ended, a well-formed program is entered with its segments in
    memory, loops over untrusted input end. Round trips: file write
    and read, file creation and lookup, tar headers, typed text, the log that
    [dmesg] replays. Error and
    overflow behaviour is part of the statements; where the code does something
    it should not (the sizes that wrap in [Heap] and [Ramfs], the leaks in
    [Task], [Elf] and the self tests, the lost PM bit in [Rtc]), a theorem says
    exactly what.

    ** Fuel and bounds

    Loops that are not structural carry fuel, and each theorem about one says
    how much is enough: one round per task, node, block or character, and the
    archive's length for the tar loader; 64 characters in [user_strlen], more than
    the programs' longest line. [None] is a loop without fuel or a
    memory access outside the object. Numbers are kept at their width; a
    theorem that needs a counter not to wrap says so ([2^32] tasks or
    processes, offsets below [2^63]).

    ** Not modelled

    Assembly (boot, interrupt entry, context switch, ring 3 switch): what it
    saves and runs are arguments; the port and MSR instructions are traces or
    registers of a component's state. The processor itself: a halt is the state
    and the text the function halts with, and memory is as the page tables say,
    without caches. In [Boot] what the page-table code prints after [heap_init]
    is not interleaved with the rest of the text. Build scripts. *)

From Stdlib Require Export ZArith Lia.
From stdpp Require Export base numbers list gmap strings.

#[global] Open Scope Z_scope.

(** ** Machine integers

    The C types of [include/types.h] are integers of a fixed width; a value of
    the type is a [Z] in its range and every operation that can leave the range
    is followed by the wrap-around written out. *)

Definition u8 (x : Z) : Z := x mod 2 ^ 8.
Definition u16 (x : Z) : Z := x mod 2 ^ 16.
Definition u32 (x : Z) : Z := x mod 2 ^ 32.
Definition u64 (x : Z) : Z := x mod 2 ^ 64.

(** The conversion to a signed type of [w] bits (two's complement). *)
Definition to_signed (w x : Z) : Z :=
  let y := x mod 2 ^ w in if y <? 2 ^ (w - 1) then y else y - 2 ^ w.

Definition s8 (x : Z) : Z := to_signed 8 x.
Definition s32 (x : Z) : Z := to_signed 32 x.
Definition s64 (x : Z) : Z := to_signed 64 x.

Definition is_u8 (x : Z) : Prop := 0 <= x < 2 ^ 8.
Definition is_u32 (x : Z) : Prop := 0 <= x < 2 ^ 32.
Definition is_u64 (x : Z) : Prop := 0 <= x < 2 ^ 64.

(** The C truth value of a comparison. *)
Definition b2z (b : bool) : Z := if b then 1 else 0.

Declare Scope kernel_scope.
Delimit Scope kernel_scope with K.

(** [x &b m]: "the bit test [x & m] is non-zero", the C condition. *)
Notation "x &? m" := (negb (Z.land x m =? 0)) (at level 40) : kernel_scope.
#[global] Open Scope kernel_scope.

(** ** Tactics of the development *)

(** Turn the boolean tests of the code, in the goal and in the hypotheses,
    into arithmetic facts. *)
Ltac btests :=
  repeat match goal with
  | H : (_ <? _) = true |- _ => apply Z.ltb_lt in H
  | H : (_ <? _) = false |- _ => apply Z.ltb_ge in H
  | H : (_ <=? _) = true |- _ => apply Z.leb_le in H
  | H : (_ <=? _) = false |- _ => apply Z.leb_gt in H
  | H : (_ =? _) = true |- _ => apply Z.eqb_eq in H
  | H : (_ =? _) = false |- _ => apply Z.eqb_neq in H
  | H : negb _ = true |- _ => apply negb_true_iff in H
  | H : negb _ = false |- _ => apply negb_false_iff in H
  | H : (_ && _)%bool = true |- _ => apply andb_prop in H; destruct H
  | H : (_ || _)%bool = false |- _ => apply orb_false_elim in H; destruct H
  end.

(** Split on the test of an [if] of the goal, or of a hypothesis. *)
Ltac case_if :=
  match goal with
  | |- context [if ?b then _ else _] => destruct b eqn:?
  | H : context [if ?b then _ else _] |- _ => destruct b eqn:?
  end.

Ltac case_ifs := repeat (case_if; btests).

(** [lia] with division and remainder by constants turned into equations. *)
Ltac zlia := Z.div_mod_to_equations; lia.

Create HintDb kernel.
Create Rewrite HintDb kernel_len.

(** ** Wrap-around *)

Lemma u64_range x : is_u64 (u64 x).
Proof. unfold is_u64, u64. apply Z.mod_pos_bound. lia. Qed.

Lemma u32_range x : is_u32 (u32 x).
Proof. unfold is_u32, u32. apply Z.mod_pos_bound. lia. Qed.

Lemma u8_range x : is_u8 (u8 x).
Proof. unfold is_u8, u8. apply Z.mod_pos_bound. lia. Qed.

Lemma u64_small x : is_u64 x → u64 x = x.
Proof. apply Z.mod_small. Qed.

Lemma to_signed_small w x : 1 <= w → 0 <= x < 2 ^ (w - 1) → to_signed w x = x.
Proof.
  intros Hw Hx. assert (2 ^ w = 2 * 2 ^ (w - 1)) by (rewrite <- Z.pow_succ_r by lia; f_equal; lia).
  unfold to_signed. rewrite Z.mod_small by lia. by rewrite (proj2 (Z.ltb_lt x _)) by lia.
Qed.

Lemma u32_small x : is_u32 x → u32 x = x.
Proof. apply Z.mod_small. Qed.

Lemma u8_small x : is_u8 x → u8 x = x.
Proof. apply Z.mod_small. Qed.

Lemma u64_add_l a b : u64 (u64 a + b) = u64 (a + b).
Proof. unfold u64. by rewrite Z.add_mod_idemp_l. Qed.

Lemma u64_add_r a b : u64 (a + u64 b) = u64 (a + b).
Proof. unfold u64. by rewrite Z.add_mod_idemp_r. Qed.

Lemma u64_idem a : u64 (u64 a) = u64 a.
Proof. unfold u64. by rewrite Z.mod_mod. Qed.

#[export] Hint Resolve u64_range u32_range u8_range : kernel.

(** Masking with the complement of [2^k - 1] at width 64 clears the low bits:
    the bit trick every [align_down] of the kernel uses. *)
Lemma land_align_mask v k :
  is_u64 v → 0 <= k < 64 →
  Z.land v (u64 (Z.lnot (2 ^ k - 1))) = v / 2 ^ k * 2 ^ k.
Proof.
  intros Hv Hk. unfold is_u64, u64 in *.
  rewrite <- (Z.shiftl_mul_pow2 _ k), <- (Z.shiftr_div_pow2 v k) by lia.
  replace (2 ^ k - 1) with (Z.ones k) by (rewrite Z.ones_equiv; lia).
  apply Z.bits_inj'; intros i Hi.
  rewrite Z.land_spec.
  destruct (Z_lt_le_dec i 64) as [H64|H64].
  - rewrite Z.mod_pow2_bits_low by lia. rewrite Z.lnot_spec by lia.
    destruct (Z_lt_le_dec i k).
    + rewrite Z.shiftl_spec_low, Z.ones_spec_low by lia. apply andb_false_r.
    + rewrite Z.shiftl_spec, Z.shiftr_spec, Z.ones_spec_high by lia.
      rewrite andb_true_r. f_equal. lia.
  - rewrite Z.mod_pow2_bits_high, andb_false_r by lia.
    rewrite Z.shiftl_spec, Z.shiftr_spec by lia.
    rewrite <- (Z.mod_small v (2 ^ 64)), Z.mod_pow2_bits_high; [done|lia..].
Qed.

(** Values below [2^n] are closed under the bit operations. *)
Lemma bits_lt_pow2 x n :
  0 <= n → 0 <= x → (∀ i, n <= i → Z.testbit x i = false) → x < 2 ^ n.
Proof.
  intros Hn Hx Hbits. destruct (Z_lt_le_dec x (2 ^ n)) as [|Hge]; [done|].
  assert (0 < 2 ^ n) by (apply Z.pow_pos_nonneg; lia).
  assert (n <= Z.log2 x) by (by apply Z.log2_le_pow2; lia).
  specialize (Hbits (Z.log2 x) ltac:(done)). rewrite Z.bit_log2 in Hbits; [done|lia].
Qed.

Lemma testbit_above x n i : 0 <= x < 2 ^ n → n <= i → Z.testbit x i = false.
Proof.
  intros Hx Hi. destruct (Z_lt_le_dec i 0); [by apply Z.testbit_neg_r|].
  destruct (Z_lt_le_dec n 0) as [Hneg|]; [rewrite Z.pow_neg_r in Hx; lia|].
  rewrite <- (Z.mod_small x (2 ^ n)) by done. apply Z.mod_pow2_bits_high. lia.
Qed.

Lemma land_range_l a b n : 0 <= n → 0 <= a < 2 ^ n → 0 <= Z.land a b < 2 ^ n.
Proof.
  intros Hn Ha. assert (0 <= Z.land a b) by (apply Z.land_nonneg; lia).
  split; [done|]. apply bits_lt_pow2; [done..|]. intros i Hi.
  by rewrite Z.land_spec, (testbit_above a n).
Qed.

Lemma lor_range a b n :
  0 <= n → 0 <= a < 2 ^ n → 0 <= b < 2 ^ n → 0 <= Z.lor a b < 2 ^ n.
Proof.
  intros Hn Ha Hb. assert (0 <= Z.lor a b) by (apply Z.lor_nonneg; lia).
  split; [done|]. apply bits_lt_pow2; [done..|]. intros i Hi.
  by rewrite Z.lor_spec, (testbit_above a n), (testbit_above b n).
Qed.

(** Clearing the low bits keeps a value a 64-bit one and below the original. *)
Lemma div_mul_le v a : 0 <= v → 0 < a → 0 <= v / a * a <= v.
Proof. intros. split; [apply Z.mul_nonneg_nonneg; [apply Z.div_pos|]; lia|].
  rewrite Z.mul_comm. by apply Z.mul_div_le. Qed.

(** ** Arrays

    A C array is a list; [arr_get] and [arr_set] are the subscript. The
    invariants of the components prove their indices in range, so what the
    model does outside the array (the default element, no update) is never
    reached in a well-formed state. *)

Definition arr_get {A} `{Inhabited A} (l : list A) (i : Z) : A := l !!! Z.to_nat i.
Definition arr_set {A} (l : list A) (i : Z) (x : A) : list A := <[Z.to_nat i := x]> l.

Definition Zlength {A} (l : list A) : Z := Z.of_nat (length l).

Section Arrays.
Context {A : Type} `{Inhabited A}.
Implicit Types (l : list A) (i j : Z) (x : A).

Lemma arr_set_length l i x : length (arr_set l i x) = length l.
Proof. apply length_insert. Qed.

Lemma arr_get_set_eq l i x :
  0 <= i < Zlength l → arr_get (arr_set l i x) i = x.
Proof.
  unfold arr_get, arr_set, Zlength. intros Hi.
  apply list_lookup_total_correct, list_lookup_insert_eq. lia.
Qed.

Lemma arr_get_set_ne l i j x :
  0 <= i → 0 <= j → i ≠ j → arr_get (arr_set l i x) j = arr_get l j.
Proof.
  unfold arr_get, arr_set. intros. rewrite !list_lookup_total_alt.
  rewrite list_lookup_insert_ne; [done|lia].
Qed.

Lemma arr_get_set l i j x :
  0 <= i < Zlength l → 0 <= j →
  arr_get (arr_set l i x) j = if j =? i then x else arr_get l j.
Proof.
  intros. destruct (Z.eqb_spec j i) as [->|].
  - by apply arr_get_set_eq.
  - apply arr_get_set_ne; lia.
Qed.

Lemma arr_ext l1 l2 :
  length l1 = length l2 →
  (∀ i, 0 <= i < Zlength l1 → arr_get l1 i = arr_get l2 i) → l1 = l2.
Proof.
  unfold Zlength, arr_get. intros Hlen Hall.
  apply list_eq_same_length with (length l1); [lia..|].
  intros i x y Hi H1 H2.
  specialize (Hall (Z.of_nat i) ltac:(lia)). rewrite Nat2Z.id in Hall.
  apply list_lookup_total_correct in H1, H2. congruence.
Qed.

Lemma arr_get_elem l i : 0 <= i < Zlength l → arr_get l i ∈ l.
Proof.
  unfold arr_get, Zlength. intros. rewrite list_lookup_total_alt.
  destruct (lookup_lt_is_Some_2 l (Z.to_nat i)) as [x Hx]; [lia|].
  rewrite Hx. by eapply list_elem_of_lookup_2.
Qed.

Lemma elem_arr_get l x : x ∈ l → ∃ i, 0 <= i < Zlength l ∧ arr_get l i = x.
Proof.
  intros [i Hi]%list_elem_of_lookup. exists (Z.of_nat i).
  pose proof (lookup_lt_Some _ _ _ Hi). unfold arr_get, Zlength.
  rewrite Nat2Z.id. split; [lia|]. by apply list_lookup_total_correct.
Qed.
(** The loop [for (k = 0; k < n; k++) v[base + k] = f(k)]. *)
Lemma arr_fill (f : Z → A) base (n : nat) l :
  0 <= base → base + Z.of_nat n <= Zlength l →
  let l' := foldl (λ v k, arr_set v (base + k) (f k)) l (seqZ 0 (Z.of_nat n)) in
  length l' = length l ∧
  ∀ i, 0 <= i → arr_get l' i = if (base <=? i) && (i <? base + Z.of_nat n) then f (i - base)
                               else arr_get l i.
Proof.
  intros Hb. induction n as [|n IH]; intros Hn; cbv zeta.
  - rewrite seqZ_nil by lia. cbn [foldl]. split; [done|]. intros i Hi.
    destruct (Z.leb_spec base i), (Z.ltb_spec i (base + Z.of_nat 0)); cbn [andb]; try done; lia.
  - rewrite seqZ_S, foldl_snoc. destruct IH as [Hlen Hget]; [lia|].
    rewrite arr_set_length. split; [done|]. intros i Hi.
    rewrite arr_get_set by (unfold Zlength in *; rewrite ?Hlen; lia).
    destruct (Z.eqb_spec i (base + (0 + Z.of_nat n))) as [->|Hne].
    + rewrite (proj2 (Z.leb_le _ _)), (proj2 (Z.ltb_lt _ _)) by lia. cbn [andb]. f_equal. lia.
    + rewrite Hget by done.
      destruct (Z.leb_spec base i), (Z.ltb_spec i (base + Z.of_nat n)),
        (Z.ltb_spec i (base + Z.of_nat (S n))); cbn [andb]; try done; lia.
Qed.
End Arrays.

#[export] Hint Rewrite @arr_set_length @length_app @length_cons @length_nil
  @length_replicate @length_insert : kernel_len.

(** ** Filters *)

Section Filters.
Context {A : Type}.
Implicit Types (l : list A) (P Q : A → Prop).

Lemma filter_ext_elem P Q `{!∀ x, Decision (P x), !∀ x, Decision (Q x)} l :
  (∀ x, x ∈ l → P x ↔ Q x) → filter P l = filter Q l.
Proof.
  induction l as [|x l IH]; intros Hall; [done|]. rewrite !filter_cons.
  rewrite IH by (intros y Hy; apply Hall; by right).
  pose proof (Hall x ltac:(left)). do 2 case_decide; tauto.
Qed.

Lemma filter_all P `{!∀ x, Decision (P x)} l : (∀ x, x ∈ l → P x) → filter P l = l.
Proof.
  induction l as [|x l IH]; intros Hall; [done|]. rewrite filter_cons_True by (apply Hall; left).
  f_equal. apply IH. intros y Hy. apply Hall. by right.
Qed.

Lemma filter_none P `{!∀ x, Decision (P x)} l : (∀ x, x ∈ l → ¬ P x) → filter P l = [].
Proof.
  induction l as [|x l IH]; intros Hall; [done|]. rewrite filter_cons_False by (apply Hall; left).
  apply IH. intros y Hy. apply Hall. by right.
Qed.

(** Adding one element to the filter adds it to the list. *)
Lemma filter_add_Permutation P Q `{!∀ x, Decision (P x), !∀ x, Decision (Q x)} l a :
  NoDup l → a ∈ l → ¬ P a → (∀ x, x ∈ l → Q x ↔ x = a ∨ P x) →
  filter Q l ≡ₚ a :: filter P l.
Proof.
  induction l as [|x l IH]; intros Hnd Ha HP HQ; [by apply not_elem_of_nil in Ha|].
  apply NoDup_cons in Hnd as [Hx Hnd].
  assert (HQ' : ∀ y, y ∈ l → Q y ↔ y = a ∨ P y) by (intros y Hy; apply HQ; by right).
  pose proof (HQ x ltac:(left)) as HQx. rewrite !filter_cons.
  apply elem_of_cons in Ha as [<-|Ha].
  - rewrite decide_True by tauto. rewrite decide_False by done.
    rewrite (filter_ext_elem Q P); [done|]. intros y Hy. rewrite HQ' by done.
    split; [intros [->|]; [done|done]|tauto].
  - assert (x ≠ a) by (intros ->; done).
    do 2 case_decide; try tauto; rewrite (IH Hnd Ha HP HQ'); apply Permutation_swap.
Qed.
End Filters.

(** ** Ring buffers

    [ring_read buf start n] are the [n] elements of the circular buffer [buf]
    from index [start] on. The tty, the kernel log, the workqueue and the shell
    history are all read through it. *)

Section Ring.
Context {A : Type} `{Inhabited A}.
Implicit Types (buf : list A) (start : Z) (x : A) (n : nat).

Definition ring_idx buf (start : Z) (i : nat) : Z :=
  (start + Z.of_nat i) mod Zlength buf.

Definition ring_read buf start n : list A :=
  (λ i, arr_get buf (ring_idx buf start i)) <$> seq 0 n.

Lemma ring_read_length buf start n : length (ring_read buf start n) = n.
Proof. unfold ring_read. by rewrite length_fmap, length_seq. Qed.

Lemma ring_idx_range buf start i :
  (0 < length buf)%nat → 0 <= ring_idx buf start i < Zlength buf.
Proof. intros. apply Z.mod_pos_bound. unfold Zlength. lia. Qed.

(** Two positions of one lap are different indices. *)
Lemma ring_idx_inj buf start i j :
  (i < length buf)%nat → (j < length buf)%nat →
  ring_idx buf start i = ring_idx buf start j → i = j.
Proof.
  unfold ring_idx, Zlength. intros Hi Hj Heq.
  assert (Hdvd : (start + Z.of_nat i - (start + Z.of_nat j))
                   mod Z.of_nat (length buf) = 0).
  { rewrite Zminus_mod, Heq, Z.sub_diag. by apply Z.mod_0_l; lia. }
  apply Z.mod_divide in Hdvd; [|lia]. destruct Hdvd as [q Hq].
  assert (q = 0) by nia. subst q. lia.
Qed.

Lemma ring_idx_set buf start i k x :
  ring_idx (arr_set buf k x) start i = ring_idx buf start i.
Proof. unfold ring_idx, Zlength. by rewrite arr_set_length. Qed.

(** A write outside the window does not show. *)
Lemma ring_read_set_outside buf start n k x :
  0 <= k → (0 < length buf)%nat →
  (∀ i, (i < n)%nat → ring_idx buf start i ≠ k) →
  ring_read (arr_set buf k x) start n = ring_read buf start n.
Proof.
  intros Hk Hlen Hout. unfold ring_read. apply list_fmap_ext.
  intros _ i [_ Hi]%list_elem_of_lookup_2%elem_of_seq.
  rewrite ring_idx_set. pose proof (ring_idx_range buf start i Hlen).
  rewrite arr_get_set_ne; [done|lia..|]. intros Heq.
  by apply (Hout i); [lia|].
Qed.

Lemma ring_read_snoc buf start n :
  ring_read buf start (S n) =
  ring_read buf start n ++ [arr_get buf (ring_idx buf start n)].
Proof. unfold ring_read. by rewrite seq_S, fmap_app. Qed.

(** Writing the slot just after the window appends the element. *)
Lemma ring_read_push buf start n x :
  (n < length buf)%nat →
  ring_read (arr_set buf (ring_idx buf start n) x) start (S n) =
  ring_read buf start n ++ [x].
Proof.
  intros Hn. pose proof (ring_idx_range buf start n ltac:(lia)).
  rewrite ring_read_snoc, ring_idx_set, arr_get_set_eq by done.
  rewrite ring_read_set_outside; [done|lia|lia|].
  intros i Hi Heq%ring_idx_inj; lia.
Qed.

(** The window is the slot at its start and the window one further. *)
Lemma ring_read_pop buf start n :
  0 <= start < Zlength buf →
  ring_read buf start (S n) =
  arr_get buf start :: ring_read buf ((start + 1) mod Zlength buf) n.
Proof.
  intros Hs. unfold ring_read. cbn [seq fmap list_fmap].
  f_equal.
  - unfold ring_idx. by rewrite Z.add_0_r, Z.mod_small.
  - rewrite <- fmap_S_seq, <- list_fmap_compose. apply list_fmap_ext.
    intros _ i _. unfold compose, ring_idx. f_equal.
    rewrite Z.add_mod_idemp_l by lia. f_equal. lia.
Qed.

(** On a full ring the slot after the window is the oldest element: writing
    it drops that element and appends the new one. *)
Lemma ring_read_overwrite buf start x :
  0 <= start < Zlength buf →
  ring_read (arr_set buf start x) ((start + 1) mod Zlength buf) (length buf) =
  drop 1 (ring_read buf start (length buf)) ++ [x].
Proof.
  intros Hs. unfold Zlength in *.
  destruct (length buf) as [|n] eqn:Hn; [lia|].
  rewrite (ring_read_pop buf start) by (unfold Zlength; lia). cbn [drop]. rewrite drop_0.
  replace start with
    (ring_idx buf ((start + 1) mod Z.of_nat (S n)) n) at 1.
  2:{ unfold ring_idx, Zlength. rewrite Hn, Z.add_mod_idemp_l by lia.
      replace (start + 1 + Z.of_nat n) with (start + 1 * Z.of_nat (S n)) by lia.
      by rewrite Z.mod_add, Z.mod_small by lia. }
  rewrite ring_read_push by lia. unfold Zlength. by rewrite Hn.
Qed.
End Ring.

(** ** The last elements of a list *)

Definition last_n {A} (n : nat) (h : list A) : list A := drop (length h - n) h.

Lemma last_n_snoc {A} n (h : list A) c :
  last_n n (h ++ [c]) =
  if (length h <? n)%nat then h ++ [c] else drop 1 (last_n n h) ++ (if (n =? 0)%nat then [] else [c]).
Proof.
  unfold last_n. rewrite length_app. cbn [length].
  destruct (Nat.ltb_spec (length h) n) as [Hlt|Hge].
  - replace (length h + 1 - n)%nat with 0%nat by lia. by rewrite drop_0.
  - destruct (Nat.eqb_spec n 0) as [->|].
    + rewrite !drop_ge; [done|rewrite length_drop; lia|rewrite length_app; cbn; lia].
    + rewrite drop_app_le, drop_drop by lia. do 2 f_equal. lia.
Qed.
