(* ===== verification/Utils.v ===== *)
(** * Arithmetic helpers of the kernel ([src/kernel/utils.c])

    [align_up_u64], [align_down_u64], the 64-bit minimum and maximum and the
    half-open range test, at the width of the C code. *)

From S2P Require Import Prelude.

Definition PAGE_SIZE : Z := 4096.
Definition MIN_USABLE_ADDR : Z := 0x00100000.

Definition align_up_u64 (value align : Z) : Z :=
  Z.land (u64 (value + align - 1)) (u64 (Z.lnot (u64 (align - 1)))).

Definition align_down_u64 (value align : Z) : Z :=
  Z.land value (u64 (Z.lnot (u64 (align - 1)))).

Definition max_u64 (a b : Z) : Z := if b <? a then a else b.

Definition min_u64 (a b : Z) : Z := if a <? b then a else b.

Definition ranges_overlap (a_start a_end b_start b_end : Z) : bool :=
  let start := max_u64 a_start b_start in
  let end_ := min_u64 a_end b_end in
  start <? end_.

(** ** Lemmas *)

Lemma u64_pow2_pred k : 0 <= k < 64 → u64 (2 ^ k - 1) = 2 ^ k - 1.
Proof.
  intros. apply u64_small. split.
  - pose proof (Z.pow_pos_nonneg 2 k). lia.
  - pose proof (Z.pow_lt_mono_r 2 k 64). lia.
Qed.

Lemma align_down_pow2 v k :
  is_u64 v → 0 <= k < 64 → align_down_u64 v (2 ^ k) = v / 2 ^ k * 2 ^ k.
Proof.
  intros. unfold align_down_u64. rewrite u64_pow2_pred by done.
  by apply land_align_mask.
Qed.

Lemma align_up_pow2 v k :
  0 <= v → v + 2 ^ k - 1 < 2 ^ 64 → 0 <= k < 64 →
  align_up_u64 v (2 ^ k) = (v + 2 ^ k - 1) / 2 ^ k * 2 ^ k.
Proof.
  intros Hv Hs Hk. unfold align_up_u64.
  pose proof (Z.pow_pos_nonneg 2 k).
  rewrite u64_pow2_pred, u64_small by (unfold is_u64; lia).
  apply land_align_mask; [unfold is_u64; lia|done].
Qed.

Lemma align_down_page v :
  is_u64 v → align_down_u64 v PAGE_SIZE = v / PAGE_SIZE * PAGE_SIZE.
Proof. intros. apply (align_down_pow2 v 12); [done|lia]. Qed.

Lemma align_up_page v :
  0 <= v → v + 4095 < 2 ^ 64 →
  align_up_u64 v PAGE_SIZE = (v + 4095) / PAGE_SIZE * PAGE_SIZE.
Proof.
  intros. change PAGE_SIZE with (2 ^ 12). rewrite align_up_pow2 by lia.
  f_equal; f_equal; lia.
Qed.

(** Page alignment, in the form the memory components use it. *)
Lemma align_up_page_bounds v :
  0 <= v → v + 4095 < 2 ^ 64 →
  v <= align_up_u64 v PAGE_SIZE < v + 4096 ∧ align_up_u64 v PAGE_SIZE mod PAGE_SIZE = 0.
Proof.
  intros. rewrite align_up_page by lia. split; [|by apply Z_mod_mult].
  unfold PAGE_SIZE. zlia.
Qed.

Lemma align_down_page_bounds v :
  is_u64 v →
  v - 4096 < align_down_u64 v PAGE_SIZE <= v ∧ align_down_u64 v PAGE_SIZE mod PAGE_SIZE = 0.
Proof.
  intros. rewrite align_down_page by done. split; [|by apply Z_mod_mult].
  unfold PAGE_SIZE. zlia.
Qed.

Lemma align_up_page_id v :
  is_u64 v → v + 4095 < 2 ^ 64 → v mod PAGE_SIZE = 0 → align_up_u64 v PAGE_SIZE = v.
Proof. intros [] ? ?. rewrite align_up_page by done. unfold PAGE_SIZE in *. zlia. Qed.

Lemma align_down_page_id v :
  is_u64 v → v mod PAGE_SIZE = 0 → align_down_u64 v PAGE_SIZE = v.
Proof. intros. rewrite align_down_page by done. unfold PAGE_SIZE in *. zlia. Qed.

Lemma align_up_range v a : is_u64 (align_up_u64 v a).
Proof. apply land_range_l; [lia|apply u64_range]. Qed.

Lemma max_u64_max a b : max_u64 a b = Z.max a b.
Proof. unfold max_u64. case_ifs; lia. Qed.

Lemma min_u64_min a b : min_u64 a b = Z.min a b.
Proof. unfold min_u64. case_ifs; lia. Qed.

#[export] Hint Resolve align_up_range : kernel.

(** ** Properties *)

(** Rounding up to a power of two is exact whenever the sum fits in 64 bits: the
    result is the least multiple of the alignment that is not below the value.
    When the sum does not fit, the result is 0: the wrap-around of the C
    expression, which the callers that pass unchecked sizes inherit. *)
Theorem align_up_u64_exact_or_zero v k :
  is_u64 v → 0 <= k < 64 →
  (v + 2 ^ k - 1 < 2 ^ 64 →
     v <= align_up_u64 v (2 ^ k) < v + 2 ^ k ∧
     align_up_u64 v (2 ^ k) mod 2 ^ k = 0 ∧
     ∀ m, v <= m → m mod 2 ^ k = 0 → align_up_u64 v (2 ^ k) <= m) ∧
  (2 ^ 64 <= v + 2 ^ k - 1 → align_up_u64 v (2 ^ k) = 0).
Proof.
  intros [Hv0 Hv] Hk. pose proof (Z.pow_pos_nonneg 2 k ltac:(lia) ltac:(lia)).
  set (a := 2 ^ k) in *. split; intros Hfit.
  - unfold a. rewrite align_up_pow2 by done. fold a.
    pose proof (Z.div_mod (v + a - 1) a). pose proof (Z.mod_pos_bound (v + a - 1) a).
    split_and!; [nia|nia|by apply Z_mod_mult|].
    intros m Hm Hdiv. apply Z.mod_divide in Hdiv; [|lia]. destruct Hdiv as [q ->].
    apply Z.mul_le_mono_nonneg_r; [lia|]. apply Z.lt_succ_r, Z.div_lt_upper_bound; nia.
  - unfold align_up_u64, a. rewrite u64_pow2_pred by done.
    rewrite land_align_mask by (apply u64_range || done). fold a.
    assert (a <= 2 ^ 64) by (apply Z.pow_le_mono_r; lia).
    unfold u64. replace (v + a - 1) with (v + a - 1 - 2 ^ 64 + 1 * 2 ^ 64) by lia.
    rewrite Z.mod_add, Z.mod_small, Z.div_small by lia. lia.
Qed.

Lemma align_up_u64_exact_or_zero_witness :
  align_up_u64 0x1234 (2 ^ 12) mod 2 ^ 12 = 0 ∧ align_up_u64 (2 ^ 64 - 8) (2 ^ 4) = 0.
Proof.
  split.
  - apply (align_up_u64_exact_or_zero 0x1234 12); unfold is_u64; lia.
  - apply (align_up_u64_exact_or_zero (2 ^ 64 - 8) 4); unfold is_u64; lia.
Defined.

(** Two half-open ranges overlap exactly when they share an address. *)
Lemma ranges_overlap_spec a_start a_end b_start b_end :
  ranges_overlap a_start a_end b_start b_end = true ↔
  ∃ x, a_start <= x < a_end ∧ b_start <= x < b_end.
Proof.
  unfold ranges_overlap. rewrite max_u64_max, min_u64_min, Z.ltb_lt. split.
  - intros. exists (Z.max a_start b_start). lia.
  - intros [x ?]. lia.
Qed.
