(* ===== verification/Spinlock.v ===== *)
(** * Spinlocks and the interrupt flag ([src/kernel/spinlock.c])

    The lock word and the interrupt flag of one CPU, the operations as state
    transformers, and the interleaved execution of [spin_lock] and
    [spin_unlock] by any number of contending agents. *)

From S2P Require Import Prelude.

Definition CPU_RFLAGS_IF : Z := 0x200.

(** ** One CPU: the lock word [locked] and the RFLAGS register *)

Record cpu := MkCpu { locked : Z; rflags : Z }.

(** [xchgl]: the memory operand receives [value], the old content is the
    result. *)
Definition atomic_xchg_u32 (s : cpu) (value : Z) : Z * cpu :=
  (locked s, MkCpu value (rflags s)).

Definition spinlock_init (s : cpu) : cpu := MkCpu 0 (rflags s).

Definition spin_try_lock (s : cpu) : bool * cpu :=
  let '(old, s') := atomic_xchg_u32 s 1 in (old =? 0, s').

(** The two nested loops of [spin_lock]. One unit of fuel is one iteration of
    the inner read loop or one attempt; nothing else runs in between, so this is
    the execution on a single CPU. [None]: still spinning when the fuel is
    used up. *)
Fixpoint spin_lock (fuel : nat) (s : cpu) : option cpu :=
  match fuel with
  | O => None
  | S fuel' =>
      let '(got, s') := spin_try_lock s in
      if got then Some s' else spin_wait fuel' s'
  end
with spin_wait (fuel : nat) (s : cpu) : option cpu :=
  match fuel with
  | O => None
  | S fuel' => if locked s =? 0 then spin_lock fuel' s else spin_wait fuel' s
  end.

Definition spin_unlock (s : cpu) : cpu := MkCpu 0 (rflags s).

(** [pushfq; popq; cli]. *)
Definition irq_save (s : cpu) : Z * cpu :=
  (rflags s, MkCpu (locked s) (Z.ldiff (rflags s) CPU_RFLAGS_IF)).

Definition irq_restore (flags : Z) (s : cpu) : cpu :=
  if flags &? CPU_RFLAGS_IF
  then MkCpu (locked s) (Z.lor (rflags s) CPU_RFLAGS_IF)
  else MkCpu (locked s) (Z.ldiff (rflags s) CPU_RFLAGS_IF).

Definition spin_lock_irqsave (fuel : nat) (s : cpu) : option (Z * cpu) :=
  let '(flags, s1) := irq_save s in
  match spin_lock fuel s1 with Some s2 => Some (flags, s2) | None => None end.

Definition spin_unlock_irqrestore (flags : Z) (s : cpu) : cpu :=
  irq_restore flags (spin_unlock s).

(** Whether the CPU takes interrupts. *)
Definition irqs_on (s : cpu) : bool := rflags s &? CPU_RFLAGS_IF.

(** ** Contending agents

    Where an agent is in [spin_lock]/[spin_unlock]. The exchange of
    [spin_try_lock] is one atomic step; the reads of the inner loop are steps of
    their own. *)
Inductive pc := Outside | Trying | Spinning | Holding.

#[export] Instance pc_eq_dec : EqDecision pc.
Proof. solve_decision. Defined.

Record system := MkSystem { lock_word : Z; agents : gmap nat pc }.

Inductive step : system → system → Prop :=
| step_enter a l g :
    g !! a = Some Outside → step (MkSystem l g) (MkSystem l (<[a := Trying]> g))
| step_xchg a l g s' got :
    g !! a = Some Trying →
    spin_try_lock (MkCpu l 0) = (got, s') →
    step (MkSystem l g)
         (MkSystem (locked s') (<[a := if got then Holding else Spinning]> g))
| step_pause a l g :
    g !! a = Some Spinning → l ≠ 0 → step (MkSystem l g) (MkSystem l g)
| step_retry a l g :
    g !! a = Some Spinning → l = 0 →
    step (MkSystem l g) (MkSystem l (<[a := Trying]> g))
| step_unlock a l g :
    g !! a = Some Holding →
    step (MkSystem l g)
         (MkSystem (locked (spin_unlock (MkCpu l 0))) (<[a := Outside]> g)).

Definition initial (s : system) : Prop :=
  lock_word s = locked (spinlock_init (MkCpu (lock_word s) 0)) ∧
  ∀ a p, agents s !! a = Some p → p = Outside.

(** The invariant: the word is 0 or 1, it is 1 while an agent is inside, and at
    most one agent is inside. *)
Definition lock_inv (s : system) : Prop :=
  (lock_word s = 0 ∨ lock_word s = 1) ∧
  (∀ a, agents s !! a = Some Holding → lock_word s = 1) ∧
  (∀ a b, agents s !! a = Some Holding → agents s !! b = Some Holding → a = b).

Lemma initial_inv s : initial s → lock_inv s.
Proof.
  intros [Hl Ha]. unfold lock_inv. rewrite Hl. cbn. split_and!; [by left|..].
  - intros a H%Ha. done.
  - intros a b H%Ha. done.
Qed.

Ltac agent_cases :=
  repeat match goal with
  | H : <[?a := _]> ?g !! ?b = Some _ |- _ =>
      destruct (decide (a = b)) as [->|];
      [rewrite lookup_insert_eq in H | rewrite lookup_insert_ne in H by done]
  end; simplify_eq; eauto.

Lemma step_inv s s' : step s s' → lock_inv s → lock_inv s'.
Proof.
  unfold lock_inv. intros Hstep (Hw & Hh & Hu).
  destruct Hstep as [a l g Ha|a l g s' got Ha Ht|a l g Ha Hl|a l g Ha Hl|a l g Ha];
    cbn in *; try done.
  - split_and!; [done|intros b Hb; agent_cases|intros b c Hb Hc; agent_cases].
  - injection Ht as <- <-. cbn. split_and!; [by right|done|]. intros b c Hb Hc.
    destruct (Z.eqb_spec l 0) as [->|]; agent_cases; exfalso;
      match goal with H : g !! _ = Some Holding |- _ => by apply Hh in H end.
  - split_and!; [done|intros b Hb; agent_cases|intros b c Hb Hc; agent_cases].
  - split_and!; [by left| |intros b c Hb Hc; agent_cases].
    intros b Hb. agent_cases. exfalso. eauto.
Qed.

Lemma reachable_inv s s' : initial s → rtc step s s' → lock_inv s'.
Proof.
  intros Hi%initial_inv. induction 1 as [|? ? ? Hs _ IH]; [done|].
  apply IH. by eapply step_inv.
Qed.

Lemma ldiff_if_off r : (Z.ldiff r CPU_RFLAGS_IF &? CPU_RFLAGS_IF) = false.
Proof.
  apply negb_false_iff, Z.eqb_eq, Z.bits_inj'. intros i _.
  rewrite Z.land_spec, Z.ldiff_spec, Z.bits_0.
  destruct (Z.testbit r i), (Z.testbit CPU_RFLAGS_IF i); done.
Qed.

Lemma lor_if_on r : (Z.lor r CPU_RFLAGS_IF &? CPU_RFLAGS_IF) = true.
Proof.
  apply negb_true_iff, Z.eqb_neq. intros Heq.
  assert (Z.testbit (Z.land (Z.lor r CPU_RFLAGS_IF) CPU_RFLAGS_IF) 9 = true) as Hb.
  { rewrite Z.land_spec, Z.lor_spec. change (Z.testbit CPU_RFLAGS_IF 9) with true.
    by rewrite orb_true_r. }
  by rewrite Heq, Z.bits_0 in Hb.
Qed.

Lemma irqs_on_restore flags s :
  irqs_on (irq_restore flags s) = (flags &? CPU_RFLAGS_IF).
Proof.
  unfold irqs_on, irq_restore. destruct (flags &? CPU_RFLAGS_IF); cbn.
  - apply lor_if_on.
  - apply ldiff_if_off.
Qed.

(** A lock that is held stays held while its only CPU spins on it. *)
Lemma spin_stuck fuel s :
  locked s ≠ 0 →
  spin_lock fuel s = None ∧ (∀ s', locked s' = locked s ∨ locked s' = 1 → spin_wait fuel s' = None).
Proof.
  revert s. induction fuel as [|fuel IH]; intros s Hs; [done|]. split.
  - cbn. destruct (Z.eqb_spec (locked s) 0); [done|].
    apply (IH s); [done|]. by right.
  - intros s' Hs'. cbn. destruct (Z.eqb_spec (locked s') 0); [lia|].
    by apply (IH s).
Qed.

(** ** Properties *)

(** C30: mutual exclusion. Whatever the interleaving of the atomic exchanges, the
    reads of the wait loop and the unlocking stores of any number of agents, two
    agents are never inside the critical section together, and the lock word is
    1 whenever one is. *)
Theorem spinlock_mutual_exclusion s s' a b :
  initial s → rtc step s s' →
  agents s' !! a = Some Holding → agents s' !! b = Some Holding →
  a = b ∧ lock_word s' = 1.
Proof.
  intros Hi Hr Ha Hb. destruct (reachable_inv s s' Hi Hr) as (_ & Hh & Hu).
  split; [by apply Hu|by eapply Hh].
Qed.

Lemma spinlock_mutual_exclusion_witness :
  let s0 := MkSystem 0 {[0%nat := Outside; 1%nat := Outside]} in
  let s3 := MkSystem 1 {[0%nat := Holding; 1%nat := Spinning]} in
  rtc step s0 s3 ∧ lock_word s3 = 1.
Proof.
  cbn. assert (Hr : rtc step (MkSystem 0 {[0%nat := Outside; 1%nat := Outside]})
    (MkSystem 1 {[0%nat := Holding; 1%nat := Spinning]})).
  { eapply rtc_l; [apply (step_enter 0); reflexivity|].
    eapply rtc_l; [apply (step_enter 1); reflexivity|].
    eapply rtc_l; [eapply (step_xchg 0); reflexivity|].
    eapply rtc_l; [eapply (step_xchg 1); reflexivity|].
    match goal with |- rtc _ ?x ?y => replace x with y by reflexivity end.
    apply rtc_refl. }
  split; [exact Hr|].
  refine (proj2 (spinlock_mutual_exclusion _ _ 0%nat 0%nat _ Hr _ _)); [|reflexivity..].
  split; [reflexivity|]. intros a p. cbn.
  destruct (decide (a = 0%nat)) as [->|]; [rewrite lookup_insert_eq; congruence|].
  rewrite lookup_insert_ne by done.
  destruct (decide (a = 1%nat)) as [->|]; [rewrite lookup_singleton_eq; congruence|].
  rewrite lookup_singleton_ne by done. done.
Defined.

(** The critical-section bracket on one CPU. On a free lock
    [spin_lock_irqsave] returns at the first attempt with interrupts off and
    the lock taken, and [spin_unlock_irqrestore] with the saved flags gives back
    the lock and exactly the interrupt state of before; on a lock the CPU
    already holds it never returns, whatever the fuel. *)
Theorem irqsave_bracket fuel s :
  (locked s = 0 →
   ∃ flags s1, spin_lock_irqsave (S fuel) s = Some (flags, s1) ∧
     locked s1 = 1 ∧ irqs_on s1 = false ∧
     locked (spin_unlock_irqrestore flags s1) = 0 ∧
     irqs_on (spin_unlock_irqrestore flags s1) = irqs_on s) ∧
  (locked s ≠ 0 → spin_lock_irqsave fuel s = None).
Proof.
  split; intros Hs.
  - unfold spin_lock_irqsave. cbn. rewrite Hs. cbn. do 2 eexists. split; [done|].
    unfold spin_unlock_irqrestore. rewrite irqs_on_restore. cbn.
    split_and!; [done|apply ldiff_if_off| |done].
    unfold irq_restore. by case_if.
  - unfold spin_lock_irqsave. cbn.
    by rewrite (proj1 (spin_stuck fuel (MkCpu (locked s) _) Hs)).
Qed.

Lemma irqsave_bracket_witness :
  spin_lock_irqsave 3 (MkCpu 1 0x202) = None ∧
  ∃ flags s1, spin_lock_irqsave 1 (MkCpu 0 0x202) = Some (flags, s1) ∧ irqs_on s1 = false.
Proof.
  split; [apply (irqsave_bracket 3 (MkCpu 1 0x202)); discriminate|].
  destruct (proj1 (irqsave_bracket 0 (MkCpu 0 0x202)) eq_refl)
    as (flags & s1 & H & _ & Hirq & _).
  exists flags, s1. by split.
Defined.
