(* ===== verification/CString.v ===== *)
(** * C strings and the character routines the kernel repeats

    The kernel has no C library: [strlen], [streq], the bounded copies and the
    "first word of the arguments" routine are written out, with the same body
    and different names, in [vfs.c], [fd.c], [elf.c], [user_mode.c], [device.c],
    [command.c], [task.c], [workqueue.c], [timer.c], [initramfs.c] and
    [shell.c]. Each body is modelled once here and the components name their
    copy of it.

    A C string is the list of its bytes before the terminating NUL; a [char]
    buffer is the C string it holds; a pointer that may be null is an
    [option]. *)

From S2P Require Import Prelude.

Abbreviation cstr := (list Z).

(** A string literal of the C source. *)
Definition s2z (s : string) : cstr :=
  (λ a, Z.of_N (Ascii.N_of_ascii a)) <$> String.list_ascii_of_string s.
Arguments s2z _%_string_scope.

(** No byte of a C string is the terminator. *)
Definition cstr_wf (s : cstr) : Prop := Forall (λ c, 0 < c < 256) s.

Definition CH_NUL : Z := 0.
Definition CH_BS : Z := 8.
Definition CH_TAB : Z := 9.
Definition CH_LF : Z := 10.
Definition CH_CR : Z := 13.
Definition CH_SPACE : Z := 32.
Definition CH_SLASH : Z := 47.
Definition CH_DOT : Z := 46.

(** [while (s[len]) len++;] with a counter of the width of the copy. *)
Fixpoint c_strlen (s : cstr) : Z :=
  match s with [] => 0 | _ :: r => 1 + c_strlen r end.

(** Walk both strings while neither has ended; a mismatch is 0, and at the end
    both must have ended. *)
Fixpoint c_streq (a b : cstr) : bool :=
  match a, b with
  | x :: a', y :: b' => if negb (x =? y) then false else c_streq a' b'
  | [], [] => true
  | _, _ => false
  end.

(** [while (src[i] && i + 1 < dst_size) { dst[i] = src[i]; i++; }] *)
Fixpoint c_copy_limit (src : cstr) (i dst_size : Z) : cstr :=
  match src with
  | [] => []
  | c :: r => if i + 1 <? dst_size then c :: c_copy_limit r (i + 1) dst_size else []
  end.

Definition c_is_space (c : Z) : bool := (c =? CH_SPACE) || (c =? CH_TAB).

Fixpoint c_skip (p : Z → bool) (s : cstr) : cstr :=
  match s with
  | [] => []
  | c :: r => if p c then c_skip p r else s
  end.

(** The copying loop of [copy_first_arg]. *)
Fixpoint c_copy_word (args : cstr) (index out_size : Z) : cstr :=
  match args with
  | [] => []
  | c :: r =>
      if c_is_space c then []
      else if out_size <=? index + 1 then []
      else c :: c_copy_word r (index + 1) out_size
  end.

(** [copy_first_arg]: the return value and the string left in [out]. *)
Definition c_copy_first_arg (args : option cstr) (out_size : Z) : bool * cstr :=
  if out_size =? 0 then (false, [])
  else match args with
       | None => (false, [])
       | Some a =>
           match c_skip c_is_space a with
           | [] => (false, [])
           | w => let out := c_copy_word w 0 out_size in (0 <? Zlength out, out)
           end
       end.

(** [starts_with]. *)
Fixpoint c_starts_with (s prefix : cstr) {struct prefix} : bool :=
  match prefix with
  | [] => true
  | p :: prefix' =>
      match s with
      | c :: s' => if negb (c =? p) then false else c_starts_with s' prefix'
      | [] => false
      end
  end.

(** ** What they compute *)

Lemma c_strlen_length s : c_strlen s = Zlength s.
Proof. unfold Zlength. induction s as [|c s IH]; cbn [c_strlen length]; lia. Qed.

Lemma c_streq_eq a b : c_streq a b = true ↔ a = b.
Proof.
  revert b. induction a as [|x a IH]; intros [|y b]; cbn; try done.
  destruct (Z.eqb_spec x y) as [->|]; cbn; [rewrite IH|]; split; congruence.
Qed.

Lemma c_streq_decide a b : c_streq a b = bool_decide (a = b).
Proof.
  apply eq_true_iff_eq. by rewrite c_streq_eq, bool_decide_eq_true.
Qed.

Lemma c_copy_limit_take src i n :
  0 <= i → i < n → c_copy_limit src i n = take (Z.to_nat (n - 1 - i)) src.
Proof.
  revert i. induction src as [|c src IH]; intros i Hi Hn; [by rewrite take_nil|].
  cbn. case_if; btests.
  - rewrite IH by lia.
    replace (Z.to_nat (n - 1 - i)) with (S (Z.to_nat (n - 1 - (i + 1)))) by lia. done.
  - replace (Z.to_nat (n - 1 - i)) with 0%nat by lia. done.
Qed.

(** The bounded copy leaves room for the terminator and copies as much as
    fits. *)
Lemma c_copy_limit_bound src n :
  0 < n → Zlength (c_copy_limit src 0 n) <= n - 1 ∧
  (Zlength src < n → c_copy_limit src 0 n = src).
Proof.
  intros Hn. rewrite c_copy_limit_take by lia. unfold Zlength.
  rewrite length_take. split; [lia|]. intros. apply take_ge. lia.
Qed.

Lemma c_skip_app p s : ∃ pre, s = pre ++ c_skip p s ∧ Forall (λ c, p c = true) pre.
Proof.
  induction s as [|c s (pre & Hs & Hpre)]; [by exists []|]. cbn.
  destruct (p c) eqn:Hp; [|by exists []].
  exists (c :: pre). split; [by rewrite <- app_comm_cons, <- Hs|by constructor].
Qed.

Lemma c_skip_head p s c r : c_skip p s = c :: r → p c = false.
Proof.
  induction s as [|x s IH]; [done|]. cbn. destruct (p x) eqn:Hp; [done|]. by intros [= <- <-].
Qed.

Lemma c_copy_word_spec w i n :
  0 <= i → i < n → ∃ rest,
    w = c_copy_word w i n ++ rest ∧
    Forall (λ c, c_is_space c = false) (c_copy_word w i n) ∧
    Zlength (c_copy_word w i n) <= n - 1 - i ∧
    (Zlength (c_copy_word w i n) < n - 1 - i →
     match rest with [] => True | c :: _ => c_is_space c = true end).
Proof.
  revert i. induction w as [|c w IH]; intros i Hi Hn; cbn.
  - exists []. unfold Zlength. cbn. split_and!; [done|done|lia|done].
  - destruct (c_is_space c) eqn:Hc.
    { exists (c :: w). unfold Zlength. cbn. split_and!; [done|done|lia|done]. }
    destruct (Z.leb_spec n (i + 1)).
    { exists (c :: w). unfold Zlength. cbn. split_and!; [done|done|lia|lia]. }
    destruct (IH (i + 1) ltac:(lia) ltac:(lia)) as (rest & Hw & Hf & Hl & Hr).
    exists rest. unfold Zlength in *. cbn [length]. split_and!.
    + cbn. by rewrite <- Hw.
    + by constructor.
    + lia.
    + intros. apply Hr. lia.
Qed.

Lemma c_starts_with_prefix s p : c_starts_with s p = true ↔ p `prefix_of` s.
Proof.
  revert s. induction p as [|x p IH]; intros s.
  - split; [intros _; apply prefix_nil|done].
  - destruct s as [|c s]; cbn.
    + split; [done|]. intros [k [=]].
    + destruct (Z.eqb_spec c x) as [->|]; cbn.
      * rewrite IH. split; [apply prefix_cons|apply prefix_cons_inv_2].
      * split; [done|]. intros ?%prefix_cons_inv_1. congruence.
Qed.

#[export] Hint Rewrite c_strlen_length c_streq_eq c_starts_with_prefix : kernel_len.
