(* ===== verification/Bytes.v ===== *)
(** * Byte-addressed data

    The structures the kernel reads from outside (the multiboot information,
    an ELF image, a tar archive) are packed little-endian records in memory. A
    memory is a function from addresses to bytes; a field is read with the
    width the C type gives it. *)

From S2P Require Import Prelude.

Definition mem := Z → Z.

(** Every byte of the memory is a byte. *)
Definition mem_ok (m : mem) : Prop := ∀ a, is_u8 (m a).

(** The [n]-byte little-endian number at [a]. *)
Fixpoint rd_le (n : nat) (m : mem) (a : Z) : Z :=
  match n with
  | O => 0
  | S n' => m a + 256 * rd_le n' m (a + 1)
  end.

Definition rd8 (m : mem) (a : Z) : Z := m a.
Definition rd16 : mem → Z → Z := rd_le 2.
Definition rd32 : mem → Z → Z := rd_le 4.
Definition rd64 : mem → Z → Z := rd_le 8.

(** The bytes of an [n]-byte number, low byte first. *)
Fixpoint le_list (n : nat) (x : Z) : list Z :=
  match n with
  | O => []
  | S n' => x mod 256 :: le_list n' (x / 256)
  end.

(** A list of bytes placed at [base]; 0 elsewhere. *)
Definition mem_of (base : Z) (l : list Z) : mem :=
  λ a, if (base <=? a) && (a <? base + Zlength l) then arr_get l (a - base) else 0.

Lemma rd_le_range n m a : mem_ok m → 0 <= rd_le n m a < 256 ^ Z.of_nat n.
Proof.
  intros Hm. revert a. induction n as [|n IH]; intros a; [done|].
  cbn [rd_le]. specialize (IH (a + 1)). pose proof (Hm a) as Ha. unfold is_u8 in Ha.
  rewrite Nat2Z.inj_succ, Z.pow_succ_r by lia. lia.
Qed.

Lemma rd32_range m a : mem_ok m → is_u32 (rd32 m a).
Proof. intros. by apply (rd_le_range 4). Qed.

Lemma rd64_range m a : mem_ok m → is_u64 (rd64 m a).
Proof. intros. by apply (rd_le_range 8). Qed.

Lemma rd16_range m a : mem_ok m → 0 <= rd16 m a < 2 ^ 16.
Proof. intros. by apply (rd_le_range 2). Qed.

Lemma le_list_length n x : length (le_list n x) = n.
Proof. revert x. induction n; intros x; cbn; [done|]. by f_equal. Qed.

Lemma le_list_u8 n x : Forall is_u8 (le_list n x).
Proof.
  revert x. induction n as [|n IH]; intros x; cbn [le_list]; constructor; [|done].
  unfold is_u8. apply Z.mod_pos_bound. lia.
Qed.

(** Reading agrees on memories that agree on the field. *)
Lemma rd_le_ext n m1 m2 a b :
  (∀ i, 0 <= i < Z.of_nat n → m1 (a + i) = m2 (b + i)) → rd_le n m1 a = rd_le n m2 b.
Proof.
  revert a b. induction n as [|n IH]; intros a b H; [done|]. cbn [rd_le].
  pose proof (H 0 ltac:(lia)) as H0. rewrite !Z.add_0_r in H0. rewrite H0. do 2 f_equal.
  apply IH. intros i Hi. rewrite <- !Z.add_assoc. apply H. lia.
Qed.

(** Reading back what [le_list] lays out. *)
Lemma rd_le_le_list n m a x :
  (∀ i, (i < n)%nat → m (a + Z.of_nat i) = le_list n x !!! i) →
  rd_le n m a = x mod 256 ^ Z.of_nat n.
Proof.
  revert a x. induction n as [|n IH]; intros a x H; [by rewrite Z.mod_1_r|].
  cbn [rd_le]. rewrite (IH (a + 1) (x / 256)).
  - pose proof (H 0%nat ltac:(lia)) as H0. rewrite Z.add_0_r in H0. rewrite H0. cbn.
    rewrite Nat2Z.inj_succ, Z.pow_succ_r by lia.
    rewrite Z.rem_mul_r by (try apply Z.pow_pos_nonneg; lia). done.
  - intros i Hi. pose proof (H (S i) ltac:(lia)) as Hi'.
    etransitivity; [|exact Hi']. f_equal. lia.
Qed.

Lemma mem_of_ok base l : Forall is_u8 l → mem_ok (mem_of base l).
Proof.
  intros Hl a. unfold mem_of. case_ifs; [|by unfold is_u8].
  rewrite Forall_forall in Hl. apply Hl, arr_get_elem. lia.
Qed.

(** The check of a concrete list of bytes. *)
Definition u8_list (l : list Z) : bool := forallb (λ x, (0 <=? x) && (x <? 256)) l.

Lemma u8_list_ok l : u8_list l = true → Forall is_u8 l.
Proof.
  unfold u8_list. rewrite forallb_forall, Forall_forall. intros H x Hx%list_elem_of_In.
  specialize (H x Hx). cbn in H. btests. unfold is_u8. lia.
Qed.

#[export] Hint Resolve rd32_range rd64_range rd16_range mem_of_ok le_list_u8 : kernel.
