(* ===== verification/Print.v ===== *)
(** * Formatted output ([src/kernel/print.c]): the characters

    What the code prints is a list of glyphs: a character with the colour a
    [print_color] gives it, or none for a plain [print]. The sinks the glyphs
    go to (console, serial port, kernel log) are in [Output]. *)

From S2P Require Import Prelude CString.

(** A character, and the colour of the enclosing [print_color]. *)
Definition glyph : Type := option Z * Z.
Abbreviation output := (list glyph).

Definition print_char (c : Z) : output := [(None, c)].
Definition print (s : cstr) : output := (λ c, (None, c)) <$> s.
Definition print_color (s : cstr) (color : Z) : output := (λ c, (Some color, c)) <$> s.

(** The text alone. *)
Definition text (o : output) : cstr := snd <$> o.

(** A string literal. *)
Definition prints (s : string) : output := print (s2z s).
Definition prints_color (s : string) (color : Z) : output := print_color (s2z s) color.
Arguments prints _%_string_scope.
Arguments prints_color _%_string_scope _.

(** [print("\n")] *)
Definition newline : output := print [CH_LF].

Definition VGA_COLOR (fg bg : Z) : Z := u8 (Z.lor (Z.shiftl bg 4) fg).
Definition COLOR_WHITE_ON_BLACK : Z := VGA_COLOR 15 0.
Definition COLOR_GREEN_ON_BLACK : Z := VGA_COLOR 10 0.
Definition COLOR_RED_ON_BLACK : Z := VGA_COLOR 12 0.
Definition COLOR_YELLOW_ON_BLACK : Z := VGA_COLOR 14 0.
Definition COLOR_CYAN_ON_BLACK : Z := VGA_COLOR 11 0.

(** [hex[d]] of the table of sixteen characters. *)
Definition hex_digit (d : Z) : Z := arr_get (s2z "0123456789ABCDEF") d.

(** [for (shift = top; shift >= 0; shift -= 4)], with [n] rounds to go. *)
Fixpoint hex_loop (value : Z) (n : nat) : cstr :=
  match n with
  | O => []
  | S n' => hex_digit (Z.land (Z.shiftr value (4 * Z.of_nat n')) 0xF) :: hex_loop value n'
  end.

Definition print_hex32 (value : Z) : output := prints "0x" ++ print (hex_loop value 8).
Definition print_hex64 (value : Z) : output := prints "0x" ++ print (hex_loop value 16).

(** The first loop of [print_dec64] fills the buffer with the digits, low one
    first; [None]: the loop did not end within [fuel] rounds. *)
Fixpoint dec_loop (fuel : nat) (value : Z) : option (list Z) :=
  match fuel with
  | O => None
  | S fuel' =>
      if 0 <? value then
        match dec_loop fuel' (value / 10) with
        | Some buffer => Some (48 + value mod 10 :: buffer)
        | None => None
        end
      else Some []
  end.

(** 21 rounds: 20 digits and the final test. The second loop prints the buffer
    backwards. *)
Definition dec_buffer (value : Z) : list Z := default [] (dec_loop 21 value).

Definition print_dec64 (value : Z) : output :=
  if value =? 0 then print_char 48
  else print (rev (dec_buffer value)).

(** Labelled lines, as the diagnostics of the components print them. *)
Definition print_field_hex (label : string) (v : Z) : output :=
  prints label ++ print_hex64 v ++ newline.
Definition print_field_dec (label : string) (v : Z) : output :=
  prints label ++ print_dec64 v ++ newline.
Arguments print_field_hex _%_string_scope _.
Arguments print_field_dec _%_string_scope _.

Definition color_line (s : string) (color : Z) : output :=
  prints_color s color ++ print_color [CH_LF] color.
Arguments color_line _%_string_scope _.

(** ** Reading numbers back *)

Fixpoint parse_base (base : Z) (digit : Z → option Z) (acc : Z) (s : cstr) : option Z :=
  match s with
  | [] => Some acc
  | c :: r => match digit c with
              | Some d => parse_base base digit (acc * base + d) r
              | None => None
              end
  end.

Definition dec_value (c : Z) : option Z :=
  if (48 <=? c) && (c <=? 57) then Some (c - 48) else None.

Definition hex_value (c : Z) : option Z :=
  if (48 <=? c) && (c <=? 57) then Some (c - 48)
  else if (65 <=? c) && (c <=? 70) then Some (c - 55) else None.

(** ** Lemmas *)

Lemma text_app a b : text (a ++ b) = text a ++ text b.
Proof. apply fmap_app. Qed.

Lemma text_print s : text (print s) = s.
Proof. unfold text, print. rewrite <- list_fmap_compose. apply list_fmap_id. Qed.

Lemma text_print_color s c : text (print_color s c) = s.
Proof. unfold text, print_color. rewrite <- list_fmap_compose. apply list_fmap_id. Qed.

Lemma parse_base_app base digit acc a b :
  parse_base base digit acc (a ++ b) =
  match parse_base base digit acc a with Some v => parse_base base digit v b | None => None end.
Proof.
  revert acc. induction a as [|c a IH]; intros acc; [done|]. cbn.
  destruct (digit c); [apply IH|done].
Qed.

Lemma dec_loop_enough n v :
  0 <= v < 10 ^ Z.of_nat n → ∃ b, dec_loop (S n) v = Some b ∧ (length b <= n)%nat ∧
  parse_base 10 dec_value 0 (rev b) = Some v ∧
  (0 < v → ∃ d, last b = Some d ∧ d ≠ 48).
Proof.
  revert v. induction n as [|n IH]; intros v Hv.
  - assert (v = 0) as -> by (cbn in Hv; lia). exists []. split_and!; [done..|lia].
  - cbn [dec_loop]. destruct (Z.ltb_spec 0 v).
    + rewrite Nat2Z.inj_succ, Z.pow_succ_r in Hv by lia.
      destruct (IH (v / 10)) as (b & Hb & Hl & Hp & Hlast); [split; [zlia|]|].
      { apply Z.div_lt_upper_bound; lia. }
      cbn [dec_loop] in Hb. rewrite Hb. eexists. split_and!; [done|cbn; lia| |].
      * cbn [rev]. rewrite parse_base_app, Hp. cbn. unfold dec_value.
        rewrite (proj2 (Z.leb_le _ _)), (proj2 (Z.leb_le _ _)) by zlia. cbn. f_equal. zlia.
      * intros _. destruct (Z_lt_le_dec 0 (v / 10)) as [Hd|Hd].
        -- destruct (Hlast Hd) as (d & Hd' & ?). exists d. split; [|done].
           destruct b; [done|]. done.
        -- assert (v / 10 = 0) by zlia. rewrite H0 in *.
           destruct n; cbn in Hb; injection Hb as <-; (eexists; split; [done|zlia]).
    + assert (v = 0) as -> by lia. exists []. split_and!; [done|cbn; lia|done|lia].
Qed.

Lemma hex_value_digit d : 0 <= d < 16 → hex_value (hex_digit d) = Some d.
Proof.
  intros. assert (Hd : d ∈ seqZ 0 16) by (apply elem_of_seqZ; lia).
  vm_compute in Hd. repeat (apply elem_of_cons in Hd as [->|Hd]; [done|]).
  by apply not_elem_of_nil in Hd.
Qed.

Lemma hex_loop_parse v n acc :
  0 <= v → parse_base 16 hex_value acc (hex_loop v n) =
  Some (acc * 16 ^ Z.of_nat n + v mod 16 ^ Z.of_nat n).
Proof.
  intros Hv. revert acc. induction n as [|n IH]; intros acc.
  - cbn. rewrite Z.mod_1_r. f_equal. lia.
  - cbn [hex_loop parse_base]. change 0xF with (Z.ones 4).
    rewrite Z.land_ones, Z.shiftr_div_pow2 by lia.
    rewrite hex_value_digit by (apply Z.mod_pos_bound; lia). rewrite IH. f_equal.
    rewrite Nat2Z.inj_succ, Z.pow_succ_r by lia.
    rewrite (Z.mul_comm 16 (16 ^ Z.of_nat n)), Z.rem_mul_r
      by (try apply Z.pow_pos_nonneg; lia).
    rewrite Z.pow_mul_r by lia. change (2 ^ 4) with 16. lia.
Qed.

Lemma hex_loop_length v n : length (hex_loop v n) = n.
Proof. induction n; cbn; [done|]. by f_equal. Qed.

(** ** Properties *)

(** The decimal printer terminates, writes at most 20 characters (its buffer
    holds 21), and what it writes reads back as the value, without a leading
    zero. *)
Theorem print_dec64_roundtrip v :
  is_u64 v →
  parse_base 10 dec_value 0 (text (print_dec64 v)) = Some v ∧
  (1 <= length (text (print_dec64 v)) <= 20)%nat ∧
  (head (text (print_dec64 v)) = Some 48 → v = 0).
Proof.
  intros [Hv0 Hv]. unfold print_dec64. destruct (Z.eqb_spec v 0) as [->|Hne].
  { cbn. split_and!; [done|lia|lia|done]. }
  destruct (dec_loop_enough 20 v) as (b & Hb & Hl & Hp & Hlast); [lia|].
  unfold dec_buffer. rewrite Hb, text_print. change (default [] (Some b)) with b. rewrite Hp.
  destruct (Hlast ltac:(lia)) as (d & Hd & Hd48).
  rewrite length_rev. destruct b as [|x b _] using rev_ind; [done|].
  rewrite last_snoc in Hd. injection Hd as ->. rewrite rev_app_distr. cbn.
  rewrite length_app in *. cbn in *. split_and!; [done|lia|lia|]. intros [= Hx]. congruence.
Qed.

Lemma print_dec64_roundtrip_witness :
  text (print_dec64 18446744073709551615) = s2z "18446744073709551615" ∧
  parse_base 10 dec_value 0 (text (print_dec64 18446744073709551615)) =
    Some 18446744073709551615.
Proof.
  split; [reflexivity|]. apply print_dec64_roundtrip. unfold is_u64. lia.
Defined.

(** The hexadecimal printers write a fixed number of digits that read back as
    the value. *)
Theorem print_hex_roundtrip v :
  (is_u64 v →
     ∃ ds, text (print_hex64 v) = s2z "0x" ++ ds ∧ length ds = 16%nat ∧
           parse_base 16 hex_value 0 ds = Some v) ∧
  (is_u32 v →
     ∃ ds, text (print_hex32 v) = s2z "0x" ++ ds ∧ length ds = 8%nat ∧
           parse_base 16 hex_value 0 ds = Some v).
Proof.
  split; intros [Hv0 Hv].
  - exists (hex_loop v 16). unfold print_hex64, prints.
    rewrite text_app, !text_print, hex_loop_length, hex_loop_parse by done.
    split_and!; [done..|]. rewrite Z.mod_small by lia. done.
  - exists (hex_loop v 8). unfold print_hex32, prints.
    rewrite text_app, !text_print, hex_loop_length, hex_loop_parse by done.
    split_and!; [done..|]. rewrite Z.mod_small by lia. done.
Qed.

Lemma print_hex_roundtrip_witness :
  ∃ ds, text (print_hex32 0xDEADBEEF) = s2z "0x" ++ ds ∧ length ds = 8%nat ∧
        parse_base 16 hex_value 0 ds = Some 0xDEADBEEF.
Proof. apply print_hex_roundtrip. unfold is_u32. lia. Defined.
