(* ===== verification/Klog.v ===== *)
(** * The kernel log ([src/kernel/klog.c])

    A ring of 8192 characters. The operations are atomic in the model: the code
    brackets each with [spin_lock_irqsave]/[spin_unlock_irqrestore] on
    [klog_lock] (see [Spinlock]) and nothing it calls under the lock takes it
    again. *)

From S2P Require Import Prelude.

Definition KLOG_BUFFER_SIZE : Z := 8192.

(** The same number as the length of a list. *)
Definition KLOG_N : nat := Z.to_nat KLOG_BUFFER_SIZE.

Record klog := MkKlog {
  klog_buffer : list Z;
  klog_head : Z;
  klog_count : Z;
  klog_initialized : bool
}.

(** The statics before [klog_init]: a zeroed buffer, not initialised. *)
Definition klog_boot : klog := MkKlog (replicate KLOG_N 0) 0 0 false.

Definition klog_next_index (index : Z) : Z := u32 (index + 1) mod KLOG_BUFFER_SIZE.

Definition klog_init (k : klog) : klog := MkKlog (klog_buffer k) 0 0 true.

Definition klog_write_char (c : Z) (k : klog) : klog :=
  if negb (klog_initialized k) then k
  else
    let buffer := arr_set (klog_buffer k) (klog_head k) c in
    let head := klog_next_index (klog_head k) in
    let count := if klog_count k <? KLOG_BUFFER_SIZE then u32 (klog_count k + 1)
                 else klog_count k in
    MkKlog buffer head count true.

Definition klog_clear (k : klog) : klog :=
  MkKlog (klog_buffer k) 0 0 (klog_initialized k).

Definition klog_size (k : klog) : Z := klog_count k.

Definition klog_capacity : Z := KLOG_BUFFER_SIZE.

(** The loop of [klog_dump]: the characters handed to [console_put_char] and
    [serial_write_char], in order. *)
Fixpoint klog_dump_from (k : klog) (index : Z) (n : nat) : list Z :=
  match n with
  | O => []
  | S n' => arr_get (klog_buffer k) index :: klog_dump_from k (klog_next_index index) n'
  end.

Definition klog_dump (k : klog) : list Z :=
  if negb (klog_initialized k) then []
  else
    let start := if klog_count k =? KLOG_BUFFER_SIZE then klog_head k else 0 in
    klog_dump_from k start (Z.to_nat (klog_count k)).

(** ** Specification: the log is the list of everything written since the last
    clear, seen through a window of the last [KLOG_BUFFER_SIZE] characters *)

Inductive klog_op := KWrite (c : Z) | KClear.

Definition klog_run (o : klog_op) (k : klog) : klog :=
  match o with KWrite c => klog_write_char c k | KClear => klog_clear k end.

Definition klog_spec (o : klog_op) (h : list Z) : list Z :=
  match o with KWrite c => h ++ [c] | KClear => [] end.


(** The representation of the history [h]. *)
Definition klog_rep (k : klog) (h : list Z) : Prop :=
  klog_initialized k = true ∧
  length (klog_buffer k) = KLOG_N ∧
  klog_head k = Zlength h mod KLOG_BUFFER_SIZE ∧
  klog_count k = Z.min (Zlength h) KLOG_BUFFER_SIZE ∧
  ring_read (klog_buffer k)
    (if klog_count k =? KLOG_BUFFER_SIZE then klog_head k else 0)
    (Z.to_nat (klog_count k)) = last_n KLOG_N h.

Lemma KLOG_N_Z : Z.of_nat KLOG_N = KLOG_BUFFER_SIZE.
Proof. done. Qed.

#[local] Opaque KLOG_N.

Lemma klog_next_index_mod i :
  0 <= i < KLOG_BUFFER_SIZE → klog_next_index i = (i + 1) mod KLOG_BUFFER_SIZE.
Proof.
  unfold klog_next_index, KLOG_BUFFER_SIZE. intros.
  rewrite u32_small by (unfold is_u32; lia). done.
Qed.

Lemma klog_dump_from_ring k i n :
  length (klog_buffer k) = KLOG_N → 0 <= i < KLOG_BUFFER_SIZE →
  klog_dump_from k i n = ring_read (klog_buffer k) i n.
Proof.
  intros Hlen. assert (HZ : Zlength (klog_buffer k) = KLOG_BUFFER_SIZE)
    by (unfold Zlength; by rewrite Hlen, KLOG_N_Z).
  revert i. induction n as [|n IH]; intros i Hi; [done|].
  rewrite ring_read_pop by (by rewrite HZ). cbn [klog_dump_from]. f_equal.
  rewrite HZ, klog_next_index_mod by done. apply IH.
  by apply Z.mod_pos_bound.
Qed.

Lemma klog_rep_init k :
  length (klog_buffer k) = KLOG_N → klog_rep (klog_init k) [].
Proof. intros. unfold klog_rep. by split_and!. Qed.

Lemma klog_rep_clear k h : klog_rep k h → klog_rep (klog_clear k) [].
Proof. intros (? & ? & _). unfold klog_rep. by split_and!. Qed.

(** One write, on a ring that is not full and on a full one. *)
Lemma klog_rep_write_room k h c :
  klog_rep k h → Zlength h < KLOG_BUFFER_SIZE →
  klog_rep (klog_write_char c k) (h ++ [c]).
Proof.
  intros (Hi & Hlen & Hh & Hc & Hr) Hroom. pose proof KLOG_N_Z as HN.
  unfold klog_write_char. rewrite Hi. cbn [negb].
  unfold klog_rep, KLOG_BUFFER_SIZE, Zlength in *. cbn [klog_initialized klog_buffer klog_head klog_count].
  rewrite length_app, arr_set_length. cbn [length].
  rewrite (Z.mod_small (Z.of_nat (length h))) in Hh by lia.
  rewrite Z.min_l in Hc by lia. rewrite Hc, Hh in *.
  rewrite (proj2 (Z.ltb_lt _ _)) by lia.
  rewrite u32_small by (unfold is_u32; lia).
  rewrite klog_next_index_mod by (unfold KLOG_BUFFER_SIZE; lia). unfold KLOG_BUFFER_SIZE.
  rewrite (proj2 (Z.eqb_neq (Z.of_nat (length h)) 8192)) in Hr by lia.
  split_and!; [done|done|f_equal; lia|lia|].
  rewrite last_n_snoc, (proj2 (Nat.ltb_lt _ _)) by lia.
  replace (if Z.of_nat (length h) + 1 =? 8192 then (Z.of_nat (length h) + 1) mod 8192 else 0)
    with 0 by (destruct (Z.eqb_spec (Z.of_nat (length h) + 1) 8192) as [->|]; done).
  replace (Z.to_nat (Z.of_nat (length h) + 1)) with (S (length h)) by lia.
  replace (Z.of_nat (length h)) with (ring_idx (klog_buffer k) 0 (length h)) at 1
    by (unfold ring_idx, Zlength; rewrite Z.mod_small; lia).
  rewrite ring_read_push by lia. rewrite Nat2Z.id in Hr. rewrite Hr.
  unfold last_n. by replace (length h - KLOG_N)%nat with 0%nat by lia.
Qed.

Lemma klog_rep_write_full k h c :
  klog_rep k h → KLOG_BUFFER_SIZE <= Zlength h →
  klog_rep (klog_write_char c k) (h ++ [c]).
Proof.
  intros (Hi & Hlen & Hh & Hc & Hr) Hfull. pose proof KLOG_N_Z as HN.
  assert (Hhr : 0 <= klog_head k < KLOG_BUFFER_SIZE)
    by (rewrite Hh; by apply Z.mod_pos_bound).
  unfold klog_write_char. rewrite Hi. cbn [negb].
  unfold klog_rep, Zlength in *. cbn [klog_initialized klog_buffer klog_head klog_count].
  rewrite length_app, arr_set_length. cbn [length].
  rewrite Z.min_r in Hc by lia. rewrite Hc in *. rewrite Z.ltb_irrefl, Z.eqb_refl in *.
  rewrite klog_next_index_mod by done.
  split_and!; [done|done| |lia|].
  { rewrite Hh, Z.add_mod_idemp_l by done. f_equal. lia. }
  rewrite last_n_snoc, (proj2 (Nat.ltb_ge _ _)), (proj2 (Nat.eqb_neq _ _)) by lia.
  assert (HZ : Z.to_nat KLOG_BUFFER_SIZE = length (klog_buffer k)) by lia.
  rewrite HZ in *. rewrite <- Hr.
  replace KLOG_BUFFER_SIZE with (Zlength (klog_buffer k)) by (unfold Zlength; lia).
  apply ring_read_overwrite. unfold Zlength. lia.
Qed.

Lemma klog_rep_write k h c :
  klog_rep k h → klog_rep (klog_write_char c k) (h ++ [c]).
Proof.
  intros. destruct (Z_lt_le_dec (Zlength h) KLOG_BUFFER_SIZE).
  - by apply klog_rep_write_room.
  - by apply klog_rep_write_full.
Qed.

Lemma klog_rep_run o k h : klog_rep k h → klog_rep (klog_run o k) (klog_spec o h).
Proof. destruct o; [apply klog_rep_write|apply klog_rep_clear]. Qed.

Lemma klog_rep_runs os k h :
  klog_rep k h → klog_rep (foldl (flip klog_run) k os) (foldl (flip klog_spec) h os).
Proof.
  revert k h. induction os as [|o os IH]; intros k h Hrep; [done|].
  cbn. apply IH. by apply klog_rep_run.
Qed.

Lemma klog_dump_rep k h : klog_rep k h → klog_dump k = last_n KLOG_N h.
Proof.
  intros (Hi & Hlen & Hh & Hc & Hr). unfold klog_dump. rewrite Hi. cbn [negb].
  rewrite klog_dump_from_ring; [done|done|].
  case_ifs; [rewrite Hh; by apply Z.mod_pos_bound|done].
Qed.

(** ** Properties *)

(** For every sequence of log writes and clears after [klog_init], a dump emits
    exactly the last 8192 characters written since the last clear, oldest
    first, and [klog_size] is their number: the ring never loses, duplicates or
    reorders a character inside its window. *)
Theorem klog_dump_is_last_window os :
  let k := foldl (flip klog_run) (klog_init klog_boot) os in
  let h := foldl (flip klog_spec) [] os in
  klog_dump k = last_n KLOG_N h ∧ klog_size k = Z.min (Zlength h) klog_capacity.
Proof.
  cbv zeta. assert (Hrep : klog_rep (klog_init klog_boot) []) by by apply klog_rep_init.
  apply (klog_rep_runs os) in Hrep. split; [by apply klog_dump_rep|].
  by destruct Hrep as (_ & _ & _ & Hc & _).
Qed.

(** Before [klog_init] (early boot output) the log stays empty. *)
Lemma klog_uninitialised c k :
  klog_initialized k = false → klog_write_char c k = k ∧ klog_dump k = [].
Proof. unfold klog_write_char, klog_dump. by intros ->. Qed.
