(* ===== verification/Workqueue.v ===== *)
(** * Deferred work ([src/kernel/workqueue.c])

    A ring of 64 work items between interrupt-side producers and the main loop.
    A work function is its address and its argument; what running one does to
    the queue is the list of items it schedules in turn, a parameter of
    [workqueue_run_pending]. Each operation is atomic: the code holds
    [workqueue_lock] with interrupts off around it, and releases the lock while
    the work function runs. *)

From S2P Require Import Prelude.

Definition WORKQUEUE_SIZE : Z := 64.

Record work_item := MkWork { func : Z; arg : Z; seq_no : Z }.

#[export] Instance work_item_inhabited : Inhabited work_item := populate (MkWork 0 0 0).

Record workqueue := MkWq {
  work_items : list work_item;
  work_head : Z;
  work_tail : Z;
  work_count : Z;
  work_next_seq : Z;
  work_executed : Z;
  work_dropped : Z
}.

Definition next_index (index : Z) : Z := u32 (index + 1) mod WORKQUEUE_SIZE.

(** [workqueue_init] resets the counters; the item array keeps its content. *)
Definition workqueue_init (items : list work_item) : workqueue :=
  MkWq items 0 0 0 1 0 0.

Definition workqueue_schedule (f a : Z) (s : workqueue) : bool * workqueue :=
  if f =? 0 then (false, s)
  else if WORKQUEUE_SIZE <=? work_count s then
    (false, MkWq (work_items s) (work_head s) (work_tail s) (work_count s)
                 (work_next_seq s) (work_executed s) (u64 (work_dropped s + 1)))
  else
    (true, MkWq (arr_set (work_items s) (work_head s) (MkWork f a (work_next_seq s)))
                (next_index (work_head s)) (work_tail s) (u32 (work_count s + 1))
                (u64 (work_next_seq s + 1)) (work_executed s) (work_dropped s)).

Definition workqueue_pop (s : workqueue) : option work_item * workqueue :=
  if work_count s =? 0 then (None, s)
  else
    let out := arr_get (work_items s) (work_tail s) in
    (Some out,
     MkWq (arr_set (work_items s) (work_tail s) (MkWork 0 0 0))
          (work_head s) (next_index (work_tail s)) (u32 (work_count s - 1))
          (work_next_seq s) (work_executed s) (work_dropped s)).

Definition count_executed (s : workqueue) : workqueue :=
  MkWq (work_items s) (work_head s) (work_tail s) (work_count s) (work_next_seq s)
       (u64 (work_executed s + 1)) (work_dropped s).

Section Run.
(** What the work function [f] called with [a] schedules while it runs. *)
Variable spawn : Z → Z → list (Z * Z).

(** The call [item.func(item.arg)]. *)
Definition call_work (it : work_item) (s : workqueue) : workqueue :=
  foldl (λ s '(f, a), (workqueue_schedule f a s).2) s (spawn (func it) (arg it)).

(** The loop of [workqueue_run_pending], [n] iterations left; the items run. *)
Fixpoint run_loop (n : nat) (s : workqueue) : list work_item * workqueue :=
  match n with
  | O => ([], s)
  | S n' =>
      match workqueue_pop s with
      | (None, s') => ([], s')
      | (Some it, s') =>
          let '(ran, s'') := run_loop n' (count_executed (call_work it s')) in
          (it :: ran, s'')
      end
  end.

Definition workqueue_run_pending (max_items : Z) (s : workqueue) : list work_item * workqueue :=
  let max_items :=
    if (max_items =? 0) || (WORKQUEUE_SIZE <? max_items) then WORKQUEUE_SIZE else max_items in
  run_loop (Z.to_nat max_items) s.
End Run.

Definition workqueue_pending_count (s : workqueue) : Z := work_count s.
Definition workqueue_executed_count (s : workqueue) : Z := work_executed s.
Definition workqueue_dropped_count (s : workqueue) : Z := work_dropped s.

(** ** Specification: a bounded FIFO with numbered entries *)

Module spec.

Record queue := MkQueue { pend : list work_item; nseq : Z; nexec : Z; ndrop : Z }.

Definition schedule (f a : Z) (q : queue) : bool * queue :=
  if f =? 0 then (false, q)
  else if (64 <=? length (pend q))%nat
  then (false, MkQueue (pend q) (nseq q) (nexec q) (u64 (ndrop q + 1)))
  else (true, MkQueue (pend q ++ [MkWork f a (nseq q)]) (u64 (nseq q + 1)) (nexec q) (ndrop q)).

Definition schedule_all (l : list (Z * Z)) (q : queue) : queue :=
  foldl (λ q '(f, a), (schedule f a q).2) q l.

Fixpoint run (spawn : Z → Z → list (Z * Z)) (n : nat) (q : queue) : list work_item * queue :=
  match n, pend q with
  | S n', it :: rest =>
      let q1 := schedule_all (spawn (func it) (arg it))
                  (MkQueue rest (nseq q) (nexec q) (ndrop q)) in
      let '(ran, q2) := run spawn n' (MkQueue (pend q1) (nseq q1) (u64 (nexec q1 + 1)) (ndrop q1)) in
      (it :: ran, q2)
  | _, _ => ([], q)
  end.

End spec.

(** The representation of the abstract queue [q]. *)
Definition wq_rep (s : workqueue) (q : spec.queue) : Prop :=
  length (work_items s) = 64%nat ∧
  0 <= work_tail s < WORKQUEUE_SIZE ∧
  0 <= work_count s <= WORKQUEUE_SIZE ∧
  work_head s = (work_tail s + work_count s) mod WORKQUEUE_SIZE ∧
  ring_read (work_items s) (work_tail s) (Z.to_nat (work_count s)) = spec.pend q ∧
  work_next_seq s = spec.nseq q ∧
  work_executed s = spec.nexec q ∧
  work_dropped s = spec.ndrop q.

Lemma next_index_mod i :
  0 <= i < WORKQUEUE_SIZE → next_index i = (i + 1) mod WORKQUEUE_SIZE.
Proof.
  unfold next_index, WORKQUEUE_SIZE. intros. by rewrite u32_small by (unfold is_u32; lia).
Qed.

Lemma wq_rep_count s q : wq_rep s q → work_count s = Zlength (spec.pend q).
Proof.
  intros (_ & _ & ? & _ & <- & _). unfold Zlength. rewrite ring_read_length. lia.
Qed.

Lemma wq_rep_init items :
  length items = 64%nat → wq_rep (workqueue_init items) (spec.MkQueue [] 1 0 0).
Proof. intros. unfold wq_rep. by split_and!. Qed.

Lemma wq_schedule_refines f a s q :
  wq_rep s q →
  (workqueue_schedule f a s).1 = (spec.schedule f a q).1 ∧
  wq_rep (workqueue_schedule f a s).2 (spec.schedule f a q).2.
Proof.
  intros Hrep. pose proof (wq_rep_count s q Hrep) as Hcount.
  destruct Hrep as (Hlen & Ht & Hc & Hh & Hr & Hs & He & Hd).
  unfold workqueue_schedule, spec.schedule, WORKQUEUE_SIZE, Zlength in *.
  destruct (f =? 0). { by unfold wq_rep. }
  destruct (Z.leb_spec 64 (work_count s)), (Nat.leb_spec 64 (length (spec.pend q)));
    try lia; cbn; (split; [done|]); unfold wq_rep; cbn.
  - by rewrite Hd.
  - rewrite arr_set_length, next_index_mod, u32_small, Hs
      by (unfold is_u32, WORKQUEUE_SIZE; zlia).
    unfold WORKQUEUE_SIZE. split_and!; try done; [zlia..| |].
    { rewrite Hh, Z.add_mod_idemp_l by lia. f_equal. lia. }
    replace (work_head s) with
      (ring_idx (work_items s) (work_tail s) (Z.to_nat (work_count s)))
      by (unfold ring_idx, Zlength; rewrite Hlen, Hh, Z2Nat.id by lia; done).
    replace (Z.to_nat (work_count s + 1)) with (S (Z.to_nat (work_count s))) by lia.
    rewrite ring_read_push by lia. by rewrite Hr.
Qed.

Lemma wq_pop_refines s q :
  wq_rep s q →
  match spec.pend q with
  | [] => workqueue_pop s = (None, s)
  | it :: rest =>
      ∃ s', workqueue_pop s = (Some it, s') ∧
        wq_rep s' (spec.MkQueue rest (spec.nseq q) (spec.nexec q) (spec.ndrop q))
  end.
Proof.
  intros Hrep. pose proof (wq_rep_count s q Hrep) as Hcount.
  destruct Hrep as (Hlen & Ht & Hc & Hh & Hr & Hs & He & Hd).
  unfold workqueue_pop, WORKQUEUE_SIZE, Zlength in *.
  destruct (spec.pend q) as [|it rest] eqn:Hp; cbn [length] in Hcount.
  { by rewrite (proj2 (Z.eqb_eq _ _)). }
  rewrite (proj2 (Z.eqb_neq _ _)) by lia.
  assert (HZ : Zlength (work_items s) = 64) by (unfold Zlength; lia).
  replace (Z.to_nat (work_count s)) with (S (length rest)) in Hr by lia.
  rewrite ring_read_pop in Hr by lia. injection Hr as Hit Hrest.
  eexists. split; [by rewrite Hit|]. unfold wq_rep. cbn.
  rewrite arr_set_length, next_index_mod, u32_small
    by (unfold is_u32, WORKQUEUE_SIZE; zlia).
  unfold WORKQUEUE_SIZE. split_and!; try done; [zlia..| |].
  { rewrite Hh, Z.add_mod_idemp_l by lia. f_equal. lia. }
  replace (Z.to_nat (work_count s - 1)) with (length rest) by lia.
  rewrite ring_read_set_outside; [by rewrite HZ in Hrest|lia|lia|].
  intros i Hi Heq.
  assert (ring_idx (work_items s) (work_tail s) (S i) =
          ring_idx (work_items s) (work_tail s) 0) as Hinj%ring_idx_inj; [|lia..].
  unfold ring_idx in *. rewrite HZ in *. rewrite Z.add_mod_idemp_l in Heq by lia.
  rewrite (Z.mod_small (_ + Z.of_nat 0)) by lia.
  etransitivity; [|etransitivity; [exact Heq|lia]]. f_equal. lia.
Qed.

Lemma wq_schedule_all_refines l s q :
  wq_rep s q →
  wq_rep (foldl (λ s '(f, a), (workqueue_schedule f a s).2) s l) (spec.schedule_all l q).
Proof.
  unfold spec.schedule_all. revert s q. induction l as [|[f a] l IH]; intros s q Hrep; [done|].
  cbn. apply IH. by apply wq_schedule_refines.
Qed.

Lemma wq_run_refines spawn n s q :
  wq_rep s q →
  (run_loop spawn n s).1 = (spec.run spawn n q).1 ∧
  wq_rep (run_loop spawn n s).2 (spec.run spawn n q).2.
Proof.
  revert s q. induction n as [|n IH]; intros s q Hrep; [done|].
  cbn. pose proof (wq_pop_refines s q Hrep) as Hpop.
  destruct (spec.pend q) as [|it rest].
  - by rewrite Hpop.
  - destruct Hpop as (s' & -> & Hrep').
    apply (wq_schedule_all_refines (spawn (func it) (arg it))) in Hrep'.
    fold (call_work spawn it s') in Hrep'.
    set (q1 := spec.schedule_all _ _) in *.
    assert (wq_rep (count_executed (call_work spawn it s'))
      (spec.MkQueue (spec.pend q1) (spec.nseq q1) (u64 (spec.nexec q1 + 1)) (spec.ndrop q1)))
      as Hr.
    { destruct Hrep' as (? & ? & ? & ? & ? & ? & He & ?).
      unfold wq_rep, count_executed. cbn. rewrite He. split_and!; done || lia. }
    destruct (IH _ _ Hr) as [H1 H2].
    destruct (run_loop _ _ _) as [ran s2], (spec.run _ _ _) as [ran' q2]. cbn in *.
    split; [congruence|done].
Qed.

(** ** Histories: every sequence of producer and consumer calls *)

Inductive wq_op := Schedule (f a : Z) | RunPending (max_items : Z).

(** The state after an operation, and the items it ran. *)
Definition wq_do (spawn : Z → Z → list (Z * Z)) (o : wq_op) (s : workqueue)
    : list work_item * workqueue :=
  match o with
  | Schedule f a => ([], (workqueue_schedule f a s).2)
  | RunPending m => workqueue_run_pending spawn m s
  end.

Fixpoint wq_history (spawn : Z → Z → list (Z * Z)) (os : list wq_op) (s : workqueue)
    : list work_item * workqueue :=
  match os with
  | [] => ([], s)
  | o :: os' =>
      let '(ran, s1) := wq_do spawn o s in
      let '(ran', s2) := wq_history spawn os' s1 in (ran ++ ran', s2)
  end.

(** The sequence numbers from [n] on, [k] of them. *)
Definition seq_nos (n : Z) (k : nat) : list Z := (λ i, u64 (n + Z.of_nat i)) <$> seq 0 k.

#[local] Arguments seq_nos : simpl never.

Lemma seq_nos_S n k : seq_nos n (S k) = u64 n :: seq_nos (n + 1) k.
Proof.
  unfold seq_nos. cbn [seq fmap list_fmap]. rewrite Z.add_0_r. f_equal.
  rewrite <- fmap_S_seq, <- list_fmap_compose. apply list_fmap_ext.
  intros _ i _. unfold compose. f_equal. lia.
Qed.

Lemma seq_nos_snoc n k : seq_nos n (k + 1) = seq_nos n k ++ [u64 (n + Z.of_nat k)].
Proof. unfold seq_nos. by rewrite seq_app, fmap_app. Qed.

Lemma seq_nos_app n j k : seq_nos n (j + k) = seq_nos n j ++ seq_nos (n + Z.of_nat j) k.
Proof.
  unfold seq_nos. rewrite seq_app, fmap_app. f_equal. rewrite Nat.add_0_l.
  rewrite <- (Nat.add_0_r j) at 1. rewrite <- fmap_add_seq, <- list_fmap_compose.
  apply list_fmap_ext. intros _ i _. unfold compose. f_equal. lia.
Qed.

(** The pending entries carry the numbers [n], [n+1], ... and the next number
    follows them; [m] is the number of items executed so far. *)
Definition numbered (n : Z) (q : spec.queue) : Prop :=
  seq_no <$> spec.pend q = seq_nos n (length (spec.pend q)) ∧
  spec.nseq q = u64 (n + Zlength (spec.pend q)).

Lemma schedule_numbered n f a q :
  numbered n q →
  numbered n (spec.schedule f a q).2 ∧ spec.nexec (spec.schedule f a q).2 = spec.nexec q.
Proof.
  unfold spec.schedule, numbered. intros [Hp Hn].
  destruct (f =? 0); [done|]. case_match; cbn; [done|]. split; [|done].
  unfold Zlength in *. rewrite fmap_app, length_app. cbn [length fmap list_fmap].
  rewrite seq_nos_snoc, Hp, Hn.
  split; [done|]. rewrite u64_add_l. f_equal. lia.
Qed.

Lemma schedule_all_numbered n l q :
  numbered n q →
  numbered n (spec.schedule_all l q) ∧ spec.nexec (spec.schedule_all l q) = spec.nexec q.
Proof.
  unfold spec.schedule_all. revert q. induction l as [|[f a] l IH]; intros q Hq; [done|].
  cbn. destruct (schedule_numbered n f a q Hq) as [Hq' He].
  destruct (IH _ Hq') as [? ->]. done.
Qed.

Lemma run_numbered spawn k n q :
  numbered n q →
  let '(ran, q') := spec.run spawn k q in
  seq_no <$> ran = seq_nos n (length ran) ∧ numbered (n + Zlength ran) q' ∧
  spec.nexec q' = (if (length ran =? 0)%nat then spec.nexec q
                   else u64 (spec.nexec q + Zlength ran)).
Proof.
  unfold Zlength. revert n q. induction k as [|k IH]; intros n q Hq; cbn.
  { rewrite Z.add_0_r. done. }
  destruct Hq as [Hp Hn]. destruct (spec.pend q) as [|it rest] eqn:Hpend; cbn.
  { rewrite Z.add_0_r. unfold numbered. by rewrite Hpend. }
  unfold Zlength in Hn. cbn [length fmap list_fmap] in Hp, Hn. rewrite seq_nos_S in Hp.
  injection Hp as Hit Hrest.
  assert (numbered (n + 1) (spec.MkQueue rest (spec.nseq q) (spec.nexec q) (spec.ndrop q)))
    as Hq1.
  { split; cbn; [done|]. rewrite Hn. unfold Zlength. f_equal. lia. }
  apply (schedule_all_numbered _ (spawn (func it) (arg it))) in Hq1 as [Hq1 He].
  set (q1 := spec.schedule_all _ _) in *. cbn in He.
  specialize (IH (n + 1) (spec.MkQueue (spec.pend q1) (spec.nseq q1)
                            (u64 (spec.nexec q1 + 1)) (spec.ndrop q1)) Hq1).
  destruct (spec.run _ _ _) as [ran q2]. cbn in *. destruct IH as (Hran & Hq2 & He2).
  split_and!.
  - rewrite seq_nos_S, Hit, Hran. done.
  - by replace (n + Z.of_nat (S (length ran))) with (n + 1 + Z.of_nat (length ran)) by lia.
  - rewrite He2, He. destruct ran; cbn; [done|]. rewrite u64_add_l. f_equal. lia.
Qed.

Lemma history_numbered spawn os s q n :
  wq_rep s q → numbered n q →
  let '(ran, s') := wq_history spawn os s in
  ∃ q', wq_rep s' q' ∧ seq_no <$> ran = seq_nos n (length ran) ∧
        numbered (n + Zlength ran) q' ∧
        u64 (spec.nexec q') = u64 (spec.nexec q + Zlength ran).
Proof.
  unfold Zlength. revert s q n. induction os as [|o os IH]; intros s q n Hrep Hnum; cbn.
  { exists q. rewrite !Z.add_0_r. done. }
  assert (∃ q1, wq_rep (wq_do spawn o s).2 q1 ∧
    seq_no <$> (wq_do spawn o s).1 = seq_nos n (length (wq_do spawn o s).1) ∧
    numbered (n + Zlength (wq_do spawn o s).1) q1 ∧
    u64 (spec.nexec q1) = u64 (spec.nexec q + Zlength (wq_do spawn o s).1))
    as (q1 & Hr1 & Hs1 & Hn1 & He1).
  { destruct o as [f a|m]; cbn.
    - destruct (wq_schedule_refines f a s q Hrep) as [_ ?].
      destruct (schedule_numbered n f a q Hnum) as [? He].
      exists (spec.schedule f a q).2. unfold Zlength. cbn. rewrite !Z.add_0_r, He. done.
    - unfold workqueue_run_pending. set (k := Z.to_nat _).
      destruct (wq_run_refines spawn k s q Hrep) as [Hran ?].
      pose proof (run_numbered spawn k n q Hnum) as Hrun.
      destruct (spec.run spawn k q) as [ran q'] eqn:Hq'. cbn in *. subst ran.
      destruct Hrun as (? & ? & He). exists q'. split_and!; try done.
      rewrite He. unfold Zlength. destruct (length _ =? 0)%nat eqn:Hz.
      + apply Nat.eqb_eq in Hz. rewrite Hz. by rewrite Z.add_0_r.
      + unfold u64. by rewrite Z.mod_mod by lia. }
  destruct (wq_do spawn o s) as [ran1 s1]. cbn in *. unfold Zlength in *.
  specialize (IH s1 q1 _ Hr1 Hn1). destruct (wq_history spawn os s1) as [ran2 s2].
  destruct IH as (q2 & Hr2 & Hs2 & Hn2 & He2). exists q2. rewrite fmap_app, length_app.
  split_and!; [done| | |].
  - by rewrite seq_nos_app, Hs1, Hs2.
  - by replace (n + Z.of_nat (length ran1 + length ran2))
      with (n + Z.of_nat (length ran1) + Z.of_nat (length ran2)) by lia.
  - rewrite He2, <- u64_add_l, He1, u64_add_l. f_equal. lia.
Qed.

(** ** Properties *)

(** The ring refines a FIFO of at most 64 numbered entries. Scheduling a
    non-null function appends it, or counts it as dropped when 64 are pending;
    running takes entries from the front, at most 64 of them, including those
    the running functions append; results and states agree with the list
    specification at every step. *)
Theorem workqueue_refines_fifo spawn s q f a m :
  wq_rep s q →
  (workqueue_schedule f a s).1 = (spec.schedule f a q).1 ∧
  wq_rep (workqueue_schedule f a s).2 (spec.schedule f a q).2 ∧
  let n := Z.to_nat (if (m =? 0) || (64 <? m) then 64 else m) in
  (workqueue_run_pending spawn m s).1 = (spec.run spawn n q).1 ∧
  wq_rep (workqueue_run_pending spawn m s).2 (spec.run spawn n q).2.
Proof.
  intros Hrep. destruct (wq_schedule_refines f a s q Hrep) as [H1 H2].
  split; [done|]. split; [done|]. by apply wq_run_refines.
Qed.

Lemma workqueue_refines_fifo_witness :
  let s := workqueue_init (replicate 64 (MkWork 0 0 0)) in
  (workqueue_schedule 5 7 s).1 = true ∧
  (workqueue_run_pending (λ _ _, []) 0 (workqueue_schedule 5 7 s).2).1 = [MkWork 5 7 1].
Proof.
  cbv zeta. set (s := workqueue_init _).
  assert (Hrep : wq_rep s (spec.MkQueue [] 1 0 0)) by (by apply wq_rep_init).
  split.
  - apply (workqueue_refines_fifo (λ _ _, []) s _ 5 7 0 Hrep).
  - pose proof (wq_schedule_refines 5 7 s _ Hrep) as [_ Hrep'].
    destruct (workqueue_refines_fifo (λ _ _, []) _ _ 5 7 0 Hrep') as (_ & _ & Hrun & _).
    rewrite Hrun. reflexivity.
Defined.

(** Exactly-once, in-order execution. From initialisation, for every sequence of
    scheduling and running calls and whatever the work functions schedule
    themselves, the items run carry the sequence numbers 1, 2, 3, ... without
    gap or repetition, and the executed counter is their number (modulo the
    counter's width). *)
Theorem workqueue_runs_in_order spawn items os :
  length items = 64%nat →
  let '(ran, s) := wq_history spawn os (workqueue_init items) in
  seq_no <$> ran = seq_nos 1 (length ran) ∧
  u64 (workqueue_executed_count s) = u64 (Zlength ran) ∧
  0 <= workqueue_pending_count s <= WORKQUEUE_SIZE.
Proof.
  intros Hlen%wq_rep_init.
  pose proof (history_numbered spawn os _ _ 1 Hlen) as H.
  destruct (wq_history spawn os (workqueue_init items)) as [ran s].
  destruct H as (q & Hrep & Hs & _ & He); [by split|].
  split; [done|]. destruct Hrep as (_ & _ & Hc & _ & _ & _ & Hx & _).
  unfold workqueue_executed_count. rewrite Hx. by rewrite He, Z.add_0_l.
Qed.

Lemma workqueue_runs_in_order_witness :
  seq_no <$> (wq_history (λ f _, if f =? 9 then [(4, 0)] else [])
    [Schedule 9 1; Schedule 5 2; RunPending 16] (workqueue_init (replicate 64 (MkWork 0 0 0)))).1
  = [1; 2; 3].
Proof.
  pose proof (workqueue_runs_in_order (λ f _, if f =? 9 then [(4, 0)] else [])
    (replicate 64 (MkWork 0 0 0)) [Schedule 9 1; Schedule 5 2; RunPending 16] eq_refl) as H.
  vm_compute in H |- *. exact (proj1 H).
Defined.
