(* ===== verification/Timer.v ===== *)
(** * Kernel timers ([src/kernel/timer.c])

    64 one-shot timer slots polled by the main loop; a due slot is handed to
    the workqueue. [now] is [pit_get_ticks()] at the call. Every block under
    [timer_lock] is one step of the model. *)

From S2P Require Import Prelude Workqueue.

Definition TIMER_MAX_ITEMS : Z := 64.

Record timer_item := MkTimer {
  active : bool; due_tick : Z; t_func : Z; t_arg : Z; t_seq : Z
}.

Definition cleared_item : timer_item := MkTimer false 0 0 0 0.

Record timers := MkTimers {
  timer_items : list timer_item;
  timer_next_seq : Z;
  timer_fired : Z;
  timer_failed : Z
}.

Definition timer_init : timers :=
  MkTimers (replicate (Z.to_nat TIMER_MAX_ITEMS) cleared_item) 1 0 0.

(** The scanning loop of [timer_schedule_ticks]: fill the first inactive slot. *)
Fixpoint fill_slot (new : timer_item) (items : list timer_item) : option (list timer_item) :=
  match items with
  | [] => None
  | t :: rest =>
      if negb (active t) then Some (new :: rest)
      else match fill_slot new rest with Some rest' => Some (t :: rest') | None => None end
  end.

Definition timer_schedule_ticks (now delay_ticks f a : Z) (s : timers) : bool * timers :=
  if f =? 0 then (false, s)
  else
    let delay_ticks := if delay_ticks =? 0 then 1 else delay_ticks in
    let new := MkTimer true (u64 (now + delay_ticks)) f a (timer_next_seq s) in
    match fill_slot new (timer_items s) with
    | Some items => (true, MkTimers items (u64 (timer_next_seq s + 1)) (timer_fired s) (timer_failed s))
    | None => (false, MkTimers (timer_items s) (timer_next_seq s) (timer_fired s)
                               (u64 (timer_failed s + 1)))
    end.

Definition is_due (now : Z) (t : timer_item) : bool := active t && (due_tick t <=? now).

(** The first loop of [timer_poll]: collect the due slots in slot order and
    clear them. *)
Fixpoint collect_due (now : Z) (items : list timer_item) : list (Z * Z) * list timer_item :=
  match items with
  | [] => ([], [])
  | t :: rest =>
      let '(due, rest') := collect_due now rest in
      if is_due now t then ((t_func t, t_arg t) :: due, cleared_item :: rest')
      else (due, t :: rest')
  end.

(** The second loop: hand them to the workqueue, counting successes and
    failures. *)
Fixpoint schedule_due (due : list (Z * Z)) (q : workqueue) : Z * Z * workqueue :=
  match due with
  | [] => (0, 0, q)
  | (f, a) :: rest =>
      let '(ok, q1) := workqueue_schedule f a q in
      let '(fired, failed, q2) := schedule_due rest q1 in
      if ok then (u64 (fired + 1), failed, q2) else (fired, u64 (failed + 1), q2)
  end.

Definition timer_poll (now : Z) (s : timers) (q : workqueue) : Z * timers * workqueue :=
  let '(due, items) := collect_due now (timer_items s) in
  let '(fired_add, failed_add, q') := schedule_due due q in
  (Zlength due,
   MkTimers items (timer_next_seq s) (u64 (timer_fired s + fired_add))
            (u64 (timer_failed s + failed_add)),
   q').

Definition timer_pending_count (s : timers) : Z :=
  Zlength (filter (λ t, active t = true) (timer_items s)).

Definition timer_fired_count (s : timers) : Z := timer_fired s.
Definition timer_failed_count (s : timers) : Z := timer_failed s.

(** ** Lemmas *)

Lemma fill_slot_length new items items' :
  fill_slot new items = Some items' → length items' = length items.
Proof.
  revert items'. induction items as [|t rest IH]; intros items'; [done|]. cbn.
  case_if; [by intros [= <-]|]. destruct (fill_slot new rest); [|done].
  intros [= <-]. cbn. by rewrite (IH l).
Qed.

(** The new item is in the lowest inactive slot; an active slot is never
    overwritten; with no inactive slot the call fails. *)
Lemma fill_slot_spec new items :
  match fill_slot new items with
  | Some items' =>
      ∃ i, items' = <[i := new]> items ∧
        (∃ t, items !! i = Some t ∧ active t = false) ∧
        ∀ j t, (j < i)%nat → items !! j = Some t → active t = true
  | None => Forall (λ t, active t = true) items
  end.
Proof.
  induction items as [|t rest IH]; cbn; [done|].
  destruct (active t) eqn:Ht; cbn.
  - destruct (fill_slot new rest) as [rest'|].
    + destruct IH as (i & -> & Hi & Hlow). exists (S i). split_and!; [done|done|].
      intros [|j] u; cbn; [by intros _ [= <-]|]. intros. apply (Hlow j); [lia|done].
    + by constructor.
  - exists 0%nat. split_and!; [done|by exists t|lia].
Qed.

Lemma collect_due_items now items i :
  (collect_due now items).2 !! i =
  (λ t, if is_due now t then cleared_item else t) <$> items !! i.
Proof.
  revert i. induction items as [|t rest IH]; intros i; [done|]. cbn.
  destruct (collect_due now rest) as [due rest']. cbn in IH.
  destruct (is_due now t) eqn:Hd; destruct i; cbn; by rewrite ?Hd, ?IH.
Qed.

Lemma collect_due_due now items :
  (collect_due now items).1 =
  (λ t, (t_func t, t_arg t)) <$> filter (λ t, is_due now t = true) items.
Proof.
  induction items as [|t rest IH]; [done|]. cbn [collect_due]. rewrite filter_cons.
  destruct (collect_due now rest) as [due rest']. cbn in IH.
  destruct (is_due now t) eqn:Hd; case_decide; try congruence; cbn; by rewrite IH.
Qed.

Lemma schedule_due_queue due q :
  (schedule_due due q).2 = foldl (λ q '(f, a), (workqueue_schedule f a q).2) q due.
Proof.
  revert q. induction due as [|[f a] due IH]; intros q; [done|]. cbn.
  destruct (workqueue_schedule f a q) as [ok q1]. rewrite <- IH. cbn.
  destruct (schedule_due due q1) as [[x y] q2]. by destruct ok.
Qed.

Lemma schedule_due_counts due q :
  Zlength due < 2 ^ 64 →
  0 <= (schedule_due due q).1.1 ∧ 0 <= (schedule_due due q).1.2 ∧
  (schedule_due due q).1.1 + (schedule_due due q).1.2 = Zlength due.
Proof.
  unfold Zlength. revert q. induction due as [|[f a] due IH]; intros q Hlen; [done|].
  cbn in Hlen |- *. destruct (workqueue_schedule f a q) as [ok q1].
  specialize (IH q1 ltac:(lia)). destruct (schedule_due due q1) as [[x y] q2].
  cbn in *. destruct ok; cbn; rewrite u64_small by (unfold is_u64; lia); lia.
Qed.

(** ** Histories of one slot *)

Inductive timer_op := TSchedule (now delay f a : Z) | TPoll (now : Z).

Definition timer_do (o : timer_op) (s : timers * workqueue) : timers * workqueue :=
  match o with
  | TSchedule now d f a => ((timer_schedule_ticks now d f a s.1).2, s.2)
  | TPoll now => let '(_, s', q') := timer_poll now s.1 s.2 in (s', q')
  end.

(** Polls before the due tick. *)
Definition not_yet (due : Z) (o : timer_op) : Prop :=
  match o with TSchedule _ _ _ _ => True | TPoll now => now < due end.

Lemma timer_do_keeps o s i t :
  timer_items s.1 !! i = Some t → active t = true → not_yet (due_tick t) o →
  timer_items (timer_do o s).1 !! i = Some t.
Proof.
  intros Hi Ht. destruct o as [now d f a|now]; cbn; intros Hn.
  - unfold timer_schedule_ticks. destruct (f =? 0); [done|]. cbv zeta.
    set (new := MkTimer _ _ _ _ _). pose proof (fill_slot_spec new (timer_items s.1)) as Hf.
    destruct (fill_slot new (timer_items s.1)); [|done]. cbn.
    destruct Hf as (j & -> & (u & Hu & Hact) & _).
    rewrite list_lookup_insert_ne; [done|]. intros ->. congruence.
  - unfold timer_poll.
    pose proof (collect_due_items now (timer_items s.1) i) as Hc. rewrite Hi in Hc.
    destruct (collect_due now (timer_items s.1)) as [due items].
    destruct (schedule_due due s.2) as [[? ?] ?]. cbn in *. rewrite Hc.
    unfold is_due. rewrite Ht. cbn. rewrite (proj2 (Z.leb_gt _ _)) by done. done.
Qed.

Lemma timer_history_keeps os s i t :
  timer_items s.1 !! i = Some t → active t = true → Forall (not_yet (due_tick t)) os →
  timer_items (foldl (flip timer_do) s os).1 !! i = Some t.
Proof.
  intros Hi Ht Hos. revert s Hi. induction Hos as [|o os Ho _ IH]; intros s Hi; [done|].
  cbn. apply IH. by apply timer_do_keeps.
Qed.

(** ** Properties *)

(** A poll hands exactly the slots that are active and due to the workqueue, in
    slot order, and clears exactly those; every other slot is untouched; each
    handed item is counted once, as fired or as failed (queue full); the return
    value is their number. *)
Theorem timer_poll_exact now s q :
  length (timer_items s) = 64%nat →
  let due := filter (λ t, is_due now t = true) (timer_items s) in
  let '(n, s', q') := timer_poll now s q in
  n = Zlength due ∧
  q' = foldl (λ q '(f, a), (workqueue_schedule f a q).2) q ((λ t, (t_func t, t_arg t)) <$> due) ∧
  (∀ i, timer_items s' !! i =
        (λ t, if is_due now t then cleared_item else t) <$> timer_items s !! i) ∧
  ∃ fired failed, 0 <= fired ∧ 0 <= failed ∧ fired + failed = n ∧
    timer_fired_count s' = u64 (timer_fired_count s + fired) ∧
    timer_failed_count s' = u64 (timer_failed_count s + failed).
Proof.
  intros Hlen. cbv zeta. unfold timer_poll.
  pose proof (collect_due_items now (timer_items s)) as Hitems.
  pose proof (collect_due_due now (timer_items s)) as Hdue.
  destruct (collect_due now (timer_items s)) as [due items]. cbn in Hitems, Hdue.
  pose proof (schedule_due_queue due q) as Hq.
  assert (Hn : Zlength due = Zlength (filter (λ t, is_due now t = true) (timer_items s)))
    by (unfold Zlength; by rewrite Hdue, length_fmap).
  assert (Hle : Zlength due < 2 ^ 64).
  { rewrite Hn. unfold Zlength.
    pose proof (length_filter (λ t, is_due now t = true) (timer_items s)). lia. }
  pose proof (schedule_due_counts due q Hle) as (H1 & H2 & H3).
  destruct (schedule_due due q) as [[x y] q']. cbn in *.
  split_and!; [done|by rewrite Hq, Hdue|done|]. exists x, y. by split_and!.
Qed.

Lemma timer_poll_exact_witness :
  let s := (timer_schedule_ticks 10 5 7 1 timer_init).2 in
  let q := workqueue_init (replicate 64 (MkWork 0 0 0)) in
  (timer_poll 14 s q).1.1 = 0 ∧ (timer_poll 15 s q).1.1 = 1.
Proof.
  cbv zeta. set (s := (timer_schedule_ticks 10 5 7 1 timer_init).2).
  set (q := workqueue_init _).
  pose proof (timer_poll_exact 14 s q eq_refl) as H14.
  pose proof (timer_poll_exact 15 s q eq_refl) as H15.
  destruct (timer_poll 14 s q) as [[n1 s1] q1], (timer_poll 15 s q) as [[n2 s2] q2].
  destruct H14 as [-> _], H15 as [-> _]. split; reflexivity.
Defined.

(** A timer never fires early and fires exactly once. When
    [timer_schedule_ticks] accepts a request, the item sits in a slot with due
    tick [now + max(1, delay)]; through any sequence of further requests and of
    polls before that tick it stays there; the first poll at or after the tick
    hands it to the workqueue, after the due items of the lower slots, and frees
    the slot. A request is refused only when all 64 slots are active. *)
Theorem timer_fires_once_not_early now delay f a s q os now' :
  f ≠ 0 → is_u64 (now + Z.max 1 delay) → 0 <= delay → length (timer_items s) = 64%nat →
  let '(ok, s1) := timer_schedule_ticks now delay f a s in
  if ok then
    Forall (not_yet (now + Z.max 1 delay)) os → now + Z.max 1 delay <= now' →
    ∃ i, let '(s2, q2) := foldl (flip timer_do) (s1, q) os in
      timer_items s2 !! i = Some (MkTimer true (now + Z.max 1 delay) f a (timer_next_seq s)) ∧
      let '(due, items) := collect_due now' (timer_items s2) in
      items !! i = Some cleared_item ∧
      due = (collect_due now' (take i (timer_items s2))).1 ++
            (f, a) :: (collect_due now' (drop (S i) (timer_items s2))).1
  else Forall (λ t, active t = true) (timer_items s).
Proof.
  intros Hf Hu Hd Hlen. unfold timer_schedule_ticks.
  rewrite (proj2 (Z.eqb_neq f 0)) by done. cbv zeta.
  replace (if delay =? 0 then 1 else delay) with (Z.max 1 delay)
    by (destruct (Z.eqb_spec delay 0); lia).
  rewrite u64_small by done. set (new := MkTimer _ _ _ _ _).
  pose proof (fill_slot_spec new (timer_items s)) as Hfill.
  destruct (fill_slot new (timer_items s)) as [items|]; [|done].
  destruct Hfill as (i & -> & (t & Ht & _) & _). intros Hos Hnow. exists i.
  assert (Hi : timer_items (MkTimers (<[i := new]> (timer_items s)) (u64 (timer_next_seq s + 1))
    (timer_fired s) (timer_failed s)) !! i = Some new).
  { cbn. apply list_lookup_insert_eq. by eapply lookup_lt_Some. }
  pose proof (timer_history_keeps os (_, q) i new Hi eq_refl Hos) as Hkeep.
  destruct (foldl (flip timer_do) _ os) as [s2 q2]. cbn in Hkeep.
  split; [done|].
  pose proof (collect_due_items now' (timer_items s2) i) as Hitems. rewrite Hkeep in Hitems.
  assert (Hdue : is_due now' new = true) by (unfold is_due; cbn; by apply Z.leb_le).
  pose proof (collect_due_due now' (timer_items s2)) as Hlist.
  rewrite <- (take_drop_middle _ _ _ Hkeep) in Hlist at 2.
  rewrite filter_app, filter_cons_True, fmap_app, fmap_cons in Hlist by done.
  rewrite <- !collect_due_due in Hlist.
  destruct (collect_due now' (timer_items s2)) as [due items']. cbn in *.
  rewrite Hdue in Hitems. done.
Qed.

Lemma timer_fires_once_not_early_witness :
  let '(ok, s1) := timer_schedule_ticks 100 20 7 3 timer_init in
  ok = true ∧ ∃ i, timer_items s1 !! i = Some (MkTimer true 120 7 3 1).
Proof.
  pose proof (timer_fires_once_not_early 100 20 7 3 timer_init
    (workqueue_init (replicate 64 (MkWork 0 0 0))) [] 120) as H.
  specialize (H ltac:(done) ltac:(unfold is_u64; lia) ltac:(lia) eq_refl).
  cbn in H |- *. destruct (H ltac:(constructor) ltac:(lia)) as (i & Hi & _).
  split; [done|]. by exists i.
Defined.
