(* ===== verification/Multiboot2.v ===== *)
(** * Multiboot2 information ([src/kernel/multiboot2.c])

    The boot loader leaves a list of tags in memory; the kernel walks it for
    the memory map. The walks are loops bounded by [total_size]; they run here
    with that many rounds of fuel, and [None] is "did not end". *)

From S2P Require Import Prelude Utils Bytes CString Print.

Definition MB2_TAG_TYPE_END : Z := 0.
Definition MB2_TAG_TYPE_CMDLINE : Z := 1.
Definition MB2_TAG_TYPE_BOOT_LOADER : Z := 2.
Definition MB2_TAG_TYPE_MMAP : Z := 6.
Definition MB2_TAG_TYPE_IMAGE_LOAD_BASE : Z := 21.

(** Sizes and offsets of the packed structures of [multiboot2.h]. *)
Definition sizeof_mb2_info_header : Z := 8.
Definition sizeof_mb2_tag : Z := 8.
Definition sizeof_mb2_mmap_entry : Z := 24.
Definition offsetof_entries : Z := 16.

Record mmap_entry := MkEntry { e_addr : Z; e_len : Z; e_type : Z; e_zero : Z }.

Section Walk.
Context (m : mem).

Definition info_total_size (info : Z) : Z := rd32 m info.
Definition info_reserved (info : Z) : Z := rd32 m (info + 4).
Definition tag_type (tag : Z) : Z := rd32 m tag.
Definition tag_size (tag : Z) : Z := rd32 m (tag + 4).
Definition mmap_entry_size (tag : Z) : Z := rd32 m (tag + 8).
Definition mmap_entry_version (tag : Z) : Z := rd32 m (tag + 12).

Definition mmap_entry_at (a : Z) : mmap_entry :=
  MkEntry (rd64 m a) (rd64 m (a + 8)) (rd32 m (a + 16)) (rd32 m (a + 20)).

(** The loop over the entries of a memory map, which [pmm.c] writes three times
    and [mb2_dump_info] once: the entries it visits, in order. *)
Fixpoint mmap_entries_from (fuel : nat) (entry_addr entries_end entry_size : Z)
    : option (list mmap_entry) :=
  match fuel with
  | O => None
  | S fuel' =>
      if u64 (entry_addr + sizeof_mb2_mmap_entry) <=? entries_end then
        match mmap_entries_from fuel' (u64 (entry_addr + entry_size)) entries_end entry_size with
        | Some es => Some (mmap_entry_at entry_addr :: es)
        | None => None
        end
      else Some []
  end.

Definition mmap_entries (mmap : Z) : option (list mmap_entry) :=
  mmap_entries_from (S (Z.to_nat (tag_size mmap))) (u64 (mmap + offsetof_entries))
    (u64 (mmap + tag_size mmap)) (mmap_entry_size mmap).

(** The [while] loop of [mb2_find_mmap_tag]: [Some 0] is the null pointer. *)
Fixpoint find_mmap_loop (fuel : nat) (tag_addr info_end : Z) : option Z :=
  match fuel with
  | O => None
  | S fuel' =>
      if u64 (tag_addr + sizeof_mb2_tag) <=? info_end then
        if tag_type tag_addr =? MB2_TAG_TYPE_END then Some 0
        else if tag_size tag_addr <? sizeof_mb2_tag then Some 0
        else if info_end <? u64 (tag_addr + tag_size tag_addr) then Some 0
        else if tag_type tag_addr =? MB2_TAG_TYPE_MMAP then Some tag_addr
        else find_mmap_loop fuel' (align_up_u64 (u64 (tag_addr + tag_size tag_addr)) 8) info_end
      else Some 0
  end.

Definition mb2_find_mmap_tag (mb2_info_addr : Z) : option Z :=
  find_mmap_loop (S (Z.to_nat (info_total_size mb2_info_addr)))
    (u64 (mb2_info_addr + sizeof_mb2_info_header))
    (u64 (mb2_info_addr + info_total_size mb2_info_addr)).

Definition mb2_mmap_type_name (type : Z) : cstr :=
  if type =? 1 then s2z "available"
  else if type =? 2 then s2z "reserved"
  else if type =? 3 then s2z "acpi_reclaimable"
  else if type =? 4 then s2z "nvs"
  else if type =? 5 then s2z "badram"
  else s2z "unknown".

(** The C string at an address, up to [n] characters. *)
Fixpoint cstr_at (n : nat) (a : Z) : cstr :=
  match n with
  | O => []
  | S n' => if rd8 m a =? 0 then [] else rd8 m a :: cstr_at n' (a + 1)
  end.

Definition dump_entry (e : mmap_entry) : output :=
  prints "    addr=" ++ print_hex64 (e_addr e) ++ prints " len=" ++ print_hex64 (e_len e) ++
  prints " type=" ++ print_dec64 (e_type e) ++ prints " " ++
  print (mb2_mmap_type_name (e_type e)) ++ newline.

(** What [mb2_dump_info] prints for one tag. A string tag is printed up to its
    NUL, which the loader puts inside the tag. *)
Definition dump_tag (tag_addr : Z) : option output :=
  let head := prints "tag type=" ++ print_dec64 (tag_type tag_addr) ++
              prints " size=" ++ print_dec64 (tag_size tag_addr) ++ newline in
  let str := cstr_at (Z.to_nat (tag_size tag_addr)) (tag_addr + sizeof_mb2_tag) in
  if tag_type tag_addr =? MB2_TAG_TYPE_CMDLINE then
    Some (head ++ prints "  cmdline     = " ++ print str ++ newline)
  else if tag_type tag_addr =? MB2_TAG_TYPE_BOOT_LOADER then
    Some (head ++ prints "  bootloader  = " ++ print str ++ newline)
  else if tag_type tag_addr =? MB2_TAG_TYPE_IMAGE_LOAD_BASE then
    Some (head ++ prints "  image load base = " ++
          print_hex32 (rd32 m (tag_addr + sizeof_mb2_tag)) ++ newline)
  else if tag_type tag_addr =? MB2_TAG_TYPE_MMAP then
    match mmap_entries tag_addr with
    | Some es =>
        Some (head ++ color_line "  memory map:" COLOR_CYAN_ON_BLACK ++
              prints "    entry_size    = " ++ print_dec64 (mmap_entry_size tag_addr) ++ newline ++
              prints "    entry_version = " ++ print_dec64 (mmap_entry_version tag_addr) ++ newline ++
              concat (dump_entry <$> es))
    | None => None
    end
  else Some head.

(** How the walk of [mb2_dump_info] ended. *)
Inductive dump_end :=
  | EndTag | InvalidSize | ExceedsInfo | ParserStuck | NoEndTag.

Definition dump_end_message (e : dump_end) : output :=
  match e with
  | EndTag => color_line "end tag reached" COLOR_CYAN_ON_BLACK
  | InvalidSize => color_line "invalid tag size" COLOR_RED_ON_BLACK
  | ExceedsInfo => color_line "tag exceeds multiboot info size" COLOR_RED_ON_BLACK
  | ParserStuck => color_line "tag parser stuck" COLOR_RED_ON_BLACK
  | NoEndTag => color_line "end of multiboot info reached without end tag" COLOR_RED_ON_BLACK
  end.

Fixpoint dump_loop (fuel : nat) (tag_addr info_end : Z) : option (output * dump_end) :=
  match fuel with
  | O => None
  | S fuel' =>
      if u64 (tag_addr + sizeof_mb2_tag) <=? info_end then
        if tag_type tag_addr =? MB2_TAG_TYPE_END then Some ([], EndTag)
        else if tag_size tag_addr <? sizeof_mb2_tag then Some ([], InvalidSize)
        else if info_end <? u64 (tag_addr + tag_size tag_addr) then Some ([], ExceedsInfo)
        else
          match dump_tag tag_addr with
          | None => None
          | Some o =>
              let next_tag_addr := align_up_u64 (u64 (tag_addr + tag_size tag_addr)) 8 in
              if next_tag_addr <=? tag_addr then Some (o, ParserStuck)
              else match dump_loop fuel' next_tag_addr info_end with
                   | Some (o', e) => Some (o ++ o', e)
                   | None => None
                   end
          end
      else Some ([], NoEndTag)
  end.

Definition mb2_dump_info (mb2_info_addr : Z) : option (output * dump_end) :=
  match dump_loop (S (Z.to_nat (info_total_size mb2_info_addr)))
          (u64 (mb2_info_addr + sizeof_mb2_info_header))
          (u64 (mb2_info_addr + info_total_size mb2_info_addr)) with
  | Some (o, e) =>
      Some (color_line "[Multiboot2 info]" COLOR_CYAN_ON_BLACK ++
            prints "total_size = " ++ print_dec64 (info_total_size mb2_info_addr) ++
            prints " bytes" ++ newline ++
            prints "reserved   = " ++ print_hex32 (info_reserved mb2_info_addr) ++
            print [CH_LF; CH_LF] ++ o ++ dump_end_message e, e)
  | None => None
  end.
End Walk.

(** ** Lemmas *)

Lemma align_up_8 v :
  0 <= v → v + 7 < 2 ^ 64 → align_up_u64 v 8 = (v + 7) / 8 * 8.
Proof.
  intros. change 8 with (2 ^ 3) at 1. rewrite align_up_pow2 by lia. change (2 ^ 3) with 8.
  do 2 f_equal. lia.
Qed.

Lemma mmap_entries_from_total m fuel lo a e sz :
  0 <= lo <= a → 1 <= sz → e + sz + 24 < 2 ^ 64 → a <= e + sz →
  (0 < fuel)%nat → e - a < Z.of_nat fuel → ∃ es, mmap_entries_from m fuel a e sz = Some es.
Proof.
  revert a. induction fuel as [|fuel IH]; intros a Ha Hsz He Hae H0 Hf; [lia|].
  cbn [mmap_entries_from]. unfold sizeof_mb2_mmap_entry.
  rewrite (u64_small (a + 24)) by (unfold is_u64; lia).
  destruct (Z.leb_spec (a + 24) e); [|by eexists].
  rewrite u64_small by (unfold is_u64; lia).
  destruct (IH (a + sz)) as [es ->]; [lia..|]. by eexists.
Qed.

(** The fuel of [mmap_entries] is enough for every map whose entries have a
    size. *)
Lemma mmap_entries_total m mmap :
  mem_ok m → 0 <= mmap → mmap + 2 ^ 34 < 2 ^ 64 → 1 <= mmap_entry_size m mmap →
  ∃ es, mmap_entries m mmap = Some es.
Proof.
  intros Hm Ha Hb Hsz. unfold mmap_entries, offsetof_entries.
  pose proof (rd32_range m (mmap + 4) Hm) as Hs. pose proof (rd32_range m (mmap + 8) Hm) as He.
  unfold tag_size, mmap_entry_size in *. unfold is_u32 in *.
  rewrite !u64_small by (unfold is_u64; lia).
  destruct (Z_lt_le_dec (rd32 m (mmap + 4)) 40).
  - cbn [mmap_entries_from]. unfold sizeof_mb2_mmap_entry.
    rewrite u64_small by (unfold is_u64; lia).
    rewrite (proj2 (Z.leb_gt _ _)) by lia. by eexists.
  - apply mmap_entries_from_total with mmap; lia.
Qed.

(** An entry size of 0 never ends, however much fuel: the loop has no guard for
    it. *)
Lemma mmap_entries_from_stuck m fuel a e :
  is_u64 a → u64 (a + 24) <= e → mmap_entries_from m fuel a e 0 = None.
Proof.
  intros Ha He. induction fuel as [|fuel IH]; [done|]. cbn [mmap_entries_from].
  rewrite (proj2 (Z.leb_le _ _)) by done. by rewrite Z.add_0_r, (u64_small a), IH.
Qed.

(** ** The walk as a relation *)

(** The tag at [a] can be stepped over. *)
Definition tag_ok (m : mem) (info_end a : Z) : Prop :=
  a + 8 <= info_end ∧ tag_type m a ≠ MB2_TAG_TYPE_END ∧
  8 <= tag_size m a ∧ a + tag_size m a <= info_end.

(** [tag_walk a b]: from the tag at [a] the list leads to the tag at [b], over
    well-formed tags none of which is a memory map. *)
Inductive tag_walk (m : mem) (info_end : Z) : Z → Z → Prop :=
  | walk_here a : tag_walk m info_end a a
  | walk_next a b :
      tag_ok m info_end a → tag_type m a ≠ MB2_TAG_TYPE_MMAP →
      tag_walk m info_end ((a + tag_size m a + 7) / 8 * 8) b → tag_walk m info_end a b.

(** The next tag, computed without wrap-around. *)
Lemma next_tag m e a :
  mem_ok m → 0 < a → e + 2 ^ 33 < 2 ^ 64 → a <= e →
  u64 (a + 8) = a + 8 ∧ u64 (a + tag_size m a) = a + tag_size m a ∧
  align_up_u64 (a + tag_size m a) 8 = (a + tag_size m a + 7) / 8 * 8.
Proof.
  intros Hm Ha He Hae. pose proof (rd32_range m (a + 4) Hm) as Hs.
  unfold is_u32, tag_size in *. rewrite !u64_small by (unfold is_u64; lia).
  split_and!; [done|done|]. apply align_up_8; lia.
Qed.

Lemma find_mmap_loop_spec m fuel a e :
  mem_ok m → 0 < a → a <= e + 7 → e + 2 ^ 33 < 2 ^ 64 → e + 8 - a <= 8 * Z.of_nat fuel →
  ∃ t, tag_walk m e a t ∧
    (find_mmap_loop m fuel a e = Some t ∧ 0 < t ∧ tag_ok m e t ∧ tag_type m t = MB2_TAG_TYPE_MMAP
     ∨ find_mmap_loop m fuel a e = Some 0 ∧ ¬ tag_ok m e t).
Proof.
  intros Hm. revert a. induction fuel as [|fuel IH]; intros a Ha Hae He Hf; [lia|].
  cbn [find_mmap_loop]. unfold sizeof_mb2_tag.
  destruct (Z_lt_le_dec e (a + 8)).
  { exists a. split; [constructor|]. right.
    rewrite u64_small, (proj2 (Z.leb_gt _ _)) by (unfold is_u64; lia).
    split; [done|]. unfold tag_ok. lia. }
  destruct (next_tag m e a) as (-> & -> & ->); [done|lia..|].
  rewrite (proj2 (Z.leb_le _ _)) by done.
  destruct (Z.eqb_spec (tag_type m a) MB2_TAG_TYPE_END).
  { exists a. split; [constructor|]. right. split; [done|]. unfold tag_ok. tauto. }
  destruct (Z.ltb_spec (tag_size m a) 8).
  { exists a. split; [constructor|]. right. split; [done|]. unfold tag_ok. lia. }
  destruct (Z.ltb_spec e (a + tag_size m a)).
  { exists a. split; [constructor|]. right. split; [done|]. unfold tag_ok. lia. }
  destruct (Z.eqb_spec (tag_type m a) MB2_TAG_TYPE_MMAP).
  { exists a. split; [constructor|]. left. by split_and!. }
  destruct (IH ((a + tag_size m a + 7) / 8 * 8)) as (t & Hw & Ht); [zlia..|].
  exists t. split; [|done]. apply walk_next; [by split_and!|done..].
Qed.

(** Every tag the dump visits that is a memory map has a positive entry size. *)
Definition entry_sizes_ok (m : mem) : Prop :=
  ∀ a, tag_type m a = MB2_TAG_TYPE_MMAP → 1 <= mmap_entry_size m a.

Lemma dump_tag_total m a :
  mem_ok m → entry_sizes_ok m → 0 <= a → a + 2 ^ 34 < 2 ^ 64 → is_Some (dump_tag m a).
Proof.
  intros Hm Hok Ha Hb. unfold dump_tag. repeat (case_if; [by eexists|]).
  case_if; [|by eexists]. btests.
  destruct (mmap_entries_total m a) as [es ->]; [done..|by apply Hok|]. by eexists.
Qed.

Lemma dump_loop_ends m fuel a e :
  mem_ok m → 0 < a → a <= e + 7 → e + 2 ^ 35 < 2 ^ 64 → e + 8 - a <= 8 * Z.of_nat fuel →
  (∀ o r, dump_loop m fuel a e = Some (o, r) → r ≠ ParserStuck) ∧
  (entry_sizes_ok m → is_Some (dump_loop m fuel a e)).
Proof.
  intros Hm. revert a. induction fuel as [|fuel IH]; intros a Ha Hae He Hf; [lia|].
  cbn [dump_loop]. unfold sizeof_mb2_tag.
  destruct (Z_lt_le_dec e (a + 8)).
  { rewrite u64_small, (proj2 (Z.leb_gt _ _)) by (unfold is_u64; lia).
    split; [by intros ? ? [= <- <-]|by eexists]. }
  destruct (next_tag m e a) as (-> & -> & ->); [done|lia..|].
  rewrite (proj2 (Z.leb_le _ _)) by done.
  case_if; [split; [by intros ? ? [= <- <-]|by eexists]|].
  case_if; [split; [by intros ? ? [= <- <-]|by eexists]|].
  case_if; [split; [by intros ? ? [= <- <-]|by eexists]|]. btests.
  rewrite (proj2 (Z.leb_gt _ _)) by zlia.
  destruct (IH ((a + tag_size m a + 7) / 8 * 8)) as [IH1 IH2]; [zlia..|].
  split.
  - intros o r. destruct (dump_tag m a); [|done].
    destruct (dump_loop _ _ _ _) as [[o' r']|] eqn:Hd; [|done].
    intros [= <- <-]. by eapply IH1.
  - intros Hok. destruct (dump_tag_total m a) as [o ->]; [done|done|lia|lia|].
    destruct (IH2 Hok) as [[o' r'] ->]. by eexists.
Qed.

(** ** Properties *)

(** The search for the memory map always ends, and it finds the first
    memory-map tag: it returns a tag that lies inside the information block, is
    of type 6 and is reached over well-formed tags none of which is a memory
    map; it returns null exactly when the walk runs into the end of the block,
    the end tag, or a tag with a bad size. *)
Theorem mb2_find_mmap_tag_first m info :
  mem_ok m → 0 <= info → info + 2 ^ 34 < 2 ^ 64 →
  let e := info + info_total_size m info in
  ∃ t, tag_walk m e (info + 8) t ∧
    (mb2_find_mmap_tag m info = Some t ∧ 0 < t ∧ tag_ok m e t ∧
       tag_type m t = MB2_TAG_TYPE_MMAP
     ∨ mb2_find_mmap_tag m info = Some 0 ∧ ¬ tag_ok m e t).
Proof.
  intros Hm Hi Hb e. unfold mb2_find_mmap_tag, sizeof_mb2_info_header.
  pose proof (rd32_range m info Hm) as Hs. unfold info_total_size, is_u32 in *.
  rewrite !u64_small by (unfold is_u64; lia). fold e.
  destruct (Z_lt_le_dec e (info + 1)).
  - exists (info + 8). split; [constructor|]. right. split; [|unfold tag_ok; lia].
    cbn [find_mmap_loop]. unfold sizeof_mb2_tag.
    rewrite u64_small, (proj2 (Z.leb_gt _ _)) by (unfold is_u64; lia). done.
  - apply find_mmap_loop_spec; [done|lia..].
Qed.

(** A block with an end tag after a memory map of one entry. *)
Definition sample_mb2 : mem := mem_of 0x10000
  (le_list 4 72 ++ le_list 4 0 ++
   le_list 4 2 ++ le_list 4 13 ++ s2z "grub" ++ [0; 0; 0; 0] ++
   le_list 4 6 ++ le_list 4 40 ++ le_list 4 24 ++ le_list 4 0 ++
   le_list 8 0 ++ le_list 8 0x9FC00 ++ le_list 4 1 ++ le_list 4 0 ++
   le_list 4 0 ++ le_list 4 8).

Lemma mb2_find_mmap_tag_first_witness :
  mb2_find_mmap_tag sample_mb2 0x10000 = Some 0x10018 ∧
  tag_walk sample_mb2 0x10048 0x10008 0x10018.
Proof.
  destruct (mb2_find_mmap_tag_first sample_mb2 0x10000) as (t & Hw & [(Ht & ?)|(Ht & _)]).
  - by apply mem_of_ok, u8_list_ok.
  - lia.
  - lia.
  - assert (t = 0x10018) as -> by (vm_compute in Ht; congruence). split; [done|exact Hw].
  - vm_compute in Ht. discriminate.
Defined.

(** The dump of the information block never reports that the parser is stuck
    (the guard is dead code: sizes below 8 are refused before it), and it ends
    whenever the memory maps it meets have a non-zero entry size. With an entry
    size of 0 the loop over the entries has no exit. *)
Theorem mb2_dump_info_ends m info :
  mem_ok m → 0 <= info → info + 2 ^ 36 < 2 ^ 64 → 1 <= info_total_size m info →
  (∀ o r, mb2_dump_info m info = Some (o, r) → r ≠ ParserStuck) ∧
  (entry_sizes_ok m → is_Some (mb2_dump_info m info)) ∧
  (∀ fuel a e, is_u64 a → u64 (a + 24) <= e → mmap_entries_from m fuel a e 0 = None).
Proof.
  intros Hm Hi Hb Ht. unfold mb2_dump_info, sizeof_mb2_info_header.
  pose proof (rd32_range m info Hm) as Hs. unfold info_total_size, is_u32 in *.
  rewrite !u64_small by (unfold is_u64; lia).
  destruct (dump_loop_ends m (S (Z.to_nat (rd32 m info))) (info + 8) (info + rd32 m info))
    as [H1 H2]; [done|lia..|].
  split_and!.
  - intros o r. destruct (dump_loop _ _ _ _) as [[o' r']|]; [|done].
    intros [= _ <-]. by eapply H1.
  - intros Hok. destruct (H2 Hok) as [[o' r'] ->]. by eexists.
  - intros. by apply mmap_entries_from_stuck.
Qed.

Lemma mb2_dump_info_ends_witness :
  (∃ o, mb2_dump_info sample_mb2 0x10000 = Some (o, EndTag)) ∧
  (∀ o r, mb2_dump_info sample_mb2 0x10000 = Some (o, r) → r ≠ ParserStuck).
Proof.
  split; [eexists; vm_compute; reflexivity|].
  apply mb2_dump_info_ends; [|vm_compute; congruence..].
  by apply mem_of_ok, u8_list_ok.
Defined.
