(* ===== verification/Pmm.v ===== *)
(** * The physical memory manager ([src/kernel/pmm.c])

    One bit per 4 KiB frame, 1 for used. The bitmap is a list of bytes; the
    null pointer of an uninitialised manager is [None]. The memory map is read
    through [Multiboot2]. *)

From S2P Require Import Prelude Utils Bytes CString Print Multiboot2.

Record reserved_range := MkRange { r_start : Z; r_end : Z }.

Record pmm := MkPmm {
  pmm_bitmap : option (list Z);
  pmm_total_frames : Z;
  pmm_free_frames : Z;
  pmm_bitmap_bytes : Z;
  pmm_bitmap_start : Z;
  pmm_bitmap_end : Z;
  pmm_max_usable_addr : Z
}.

Definition pmm_boot : pmm := MkPmm None 0 0 0 0 0 0.

(** ** Bits *)

Definition bitmap_set (bm : list Z) (frame_index : Z) : list Z :=
  let byte_index := frame_index / 8 in
  let bit_index := frame_index mod 8 in
  arr_set bm byte_index (Z.lor (arr_get bm byte_index) (u8 (Z.shiftl 1 bit_index))).

Definition bitmap_clear (bm : list Z) (frame_index : Z) : list Z :=
  let byte_index := frame_index / 8 in
  let bit_index := frame_index mod 8 in
  arr_set bm byte_index (Z.land (arr_get bm byte_index) (u8 (Z.lnot (Z.shiftl 1 bit_index)))).

Definition bitmap_test (bm : list Z) (frame_index : Z) : bool :=
  let byte_index := frame_index / 8 in
  let bit_index := frame_index mod 8 in
  arr_get bm byte_index &? u8 (Z.shiftl 1 bit_index).

(** ** Ranges of frames *)

(** [for (frame = lo; frame < hi; frame++) bitmap = f(bitmap, frame)] *)
Definition for_frames (f : list Z → Z → list Z) (lo hi : Z) (bm : list Z) : list Z :=
  foldl f bm (seqZ lo (hi - lo)).

Definition pmm_mark_range_used (total start end_ : Z) (bm : list Z) : list Z :=
  let start := align_down_u64 start PAGE_SIZE in
  let end_ := align_up_u64 end_ PAGE_SIZE in
  if end_ <=? start then bm
  else
    let first_frame := start / PAGE_SIZE in
    let last_frame := end_ / PAGE_SIZE in
    let last_frame := if total <? last_frame then total else last_frame in
    for_frames bitmap_set first_frame last_frame bm.

Definition pmm_mark_range_free (total start end_ : Z) (bm : list Z) : list Z :=
  let start := align_up_u64 start PAGE_SIZE in
  let end_ := align_down_u64 end_ PAGE_SIZE in
  if end_ <=? start then bm
  else
    let first_frame := start / PAGE_SIZE in
    let last_frame := end_ / PAGE_SIZE in
    let last_frame := if total <? last_frame then total else last_frame in
    for_frames bitmap_clear first_frame last_frame bm.

Definition pmm_recount_free_frames (total : Z) (bm : list Z) : Z :=
  foldl (λ n frame, if negb (bitmap_test bm frame) then u64 (n + 1) else n) 0 (seqZ 0 total).

(** ** The memory map *)

(** The page-aligned usable part of an entry, as the three loops compute it. *)
Definition usable_start (e : mmap_entry) : Z :=
  align_up_u64 (max_u64 (e_addr e) MIN_USABLE_ADDR) PAGE_SIZE.
Definition usable_end (e : mmap_entry) : Z :=
  align_down_u64 (u64 (e_addr e + e_len e)) PAGE_SIZE.

Definition max_usable_step (max_addr : Z) (e : mmap_entry) : Z :=
  if negb (e_type e =? 1) then max_addr
  else if usable_end e <=? usable_start e then max_addr
  else if max_addr <? usable_end e then usable_end e else max_addr.

Definition pmm_find_max_usable_addr (m : mem) (mmap : Z) : option Z :=
  match mmap_entries m mmap with
  | Some es => Some (foldl max_usable_step 0 es)
  | None => None
  end.

(** The [for] loop over the reserves: the end of the first one that overlaps. *)
Fixpoint first_collision (cursor size : Z) (reserves : list reserved_range) : option Z :=
  match reserves with
  | [] => None
  | r :: rest =>
      if ranges_overlap cursor (u64 (cursor + size)) (r_start r) (r_end r)
      then Some (r_end r) else first_collision cursor size rest
  end.

(** The [while] loop: [None] is "did not end", [Some None] "no room here". *)
Fixpoint region_loop (fuel : nat) (reserves : list reserved_range) (size cursor end_ : Z)
    : option (option Z) :=
  match fuel with
  | O => None
  | S fuel' =>
      if u64 (cursor + size) <=? end_ then
        match first_collision cursor size reserves with
        | Some r_end => region_loop fuel' reserves size (align_up_u64 r_end PAGE_SIZE) end_
        | None => Some (Some cursor)
        end
      else Some None
  end.

(** The loop over the entries; [Some 0] when none has room. *)
Fixpoint find_region_in (reserves : list reserved_range) (size : Z) (es : list mmap_entry)
    : option Z :=
  match es with
  | [] => Some 0
  | e :: rest =>
      if negb (e_type e =? 1) then find_region_in reserves size rest
      else if usable_end e <=? usable_start e then find_region_in reserves size rest
      else match region_loop (S (length reserves)) reserves size (usable_start e) (usable_end e) with
           | None => None
           | Some (Some cursor) => Some cursor
           | Some None => find_region_in reserves size rest
           end
  end.

Definition pmm_find_free_region (m : mem) (mmap : Z) (reserves : list reserved_range) (size : Z)
    : option Z :=
  let size := align_up_u64 size PAGE_SIZE in
  match mmap_entries m mmap with
  | Some es => find_region_in reserves size es
  | None => None
  end.

Definition mark_entry_free (total : Z) (bm : list Z) (e : mmap_entry) : list Z :=
  if negb (e_type e =? 1) then bm
  else pmm_mark_range_free total (usable_start e) (usable_end e) bm.

Definition pmm_mark_available_regions_free (m : mem) (mmap total : Z) (bm : list Z)
    : option (list Z) :=
  match mmap_entries m mmap with
  | Some es => Some (foldl (mark_entry_free total) bm es)
  | None => None
  end.

(** ** Operations *)

(** [pmm_init]. [ks] and [ke] are the linker symbols [__kernel_start] and
    [__kernel_end]; [None]: one of the loops over the memory map does not
    end. *)
Definition pmm_init (m : mem) (ks ke mb2_info_addr : Z) (s : pmm) : option (pmm * output) :=
  match mb2_find_mmap_tag m mb2_info_addr with
  | None => None
  | Some mmap =>
      let banner := color_line "[PMM Bitmap Allocator]" COLOR_YELLOW_ON_BLACK in
      if mmap =? 0 then
        Some (s, banner ++ color_line "memory map tag not found" COLOR_RED_ON_BLACK)
      else
        let kernel_start := align_down_u64 ks PAGE_SIZE in
        let kernel_end := align_up_u64 ke PAGE_SIZE in
        let mb2_start := align_down_u64 mb2_info_addr PAGE_SIZE in
        let mb2_end :=
          align_up_u64 (u64 (mb2_info_addr + info_total_size m mb2_info_addr)) PAGE_SIZE in
        let base_reserves := [MkRange 0 MIN_USABLE_ADDR; MkRange kernel_start kernel_end;
                              MkRange mb2_start mb2_end] in
        match pmm_find_max_usable_addr m mmap with
        | None => None
        | Some max_usable_addr =>
            let total_frames := align_up_u64 max_usable_addr PAGE_SIZE / PAGE_SIZE in
            let bitmap_bytes := u64 (total_frames + 7) / 8 in
            let bitmap_reserved_size := align_up_u64 bitmap_bytes PAGE_SIZE in
            match pmm_find_free_region m mmap base_reserves bitmap_reserved_size with
            | None => None
            | Some bitmap_start =>
                if bitmap_start =? 0 then
                  Some (MkPmm (pmm_bitmap s) total_frames (pmm_free_frames s) bitmap_bytes 0
                              (pmm_bitmap_end s) max_usable_addr,
                        banner ++ color_line "failed to place PMM bitmap" COLOR_RED_ON_BLACK)
                else
                  let bitmap_end := u64 (bitmap_start + bitmap_reserved_size) in
                  let bm := replicate (Z.to_nat bitmap_bytes) 0xFF in
                  match pmm_mark_available_regions_free m mmap total_frames bm with
                  | None => None
                  | Some bm =>
                      let bm := pmm_mark_range_used total_frames 0 MIN_USABLE_ADDR bm in
                      let bm := pmm_mark_range_used total_frames kernel_start kernel_end bm in
                      let bm := pmm_mark_range_used total_frames mb2_start mb2_end bm in
                      let bm := pmm_mark_range_used total_frames bitmap_start bitmap_end bm in
                      let free_frames := pmm_recount_free_frames total_frames bm in
                      Some (MkPmm (Some bm) total_frames free_frames bitmap_bytes bitmap_start
                                  bitmap_end max_usable_addr,
                            banner ++
                            print_field_hex "kernel_start   = " kernel_start ++
                            print_field_hex "kernel_end     = " kernel_end ++
                            print_field_hex "mb2_start      = " mb2_start ++
                            print_field_hex "mb2_end        = " mb2_end ++
                            print_field_hex "max usable addr= " max_usable_addr ++
                            print_field_dec "total frames   = " total_frames ++
                            print_field_dec "bitmap bytes   = " bitmap_bytes ++
                            print_field_hex "bitmap start   = " bitmap_start ++
                            print_field_hex "bitmap end     = " bitmap_end ++
                            print_field_dec "free frames    = " free_frames)
                  end
            end
        end
  end.

(** The scan of [pmm_alloc_frame]: the first clear bit among [frames]. *)
Fixpoint first_free (bm : list Z) (frames : list Z) : option Z :=
  match frames with
  | [] => None
  | frame :: rest => if negb (bitmap_test bm frame) then Some frame else first_free bm rest
  end.

Definition set_bitmap (s : pmm) (bm : list Z) (free_frames : Z) : pmm :=
  MkPmm (Some bm) (pmm_total_frames s) free_frames (pmm_bitmap_bytes s)
        (pmm_bitmap_start s) (pmm_bitmap_end s) (pmm_max_usable_addr s).

Definition pmm_alloc_frame (s : pmm) : Z * pmm :=
  match pmm_bitmap s with
  | None => (0, s)
  | Some bm =>
      match first_free bm (seqZ 0 (pmm_total_frames s)) with
      | Some frame =>
          (u64 (frame * PAGE_SIZE),
           set_bitmap s (bitmap_set bm frame)
             (if 0 <? pmm_free_frames s then pmm_free_frames s - 1 else pmm_free_frames s))
      | None => (0, s)
      end
  end.

Definition pmm_free_frame (frame_addr : Z) (s : pmm) : pmm :=
  match pmm_bitmap s with
  | None => s
  | Some bm =>
      if negb (frame_addr mod PAGE_SIZE =? 0) then s
      else
        let frame := frame_addr / PAGE_SIZE in
        if pmm_total_frames s <=? frame then s
        else if bitmap_test bm frame
        then set_bitmap s (bitmap_clear bm frame) (u64 (pmm_free_frames s + 1))
        else s
  end.

Definition pmm_free_frame_count (s : pmm) : Z := pmm_free_frames s.

Definition pmm_test (s : pmm) : pmm * output :=
  let '(a, s1) := pmm_alloc_frame s in
  let '(b, s2) := pmm_alloc_frame s1 in
  let '(c, s3) := pmm_alloc_frame s2 in
  let s4 := pmm_free_frame b s3 in
  let '(d, s5) := pmm_alloc_frame s4 in
  (s5, color_line "[PMM alloc/free test]" COLOR_YELLOW_ON_BLACK ++
       print_field_dec "free before = " (pmm_free_frames s) ++
       print_field_hex "alloc A = " a ++ print_field_hex "alloc B = " b ++
       print_field_hex "alloc C = " c ++
       print_field_dec "free after 3 allocs = " (pmm_free_frames s3) ++
       print_field_hex "freed B = " b ++
       print_field_dec "free after free B = " (pmm_free_frames s4) ++
       print_field_hex "alloc D = " d ++
       (if d =? b then color_line "reuse freed frame OK" COLOR_GREEN_ON_BLACK
        else color_line "reuse freed frame unexpected" COLOR_RED_ON_BLACK) ++
       print_field_dec "free final = " (pmm_free_frames s5)).

(** ** Lemmas: bits *)

Definition bm_bit (bm : list Z) (i : Z) : bool := Z.testbit (arr_get bm (i / 8)) (i mod 8).

(** The frame has a byte in the bitmap. *)
Definition in_bitmap (bm : list Z) (i : Z) : Prop := 0 <= i < 8 * Zlength bm.

Lemma u8_shiftl1 k : 0 <= k < 8 → u8 (Z.shiftl 1 k) = 2 ^ k.
Proof.
  intros. rewrite Z.shiftl_1_l. apply u8_small. unfold is_u8.
  pose proof (Z.pow_pos_nonneg 2 k). pose proof (Z.pow_lt_mono_r 2 k 8). lia.
Qed.

Lemma testbit_u8_lnot k j :
  0 <= k < 8 → 0 <= j < 8 → Z.testbit (u8 (Z.lnot (Z.shiftl 1 k))) j = negb (j =? k).
Proof.
  intros. unfold u8. rewrite Z.mod_pow2_bits_low, Z.lnot_spec, Z.shiftl_1_l by lia.
  rewrite Z.pow2_bits_eqb by lia. by rewrite Z.eqb_sym.
Qed.

Lemma land_pow2_test x k : 0 <= k → x &? 2 ^ k = Z.testbit x k.
Proof.
  intros Hk. destruct (Z.testbit x k) eqn:Hb.
  - apply negb_true_iff, Z.eqb_neq. intros H0.
    assert (Hx : Z.testbit (Z.land x (2 ^ k)) k = true)
      by (by rewrite Z.land_spec, Hb, Z.pow2_bits_true).
    by rewrite H0, Z.testbit_0_l in Hx.
  - apply negb_false_iff, Z.eqb_eq, Z.bits_inj'. intros i Hi.
    rewrite Z.land_spec, Z.testbit_0_l, Z.pow2_bits_eqb by done.
    destruct (Z.eqb_spec k i) as [<-|]; [by rewrite Hb|apply andb_false_r].
Qed.

Lemma div_mod_8_inj i j : i / 8 = j / 8 → i mod 8 = j mod 8 → i = j.
Proof. intros. zlia. Qed.

Lemma bitmap_test_bit bm i : bitmap_test bm i = bm_bit bm i.
Proof.
  unfold bitmap_test, bm_bit. pose proof (Z.mod_pos_bound i 8 ltac:(lia)).
  rewrite u8_shiftl1 by done. apply land_pow2_test. lia.
Qed.

Lemma bitmap_set_bit bm i j :
  in_bitmap bm i → 0 <= j → bm_bit (bitmap_set bm i) j = (j =? i) || bm_bit bm j.
Proof.
  unfold in_bitmap, bm_bit, bitmap_set. intros Hi Hj.
  pose proof (Z.mod_pos_bound i 8 ltac:(lia)). pose proof (Z.mod_pos_bound j 8 ltac:(lia)).
  rewrite u8_shiftl1, arr_get_set by (done || zlia).
  destruct (Z.eqb_spec (j / 8) (i / 8)) as [He|He].
  - rewrite Z.lor_spec, Z.pow2_bits_eqb, He by lia. rewrite orb_comm. f_equal.
    destruct (Z.eqb_spec j i) as [->|]; [by apply Z.eqb_eq|].
    apply Z.eqb_neq. intros ?. apply n. by apply div_mod_8_inj.
  - destruct (Z.eqb_spec j i) as [->|]; [congruence|done].
Qed.

Lemma bitmap_clear_bit bm i j :
  in_bitmap bm i → 0 <= j → bm_bit (bitmap_clear bm i) j = negb (j =? i) && bm_bit bm j.
Proof.
  unfold in_bitmap, bm_bit, bitmap_clear. intros Hi Hj.
  pose proof (Z.mod_pos_bound i 8 ltac:(lia)). pose proof (Z.mod_pos_bound j 8 ltac:(lia)).
  rewrite arr_get_set by zlia.
  destruct (Z.eqb_spec (j / 8) (i / 8)) as [He|He].
  - rewrite Z.land_spec, testbit_u8_lnot, He by lia. rewrite andb_comm. do 2 f_equal.
    destruct (Z.eqb_spec j i) as [->|]; [by apply Z.eqb_eq|].
    apply Z.eqb_neq. intros ?. apply n. by apply div_mod_8_inj.
  - destruct (Z.eqb_spec j i) as [->|]; [congruence|done].
Qed.

Lemma bitmap_set_length bm i : length (bitmap_set bm i) = length bm.
Proof. apply arr_set_length. Qed.

Lemma bitmap_clear_length bm i : length (bitmap_clear bm i) = length bm.
Proof. apply arr_set_length. Qed.

Lemma foldl_set_bit l bm j :
  Forall (in_bitmap bm) l → 0 <= j →
  length (foldl bitmap_set bm l) = length bm ∧
  bm_bit (foldl bitmap_set bm l) j = bool_decide (j ∈ l) || bm_bit bm j.
Proof.
  intros Hl Hj. revert bm Hl. induction l as [|i l IH]; intros bm Hl; [done|].
  apply Forall_cons in Hl as [Hi Hl]. cbn [foldl].
  destruct (IH (bitmap_set bm i)) as [-> ->].
  { unfold in_bitmap, Zlength. by rewrite bitmap_set_length. }
  rewrite bitmap_set_length, bitmap_set_bit by done. split; [done|].
  destruct (Z.eqb_spec j i) as [->|].
  - rewrite orb_true_r. by rewrite bool_decide_eq_true_2 by set_solver.
  - cbn. f_equal. apply bool_decide_ext. set_solver.
Qed.

Lemma foldl_clear_bit l bm j :
  Forall (in_bitmap bm) l → 0 <= j →
  length (foldl bitmap_clear bm l) = length bm ∧
  bm_bit (foldl bitmap_clear bm l) j = negb (bool_decide (j ∈ l)) && bm_bit bm j.
Proof.
  intros Hl Hj. revert bm Hl. induction l as [|i l IH]; intros bm Hl; [done|].
  apply Forall_cons in Hl as [Hi Hl]. cbn [foldl].
  destruct (IH (bitmap_clear bm i)) as [-> ->].
  { unfold in_bitmap, Zlength. by rewrite bitmap_clear_length. }
  rewrite bitmap_clear_length, bitmap_clear_bit by done. split; [done|].
  destruct (Z.eqb_spec j i) as [->|].
  - rewrite andb_false_r. by rewrite bool_decide_eq_true_2 by set_solver.
  - cbn. do 2 f_equal. apply bool_decide_ext. set_solver.
Qed.

(** ** Lemmas: the free list *)

(** The frames with a clear bit, in increasing order. *)
Definition free_list_of (total : Z) (bm : list Z) : list Z :=
  filter (λ f, bm_bit bm f = false) (seqZ 0 total).

Definition free_list (s : pmm) : list Z :=
  match pmm_bitmap s with Some bm => free_list_of (pmm_total_frames s) bm | None => [] end.

(** The invariant: the bitmap has a bit for every frame and the counter is the
    number of clear ones. *)
Definition pmm_wf (s : pmm) : Prop :=
  match pmm_bitmap s with
  | None => True
  | Some bm =>
      0 <= pmm_total_frames s <= 2 ^ 52 ∧
      pmm_total_frames s <= 8 * Zlength bm ∧
      pmm_free_frames s = Zlength (free_list s)
  end.

Lemma first_free_head bm l :
  first_free bm l = head (filter (λ f, bm_bit bm f = false) l).
Proof.
  induction l as [|x l IH]; [done|]. cbn [first_free]. rewrite bitmap_test_bit, filter_cons.
  destruct (bm_bit bm x) eqn:Hx; case_decide; try congruence; done.
Qed.

Lemma filter_set_tail bm l f rest :
  NoDup l → Forall (in_bitmap bm) l →
  filter (λ f, bm_bit bm f = false) l = f :: rest →
  filter (λ g, bm_bit (bitmap_set bm f) g = false) l = rest.
Proof.
  intros Hnd Hl Hf.
  assert (Hfl : f ∈ l).
  { assert (f ∈ filter (λ f, bm_bit bm f = false) l) as Hin by (rewrite Hf; left).
    by apply list_elem_of_filter in Hin as [_ ?]. }
  rewrite Forall_forall in Hl. pose proof (Hl f Hfl) as Hfb.
  assert (Hrest : filter (λ g, bm_bit (bitmap_set bm f) g = false) l =
                  filter (λ g, g ≠ f) (filter (λ f, bm_bit bm f = false) l)).
  { rewrite list_filter_filter. apply filter_ext_elem. intros g Hg%Hl.
    destruct Hg as [Hg _].
    rewrite bitmap_set_bit by done. destruct (Z.eqb_spec g f) as [->|]; cbn; naive_solver. }
  rewrite Hrest, Hf. rewrite filter_cons_False by tauto.
  assert (NoDup (f :: rest)) as [Hnot _]%NoDup_cons by (rewrite <- Hf; by apply NoDup_filter).
  apply filter_all. intros g Hg ->. done.
Qed.

Lemma frames_in_bitmap total bm :
  total <= 8 * Zlength bm → Forall (in_bitmap bm) (seqZ 0 total).
Proof.
  intros. apply Forall_forall. intros f Hf%elem_of_seqZ. unfold in_bitmap. lia.
Qed.

Lemma elem_of_free_list_of total bm f :
  f ∈ free_list_of total bm ↔ 0 <= f < total ∧ bm_bit bm f = false.
Proof. unfold free_list_of. rewrite list_elem_of_filter, elem_of_seqZ. naive_solver lia. Qed.

(** The head of the free list is the lowest free frame. *)
Lemma filter_seqZ_least P `{!∀ x : Z, Decision (P x)} m n f rest g :
  filter P (seqZ m n) = f :: rest → g ∈ rest → f < g.
Proof.
  destruct (Z.le_gt_cases 0 n) as [Hn|]; [|by rewrite seqZ_nil by lia].
  revert m. pattern n. apply natlike_ind; [intros m; by rewrite seqZ_nil by lia| |done].
  intros k Hk IH m. rewrite seqZ_cons, Z.pred_succ, filter_cons by lia. case_decide.
  - intros [= <- <-] [_ Hg]%list_elem_of_filter. apply elem_of_seqZ in Hg. lia.
  - apply IH.
Qed.

(** Allocation on the free list. *)
Lemma pmm_alloc_frame_spec s bm :
  pmm_wf s → pmm_bitmap s = Some bm →
  match free_list s with
  | [] => pmm_alloc_frame s = (0, s)
  | f :: rest =>
      let '(a, s') := pmm_alloc_frame s in
      a = f * PAGE_SIZE ∧ free_list s' = rest ∧ pmm_wf s' ∧
      pmm_bitmap s' = Some (bitmap_set bm f) ∧
      pmm_total_frames s' = pmm_total_frames s ∧
      pmm_free_frames s' = pmm_free_frames s - 1 ∧
      0 <= f < pmm_total_frames s
  end.
Proof.
  intros Hwf Hbm. unfold pmm_wf, pmm_alloc_frame, free_list in *. rewrite Hbm in *.
  destruct Hwf as (Ht & Hlen & Hcnt). rewrite first_free_head. fold (free_list_of (pmm_total_frames s) bm).
  destruct (free_list_of (pmm_total_frames s) bm) as [|f rest] eqn:Hfl; [done|].
  cbn [head].
  assert (Hf : 0 <= f < pmm_total_frames s).
  { apply (elem_of_free_list_of _ bm). rewrite Hfl. left. }
  assert (Htail : free_list_of (pmm_total_frames s) (bitmap_set bm f) = rest).
  { apply filter_set_tail; [apply NoDup_seqZ|by apply frames_in_bitmap|done]. }
  unfold PAGE_SIZE. rewrite u64_small by (unfold is_u64; lia).
  rewrite Hcnt. unfold Zlength in *. cbn [length] in *.
  rewrite (proj2 (Z.ltb_lt _ _)) by lia. cbn. rewrite bitmap_set_length.
  split_and!; try done; try lia. rewrite Htail. lia.
Qed.

(** Freeing on the free list. *)
Lemma pmm_free_frame_spec s bm f :
  pmm_wf s → pmm_bitmap s = Some bm → 0 <= f < pmm_total_frames s → f ∉ free_list s →
  let s' := pmm_free_frame (f * PAGE_SIZE) s in
  free_list s' ≡ₚ f :: free_list s ∧ pmm_wf s' ∧
  pmm_bitmap s' = Some (bitmap_clear bm f) ∧
  pmm_total_frames s' = pmm_total_frames s ∧
  pmm_free_frames s' = pmm_free_frames s + 1.
Proof.
  intros Hwf Hbm Hf Hnf. unfold pmm_wf, pmm_free_frame, free_list in *. rewrite Hbm in *.
  destruct Hwf as (Ht & Hlen & Hcnt).
  rewrite Z_mod_mult, Z.div_mul by done. cbn [Z.eqb negb]. cbv zeta.
  rewrite (proj2 (Z.leb_gt _ _)) by lia. rewrite bitmap_test_bit.
  assert (Hb : bm_bit bm f = true).
  { destruct (bm_bit bm f) eqn:Hb; [done|]. exfalso. by apply Hnf, elem_of_free_list_of. }
  rewrite Hb. cbn.
  assert (Hperm : free_list_of (pmm_total_frames s) (bitmap_clear bm f) ≡ₚ
                  f :: free_list_of (pmm_total_frames s) bm).
  { apply filter_add_Permutation; [apply NoDup_seqZ|apply elem_of_seqZ; lia|congruence|].
    intros g Hg%elem_of_seqZ. rewrite bitmap_clear_bit by (unfold in_bitmap; lia).
    destruct (Z.eqb_spec g f) as [->|]; cbn; naive_solver. }
  assert (Hl : Zlength (free_list_of (pmm_total_frames s) bm) < 2 ^ 52 + 1).
  { unfold Zlength, free_list_of.
    pose proof (length_filter (λ f, bm_bit bm f = false) (seqZ 0 (pmm_total_frames s))) as Hle.
    rewrite length_seqZ in Hle. lia. }
  rewrite u64_small by (unfold is_u64, Zlength in *; lia).
  unfold Zlength in *. rewrite bitmap_clear_length, Hperm. cbn [length]. split_and!; done || lia.
Qed.

(** ** Lemmas: ranges of frames *)

(** Page [j] meets [start, end_), lies inside it. *)
Definition page_meets (j start end_ : Z) : Prop := start < (j + 1) * 4096 ∧ j * 4096 < end_.
Definition page_inside (j start end_ : Z) : Prop := start <= j * 4096 ∧ (j + 1) * 4096 <= end_.

#[global] Instance page_meets_dec j a b : Decision (page_meets j a b) := _.
#[global] Instance page_inside_dec j a b : Decision (page_inside j a b) := _.

Lemma range_in_bitmap bm lo n :
  0 <= lo → lo + n <= 8 * Zlength bm → Forall (in_bitmap bm) (seqZ lo n).
Proof. intros. apply Forall_forall. intros f Hf%elem_of_seqZ. unfold in_bitmap. lia. Qed.

Lemma mark_used_bit total start end_ bm j :
  0 <= start < end_ → end_ + 4095 < 2 ^ 64 → 0 <= total <= 8 * Zlength bm → 0 <= j < total →
  length (pmm_mark_range_used total start end_ bm) = length bm ∧
  bm_bit (pmm_mark_range_used total start end_ bm) j =
    bool_decide (page_meets j start end_) || bm_bit bm j.
Proof.
  intros Hs He Ht Hj. unfold pmm_mark_range_used, for_frames.
  rewrite align_down_page, align_up_page by (unfold is_u64; lia). unfold PAGE_SIZE. cbv zeta.
  rewrite !Z.div_mul by done. rewrite (proj2 (Z.leb_gt _ _)) by zlia.
  set (last := if total <? (end_ + 4095) / 4096 then total else (end_ + 4095) / 4096).
  assert (Hlast : last = Z.min total ((end_ + 4095) / 4096)) by (unfold last; case_ifs; lia).
  clearbody last. subst last.
  destruct (foldl_set_bit (seqZ (start / 4096) (Z.min total ((end_ + 4095) / 4096) - start / 4096))
    bm j) as [-> ->].
  { destruct (Z_lt_le_dec (Z.min total ((end_ + 4095) / 4096)) (start / 4096)).
    - rewrite seqZ_nil by lia. constructor.
    - apply range_in_bitmap; [apply Z.div_pos|]; lia. }
  { lia. }
  split; [done|]. f_equal. apply bool_decide_ext. rewrite elem_of_seqZ. unfold page_meets. zlia.
Qed.

Lemma mark_free_bit total start end_ bm j :
  0 <= start → start + 4095 < 2 ^ 64 → is_u64 end_ → 0 <= total <= 8 * Zlength bm →
  0 <= j < total →
  length (pmm_mark_range_free total start end_ bm) = length bm ∧
  bm_bit (pmm_mark_range_free total start end_ bm) j =
    negb (bool_decide (page_inside j start end_)) && bm_bit bm j.
Proof.
  intros Hs He Hu Ht Hj. unfold pmm_mark_range_free, for_frames.
  rewrite align_down_page, align_up_page by done. unfold PAGE_SIZE, is_u64 in *. cbv zeta.
  destruct (Z.leb_spec (end_ / 4096 * 4096) ((start + 4095) / 4096 * 4096)).
  { split; [done|]. rewrite bool_decide_eq_false_2; [done|]. unfold page_inside. zlia. }
  rewrite !Z.div_mul by done.
  set (last := if total <? end_ / 4096 then total else end_ / 4096).
  assert (Hlast : last = Z.min total (end_ / 4096)) by (unfold last; case_ifs; lia).
  clearbody last. subst last.
  destruct (foldl_clear_bit
    (seqZ ((start + 4095) / 4096) (Z.min total (end_ / 4096) - (start + 4095) / 4096))
    bm j) as [-> ->].
  { destruct (Z_lt_le_dec (Z.min total (end_ / 4096)) ((start + 4095) / 4096)).
    - rewrite seqZ_nil by lia. constructor.
    - apply range_in_bitmap; [apply Z.div_pos|]; lia. }
  { lia. }
  split; [done|]. do 2 f_equal. apply bool_decide_ext. rewrite elem_of_seqZ.
  unfold page_inside. zlia.
Qed.

(** ** Lemmas: the memory map *)

(** Physical addresses are far below the wrap-around (the architecture has 52
    bits of them). *)
Definition PHYS_LIMIT : Z := 2 ^ 62.

Definition entry_ok (e : mmap_entry) : Prop :=
  0 <= e_addr e ∧ 0 <= e_len e ∧ e_addr e + e_len e <= PHYS_LIMIT.

(** Page [j] is RAM the map offers, above the first megabyte. *)
Definition entry_page (j : Z) (e : mmap_entry) : Prop :=
  e_type e = 1 ∧ page_inside j (Z.max (e_addr e) MIN_USABLE_ADDR) (e_addr e + e_len e).

Lemma usable_bounds e :
  entry_ok e →
  0 <= usable_start e ∧ usable_start e mod 4096 = 0 ∧
  Z.max (e_addr e) MIN_USABLE_ADDR <= usable_start e < Z.max (e_addr e) MIN_USABLE_ADDR + 4096 ∧
  usable_end e mod 4096 = 0 ∧ 0 <= usable_end e ∧
  e_addr e + e_len e - 4096 < usable_end e <= e_addr e + e_len e.
Proof.
  unfold entry_ok, usable_start, usable_end, PHYS_LIMIT, MIN_USABLE_ADDR. intros (? & ? & ?).
  rewrite max_u64_max, u64_small by (unfold is_u64; lia).
  destruct (align_up_page_bounds (Z.max (e_addr e) 1048576)) as [? ?]; [lia..|].
  destruct (align_down_page_bounds (e_addr e + e_len e)) as [? ?]; [unfold is_u64; lia|].
  unfold PAGE_SIZE in *. split_and!; try done; zlia.
Qed.

Lemma entry_page_usable j e :
  entry_ok e → page_inside j (usable_start e) (usable_end e) ↔
  page_inside j (Z.max (e_addr e) MIN_USABLE_ADDR) (e_addr e + e_len e).
Proof.
  intros He. destruct (usable_bounds e He) as (? & ? & ? & ? & ? & ?). unfold page_inside. zlia.
Qed.

Lemma mark_entries_bit total es bm j :
  Forall entry_ok es → 0 <= total <= 8 * Zlength bm → 0 <= j < total →
  length (foldl (mark_entry_free total) bm es) = length bm ∧
  (bm_bit (foldl (mark_entry_free total) bm es) j = false ↔
   Exists (entry_page j) es ∨ bm_bit bm j = false).
Proof.
  intros Hes. revert bm. induction Hes as [|e es He _ IH]; intros bm Ht Hj.
  { cbn. split; [done|]. rewrite Exists_nil. tauto. }
  cbn [foldl]. rewrite Exists_cons.
  destruct (usable_bounds e He) as (? & ? & ? & ? & ? & ?).
  unfold entry_ok, PHYS_LIMIT, MIN_USABLE_ADDR in *.
  assert (Hone : length (mark_entry_free total bm e) = length bm ∧
    (bm_bit (mark_entry_free total bm e) j = false ↔ entry_page j e ∨ bm_bit bm j = false)).
  { unfold mark_entry_free, entry_page. destruct (Z.eqb_spec (e_type e) 1); cbn [negb]; [|tauto].
    destruct (mark_free_bit total (usable_start e) (usable_end e) bm j) as [-> ->];
      [lia|lia|unfold is_u64; lia|done|done|]. split; [done|].
    rewrite andb_false_iff, negb_false_iff, bool_decide_eq_true, entry_page_usable by done.
    tauto. }
  destruct Hone as [Hl Hb].
  destruct (IH (mark_entry_free total bm e)) as [-> ->]; [unfold Zlength in *; by rewrite Hl|done|].
  rewrite Hl, Hb. tauto.
Qed.

Lemma max_usable_fold es acc :
  Forall entry_ok es → 0 <= acc <= PHYS_LIMIT → acc mod 4096 = 0 →
  let mx := foldl max_usable_step acc es in
  acc <= mx <= PHYS_LIMIT ∧ mx mod 4096 = 0 ∧
  ∀ j, Exists (entry_page j) es → (j + 1) * 4096 <= mx.
Proof.
  intros Hes. revert acc. induction Hes as [|e es He _ IH]; intros acc Ha Hm; cbn [foldl].
  { split_and!; try done; try lia. by intros j ?%Exists_nil. }
  destruct (usable_bounds e He) as (? & ? & ? & ? & ? & ?).
  set (acc' := max_usable_step acc e).
  assert (Hacc : acc <= acc' <= PHYS_LIMIT ∧ acc' mod 4096 = 0 ∧
                 ∀ j, entry_page j e → (j + 1) * 4096 <= acc').
  { unfold acc', max_usable_step, entry_page, page_inside. unfold entry_ok in He.
    destruct (Z.eqb_spec (e_type e) 1) as [->|]; cbn [negb].
    - case_ifs; split_and!; try done; try lia; intros; zlia.
    - split_and!; try done; try lia; tauto. }
  destruct Hacc as (? & ? & Hj).
  destruct (IH acc') as (? & ? & Hj'); [lia|done|]. split_and!; [lia..|done|].
  intros j [Hx|Hx]%Exists_cons; [|by apply Hj']. specialize (Hj j Hx). lia.
Qed.

Lemma recount_free_list total bm :
  0 <= total <= 2 ^ 52 → pmm_recount_free_frames total bm = Zlength (free_list_of total bm).
Proof.
  intros Ht. unfold pmm_recount_free_frames, free_list_of, Zlength.
  assert (Hl : Z.of_nat (length (seqZ 0 total)) <= 2 ^ 52) by (rewrite length_seqZ; lia).
  revert Hl. generalize (seqZ 0 total). intros l.
  assert (Hgen : ∀ acc, 0 <= acc → acc + Z.of_nat (length l) < 2 ^ 64 →
    foldl (λ n frame, if negb (bitmap_test bm frame) then u64 (n + 1) else n) acc l =
    acc + Z.of_nat (length (filter (λ f, bm_bit bm f = false) l))); [|intros; rewrite Hgen; lia].
  induction l as [|x l IH]; intros acc Ha Hacc; cbn [foldl]; [cbn; lia|].
  rewrite bitmap_test_bit, filter_cons. cbn [length] in Hacc.
  destruct (bm_bit bm x) eqn:Hx; cbn [negb]; case_decide; try congruence.
  - apply IH; lia.
  - rewrite u64_small by (unfold is_u64; lia). rewrite IH by lia. cbn [length]. lia.
Qed.

(** ** Lemmas: the search for a free region *)

Definition range_ok (r : reserved_range) : Prop := 0 <= r_start r ∧ r_end r <= PHYS_LIMIT.

Definition clear_of (p size : Z) (r : reserved_range) : Prop :=
  p + size <= r_start r ∨ r_end r <= p ∨ r_end r <= r_start r.

Lemma first_collision_spec cursor size rs :
  0 <= cursor → 0 < size → cursor + size < 2 ^ 64 →
  match first_collision cursor size rs with
  | None => Forall (clear_of cursor size) rs
  | Some re => ∃ r, r ∈ rs ∧ r_end r = re ∧ cursor < re ∧ r_start r < cursor + size ∧
                    r_start r < re
  end.
Proof.
  intros Hc Hsz Hov. induction rs as [|r rs IH]; [by constructor|]. cbn [first_collision].
  rewrite u64_small by (unfold is_u64; lia).
  destruct (ranges_overlap cursor (cursor + size) (r_start r) (r_end r)) eqn:Ho.
  - apply ranges_overlap_spec in Ho as (x & ? & ?). exists r. split_and!; [left|done|lia..].
  - destruct (first_collision cursor size rs) as [re|].
    + destruct IH as (r' & Hr & ?). exists r'. split; [by right|done].
    + constructor; [|done]. unfold clear_of.
      destruct (Z_lt_le_dec (Z.max cursor (r_start r)) (Z.min (cursor + size) (r_end r)))
        as [Hlt|]; [|lia].
      exfalso. apply eq_true_false_abs with (2 := Ho). apply ranges_overlap_spec.
      exists (Z.max cursor (r_start r)). lia.
Qed.

(** The reserves still ahead of the cursor: the measure of the loop. *)
Definition ahead (cursor : Z) (rs : list reserved_range) : nat :=
  length (filter (λ r, cursor < r_end r) rs).

Lemma ahead_decreases c c' rs r :
  r ∈ rs → c < r_end r <= c' → (ahead c' rs < ahead c rs)%nat.
Proof.
  intros Hr Hc.
  assert (Hmono : ∀ l, (ahead c' l <= ahead c l)%nat).
  { unfold ahead. intros l. induction l as [|x l IH]; [done|]. rewrite !filter_cons.
    do 2 case_decide; cbn [length]; lia. }
  induction rs as [|x rs IH]; [by apply not_elem_of_nil in Hr|].
  specialize (Hmono rs). unfold ahead in *. rewrite !filter_cons.
  apply elem_of_cons in Hr as [<-|Hr].
  - rewrite decide_False, decide_True by lia. cbn [length]. lia.
  - specialize (IH Hr). do 2 case_decide; cbn [length]; lia.
Qed.

(** A page-aligned place for [size] bytes between [lo] and [hi]. *)
Definition place_ok (rs : list reserved_range) (size lo hi p : Z) : Prop :=
  p mod 4096 = 0 ∧ lo <= p ∧ p + size <= hi ∧ Forall (clear_of p size) rs.

Lemma region_loop_spec fuel rs size lo cursor hi :
  0 < size <= PHYS_LIMIT → hi <= PHYS_LIMIT → Forall range_ok rs →
  0 <= lo <= cursor → cursor mod 4096 = 0 → cursor <= PHYS_LIMIT + 8192 →
  (∀ q, place_ok rs size lo hi q → cursor <= q) →
  (ahead cursor rs < fuel)%nat →
  ∃ res, region_loop fuel rs size cursor hi = Some res ∧
    match res with
    | Some p => place_ok rs size lo hi p ∧ ∀ q, place_ok rs size lo hi q → p <= q
    | None => ∀ q, ¬ place_ok rs size lo hi q
    end.
Proof.
  intros Hsz Hhi Hrs Hlo. revert cursor Hlo. unfold PHYS_LIMIT in *.
  induction fuel as [|fuel IH]; intros cursor Hlo Hal Hcur Hbelow Hf; [lia|].
  cbn [region_loop]. rewrite u64_small by (unfold is_u64; lia).
  destruct (Z.leb_spec (cursor + size) hi) as [Hfit|Hno].
  2:{ exists None. split; [done|]. intros q Hq. pose proof (Hbelow q Hq).
      destruct Hq as (_ & _ & ? & _). lia. }
  pose proof (first_collision_spec cursor size rs ltac:(lia) ltac:(lia) ltac:(lia)) as Hcol.
  destruct (first_collision cursor size rs) as [re|].
  2:{ exists (Some cursor). split; [done|]. split; [|done]. unfold place_ok. split_and!; done || lia. }
  destruct Hcol as (r & Hr & Hre & Hlt & Hst & Hne).
  pose proof (proj1 (Forall_forall _ _) Hrs r Hr) as [Hr0 Hr1]. unfold PHYS_LIMIT in Hr1.
  destruct (align_up_page_bounds re) as [Hup Hupal]; [lia..|]. unfold PAGE_SIZE in *.
  apply IH; [lia|done|lia| |].
  - intros q Hq. pose proof (Hbelow q Hq). destruct Hq as (Hqal & _ & _ & Hclear).
    pose proof (proj1 (Forall_forall _ _) Hclear r Hr) as Hc. unfold clear_of in Hc.
    assert (re <= q) by lia. zlia.
  - pose proof (ahead_decreases cursor (align_up_u64 re 4096) rs r Hr ltac:(lia)). lia.
Qed.

(** A place in an available region of the map. *)
Definition region_ok (es : list mmap_entry) (rs : list reserved_range) (size p : Z) : Prop :=
  ∃ e, e ∈ es ∧ e_type e = 1 ∧ place_ok rs size (usable_start e) (usable_end e) p.

Lemma find_region_in_spec es rs size :
  Forall entry_ok es → Forall range_ok rs → 0 < size <= PHYS_LIMIT →
  ∃ p, find_region_in rs size es = Some p ∧
    (p = 0 ∧ (∀ q, ¬ region_ok es rs size q) ∨ 0 < p ∧ region_ok es rs size p).
Proof.
  intros Hes Hrs Hsz. induction Hes as [|e es He _ IH]; cbn [find_region_in].
  { exists 0. split; [done|]. left. split; [done|]. intros q (e & ?%not_elem_of_nil & _). done. }
  destruct IH as (p & Hp & IH). destruct (usable_bounds e He) as (? & ? & ? & ? & ? & ?).
  unfold entry_ok, MIN_USABLE_ADDR in *.
  assert (Hskip : (∀ q, e_type e = 1 → ¬ place_ok rs size (usable_start e) (usable_end e) q) →
    p = 0 ∧ (∀ q, ¬ region_ok (e :: es) rs size q) ∨ 0 < p ∧ region_ok (e :: es) rs size p).
  { intros Hno. destruct IH as [[-> Hq]|[Hpos (e' & ? & ?)]].
    - left. split; [done|]. intros q (e' & [->|Hin]%elem_of_cons & Ht & Hpl).
      + by apply (Hno q).
      + apply (Hq q). by exists e'.
    - right. split; [done|]. exists e'. split; [by right|done]. }
  destruct (Z.eqb_spec (e_type e) 1) as [Ht|Ht]; cbn [negb].
  2:{ exists p. split; [done|]. apply Hskip. tauto. }
  destruct (Z.leb_spec (usable_end e) (usable_start e)).
  { exists p. split; [done|]. apply Hskip. intros q _ (_ & ? & ? & _). lia. }
  destruct (region_loop_spec (S (length rs)) rs size (usable_start e) (usable_start e) (usable_end e))
    as (res & -> & Hres); try done; try lia.
  { intros q (_ & ? & _). done. }
  { unfold ahead. pose proof (length_filter (λ r, usable_start e < r_end r) rs). lia. }
  destruct res as [c|].
  - destruct Hres as [Hpl _]. exists c. split; [done|]. right. split.
    + destruct Hpl as (_ & ? & _). lia.
    + exists e. split; [left|done].
  - exists p. split; [done|]. apply Hskip. intros q _. apply Hres.
Qed.

(** ** Lemmas: initialisation *)

Lemma page_meets_align f a b :
  0 <= a → a <= PHYS_LIMIT → 0 <= b <= PHYS_LIMIT →
  page_meets f (align_down_u64 a PAGE_SIZE) (align_up_u64 b PAGE_SIZE) ↔ page_meets f a b.
Proof.
  unfold PHYS_LIMIT. intros. rewrite align_down_page, align_up_page by (unfold is_u64; lia).
  unfold page_meets, PAGE_SIZE. zlia.
Qed.

(** The bitmap after every frame was marked used, the map's regions freed and
    the reserved ranges taken out again. *)
Definition init_bitmap (total bytes : Z) (es : list mmap_entry) (rs : list reserved_range)
    : list Z :=
  foldl (λ bm r, pmm_mark_range_used total (r_start r) (r_end r) bm)
    (foldl (mark_entry_free total) (replicate (Z.to_nat bytes) 0xFF) es) rs.

Lemma mark_ranges_bit total rs bm j :
  Forall (λ r, 0 <= r_start r < r_end r ∧ r_end r <= PHYS_LIMIT) rs →
  0 <= total <= 8 * Zlength bm → 0 <= j < total →
  let bm' := foldl (λ bm r, pmm_mark_range_used total (r_start r) (r_end r) bm) bm rs in
  length bm' = length bm ∧
  (bm_bit bm' j = false ↔
   Forall (λ r, ¬ page_meets j (r_start r) (r_end r)) rs ∧ bm_bit bm j = false).
Proof.
  intros Hrs. revert bm. induction Hrs as [|r rs [Hr Hlim] _ IH]; intros bm Ht Hj; cbn [foldl].
  { split; [done|]. rewrite Forall_nil. tauto. }
  unfold PHYS_LIMIT in *.
  destruct (mark_used_bit total (r_start r) (r_end r) bm j) as [Hl Hb]; [lia..|].
  destruct (IH (pmm_mark_range_used total (r_start r) (r_end r) bm)) as [-> ->];
    [unfold Zlength in *; by rewrite Hl|done|].
  split; [done|]. rewrite Hb, orb_false_iff, bool_decide_eq_false, Forall_cons. tauto.
Qed.

Lemma replicate_ff_bit bytes j : 0 <= j < 8 * bytes → bm_bit (replicate (Z.to_nat bytes) 0xFF) j = true.
Proof.
  intros Hj. unfold bm_bit, arr_get. rewrite list_lookup_total_alt.
  rewrite lookup_replicate_2 by zlia.
  change (Z.testbit (Z.ones 8) (j mod 8) = true). apply Z.ones_spec_low. apply Z.mod_pos_bound. lia.
Qed.

Lemma init_bitmap_bit total bytes es rs j :
  Forall entry_ok es → Forall (λ r, 0 <= r_start r < r_end r ∧ r_end r <= PHYS_LIMIT) rs →
  0 <= total <= 8 * bytes → 0 <= j < total →
  Zlength (init_bitmap total bytes es rs) = bytes ∧
  (bm_bit (init_bitmap total bytes es rs) j = false ↔
   Exists (entry_page j) es ∧ Forall (λ r, ¬ page_meets j (r_start r) (r_end r)) rs).
Proof.
  intros Hes Hrs Ht Hj. unfold init_bitmap.
  assert (Hl0 : Zlength (replicate (Z.to_nat bytes) 0xFF) = bytes)
    by (unfold Zlength; rewrite length_replicate; lia).
  destruct (mark_entries_bit total es (replicate (Z.to_nat bytes) 0xFF) j) as [Hl Hb];
    [done|lia|done|].
  destruct (mark_ranges_bit total rs
    (foldl (mark_entry_free total) (replicate (Z.to_nat bytes) 0xFF) es) j) as [Hl' Hb'];
    [done|unfold Zlength in *; rewrite Hl; lia|done|].
  cbv zeta in Hl', Hb'. unfold Zlength in *. rewrite Hl', Hl, Hb', Hb, replicate_ff_bit by lia.
  split; [done|]. naive_solver.
Qed.

Lemma init_bitmap_length total bytes es rs :
  Forall entry_ok es → Forall (λ r, 0 <= r_start r < r_end r ∧ r_end r <= PHYS_LIMIT) rs →
  0 < total <= 8 * bytes → Zlength (init_bitmap total bytes es rs) = bytes.
Proof. intros Hes Hrs Ht. apply (init_bitmap_bit total bytes es rs 0); [done..|lia|lia]. Qed.

(** The ranges that initialisation keeps out: the first megabyte, the kernel
    image and the multiboot block, by whole pages. *)
Definition boot_ranges (ks ke info info_end : Z) : list reserved_range :=
  [MkRange 0 MIN_USABLE_ADDR;
   MkRange (align_down_u64 ks PAGE_SIZE) (align_up_u64 ke PAGE_SIZE);
   MkRange (align_down_u64 info PAGE_SIZE) (align_up_u64 info_end PAGE_SIZE)].

Lemma boot_ranges_ok ks ke info info_end :
  0 <= ks < ke → ke + 4096 <= PHYS_LIMIT → 0 <= info < info_end → info_end + 4096 <= PHYS_LIMIT →
  Forall (λ r, 0 <= r_start r < r_end r ∧ r_end r <= PHYS_LIMIT) (boot_ranges ks ke info info_end).
Proof.
  intros Hk Hke Hi Hie. unfold PHYS_LIMIT in *.
  destruct (align_up_page_bounds ke) as [Hkup _]; [lia..|].
  destruct (align_up_page_bounds info_end) as [Hiup _]; [lia..|].
  destruct (align_down_page_bounds ks) as [Hkdn _]; [unfold is_u64; lia|].
  destruct (align_down_page_bounds info) as [Hidn _]; [unfold is_u64; lia|].
  pose proof (proj1 (land_range_l ks (u64 (Z.lnot (u64 (PAGE_SIZE - 1)))) 64 ltac:(lia) ltac:(lia))) as Hk0.
  pose proof (proj1 (land_range_l info (u64 (Z.lnot (u64 (PAGE_SIZE - 1)))) 64 ltac:(lia) ltac:(lia))) as Hi0.
  fold (align_down_u64 ks PAGE_SIZE) in Hk0. fold (align_down_u64 info PAGE_SIZE) in Hi0.
  unfold boot_ranges, MIN_USABLE_ADDR. repeat constructor; cbn; lia.
Qed.

(** The frames that are free in the initial bitmap, which is at [p]. *)
Lemma init_free_frames ks ke info info_end p size total bytes es f :
  Forall entry_ok es → 0 <= ks < ke → ke + 4096 <= PHYS_LIMIT → 0 <= info < info_end → info_end + 4096 <= PHYS_LIMIT →
  0 <= p < p + size → p + size <= PHYS_LIMIT → 0 < total <= 8 * bytes →
  (∀ j, Exists (entry_page j) es → (j + 1) * 4096 <= total * 4096) →
  f ∈ free_list_of total (init_bitmap total bytes es (boot_ranges ks ke info info_end ++ [MkRange p (p + size)])) ↔
  Exists (entry_page f) es ∧ ¬ page_meets f ks ke ∧ ¬ page_meets f info info_end ∧ ¬ page_meets f p (p + size).
Proof.
  intros Hok Hk Hke Hi Hie Hp Hpl Ht Hmxj. rewrite elem_of_free_list_of.
  assert (Hrs : Forall (λ r, 0 <= r_start r < r_end r ∧ r_end r <= PHYS_LIMIT) (boot_ranges ks ke info info_end ++ [MkRange p (p + size)])).
  { apply Forall_app. split; [by apply boot_ranges_ok|]. apply Forall_singleton. cbn. lia. }
  unfold PHYS_LIMIT in *. split.
  - intros [Hf Hbit]. apply init_bitmap_bit in Hbit as [Hex Hcl]; [|done..|lia|done].
    split; [done|]. cbn in Hcl. repeat (apply Forall_cons in Hcl as [? Hcl]). cbn in *.
    rewrite page_meets_align in * by (unfold PHYS_LIMIT; lia). by split_and!.
  - intros (Hex & H1 & H2 & H3).
    assert (Hf : 0 <= f < total ∧ ¬ page_meets f 0 MIN_USABLE_ADDR).
    { pose proof (Hmxj f Hex). apply Exists_exists in Hex as (e & He & _ & Hin & _).
      unfold page_inside, page_meets, MIN_USABLE_ADDR in *. lia. }
    destruct Hf as [Hf Hlow]. split; [done|]. apply init_bitmap_bit; [done..|lia|done|]. split; [done|].
    cbn. repeat (apply Forall_cons; split); [done| | |done|constructor];
      cbn; by rewrite page_meets_align by (unfold PHYS_LIMIT; lia).
Qed.

(** ** Specification: a set of free frames *)

Inductive pmm_op := PAlloc | PFree (addr : Z).

Definition pmm_do (o : pmm_op) (s : pmm) : Z * pmm :=
  match o with
  | PAlloc => pmm_alloc_frame s
  | PFree a => (0, pmm_free_frame a s)
  end.

(** The address names a frame of the machine. *)
Definition frame_addr_ok (total a : Z) : Prop := a mod PAGE_SIZE = 0 ∧ 0 <= a / PAGE_SIZE < total.

Inductive pmm_spec (total : Z) : gset Z → pmm_op → Z → gset Z → Prop :=
  | spec_alloc F f :
      f ∈ F → (∀ g, g ∈ F → f <= g) → pmm_spec total F PAlloc (f * PAGE_SIZE) (F ∖ {[f]})
  | spec_alloc_none : pmm_spec total ∅ PAlloc 0 ∅
  | spec_free F a :
      frame_addr_ok total a → pmm_spec total F (PFree a) 0 (F ∪ {[a / PAGE_SIZE]})
  | spec_free_bad F a :
      ¬ frame_addr_ok total a → pmm_spec total F (PFree a) 0 F.

Definition free_set (s : pmm) : gset Z := list_to_set (free_list s).

Lemma free_list_NoDup s : NoDup (free_list s).
Proof.
  unfold free_list, free_list_of. destruct (pmm_bitmap s); [|constructor].
  apply NoDup_filter, NoDup_seqZ.
Qed.

Lemma pmm_free_frame_bad s bm a :
  pmm_bitmap s = Some bm → ¬ frame_addr_ok (pmm_total_frames s) a → 0 <= a →
  pmm_free_frame a s = s.
Proof.
  intros Hbm Hbad Ha. unfold pmm_free_frame, frame_addr_ok in *. rewrite Hbm. cbv zeta.
  destruct (Z.eqb_spec (a mod PAGE_SIZE) 0); cbn [negb]; [|done].
  destruct (Z.leb_spec (pmm_total_frames s) (a / PAGE_SIZE)); [done|].
  exfalso. apply Hbad. split; [done|]. split; [apply Z.div_pos; [done|unfold PAGE_SIZE; lia]|done].
Qed.

Lemma pmm_free_frame_again s bm f :
  pmm_wf s → pmm_bitmap s = Some bm → f ∈ free_list s → pmm_free_frame (f * PAGE_SIZE) s = s.
Proof.
  intros Hwf Hbm Hf. unfold free_list in Hf. rewrite Hbm in Hf.
  apply elem_of_free_list_of in Hf as [Hf Hbit]. unfold pmm_free_frame. rewrite Hbm.
  rewrite Z_mod_mult, Z.div_mul by done. cbn [Z.eqb negb]. cbv zeta.
  rewrite (proj2 (Z.leb_gt _ _)) by lia. by rewrite bitmap_test_bit, Hbit.
Qed.

(** One operation is one step of the specification and keeps the invariant. *)
Lemma pmm_do_refines o s bm :
  pmm_wf s → pmm_bitmap s = Some bm → (∀ a, o = PFree a → 0 <= a) →
  let '(r, s') := pmm_do o s in
  pmm_spec (pmm_total_frames s) (free_set s) o r (free_set s') ∧ pmm_wf s' ∧
  pmm_total_frames s' = pmm_total_frames s ∧ ∃ bm', pmm_bitmap s' = Some bm'.
Proof.
  intros Hwf Hbm Ho. destruct o as [|a]; cbn [pmm_do].
  - pose proof (pmm_alloc_frame_spec s bm Hwf Hbm) as Hspec. unfold free_set.
    destruct (free_list s) as [|f rest] eqn:Hfl.
    + rewrite Hspec, Hfl. split_and!; [constructor|done|done|by exists bm].
    + destruct (pmm_alloc_frame s) as [r s'].
      destruct Hspec as (-> & Hfl' & Hwf' & Hbm' & Ht & _ & _). rewrite Hfl'.
      split_and!; [|done|done|by eexists].
      pose proof (free_list_NoDup s) as Hnd. rewrite Hfl in Hnd. apply NoDup_cons in Hnd as [Hf _].
      replace (list_to_set rest : gset Z) with (list_to_set (f :: rest) ∖ {[f]} : gset Z)
        by set_solver.
      apply spec_alloc; [set_solver|]. intros g [->|Hg]%elem_of_list_to_set%elem_of_cons; [done|].
      unfold free_list in Hfl. rewrite Hbm in Hfl.
      pose proof (filter_seqZ_least _ _ _ _ _ g Hfl Hg). lia.
  - specialize (Ho a eq_refl).
    destruct (decide (frame_addr_ok (pmm_total_frames s) a)) as [Hok|Hbad].
    2:{ rewrite (pmm_free_frame_bad s bm) by done. split_and!; [by apply spec_free_bad|done|done|by eexists]. }
    pose proof Hok as [Hmod Hr]. set (f := a / PAGE_SIZE) in *.
    assert (Ha : a = f * PAGE_SIZE) by (unfold f, PAGE_SIZE in *; zlia).
    destruct (decide (f ∈ free_list s)) as [Hin|Hnin].
    + rewrite Ha, (pmm_free_frame_again s bm) by done. split_and!; [|done|done|by eexists].
      replace (free_set s) with (free_set s ∪ {[f]}) at 2 by (unfold free_set; set_solver).
      rewrite <- Ha. by apply spec_free.
    + destruct (pmm_free_frame_spec s bm f Hwf Hbm Hr Hnin) as (Hp & Hwf' & Hbm' & Ht & _).
      rewrite <- Ha in *. split_and!; [|done|done|by eexists].
      unfold free_set at 2. rewrite Hp. cbn [list_to_set].
      replace ({[f]} ∪ list_to_set (free_list s) : gset Z) with (free_set s ∪ {[f]})
        by (unfold free_set; set_solver).
      by apply spec_free.
Qed.

(** Runs of operations, with their results. *)
Fixpoint pmm_run (os : list pmm_op) (s : pmm) : list Z * pmm :=
  match os with
  | [] => ([], s)
  | o :: rest =>
      let '(r, s1) := pmm_do o s in
      let '(rs, s2) := pmm_run rest s1 in (r :: rs, s2)
  end.

Inductive pmm_spec_run (total : Z) : gset Z → list pmm_op → list Z → gset Z → Prop :=
  | spec_run_nil F : pmm_spec_run total F [] [] F
  | spec_run_cons F o r F1 os rs F2 :
      pmm_spec total F o r F1 → pmm_spec_run total F1 os rs F2 →
      pmm_spec_run total F (o :: os) (r :: rs) F2.

Definition addrs_ok (os : list pmm_op) : Prop :=
  Forall (λ o, match o with PAlloc => True | PFree a => 0 <= a end) os.

Lemma pmm_run_refines os s bm :
  addrs_ok os → pmm_wf s → pmm_bitmap s = Some bm →
  let '(rs, s') := pmm_run os s in
  pmm_spec_run (pmm_total_frames s) (free_set s) os rs (free_set s') ∧ pmm_wf s'.
Proof.
  intros Hos. revert s bm. induction Hos as [|o os Ho _ IH]; intros s bm Hwf Hbm; cbn [pmm_run].
  { split; [constructor|done]. }
  pose proof (pmm_do_refines o s bm Hwf Hbm ltac:(by intros a ->)) as Hdo.
  destruct (pmm_do o s) as [r s1]. destruct Hdo as (Hsp & Hwf1 & Ht & bm1 & Hbm1).
  specialize (IH s1 bm1 Hwf1 Hbm1). destruct (pmm_run os s1) as [rs s2]. rewrite Ht in IH.
  destruct IH as [Hrun Hwf2]. split; [|done]. by econstructor.
Qed.

(** A frame outside the free set is not handed out while nobody frees it. *)
Lemma pmm_spec_run_avoids total F os rs F' f :
  pmm_spec_run total F os rs F' → f ∉ F → Forall (λ o, o ≠ PFree (f * PAGE_SIZE)) os →
  f ≠ 0 → f * PAGE_SIZE ∉ rs.
Proof.
  intros Hrun. induction Hrun as [|F o r F1 os rs F2 Hs _ IH]; intros Hf Hos H0.
  { apply not_elem_of_nil. }
  apply Forall_cons in Hos as [Ho Hos].
  assert (Hf1 : f ∉ F1).
  { destruct Hs as [| |F a [Hm _]|]; [set_solver|done| |done].
    apply not_elem_of_union. split; [done|]. rewrite elem_of_singleton. intros ->.
    apply Ho. f_equal. unfold PAGE_SIZE in *. zlia. }
  apply not_elem_of_cons. split; [|by apply IH].
  destruct Hs; unfold PAGE_SIZE in *; try lia. intros Heq.
  assert (f = f0) by lia. by subst.
Qed.

(** ** Properties *)

(** C1: the bitmap allocator implements a set of free frames, over every sequence
    of operations: an allocation takes the lowest free frame and returns its
    address, or returns 0 when no frame is free; freeing adds the frame, or
    changes nothing for an unaligned or out-of-range address (freeing twice is
    harmless); the counter is always the size of the set. *)
Theorem pmm_refines_free_set os s bm :
  addrs_ok os → pmm_wf s → pmm_bitmap s = Some bm →
  let '(rs, s') := pmm_run os s in
  pmm_spec_run (pmm_total_frames s) (free_set s) os rs (free_set s') ∧
  pmm_wf s' ∧ (pmm_bitmap s' ≠ None → pmm_free_frame_count s' = Z.of_nat (size (free_set s'))).
Proof.
  intros Hos Hwf Hbm. pose proof (pmm_run_refines os s bm Hos Hwf Hbm) as Hrun.
  destruct (pmm_run os s) as [rs s']. destruct Hrun as [Hrun Hwf']. split_and!; [done..|].
  intros Hn. unfold pmm_free_frame_count, free_set.
  rewrite size_list_to_set by apply free_list_NoDup.
  unfold pmm_wf in Hwf'. destruct (pmm_bitmap s'); [|done]. by destruct Hwf' as (_ & _ & ?).
Qed.

(** Sixteen frames, the first three used. *)
Definition sample_pmm : pmm := MkPmm (Some [7; 0]) 16 13 2 0x3000 0x4000 0x10000.

Lemma sample_pmm_wf : pmm_wf sample_pmm.
Proof. vm_compute. split_and!; done. Qed.

Lemma pmm_refines_free_set_witness :
  (pmm_run [PAlloc; PAlloc; PFree 0x3000; PAlloc] sample_pmm).1 = [0x3000; 0x4000; 0; 0x3000] ∧
  pmm_wf (pmm_run [PAlloc; PAlloc; PFree 0x3000; PAlloc] sample_pmm).2.
Proof.
  split; [reflexivity|].
  pose proof (pmm_refines_free_set [PAlloc; PAlloc; PFree 0x3000; PAlloc] sample_pmm [7; 0]) as H.
  destruct (pmm_run _ sample_pmm) as [rs s'] eqn:Hrun.
  apply H; [repeat constructor; lia|apply sample_pmm_wf|done].
Defined.

(** A frame that was handed out is not handed out again before it is freed,
    whatever else is allocated and freed in between. *)
Theorem pmm_no_double_allocation s s1 a os :
  pmm_wf s → pmm_bitmap s ≠ None → pmm_alloc_frame s = (a, s1) → a ≠ 0 →
  addrs_ok os → PFree a ∉ os → a ∉ (pmm_run os s1).1.
Proof.
  intros Hwf Hn Halloc Ha Hos Hnf. destruct (pmm_bitmap s) as [bm|] eqn:Hbm; [|done].
  pose proof (pmm_alloc_frame_spec s bm Hwf Hbm) as Hspec. rewrite Halloc in Hspec.
  destruct (free_list s) as [|f rest] eqn:Hfl; [by injection Hspec as ->|].
  destruct Hspec as (-> & Hfl1 & Hwf1 & Hbm1 & _).
  pose proof (pmm_run_refines os s1 _ Hos Hwf1 Hbm1) as Hrun.
  destruct (pmm_run os s1) as [rs s2]. destruct Hrun as [Hrun _].
  pose proof (free_list_NoDup s) as Hnd. rewrite Hfl in Hnd. apply NoDup_cons in Hnd as [Hnin _].
  eapply pmm_spec_run_avoids; [done| | |].
  - unfold free_set. rewrite Hfl1. set_solver.
  - apply Forall_forall. by intros o Ho ->.
  - intros ->. done.
Qed.

Lemma pmm_no_double_allocation_witness :
  0x3000 ∉ (pmm_run [PAlloc; PFree 0x4000; PAlloc; PAlloc] (pmm_alloc_frame sample_pmm).2).1.
Proof.
  apply (pmm_no_double_allocation sample_pmm _ 0x3000);
    [apply sample_pmm_wf|done|done|done|repeat constructor; lia|set_solver].
Defined.

(** The search for a place for the bitmap always ends, each reserved range costs
    it at most one round; the place it returns is page-aligned, inside an
    available region and clear of every reserved range, and it gives up (0) only
    when no such place exists anywhere in the map. *)
Theorem pmm_find_free_region_complete m mmap es rs size :
  mmap_entries m mmap = Some es → Forall entry_ok es → Forall range_ok rs →
  0 < size → size + 4095 <= PHYS_LIMIT →
  let size' := align_up_u64 size PAGE_SIZE in
  ∃ p, pmm_find_free_region m mmap rs size = Some p ∧
    (p = 0 ∧ (∀ q, ¬ region_ok es rs size' q) ∨ 0 < p ∧ region_ok es rs size' p).
Proof.
  intros Hes Hok Hrs Hsz Hlim size'. unfold pmm_find_free_region. rewrite Hes.
  unfold PHYS_LIMIT in *. destruct (align_up_page_bounds size) as [? _]; [lia..|].
  apply find_region_in_spec; [done..|]. unfold PHYS_LIMIT. lia.
Qed.

Lemma pmm_find_free_region_complete_witness :
  let m := mem_of 0x10000 (le_list 4 6 ++ le_list 4 40 ++ le_list 4 24 ++ le_list 4 0 ++
    le_list 8 0x100000 ++ le_list 8 0x700000 ++ le_list 4 1 ++ le_list 4 0) in
  pmm_find_free_region m 0x10000 [MkRange 0 0x100000; MkRange 0x100000 0x120000] 100
    = Some 0x120000 ∧
  region_ok [MkEntry 0x100000 0x700000 1 0]
    [MkRange 0 0x100000; MkRange 0x100000 0x120000] 4096 0x120000.
Proof.
  intros m. split; [reflexivity|].
  destruct (pmm_find_free_region_complete m 0x10000 [MkEntry 0x100000 0x700000 1 0]
    [MkRange 0 0x100000; MkRange 0x100000 0x120000] 100) as (p & Hp & [[-> _]|[_ Hr]]).
  - reflexivity.
  - repeat constructor; vm_compute; congruence.
  - repeat constructor; vm_compute; congruence.
  - lia.
  - vm_compute. congruence.
  - vm_compute in Hp. discriminate.
  - assert (p = 0x120000) as -> by (vm_compute in Hp; congruence). exact Hr.
Defined.


(** A machine with 192 KiB above the first megabyte, the kernel in the first
    64 KiB of it. *)
Definition sample_boot : mem := mem_of 0x10000
  (le_list 4 56 ++ le_list 4 0 ++
   le_list 4 6 ++ le_list 4 40 ++ le_list 4 24 ++ le_list 4 0 ++
   le_list 8 0x100000 ++ le_list 8 0x30000 ++ le_list 4 1 ++ le_list 4 0 ++
   le_list 4 0 ++ le_list 4 8).

