(* ===== verification/Vmm.v ===== *)
(** * The virtual memory manager ([src/kernel/vmm.c])

    Four levels of page tables, 512 entries of 8 bytes each, in physical memory.
    The kernel runs with its low memory identity-mapped, so the code
    dereferences the physical address of a table as a pointer; [words] is that
    memory, by the address of the 8-byte word. New tables come from [Pmm]. *)

From S2P Require Import Prelude Utils CString Print Pmm.

Definition PTE_PRESENT : Z := 0x001.
Definition PTE_WRITABLE : Z := 0x002.
Definition PTE_USER : Z := 0x004.
Definition PTE_HUGE : Z := 0x080.
Definition PTE_ADDR_MASK : Z := 0x000FFFFFFFFFF000.
Definition VMM_TEST_VIRT : Z := 0x0000000040000000.
Definition VMM_UNMAP_TEST_VIRT : Z := 0x0000000040001000.

(** Physical words, the CR3 register, the frame allocator, the addresses
    [invlpg] was executed on (latest first) and what was printed. *)
Record vm := MkVm {
  words : gmap Z Z;
  cr3 : Z;
  frames : pmm;
  flushed : list Z;
  vm_out : output
}.

Definition rdw (st : vm) (a : Z) : Z := default 0 (words st !! a).

Definition wrw (a x : Z) (st : vm) : vm :=
  MkVm (<[a := x]> (words st)) (cr3 st) (frames st) (flushed st) (vm_out st).
Definition set_frames (p : pmm) (st : vm) : vm :=
  MkVm (words st) (cr3 st) p (flushed st) (vm_out st).
Definition vm_print (o : output) (st : vm) : vm :=
  MkVm (words st) (cr3 st) (frames st) (flushed st) (vm_out st ++ o).

Definition read_cr3 (st : vm) : Z := cr3 st.

Definition invlpg (virt_addr : Z) (st : vm) : vm :=
  MkVm (words st) (cr3 st) (frames st) (virt_addr :: flushed st) (vm_out st).

(** [pmm_alloc_frame] and [pmm_free_frame] on the machine. *)
Definition alloc_frame (st : vm) : Z * vm :=
  let '(a, p) := pmm_alloc_frame (frames st) in (a, set_frames p st).
Definition free_frame (a : Z) (st : vm) : vm := set_frames (pmm_free_frame a (frames st)) st.

(** [table[index]] is the word at [table + 8 * index]. *)
Definition slot (table index : Z) : Z := table + 8 * index.

Definition zero_page (phys_addr : Z) (st : vm) : vm :=
  foldl (λ st i, wrw (slot phys_addr i) 0 st) st (seqZ 0 512).

(** The next table, 0 for a null result. *)
Definition vmm_get_or_create_next_table (table index : Z) (st : vm) : Z * vm :=
  let entry := rdw st (slot table index) in
  if entry &? PTE_PRESENT then
    if entry &? PTE_HUGE then (0, st) else (Z.land entry PTE_ADDR_MASK, st)
  else
    let '(new_table_phys, st) := alloc_frame st in
    if new_table_phys =? 0 then (0, st)
    else
      let st := zero_page new_table_phys st in
      let st := wrw (slot table index)
                  (Z.lor (Z.lor new_table_phys PTE_PRESENT) PTE_WRITABLE) st in
      (new_table_phys, st).

Definition pml4_index (virt_addr : Z) : Z := Z.land (Z.shiftr virt_addr 39) 0x1FF.
Definition pdpt_index (virt_addr : Z) : Z := Z.land (Z.shiftr virt_addr 30) 0x1FF.
Definition pd_index (virt_addr : Z) : Z := Z.land (Z.shiftr virt_addr 21) 0x1FF.
Definition pt_index (virt_addr : Z) : Z := Z.land (Z.shiftr virt_addr 12) 0x1FF.

(** The address of the page-table entry; [None] is the null pointer. *)
Definition vmm_get_pte_ptr (virt_addr : Z) (st : vm) : option Z :=
  let virt_addr := align_down_u64 virt_addr PAGE_SIZE in
  let pml4 := Z.land (read_cr3 st) PTE_ADDR_MASK in
  let pml4e := rdw st (slot pml4 (pml4_index virt_addr)) in
  if negb (pml4e &? PTE_PRESENT) then None
  else if pml4e &? PTE_HUGE then None
  else
    let pdpt := Z.land pml4e PTE_ADDR_MASK in
    let pdpte := rdw st (slot pdpt (pdpt_index virt_addr)) in
    if negb (pdpte &? PTE_PRESENT) then None
    else if pdpte &? PTE_HUGE then None
    else
      let pd := Z.land pdpte PTE_ADDR_MASK in
      let pde := rdw st (slot pd (pd_index virt_addr)) in
      if negb (pde &? PTE_PRESENT) then None
      else if pde &? PTE_HUGE then None
      else
        let pt := Z.land pde PTE_ADDR_MASK in
        Some (slot pt (pt_index virt_addr)).

Definition vmm_map_page (virt_addr phys_addr flags : Z) (st : vm) : vm :=
  let virt_addr := align_down_u64 virt_addr PAGE_SIZE in
  let phys_addr := align_down_u64 phys_addr PAGE_SIZE in
  let pml4 := Z.land (read_cr3 st) PTE_ADDR_MASK in
  let '(pdpt, st) := vmm_get_or_create_next_table pml4 (pml4_index virt_addr) st in
  if pdpt =? 0 then vm_print (color_line "vmm_map_page: failed at PDPT" COLOR_RED_ON_BLACK) st
  else
    let '(pd, st) := vmm_get_or_create_next_table pdpt (pdpt_index virt_addr) st in
    if pd =? 0 then vm_print (color_line "vmm_map_page: failed at PD" COLOR_RED_ON_BLACK) st
    else
      let '(pt, st) := vmm_get_or_create_next_table pd (pd_index virt_addr) st in
      if pt =? 0 then vm_print (color_line "vmm_map_page: failed at PT" COLOR_RED_ON_BLACK) st
      else
        let st := wrw (slot pt (pt_index virt_addr))
                    (Z.lor (Z.lor phys_addr flags) PTE_PRESENT) st in
        invlpg virt_addr st.

Definition vmm_unmap_page (virt_addr : Z) (free_phys : bool) (st : vm) : Z * vm :=
  let virt_addr := align_down_u64 virt_addr PAGE_SIZE in
  match vmm_get_pte_ptr virt_addr st with
  | None => (0, st)
  | Some pte =>
      if negb (rdw st pte &? PTE_PRESENT) then (0, st)
      else
        let phys_addr := Z.land (rdw st pte) PTE_ADDR_MASK in
        let st := wrw pte 0 st in
        let st := invlpg virt_addr st in
        let st := if free_phys && negb (phys_addr =? 0) then free_frame phys_addr st else st in
        (phys_addr, st)
  end.

Definition vmm_get_mapping (virt_addr : Z) (st : vm) : Z :=
  let virt_addr := align_down_u64 virt_addr PAGE_SIZE in
  let pml4 := Z.land (read_cr3 st) PTE_ADDR_MASK in
  let pml4e := rdw st (slot pml4 (pml4_index virt_addr)) in
  if negb (pml4e &? PTE_PRESENT) then 0
  else
    let pdpt := Z.land pml4e PTE_ADDR_MASK in
    let pdpte := rdw st (slot pdpt (pdpt_index virt_addr)) in
    if negb (pdpte &? PTE_PRESENT) then 0
    else if pdpte &? PTE_HUGE then
      u64 (Z.land pdpte PTE_ADDR_MASK + Z.land virt_addr 0x3FFFFFFF)
    else
      let pd := Z.land pdpte PTE_ADDR_MASK in
      let pde := rdw st (slot pd (pd_index virt_addr)) in
      if negb (pde &? PTE_PRESENT) then 0
      else if pde &? PTE_HUGE then
        u64 (Z.land pde PTE_ADDR_MASK + Z.land virt_addr 0x1FFFFF)
      else
        let pt := Z.land pde PTE_ADDR_MASK in
        let pte := rdw st (slot pt (pt_index virt_addr)) in
        if negb (pte &? PTE_PRESENT) then 0
        else u64 (Z.land pte PTE_ADDR_MASK + Z.land virt_addr 0xFFF).

(** A load and a store of the code through a virtual address: the hardware
    translates with the same tables. *)
Definition mmu_addr (v : Z) (st : vm) : Z := vmm_get_mapping v st + Z.land v 0xFFF.
Definition mmu_load (v : Z) (st : vm) : Z := rdw st (mmu_addr v st).
Definition mmu_store (v x : Z) (st : vm) : vm := wrw (mmu_addr v st) x st.

Definition vmm_test_mapping (st : vm) : vm :=
  let st := vm_print (color_line "[VMM map test]" COLOR_YELLOW_ON_BLACK) st in
  let virt := VMM_TEST_VIRT in
  let '(phys, st) := alloc_frame st in
  let st := vm_print (print_field_hex "test virt = " virt ++ print_field_hex "new phys  = " phys) st in
  if phys =? 0 then
    vm_print (color_line "failed to alloc frame for VMM test" COLOR_RED_ON_BLACK) st
  else
    let st := vmm_map_page virt phys PTE_WRITABLE st in
    let mapped := vmm_get_mapping virt st in
    let st := vm_print (print_field_hex "mapped to = " mapped) st in
    if negb (mapped =? phys) then vm_print (color_line "mapping FAILED" COLOR_RED_ON_BLACK) st
    else
      let st := mmu_store virt 0x1122334455667788 st in
      let st := mmu_store (virt + 8) 0xAABBCCDDEEFF0011 st in
      let st := vm_print (print_field_hex "read [0]  = " (mmu_load virt st)) st in
      let st := vm_print (print_field_hex "read [1]  = " (mmu_load (virt + 8) st)) st in
      let st :=
        if (mmu_load virt st =? 0x1122334455667788) &&
           (mmu_load (virt + 8) st =? 0xAABBCCDDEEFF0011)
        then vm_print (color_line "VMM mapping OK" COLOR_GREEN_ON_BLACK) st
        else vm_print (color_line "VMM mapping memory test FAILED" COLOR_RED_ON_BLACK) st in
      vm_print (print_field_dec "free frames after VMM test = "
                  (pmm_free_frame_count (frames st))) st.

Definition vmm_test_unmap (st : vm) : vm :=
  let st := vm_print (color_line "[VMM unmap test]" COLOR_YELLOW_ON_BLACK) st in
  let free_before := pmm_free_frame_count (frames st) in
  let virt := VMM_UNMAP_TEST_VIRT in
  let '(phys, st) := alloc_frame st in
  let st := vm_print (print_field_dec "free before = " free_before ++
                      print_field_hex "test virt   = " virt ++
                      print_field_hex "new phys    = " phys) st in
  if phys =? 0 then
    vm_print (color_line "failed to alloc frame for unmap test" COLOR_RED_ON_BLACK) st
  else
    let st := vmm_map_page virt phys PTE_WRITABLE st in
    let mapped := vmm_get_mapping virt st in
    let st := vm_print (print_field_hex "mapped to   = " mapped) st in
    if negb (mapped =? phys) then
      vm_print (color_line "mapping before unmap FAILED" COLOR_RED_ON_BLACK) st
    else
      let st := mmu_store virt 0xCAFEBABE12345678 st in
      let st := vm_print (print_field_hex "read before = " (mmu_load virt st)) st in
      let '(unmapped_phys, st) := vmm_unmap_page virt true st in
      let mapped_after := vmm_get_mapping virt st in
      let st := vm_print (print_field_hex "unmapped    = " unmapped_phys ++
                          print_field_hex "mapped after= " mapped_after ++
                          print_field_dec "free after  = " (pmm_free_frame_count (frames st))) st in
      if (unmapped_phys =? phys) && (mapped_after =? 0) &&
         (pmm_free_frame_count (frames st) =? free_before)
      then vm_print (color_line "VMM unmap OK" COLOR_GREEN_ON_BLACK) st
      else vm_print (color_line "VMM unmap FAILED" COLOR_RED_ON_BLACK) st.

(** ** Lemmas: entries and indices *)

Abbreviation present e := (e &? PTE_PRESENT).
Abbreviation huge e := (e &? PTE_HUGE).

Lemma addr_mask x : 0 <= x → Z.land x PTE_ADDR_MASK = x mod 2 ^ 52 / 4096 * 4096.
Proof.
  intros Hx. change PTE_ADDR_MASK with (Z.land (Z.ones 52) (u64 (Z.lnot (2 ^ 12 - 1)))).
  rewrite Z.land_assoc, Z.land_ones by lia.
  apply (land_align_mask _ 12); [|lia]. pose proof (Z.mod_pos_bound x (2 ^ 52)).
  unfold is_u64. lia.
Qed.

Lemma lor_low n k f : 0 <= k → 0 <= f < 2 ^ k → n mod 2 ^ k = 0 → Z.lor n f = n + f.
Proof.
  intros Hk Hf Hn. rewrite <- Z.add_lor_land. replace (Z.land n f) with 0; [lia|].
  symmetry. apply Z.bits_inj'. intros i Hi. rewrite Z.land_spec, Z.testbit_0_l.
  destruct (Z_lt_le_dec i k).
  - rewrite <- (Z.mod_pow2_bits_low n k i), Hn, Z.testbit_0_l by lia. done.
  - rewrite (testbit_above f k) by done. apply andb_false_r.
Qed.

Lemma present_odd e : present e = Z.odd e.
Proof. change PTE_PRESENT with (2 ^ 0). rewrite land_pow2_test by lia. apply Z.bit0_odd. Qed.

(** An entry made of a page address and low flag bits. *)
Lemma entry_of n f :
  n mod 4096 = 0 → 0 <= n < 2 ^ 52 → 0 <= f < 4096 →
  Z.land (Z.lor n f) PTE_ADDR_MASK = n.
Proof.
  intros Hn Hr Hf. rewrite (lor_low n 12 f) by (change (2 ^ 12) with 4096; lia || done).
  rewrite addr_mask by lia. rewrite Z.mod_small by zlia. zlia.
Qed.

Lemma new_table_entry n :
  n mod 4096 = 0 → 0 <= n < 2 ^ 52 →
  let e := Z.lor (Z.lor n PTE_PRESENT) PTE_WRITABLE in
  present e = true ∧ huge e = false ∧ Z.land e PTE_ADDR_MASK = n.
Proof.
  intros Hn Hr e. assert (He : e = Z.lor n 3).
  { unfold e. rewrite <- Z.lor_assoc. done. }
  rewrite He, entry_of by (done || lia). split_and!; [| |done].
  - rewrite present_odd, (lor_low n 12 3) by (change (2 ^ 12) with 4096; lia || done).
    rewrite Z.odd_spec. exists (n / 2 + 1). zlia.
  - change PTE_HUGE with (2 ^ 7). rewrite land_pow2_test by lia.
    rewrite (lor_low n 12 3), <- (Z.mod_pow2_bits_low _ 12) by (change (2 ^ 12) with 4096; lia || done).
    rewrite Z.add_mod by done. change (2 ^ 12) with 4096. by rewrite Hn.
Qed.

(** The index of [v] in a table of level [S l]; the number of the level-[l]
    table on the path to [v]. *)
Definition idx (l : nat) (v : Z) : Z := v / 2 ^ (12 + 9 * Z.of_nat l) mod 512.
Definition pre (l : nat) (v : Z) : Z := v mod 2 ^ 48 / 2 ^ (12 + 9 * Z.of_nat l).

Lemma idx_range l v : 0 <= idx l v < 512.
Proof. apply Z.mod_pos_bound. lia. Qed.

Lemma land_1ff x : Z.land x 0x1FF = x mod 512.
Proof. change 0x1FF with (Z.ones 9). by rewrite Z.land_ones. Qed.

Lemma index_idx v :
  pml4_index v = idx 3 v ∧ pdpt_index v = idx 2 v ∧ pd_index v = idx 1 v ∧ pt_index v = idx 0 v.
Proof.
  unfold pml4_index, pdpt_index, pd_index, pt_index, idx.
  by rewrite !land_1ff, !Z.shiftr_div_pow2 by lia.
Qed.

Lemma pre_4 v : pre 4 v = 0.
Proof. unfold pre. apply Z.div_small. apply Z.mod_pos_bound. lia. Qed.

Lemma pre_step l v : (l < 4)%nat → pre l v = pre (S l) v * 512 + idx l v.
Proof.
  intros Hl. unfold pre, idx.
  do 4 (destruct l as [|l]; [cbn [Z.of_nat Pos.of_succ_nat Pos.succ]; zlia|]). lia.
Qed.

Lemma pre_parent l v : (l < 4)%nat → pre l v / 512 = pre (S l) v ∧ pre l v mod 512 = idx l v.
Proof. intros Hl. pose proof (pre_step l v Hl). pose proof (idx_range l v). zlia. Qed.

Lemma pre_align l v : is_u64 v → pre l (align_down_u64 v PAGE_SIZE) = pre l v.
Proof.
  intros Hv. rewrite align_down_page by done. unfold pre, PAGE_SIZE.
  rewrite Z.pow_add_r, <- !Z.div_div by (try apply Z.pow_pos_nonneg; lia). f_equal.
  change (2 ^ 12) with 4096. zlia.
Qed.

Lemma idx_align l v : is_u64 v → (l < 4)%nat → idx l (align_down_u64 v PAGE_SIZE) = idx l v.
Proof.
  intros Hv Hl. pose proof (pre_parent l v Hl) as [_ <-]. by rewrite <- (pre_align l v Hv), (proj2 (pre_parent l _ Hl)).
Qed.

Lemma slot_inj t i t' i' :
  t mod 4096 = 0 → t' mod 4096 = 0 → 0 <= i < 512 → 0 <= i' < 512 →
  slot t i = slot t' i' → t = t' ∧ i = i'.
Proof. unfold slot. intros. zlia. Qed.

(** ** Lemmas: memory *)

Lemma rdw_wrw st a x b : rdw (wrw a x st) b = if b =? a then x else rdw st b.
Proof.
  unfold rdw, wrw. cbn. destruct (Z.eqb_spec b a) as [->|].
  - by rewrite lookup_insert_eq.
  - by rewrite lookup_insert_ne.
Qed.

Lemma zero_page_spec n st :
  cr3 (zero_page n st) = cr3 st ∧ frames (zero_page n st) = frames st ∧
  flushed (zero_page n st) = flushed st ∧ vm_out (zero_page n st) = vm_out st ∧
  (∀ i, 0 <= i < 512 → rdw (zero_page n st) (slot n i) = 0) ∧
  (∀ a, (∀ i, 0 <= i < 512 → a ≠ slot n i) → rdw (zero_page n st) a = rdw st a).
Proof.
  unfold zero_page.
  assert (Hgen : ∀ l st, let st' := foldl (λ st i, wrw (slot n i) 0 st) st l in
    cr3 st' = cr3 st ∧ frames st' = frames st ∧ flushed st' = flushed st ∧ vm_out st' = vm_out st ∧
    ∀ a, ((∃ i, i ∈ l ∧ a = slot n i) → rdw st' a = 0) ∧
         ((∀ i, i ∈ l → a ≠ slot n i) → rdw st' a = rdw st a)).
  { induction l as [|i l IH] using rev_ind; intros st0; cbv zeta.
    - split_and!; [done..|]. intros a. split; [intros (i & Hi & _); by apply not_elem_of_nil in Hi|done].
    - rewrite foldl_snoc. destruct (IH st0) as (H1 & H2 & H3 & H4 & H5). cbn.
      split_and!; [done..|]. intros a. destruct (H5 a) as [Ha Hb]. rewrite rdw_wrw.
      destruct (Z.eqb_spec a (slot n i)) as [Heq|Hne]; split.
      + done.
      + intros Hall. exfalso. apply (Hall i); [|done]. apply elem_of_app. right. by left.
      + intros (j & Hj & ->). apply Ha. exists j. split; [|done].
        apply elem_of_app in Hj as [|Hj]; [done|]. apply list_elem_of_singleton in Hj as ->. done.
      + intros Hall. apply Hb. intros j Hj. apply Hall, elem_of_app. by left. }
  destruct (Hgen (seqZ 0 512) st) as (H1 & H2 & H3 & H4 & H5). split_and!; [done..| |].
  - intros i Hi. apply H5. exists i. split; [apply elem_of_seqZ; lia|done].
  - intros a Ha. apply H5. intros i Hi%elem_of_seqZ. apply Ha. lia.
Qed.

(** ** The walk, level by level *)

Inductive walk_result := WNone | WHuge (level : nat) (entry : Z) | WPage (entry : Z).

Fixpoint walk (l : nat) (st : vm) (t v : Z) : walk_result :=
  match l with
  | O => WNone
  | S l' =>
      let e := rdw st (slot t (idx l' v)) in
      if negb (present e) then WNone
      else match l' with
           | O => WPage e
           | S _ => if huge e then WHuge l' e else walk l' st (Z.land e PTE_ADDR_MASK) v
           end
  end.

(** The address of the page of [v] the walk leads to. *)
Definition decode (v : Z) (w : walk_result) : Z :=
  let v := v / 4096 * 4096 in
  match w with
  | WNone => 0
  | WHuge l e => u64 (Z.land e PTE_ADDR_MASK + Z.land v (2 ^ (12 + 9 * Z.of_nat l) - 1))
  | WPage e => u64 (Z.land e PTE_ADDR_MASK + Z.land v (2 ^ 12 - 1))
  end.

(** ** The invariant of the tables

    [own] names every table: the level it is at and which one of that level it
    is. Every entry of a table above level 1 that is present and not huge leads
    to the table with the number its position gives; every table but the root
    is reached through its parent; no two tables have the same place; no table
    is in a free frame. *)

Abbreviation owners := (gmap Z (nat * Z)).

Record tables_ok (st : vm) (own : owners) : Prop := {
  ok_root : own !! Z.land (cr3 st) PTE_ADDR_MASK = Some (4%nat, 0);
  ok_table : ∀ t l p, own !! t = Some (l, p) →
    t mod 4096 = 0 ∧ 0 < t < 2 ^ 52 ∧ t / 4096 ∉ free_list (frames st) ∧ (1 <= l <= 4)%nat ∧ 0 <= p;
  ok_child : ∀ t l p i, own !! t = Some (S (S l), p) → 0 <= i < 512 →
    let e := rdw st (slot t i) in
    present e = true →
    (l = 2%nat → huge e = false) ∧
    (huge e = false → own !! Z.land e PTE_ADDR_MASK = Some (S l, p * 512 + i));
  ok_parent : ∀ t l q, own !! t = Some (l, q) → (l < 4)%nat →
    ∃ t0, own !! t0 = Some (S l, q / 512) ∧
      let e := rdw st (slot t0 (q mod 512)) in
      present e = true ∧ huge e = false ∧ Z.land e PTE_ADDR_MASK = t;
  ok_inj : ∀ t1 t2 x, own !! t1 = Some x → own !! t2 = Some x → t1 = t2;
  ok_pmm : pmm_wf (frames st) ∧ pmm_bitmap (frames st) ≠ None ∧
    pmm_total_frames (frames st) <= 2 ^ 40 ∧ 0 ∉ free_list (frames st)
}.

Definition root (st : vm) : Z := Z.land (cr3 st) PTE_ADDR_MASK.

Lemma get_mapping_walk st own v :
  tables_ok st own → is_u64 v → vmm_get_mapping v st = decode v (walk 4 st (root st) v).
Proof.
  intros Hok Hv. unfold vmm_get_mapping, root, read_cr3. cbv zeta.
  set (va := align_down_u64 v PAGE_SIZE).
  destruct (index_idx va) as (-> & -> & -> & ->).
  assert (Hidx : ∀ l, (l < 4)%nat → idx l va = idx l v) by (intros; by apply idx_align).
  rewrite !Hidx by lia. clear Hidx.
  assert (Hva : va = v / 4096 * 4096) by (by unfold va; rewrite align_down_page).
  cbn [walk]. pose proof (ok_child _ _ Hok _ 2%nat 0 (idx 3 v) (ok_root _ _ Hok) (idx_range 3 v)) as Hc.
  cbv zeta in Hc. set (e4 := rdw st (slot (Z.land (cr3 st) PTE_ADDR_MASK) (idx 3 v))) in *.
  destruct (present e4); cbn [negb]; [|done].
  rewrite (proj1 (Hc eq_refl) eq_refl). cbv zeta.
  rewrite Hva. unfold decode. repeat (case_if; [done|]).
  done.
Qed.

(** ** Lemmas: the walk and changes to memory *)

(** The walk reads owned tables only. *)
Lemma walk_agree st st' own v l t p :
  tables_ok st own → own !! t = Some (l, p) →
  (∀ t' l' p' i, own !! t' = Some (l', p') → 0 <= i < 512 →
     rdw st' (slot t' i) = rdw st (slot t' i) ∨
     (1 < l')%nat ∧ present (rdw st (slot t' i)) = false ∧
       ∀ v, walk l' st' t' v = WNone ∨ idx (l' - 1) v ≠ i) →
  walk l st' t v = walk l st t v.
Proof.
  intros Hok. revert t p. induction l as [|l IH]; intros t p Ht Hag; [done|].
  destruct (Hag t (S l) p (idx l v) Ht (idx_range l v)) as [He|(Hl & Hp & Hz)].
  - cbn [walk]. rewrite He. destruct (present (rdw st (slot t (idx l v)))) eqn:Hpr; [|done].
    cbn [negb]. destruct l as [|l]; [done|].
    destruct (huge (rdw st (slot t (idx (S l) v)))) eqn:Hh; [done|].
    destruct (ok_child _ _ Hok t l p (idx (S l) v) Ht (idx_range (S l) v) Hpr) as [_ Hc].
    eapply IH; [by apply Hc|done].
  - destruct (Hz v) as [->|Hne].
    + cbn [walk]. by rewrite Hp.
    + exfalso. apply Hne. f_equal. lia.
Qed.

(** One step of the walk through an entry that links a table. *)
Lemma walk_link l st t v e :
  rdw st (slot t (idx (S l) v)) = e → present e = true → huge e = false →
  walk (S (S l)) st t v = walk (S l) st (Z.land e PTE_ADDR_MASK) v.
Proof.
  intros He Hp Hh. change (walk (S (S l)) st t v) with
    (let e := rdw st (slot t (idx (S l) v)) in
     if negb (present e) then WNone
     else if huge e then WHuge (S l) e else walk (S l) st (Z.land e PTE_ADDR_MASK) v).
  cbv zeta. rewrite He, Hp, Hh. reflexivity.
Qed.

(** What an allocation of a frame gives. *)
Lemma alloc_frame_spec st own :
  tables_ok st own →
  let '(n, st1) := alloc_frame st in
  words st1 = words st ∧ cr3 st1 = cr3 st ∧ flushed st1 = flushed st ∧ vm_out st1 = vm_out st ∧
  (free_list (frames st) = [] ∧ n = 0 ∧ st1 = st ∨
   ∃ f rest, free_list (frames st) = f :: rest ∧ n = f * 4096 ∧ 0 < n < 2 ^ 52 ∧
     free_list (frames st1) = rest ∧ f ∉ rest ∧
     pmm_wf (frames st1) ∧ pmm_bitmap (frames st1) ≠ None ∧
     pmm_total_frames (frames st1) = pmm_total_frames (frames st)).
Proof.
  intros Hok. destruct (ok_pmm _ _ Hok) as (Hwf & Hbm & Htot & H0).
  destruct (pmm_bitmap (frames st)) as [bm|] eqn:Hb; [|done].
  pose proof (pmm_alloc_frame_spec (frames st) bm Hwf Hb) as Hspec.
  pose proof (free_list_NoDup (frames st)) as Hnd. unfold alloc_frame.
  destruct (free_list (frames st)) as [|f rest] eqn:Hfl.
  - rewrite Hspec. split_and!; [done..|]. left. split_and!; [done..|]. by destruct st.
  - destruct (pmm_alloc_frame (frames st)) as [n p].
    destruct Hspec as (-> & Hfl' & Hwf' & Hb' & Ht' & _ & Hf). cbn.
    split_and!; [done..|]. right. exists f, rest. unfold PAGE_SIZE.
    apply NoDup_cons in Hnd as [Hnin _]. apply not_elem_of_cons in H0 as [H0 _].
    split_and!; try done; try lia. by rewrite Hb'.
Qed.

Lemma own_not_free st own t l p f :
  tables_ok st own → own !! t = Some (l, p) → f ∈ free_list (frames st) → t ≠ f * 4096.
Proof.
  intros Hok Ht Hf ->. destruct (ok_table _ _ Hok _ _ _ Ht) as (_ & _ & Hn & _).
  by rewrite Z.div_mul in Hn by lia.
Qed.

(** New tables come from the free frames, and only words of tables change. *)
Record grows (st : vm) (own : owners) (st' : vm) (own' : owners) : Prop := {
  gr_free : ∀ f, f ∈ free_list (frames st') → f ∈ free_list (frames st);
  gr_new : ∀ t x, own' !! t = Some x → own !! t = Some x ∨ t / 4096 ∈ free_list (frames st);
  gr_old : ∀ t x, own !! t = Some x → own' !! t = Some x;
  gr_word : ∀ a, own' !! (a / 4096 * 4096) = None → rdw st' a = rdw st a;
  gr_total : pmm_total_frames (frames st') = pmm_total_frames (frames st)
}.

Lemma grows_refl st own : grows st own st own.
Proof. by split; auto. Qed.

Lemma grows_trans st1 o1 st2 o2 st3 o3 : grows st1 o1 st2 o2 → grows st2 o2 st3 o3 → grows st1 o1 st3 o3.
Proof.
  intros [F1 N1 O1 W1 T1] [F2 N2 O2 W2 T2]. split.
  - auto.
  - intros t x Ht. destruct (N2 t x Ht) as [Ht2|Ht2]; [by apply N1|right; auto].
  - auto.
  - intros a Ha. rewrite W2 by done. apply W1. destruct (o2 !! (a / 4096 * 4096)) eqn:Ho; [|done].
    apply O2 in Ho. congruence.
  - congruence.
Qed.

Lemma grows_ext st own st' own' st'' :
  grows st own st' own' → words st'' = words st' → frames st'' = frames st' → grows st own st'' own'.
Proof.
  intros [F N O W T] Hw Hf. split; rewrite ?Hf; try done. intros a Ha. rewrite <- W by done. unfold rdw. by rewrite Hw.
Qed.

(** Linking a fresh zeroed table into an empty entry. *)
Section Link.
Context (st st1 : vm) (own : owners) (t : Z) (l : nat) (p i f : Z) (rest : list Z).
Hypothesis Hok : tables_ok st own.
Hypothesis Ht : own !! t = Some (S (S l), p).
Hypothesis Hi : 0 <= i < 512.
Hypothesis Hempty : present (rdw st (slot t i)) = false.
Hypothesis Hfl : free_list (frames st) = f :: rest.
Hypothesis Hn : 0 < f * 4096 < 2 ^ 52.
Hypothesis Hw : words st1 = words st.
Hypothesis Hcr : cr3 st1 = cr3 st.
Hypothesis Hfl1 : free_list (frames st1) = rest.
Hypothesis Hfr : f ∉ rest.
Hypothesis Hwf : pmm_wf (frames st1).
Hypothesis Hbm : pmm_bitmap (frames st1) ≠ None.
Hypothesis Htot : pmm_total_frames (frames st1) = pmm_total_frames (frames st).

Let n := f * 4096.
Let entry := Z.lor (Z.lor n PTE_PRESENT) PTE_WRITABLE.
Let st' := wrw (slot t i) entry (zero_page n st1).
Let own' : owners := <[n := (S l, p * 512 + i)]> own.

Lemma link_aligned : n mod 4096 = 0.
Proof. unfold n. by rewrite Z_mod_mult. Qed.

Lemma link_fresh t' x : own !! t' = Some x → t' ≠ n.
Proof. destruct x. intros Hx. eapply own_not_free; [done..|]. rewrite Hfl. left. Qed.

Lemma link_word_old t' x j :
  own !! t' = Some x → 0 <= j < 512 → slot t' j ≠ slot t i →
  rdw st' (slot t' j) = rdw st (slot t' j).
Proof.
  intros Hx Hj Hsl. unfold st'. rewrite rdw_wrw, (proj2 (Z.eqb_neq _ _)) by done.
  destruct (zero_page_spec n st1) as (_ & _ & _ & _ & _ & Zout).
  rewrite Zout; [by unfold rdw; rewrite Hw|]. intros k Hk Heq. destruct x.
  destruct (ok_table _ _ Hok _ _ _ Hx) as (Htal & _).
  destruct (slot_inj t' j n k) as [-> _]; try done; [apply link_aligned|].
  by apply (link_fresh _ _ Hx).
Qed.

Lemma link_word_new j : 0 <= j < 512 → rdw st' (slot n j) = 0.
Proof.
  intros Hj. unfold st'. rewrite rdw_wrw, (proj2 (Z.eqb_neq _ _)).
  - by apply zero_page_spec.
  - intros Heq. destruct (ok_table _ _ Hok _ _ _ Ht) as (Htal & _).
    destruct (slot_inj n j t i) as [Hx _]; try done; [apply link_aligned|].
    by apply (link_fresh _ _ Ht).
Qed.

Lemma link_word_slot : rdw st' (slot t i) = entry.
Proof. unfold st'. by rewrite rdw_wrw, Z.eqb_refl. Qed.

Lemma link_entry : present entry = true ∧ huge entry = false ∧ Z.land entry PTE_ADDR_MASK = n.
Proof. apply new_table_entry; [apply link_aligned|]. unfold n. lia. Qed.

Lemma link_walk_new l' v : walk l' st' n v = WNone.
Proof. destruct l'; [done|]. cbn [walk]. by rewrite link_word_new by apply idx_range. Qed.

(** An entry of an owned table is the one that was written, or unchanged. *)
Lemma link_slot_cases t' l' p' j :
  own !! t' = Some (l', p') → 0 <= j < 512 →
  t' = t ∧ j = i ∧ l' = S (S l) ∧ p' = p ∨ rdw st' (slot t' j) = rdw st (slot t' j).
Proof.
  intros Ht' Hj. destruct (decide (slot t' j = slot t i)) as [Heq|Hns].
  - left. destruct (ok_table _ _ Hok _ _ _ Ht') as (Htal' & _).
    destruct (ok_table _ _ Hok _ _ _ Ht) as (Htal & _).
    destruct (slot_inj t' j t i) as [-> ->]; try done.
    rewrite Ht in Ht'. by injection Ht' as <- <-.
  - right. by eapply link_word_old.
Qed.

Lemma link_walk v l0 t0 p0 : own !! t0 = Some (l0, p0) → walk l0 st' t0 v = walk l0 st t0 v.
Proof.
  intros Ht0. eapply walk_agree; [done..|]. intros t' l' p' j Ht' Hj.
  destruct (link_slot_cases t' l' p' j Ht' Hj) as [(-> & -> & -> & ->)|Hsame]; [|by left].
  right. split_and!; [lia|done|]. intros v'.
  destruct (decide (idx (S (S l) - 1) v' = i)) as [Hix|]; [|by right].
  left. replace (S (S l) - 1)%nat with (S l) in Hix by lia.
  destruct link_entry as (Hpr & Hhu & Had).
  assert (He : rdw st' (slot t (idx (S l) v')) = entry) by (rewrite Hix; apply link_word_slot).
  rewrite (walk_link l st' t v' entry He Hpr Hhu), Had. apply link_walk_new.
Qed.

Lemma link_no_place t' : own !! t' ≠ Some (S l, p * 512 + i).
Proof.
  intros Ht'. destruct (ok_table _ _ Hok _ _ _ Ht) as (_ & _ & _ & Hlev & _).
  destruct (ok_parent _ _ Hok _ _ _ Ht') as (t0 & Ht0 & Hp & _); [lia|].
  rewrite Z.div_add_l, Z.div_small, Z.add_0_r in Ht0 by lia.
  rewrite (ok_inj _ _ Hok t0 t _ Ht0 Ht) in Hp.
  rewrite Z.add_comm, Z.mod_add, Z.mod_small in Hp by lia. congruence.
Qed.

Lemma link_child t' l' p' j :
  own' !! t' = Some (S (S l'), p') → 0 <= j < 512 →
  let e := rdw st' (slot t' j) in
  present e = true →
  (l' = 2%nat → huge e = false) ∧
  (huge e = false → own' !! Z.land e PTE_ADDR_MASK = Some (S l', p' * 512 + j)).
Proof.
  unfold own'. intros [[<- _]|[Hx Ht']]%lookup_insert_Some Hj Hpre.
  { by rewrite link_word_new in Hpre. }
  destruct (link_slot_cases t' _ p' j Ht' Hj) as [(-> & -> & Hl & ->)|Hsame].
  - injection Hl as ->. rewrite link_word_slot. destruct link_entry as (_ & Hhu & ->).
    split; [done|].
    intros _. by rewrite lookup_insert_eq.
  - rewrite Hsame in *. destruct (ok_child _ _ Hok t' l' p' j Ht' Hj Hpre) as [? Hc].
    split; [done|]. intros Hh. rewrite lookup_insert_ne; [by apply Hc|]. intros Heq.
    by apply (link_fresh _ _ (Hc Hh)).
Qed.

Lemma link_parent t' l' q :
  own' !! t' = Some (l', q) → (l' < 4)%nat →
  ∃ t0, own' !! t0 = Some (S l', q / 512) ∧
    let e := rdw st' (slot t0 (q mod 512)) in
    present e = true ∧ huge e = false ∧ Z.land e PTE_ADDR_MASK = t'.
Proof.
  unfold own'. intros [[<- [= <- <-]]|[Hx Ht']]%lookup_insert_Some Hl4.
  - exists t. rewrite lookup_insert_ne by (intros Heq; by apply (link_fresh _ _ Ht)).
    rewrite Z.div_add_l, Z.div_small, Z.add_0_r by lia.
    replace ((p * 512 + i) mod 512) with i by (rewrite Z.add_comm, Z.mod_add, Z.mod_small; lia).
    rewrite link_word_slot. split; [done|]. apply link_entry.
  - destruct (ok_parent _ _ Hok _ _ _ Ht' Hl4) as (t0 & Ht0 & Hp & Hh & Ha). exists t0.
    rewrite lookup_insert_ne by (intros Heq; by apply (link_fresh _ _ Ht0)). split; [done|].
    destruct (link_slot_cases t0 _ _ (q mod 512) Ht0) as [(-> & Hqi & _)| ->].
    + apply Z.mod_pos_bound. lia.
    + exfalso. rewrite Hqi in Hp. congruence.
    + done.
Qed.

Lemma link_table_ok : tables_ok st' own'.
Proof.
  destruct (zero_page_spec n st1) as (Zcr & Zfr & _).
  assert (Hcr' : cr3 st' = cr3 st) by (unfold st'; cbn; by rewrite Zcr).
  assert (Hfr' : frames st' = frames st1) by (unfold st'; cbn; by rewrite Zfr).
  destruct (ok_table _ _ Hok _ _ _ Ht) as (Htal & _ & _ & Hlev & Hp0).
  constructor.
  - unfold own'. rewrite Hcr', lookup_insert_ne; [apply (ok_root _ _ Hok)|].
    intros Heq. by apply (link_fresh _ _ (ok_root _ _ Hok)).
  - rewrite Hfr', Hfl1. unfold own'.
    intros t' l' p' [[<- [= <- <-]]|[Hx Ht']]%lookup_insert_Some.
    + pose proof link_aligned. split_and!; try done; try lia. unfold n. by rewrite Z.div_mul.
    + destruct (ok_table _ _ Hok _ _ _ Ht') as (? & ? & Hnf & ? & ?). rewrite Hfl in Hnf.
      split_and!; try done; try lia. set_solver.
  - exact link_child.
  - exact link_parent.
  - unfold own'. intros t1 t2 x H1 H2.
    apply lookup_insert_Some in H1 as [[<- <-]|[? H1]];
      apply lookup_insert_Some in H2 as [[<- Hq]|[? H2]]; try done.
    + by destruct (link_no_place t2).
    + subst x. by destruct (link_no_place t1).
    + by eapply (ok_inj _ _ Hok).
  - rewrite Hfr', Htot. destruct (ok_pmm _ _ Hok) as (_ & _ & ? & H0). split_and!; [done..|].
    rewrite Hfl1. rewrite Hfl in H0. set_solver.
Qed.

Lemma link_grows : grows st own st' own'.
Proof.
  destruct (zero_page_spec n st1) as (_ & Zfr & _ & _ & _ & Zo).
  destruct (ok_table _ _ Hok _ _ _ Ht) as (Hta & _). split.
  - intros g Hg. unfold st' in Hg. cbn in Hg. rewrite Zfr, Hfl1 in Hg. rewrite Hfl. by right.
  - intros t' x. unfold own'. destruct (decide (t' = n)) as [->|Hne].
    + intros _. right. rewrite Hfl. unfold n. rewrite Z.div_mul by lia. left.
    + rewrite lookup_insert_ne by done. by left.
  - intros t' x Hx. unfold own'. rewrite lookup_insert_ne; [done|]. intros <-. by eapply link_fresh.
  - intros a Ha. unfold st'. rewrite rdw_wrw, (proj2 (Z.eqb_neq a _)).
    + rewrite Zo; [unfold rdw; by rewrite Hw|]. intros j Hj ->. unfold own' in Ha.
      replace (slot n j / 4096 * 4096) with n in Ha by (pose proof link_aligned; unfold slot; zlia).
      by rewrite lookup_insert_eq in Ha.
    + intros ->. unfold own' in Ha. replace (slot t i / 4096 * 4096) with t in Ha by (unfold slot; zlia).
      rewrite lookup_insert_ne in Ha; [congruence|]. intros Heq. by apply (link_fresh _ _ Ht).
  - unfold st'. cbn. by rewrite Zfr.
Qed.
End Link.

(** One level of [vmm_map_page]: the tables stay well formed, no translation
    changes, and the result is the table of the next level, or null when the
    entry is huge or there is no frame. *)
Lemma next_table_spec st own t l p v :
  tables_ok st own → own !! t = Some (S (S l), p) →
  let '(n, st') := vmm_get_or_create_next_table t (idx (S l) v) st in
  ∃ own', tables_ok st' own' ∧ cr3 st' = cr3 st ∧
    flushed st' = flushed st ∧ vm_out st' = vm_out st ∧
    (∀ v' l0 t0 p0, own !! t0 = Some (l0, p0) →
       own' !! t0 = Some (l0, p0) ∧ walk l0 st' t0 v' = walk l0 st t0 v') ∧
    (length (free_list (frames st)) <= S (length (free_list (frames st'))))%nat ∧
    (n ≠ 0 ∧ own' !! n = Some (S l, p * 512 + idx (S l) v) ∧
       walk (S l) st' n v = walk (S (S l)) st' t v
     ∨ n = 0 ∧ (free_list (frames st) = [] ∨ ∃ e, walk (S (S l)) st t v = WHuge (S l) e)) ∧
    grows st own st' own'.
Proof.
  intros Hok Ht. unfold vmm_get_or_create_next_table. cbv zeta.
  set (i := idx (S l) v). pose proof (idx_range (S l) v) as Hi. fold i in Hi.
  destruct (present (rdw st (slot t i))) eqn:Hpr.
  - destruct (huge (rdw st (slot t i))) eqn:Hh.
    + exists own. split_and!; try done; [lia| |apply grows_refl]. right. split; [done|]. right.
      exists (rdw st (slot t i)). cbn [walk]. fold i. by rewrite Hpr, Hh.
    + exists own. split_and!; try done; [lia| |apply grows_refl]. left.
      destruct (ok_child _ _ Hok t l p i Ht Hi Hpr) as [_ Hc]. specialize (Hc Hh).
      destruct (ok_table _ _ Hok _ _ _ Hc) as (_ & ? & _). split_and!; [lia|done|].
      cbn [walk]. fold i. by rewrite Hpr, Hh.
  - pose proof (alloc_frame_spec st own Hok) as Ha. destruct (alloc_frame st) as [n st1].
    destruct Ha as (Hw & Hcr & Hflu & Hout & [(Hfl & -> & ->)|Hsome]).
    { exists own. cbn. split_and!; try done; [lia| |apply grows_refl]. right. split; [done|by left]. }
    destruct Hsome as (f & rest & Hfl & -> & Hn & Hfl1 & Hfr & Hwf & Hbm & Htot).
    rewrite (proj2 (Z.eqb_neq _ 0)) by lia.
    destruct (zero_page_spec (f * 4096) st1) as (Zcr & Zfr & Zfl & Zout & _).
    eexists. split_and!;
      [by eapply link_table_ok|cbn; congruence|cbn; congruence|cbn; congruence| | | |].
    + intros v' l0 t0 p0 Ht0. split; [|by eapply link_walk].
      rewrite lookup_insert_ne; [done|]. intros Heq.
      eapply (own_not_free st own t0 l0 p0 f Hok Ht0); [rewrite Hfl; left|done].
    + cbn. rewrite Zfr, Hfl, Hfl1. cbn. lia.
    + left. split_and!; [lia|by rewrite lookup_insert_eq|].
      trans WNone; [by eapply link_walk_new|]. symmetry.
      trans (walk (S (S l)) st t v); [by eapply link_walk|]. cbn [walk]. fold i. by rewrite Hpr.
    + by eapply link_grows.
Qed.

(** ** Lemmas: writing a page-table entry *)

Lemma tables_ok_ext st st' own :
  words st' = words st → cr3 st' = cr3 st → frames st' = frames st →
  tables_ok st own → tables_ok st' own.
Proof.
  intros Hw Hc Hf [H1 H2 H3 H4 H5 H6].
  assert (Hr : ∀ a, rdw st' a = rdw st a) by (intros; unfold rdw; by rewrite Hw).
  constructor; rewrite ?Hc, ?Hf; try done.
  - intros t l p i Ht Hi. rewrite Hr. by apply H3.
  - intros t l q Ht Hl. destruct (H4 t l q Ht Hl) as (t0 & ? & ?). exists t0. by rewrite Hr.
Qed.

Lemma walk_ext l st st' t v : words st' = words st → walk l st' t v = walk l st t v.
Proof.
  intros Hw. revert t. induction l as [|l IH]; intros t; [done|].
  assert (Hr : ∀ a, rdw st' a = rdw st a) by (intros; unfold rdw; by rewrite Hw).
  cbn [walk]. rewrite Hr. case_if; [done|]. destruct l; [done|]. case_if; [done|]. apply IH.
Qed.

(** A write to a level-1 table leaves the other tables alone. *)
Lemma set_pte_other st own pt p i e t l q j :
  tables_ok st own → own !! pt = Some (1%nat, p) → 0 <= i < 512 →
  own !! t = Some (l, q) → 0 <= j < 512 → (t, j) ≠ (pt, i) →
  rdw (wrw (slot pt i) e st) (slot t j) = rdw st (slot t j).
Proof.
  intros Hok Hpt Hi Ht Hj Hne. rewrite rdw_wrw, (proj2 (Z.eqb_neq _ _)); [done|].
  destruct (ok_table _ _ Hok _ _ _ Hpt) as (? & _). destruct (ok_table _ _ Hok _ _ _ Ht) as (? & _).
  intros Heq. apply Hne. destruct (slot_inj t j pt i) as [-> ->]; done.
Qed.

Lemma set_pte_ok st own pt p i e :
  tables_ok st own → own !! pt = Some (1%nat, p) → 0 <= i < 512 →
  tables_ok (wrw (slot pt i) e st) own.
Proof.
  intros Hok Hpt Hi. pose proof Hok as [H1 H2 H3 H4 H5 H6]. constructor; try done.
  - intros t l q j Ht Hj. erewrite set_pte_other; [by apply H3|done..|].
    intros [= -> ->]. rewrite Hpt in Ht. discriminate.
  - intros t l q Ht Hl. destruct (H4 t l q Ht Hl) as (t0 & Ht0 & Hx). exists t0. split; [done|].
    erewrite set_pte_other; [done|done..|apply Z.mod_pos_bound; lia|].
    intros [= -> _]. rewrite Hpt in Ht0. injection Ht0 as <- _.
    destruct (H2 _ _ _ Ht) as (_ & _ & _ & ? & _). lia.
Qed.

(** The table above a table on the path of [v] links to it. *)
Lemma path_step st own c l v :
  tables_ok st own → own !! c = Some (l, pre l v) → (1 <= l < 4)%nat →
  ∃ t, own !! t = Some (S l, pre (S l) v) ∧ walk (S l) st t v = walk l st c v.
Proof.
  intros Hok Hc Hl. destruct (ok_parent _ _ Hok _ _ _ Hc) as (t & Ht & Hp & Hh & Ha); [lia|].
  destruct (pre_parent l v ltac:(lia)) as [Hd Hm]. rewrite Hd in Ht. rewrite Hm in *.
  exists t. split; [done|]. cbn [walk]. rewrite Hp. cbn [negb].
  destruct l as [|l]; [lia|]. by rewrite Hh, Ha.
Qed.

Lemma walk_chain st own pt v :
  tables_ok st own → own !! pt = Some (1%nat, pre 1 v) →
  walk 4 st (root st) v = walk 1 st pt v.
Proof.
  intros Hok Hpt.
  destruct (path_step st own pt 1 v Hok Hpt) as (t2 & Ht2 & <-); [lia|].
  destruct (path_step st own t2 2 v Hok Ht2) as (t3 & Ht3 & <-); [lia|].
  destruct (path_step st own t3 3 v Hok Ht3) as (t4 & Ht4 & <-); [lia|].
  rewrite pre_4 in Ht4. by rewrite (ok_inj _ _ Hok t4 (root st) _ Ht4 (ok_root _ _ Hok)).
Qed.

Lemma set_pte_walk_same st own pt e v v' :
  tables_ok st own → own !! pt = Some (1%nat, pre 1 v) → pre 0 v' = pre 0 v →
  walk 4 (wrw (slot pt (idx 0 v)) e st) (root st) v' = if present e then WPage e else WNone.
Proof.
  intros Hok Hpt Hv. destruct (pre_parent 0 v ltac:(lia)) as [Hd Hm].
  destruct (pre_parent 0 v' ltac:(lia)) as [Hd' Hm']. rewrite Hv in Hd', Hm'.
  change (root st) with (root (wrw (slot pt (idx 0 v)) e st)).
  rewrite (walk_chain _ own pt v').
  - cbn [walk]. rewrite <- Hm', Hm, rdw_wrw, Z.eqb_refl. by destruct (present e).
  - eapply set_pte_ok; [done..|apply idx_range].
  - by rewrite <- Hd', Hd.
Qed.

Lemma set_pte_walk_other st own pt e v v' l t :
  tables_ok st own → own !! pt = Some (1%nat, pre 1 v) → pre 0 v' ≠ pre 0 v →
  own !! t = Some (l, pre l v') → (l <= 4)%nat →
  walk l (wrw (slot pt (idx 0 v)) e st) t v' = walk l st t v'.
Proof.
  intros Hok Hpt Hv. revert t. induction l as [|l IH]; intros t Ht Hl; [done|].
  cbn [walk]. erewrite set_pte_other; [|done|done|apply idx_range|done|apply idx_range|].
  2:{ intros [= -> Hix]. rewrite Hpt in Ht. injection Ht as <- Hp. apply Hv.
      rewrite (pre_step 0 v'), (pre_step 0 v) by lia. congruence. }
  destruct (present (rdw st (slot t (idx l v')))) eqn:Hpr; cbn [negb]; [|done].
  destruct l as [|l]; [done|]. case_if; [done|]. apply IH; [|lia].
  destruct (ok_child _ _ Hok t l _ (idx (S l) v') Ht (idx_range _ _) Hpr) as [_ Hc].
  rewrite (pre_step (S l)) by lia. by apply Hc.
Qed.

(** What a write of the entry of [v] does to the translations. *)
Lemma set_pte_mapping st own pt e v v' :
  tables_ok st own → own !! pt = Some (1%nat, pre 1 v) → is_u64 v' →
  vmm_get_mapping v' (wrw (slot pt (idx 0 v)) e st) =
  if decide (pre 0 v' = pre 0 v)
  then decode v' (if present e then WPage e else WNone) else vmm_get_mapping v' st.
Proof.
  intros Hok Hpt Hv'.
  assert (Hok' : tables_ok (wrw (slot pt (idx 0 v)) e st) own)
    by (eapply set_pte_ok; [done..|apply idx_range]).
  rewrite !(get_mapping_walk _ own) by done. case_decide.
  - by rewrite <- (set_pte_walk_same st own pt e v v').
  - f_equal. eapply set_pte_walk_other; [done..|rewrite pre_4; apply Hok|lia].
Qed.

Lemma decode_page v n f :
  n mod 4096 = 0 → 0 <= n < 2 ^ 52 → 0 <= f < 4096 → 
  decode v (WPage (Z.lor (Z.lor n f) PTE_PRESENT)) = n.
Proof.
  intros Hn Hr Hf. unfold decode, PTE_PRESENT. rewrite <- Z.lor_assoc, entry_of; [|done..|].
  - change (2 ^ 12 - 1) with (Z.ones 12). rewrite Z.land_ones by lia. change (2 ^ 12) with 4096.
    rewrite Z_mod_mult, Z.add_0_r. apply u64_small. unfold is_u64. lia.
  - apply (lor_range f 1 12); lia.
Qed.

Lemma present_lor x : present (Z.lor x PTE_PRESENT) = true.
Proof. change PTE_PRESENT with (2 ^ 0). rewrite land_pow2_test, Z.lor_spec by lia. apply orb_true_r. Qed.

(** The entry [vmm_get_pte_ptr] points to. *)
Lemma get_pte_ptr_spec st own v :
  tables_ok st own → is_u64 v →
  match vmm_get_pte_ptr v st with
  | Some a => ∃ pt, a = slot pt (idx 0 v) ∧ own !! pt = Some (1%nat, pre 1 v)
  | None => ∀ e, walk 4 st (root st) v ≠ WPage e
  end.
Proof.
  intros Hok Hv. unfold vmm_get_pte_ptr, read_cr3. fold (root st). cbv zeta.
  set (va := align_down_u64 v PAGE_SIZE).
  destruct (index_idx va) as (-> & -> & -> & ->).
  assert (Hidx : ∀ l, (l < 4)%nat → idx l va = idx l v) by (intros; by apply idx_align).
  rewrite !Hidx by lia. clear Hidx.
  pose proof (ok_root _ _ Hok) as Hr. fold (root st) in Hr. rewrite <- (pre_4 v) in Hr.
  revert Hr. generalize (root st). intros t4 Ht4.
  assert (Hstep : ∀ l t, own !! t = Some (S (S l), pre (S (S l)) v) → (S l < 4)%nat →
    let e := rdw st (slot t (idx (S l) v)) in
    present e = true → huge e = false →
    own !! Z.land e PTE_ADDR_MASK = Some (S l, pre (S l) v)).
  { intros l t Ht Hl e Hp Hh. rewrite (pre_step (S l)) by lia.
    by apply (ok_child _ _ Hok t l _ (idx (S l) v) Ht (idx_range _ _)). }
  cbn [walk].
  repeat match goal with
  | |- context [if negb (present ?e) then _ else _] => destruct (present e) eqn:?; cbn [negb]; [|done]
  | |- context [if huge ?e then _ else _] => destruct (huge e) eqn:?; [done|]
  end.
  eexists. split; [done|]. apply (Hstep 0%nat); try done; try lia.
  apply (Hstep 1%nat); try done; try lia. apply (Hstep 2%nat); try done; lia.
Qed.

(** ** Lemmas: the operations *)

(** The tables of [st] are tables of [st'] and translate the same. *)
Definition extends (st : vm) (own : owners) (st' : vm) (own' : owners) : Prop :=
  tables_ok st' own' ∧ cr3 st' = cr3 st ∧ flushed st' = flushed st ∧ vm_out st' = vm_out st ∧
  ∀ v l t p, own !! t = Some (l, p) →
    own' !! t = Some (l, p) ∧ walk l st' t v = walk l st t v.

Lemma extends_trans st1 o1 st2 o2 st3 o3 :
  extends st1 o1 st2 o2 → extends st2 o2 st3 o3 → extends st1 o1 st3 o3.
Proof.
  intros (? & ? & ? & ? & Hx1) (? & ? & ? & ? & Hx2). split; [done|].
  do 3 (split; [congruence|]). intros v l t p Ht.
  destruct (Hx1 v l t p Ht) as [Ht' <-]. by apply Hx2.
Qed.

Lemma extends_mapping st own st' own' v :
  tables_ok st own → extends st own st' own' → is_u64 v →
  vmm_get_mapping v st' = vmm_get_mapping v st.
Proof.
  intros Hok (Hok' & Hcr & _ & _ & Hw) Hv.
  rewrite (get_mapping_walk st own), (get_mapping_walk st' own') by done.
  unfold root. rewrite Hcr. f_equal. by eapply Hw, ok_root.
Qed.

(** The three table steps of [vmm_map_page]: the function in continuation
    form. *)
Definition map_tables (v : Z) (st : vm) : option Z * vm :=
  let '(pdpt, st) := vmm_get_or_create_next_table (root st) (idx 3 v) st in
  if pdpt =? 0 then (None, st)
  else
    let '(pd, st) := vmm_get_or_create_next_table pdpt (idx 2 v) st in
    if pd =? 0 then (None, st)
    else
      let '(pt, st) := vmm_get_or_create_next_table pd (idx 1 v) st in
      if pt =? 0 then (None, st) else (Some pt, st).

Lemma vmm_map_page_tables virt phys flags st :
  is_u64 virt →
  let '(pt, st1) := map_tables virt st in
  match pt with
  | Some pt =>
      vmm_map_page virt phys flags st =
      invlpg (align_down_u64 virt PAGE_SIZE)
        (wrw (slot pt (idx 0 virt))
           (Z.lor (Z.lor (align_down_u64 phys PAGE_SIZE) flags) PTE_PRESENT) st1)
  | None => ∃ msg, vmm_map_page virt phys flags st = vm_print msg st1 ∧ msg ≠ []
  end.
Proof.
  intros Hv. unfold vmm_map_page, map_tables, read_cr3. fold (root st). cbv zeta.
  destruct (index_idx (align_down_u64 virt PAGE_SIZE)) as (-> & -> & -> & ->).
  rewrite !idx_align by (done || lia).
  destruct (vmm_get_or_create_next_table (root st) _ _) as [pdpt s1].
  destruct (pdpt =? 0); [by eexists|].
  destruct (vmm_get_or_create_next_table pdpt _ _) as [pd s2].
  destruct (pd =? 0); [by eexists|].
  destruct (vmm_get_or_create_next_table pd _ _) as [pt s3].
  destruct (pt =? 0); [by eexists|]. done.
Qed.

(** One table step in the form the composition uses. *)
Lemma table_step st own t l v :
  tables_ok st own → own !! t = Some (S (S l), pre (S (S l)) v) → (S l < 4)%nat →
  let '(n, st') := vmm_get_or_create_next_table t (idx (S l) v) st in
  ∃ own', extends st own st' own' ∧
    (length (free_list (frames st)) <= S (length (free_list (frames st'))))%nat ∧
    (n ≠ 0 ∧ own' !! n = Some (S l, pre (S l) v) ∧
       walk (S l) st' n v = walk (S (S l)) st t v
     ∨ n = 0 ∧ (free_list (frames st) = [] ∨ ∃ k e, walk (S (S l)) st t v = WHuge k e)) ∧
    grows st own st' own'.
Proof.
  intros Hok Ht Hl. pose proof (next_table_spec st own t l _ v Hok Ht) as H.
  destruct (vmm_get_or_create_next_table t (idx (S l) v) st) as [n st'].
  destruct H as (own' & Hok' & Hcr & Hfl & Hout & Hext & Hlen & Hres & Hgr). exists own'.
  assert (He : extends st own st' own').
  { split; [done|]. do 3 (split; [done|]). intros v' l0 t0 p0 Ht0. by apply Hext. }
  split; [done|]. split; [done|]. split; [|done].
  destruct Hres as [(Hn & Hown & Hw)|[Hn [Hf|[e He']]]].
  - left. rewrite <- pre_step in Hown by lia. split; [done|]. split; [done|]. rewrite Hw. by apply (Hext v) in Ht as [_ ?].
  - right. split; [done|by left].
  - right. split; [done|]. right. by exists (S l), e.
Qed.

Lemma map_tables_spec st own v :
  tables_ok st own →
  let '(r, st') := map_tables v st in
  ∃ own', extends st own st' own' ∧
    match r with
    | Some pt => own' !! pt = Some (1%nat, pre 1 v)
    | None => (length (free_list (frames st)) < 3)%nat ∨ ∃ k e, walk 4 st (root st) v = WHuge k e
    end ∧ grows st own st' own' ∧ (length (free_list (frames st)) <= 3 + length (free_list (frames st')))%nat.
Proof.
  intros Hok. unfold map_tables. pose proof (ok_root _ _ Hok) as Hr.
  fold (root st) in Hr. rewrite <- (pre_4 v) in Hr.
  pose proof (table_step st own _ 2%nat v Hok Hr ltac:(lia)) as H.
  destruct (vmm_get_or_create_next_table (root st) _ _) as [pdpt s1].
  destruct H as (o1 & E1 & L1 & [(N1 & O1 & W1)|(-> & F)] & G1).
  2:{ exists o1. split; [done|]. split; [|split; [done|lia]]. destruct F as [->|?]; [left; cbn; lia|by right]. }
  rewrite (proj2 (Z.eqb_neq _ _)) by done.
  pose proof (table_step s1 o1 _ 1%nat v (proj1 E1) O1 ltac:(lia)) as H.
  destruct (vmm_get_or_create_next_table pdpt _ _) as [pd s2].
  destruct H as (o2 & E2 & L2 & [(N2 & O2 & W2)|(-> & F)] & G2).
  2:{ exists o2. split; [by eapply extends_trans|]. split; [|split; [by eapply grows_trans|lia]]. rewrite W1 in F.
      destruct F as [F|?]; [left; rewrite F in L1; cbn in L1; lia|by right]. }
  rewrite (proj2 (Z.eqb_neq _ _)) by done.
  pose proof (table_step s2 o2 _ 0%nat v (proj1 E2) O2 ltac:(lia)) as H.
  destruct (vmm_get_or_create_next_table pd _ _) as [pt s3].
  destruct H as (o3 & E3 & L3 & [(N3 & O3 & W3)|(-> & F)] & G3).
  2:{ exists o3. split; [by eapply extends_trans, extends_trans|]. split; [|split; [by eapply grows_trans, grows_trans|lia]]. rewrite W2, W1 in F.
      destruct F as [F|?]; [left; rewrite F in L2; cbn in L2; lia|by right]. }
  rewrite (proj2 (Z.eqb_neq _ _)) by done.
  exists o3. split; [by eapply extends_trans, extends_trans|]. split; [done|]. split; [by eapply grows_trans, grows_trans|lia].
Qed.

(** Returning a frame that holds no table keeps the invariant. *)
Lemma free_frame_ok st own a :
  tables_ok st own → 0 < a → own !! a = None → tables_ok (free_frame a st) own.
Proof.
  intros Hok Ha Hnone. destruct (ok_pmm _ _ Hok) as (Hwf & Hbm & Htot & H0).
  destruct (pmm_bitmap (frames st)) as [bm|] eqn:Hb; [|done].
  assert (Hsame : pmm_free_frame a (frames st) = frames st → tables_ok (free_frame a st) own).
  { intros Hs. by apply (tables_ok_ext st). }
  destruct (decide (frame_addr_ok (pmm_total_frames (frames st)) a)) as [Hfa|Hbad].
  2:{ apply Hsame. eapply pmm_free_frame_bad; [done..|lia]. }
  destruct Hfa as [Hmod Hr]. unfold PAGE_SIZE in *.
  assert (Hae : a = a / 4096 * PAGE_SIZE) by (unfold PAGE_SIZE; zlia).
  destruct (decide (a / 4096 ∈ free_list (frames st))) as [Hin|Hnin].
  { apply Hsame. rewrite Hae. by eapply pmm_free_frame_again. }
  destruct (pmm_free_frame_spec (frames st) bm (a / 4096) Hwf Hb Hr Hnin) as (Hp & Hwf' & Hb' & Ht' & _).
  rewrite <- Hae in *. destruct Hok as [H1 H2 H3 H4 H5 H6]. constructor; try done.
  - intros t l p Ht. destruct (H2 t l p Ht) as (? & ? & Hnf & ? & ?). split_and!; try done; try lia.
    cbn. rewrite Hp. apply not_elem_of_cons. split; [|done]. intros Heq.
    assert (t = a) as -> by zlia. congruence.
  - cbn. rewrite Ht', Hb'. split_and!; [done|done|lia|]. rewrite Hp.
    apply not_elem_of_cons. split; [zlia|done].
Qed.

Lemma walk_page_ptr st own v a :
  tables_ok st own → is_u64 v → vmm_get_pte_ptr v st = Some a →
  walk 4 st (root st) v = if present (rdw st a) then WPage (rdw st a) else WNone.
Proof.
  intros Hok Hv Ha. pose proof (get_pte_ptr_spec st own v Hok Hv) as Hspec. rewrite Ha in Hspec.
  destruct Hspec as (pt & -> & Hpt). rewrite (walk_chain st own pt v) by done. cbn [walk].
  by destruct (present _).
Qed.

(** ** Properties *)

Abbreviation page_no v := (pre 0 v).

(** C2: mapping a page. On well-formed tables [vmm_map_page] keeps them well
    formed and never changes the translation of any other page, even when it
    creates tables or fails. It either installs the mapping, so that
    [vmm_get_mapping] of every address of the page gives the frame, and flushes
    the page; or it prints an error and changes no translation at all, which
    happens only with fewer than three free frames or inside a huge page. *)
Theorem vmm_map_page_correct st own virt phys flags :
  tables_ok st own → is_u64 virt → 0 <= phys < 2 ^ 52 → 0 <= flags < 4096 →
  let st' := vmm_map_page virt phys flags st in
  ∃ own', tables_ok st' own' ∧
    (∀ v, is_u64 v → page_no v ≠ page_no virt →
       vmm_get_mapping v st' = vmm_get_mapping v st) ∧
    (vm_out st' = vm_out st ∧ flushed st' = align_down_u64 virt PAGE_SIZE :: flushed st ∧
     (∀ v, is_u64 v → page_no v = page_no virt →
        vmm_get_mapping v st' = align_down_u64 phys PAGE_SIZE)
     ∨ vm_out st' ≠ vm_out st ∧ flushed st' = flushed st ∧
       vmm_get_mapping virt st' = vmm_get_mapping virt st ∧
       ((length (free_list (frames st)) < 3)%nat ∨
        ∃ k e, walk 4 st (root st) virt = WHuge k e)).
Proof.
  intros Hok Hv Hp Hf st'. unfold st'. clear st'.
  pose proof (vmm_map_page_tables virt phys flags st Hv) as Hdef.
  pose proof (map_tables_spec st own virt Hok) as Hspec.
  destruct (map_tables virt st) as [[pt|] st1]; destruct Hspec as (own1 & Hext & Hres & _);
    pose proof Hext as (Hok1 & Hcr1 & Hfl1 & Hout1 & _); exists own1.
  - rewrite Hdef. clear Hdef. set (e := Z.lor _ PTE_PRESENT).
    assert (Hm : ∀ v, vmm_get_mapping v (invlpg (align_down_u64 virt PAGE_SIZE)
        (wrw (slot pt (idx 0 virt)) e st1)) = vmm_get_mapping v (wrw (slot pt (idx 0 virt)) e st1))
      by done.
    split_and!.
    + apply (tables_ok_ext (wrw (slot pt (idx 0 virt)) e st1)); [done..|].
      eapply set_pte_ok; [done..|apply idx_range].
    + intros v Hv' Hne. rewrite Hm, (set_pte_mapping st1 own1), decide_False by done.
      by eapply extends_mapping.
    + left. split_and!; [done|cbn; by rewrite Hfl1|]. intros v Hv' Heq.
      rewrite Hm, (set_pte_mapping st1 own1), decide_True by done. unfold e.
      rewrite present_lor.
      destruct (align_down_page_bounds phys) as [? ?]; [unfold is_u64; lia|].
      pose proof (proj1 (land_range_l phys (u64 (Z.lnot (u64 (PAGE_SIZE - 1)))) 52 ltac:(lia) ltac:(lia))).
      apply decode_page; [done| |done]. unfold align_down_u64 in *. lia.
  - destruct Hdef as (msg & -> & Hmsg). split_and!.
    + by apply (tables_ok_ext st1).
    + intros v Hv' Hne. change (vmm_get_mapping v st1 = vmm_get_mapping v st).
      by eapply extends_mapping.
    + right. split_and!; [|done| |done].
      * cbn. rewrite Hout1. intros Hx. apply Hmsg.
        apply (app_inv_head (vm_out st)). by rewrite app_nil_r.
      * change (vmm_get_mapping virt st1 = vmm_get_mapping virt st).
        by eapply extends_mapping.
Qed.

(** Sixteen frames; the root table in frame 1 is empty. *)
Definition sample_vm : vm := MkVm ∅ 0x1000 sample_pmm [] [].

Lemma sample_vm_ok : tables_ok sample_vm {[0x1000 := (4%nat, 0)]}.
Proof.
  assert (Hr : ∀ a, rdw sample_vm a = 0) by done.
  constructor.
  - done.
  - intros t l p [<- [= <- <-]]%lookup_singleton_Some. split_and!; try done; try lia.
    vm_compute. intros Hx. repeat (apply elem_of_cons in Hx as [Hx|Hx]; [done|]).
    by apply not_elem_of_nil in Hx.
  - intros t l p i _ _ e. unfold e. by rewrite Hr.
  - intros t l q [_ [= <- _]]%lookup_singleton_Some. lia.
  - intros t1 t2 x [<- _]%lookup_singleton_Some [<- _]%lookup_singleton_Some. done.
  - split_and!; [apply sample_pmm_wf|done|vm_compute; done|].
    vm_compute. intros Hx. repeat (apply elem_of_cons in Hx as [Hx|Hx]; [done|]).
    by apply not_elem_of_nil in Hx.
Qed.

Lemma vmm_map_page_correct_witness :
  let st' := vmm_map_page 0x40000000 0xF000 PTE_WRITABLE sample_vm in
  vmm_get_mapping 0x40000123 st' = 0xF000 ∧ vmm_get_mapping 0x40001000 st' = 0.
Proof.
  intros st'. split; [reflexivity|].
  destruct (vmm_map_page_correct sample_vm _ 0x40000000 0xF000 PTE_WRITABLE sample_vm_ok)
    as (own' & _ & Hframe & _); [unfold is_u64, PTE_WRITABLE; lia..|].
  unfold st'. rewrite Hframe; [reflexivity|unfold is_u64; lia|discriminate].
Defined.

(** C14: unmapping a page. When the address is mapped by a page-table entry,
    [vmm_unmap_page] returns the frame it was mapped to, clears the translation
    of that page and of no other, flushes it and, when asked, returns the frame
    to the allocator; the tables stay well formed. Otherwise (not mapped, or
    inside a huge page) it returns 0 and changes nothing. *)
Theorem vmm_unmap_page_correct st own virt free :
  tables_ok st own → is_u64 virt →
  let '(r, st') := vmm_unmap_page virt free st in
  (∀ v, is_u64 v → page_no v ≠ page_no virt → vmm_get_mapping v st' = vmm_get_mapping v st) ∧
  match walk 4 st (root st) virt with
  | WPage e =>
      r = Z.land e PTE_ADDR_MASK ∧ vmm_get_mapping virt st' = 0 ∧
      flushed st' = align_down_u64 virt PAGE_SIZE :: flushed st ∧
      frames st' = (if free && negb (r =? 0) then pmm_free_frame r (frames st) else frames st) ∧
      (own !! r = None → tables_ok st' own)
  | _ => r = 0 ∧ st' = st
  end.
Proof.
  intros Hok Hv. unfold vmm_unmap_page. cbv zeta.
  assert (Hptr : vmm_get_pte_ptr (align_down_u64 virt PAGE_SIZE) st = vmm_get_pte_ptr virt st).
  { unfold vmm_get_pte_ptr. rewrite (align_down_page_id (align_down_u64 virt PAGE_SIZE)); [done| |].
    - apply land_range_l; [lia|done].
    - by apply align_down_page_bounds. }
  rewrite Hptr. clear Hptr. pose proof (get_pte_ptr_spec st own virt Hok Hv) as Hspec.
  destruct (vmm_get_pte_ptr virt st) as [a|] eqn:Ha.
  2:{ split; [done|]. destruct (walk 4 st (root st) virt) eqn:Hw; try done. by destruct (Hspec entry). }
  rewrite (walk_page_ptr st own virt a) by done. destruct Hspec as (pt & -> & Hpt).
  set (e := rdw st (slot pt (idx 0 virt))). destruct (present e) eqn:Hp; cbn [negb]; [|done].
  set (r := Z.land e PTE_ADDR_MASK). set (st1 := wrw (slot pt (idx 0 virt)) 0 st).
  assert (Hok1 : tables_ok (invlpg (align_down_u64 virt PAGE_SIZE) st1) own).
  { apply (tables_ok_ext st1); [done..|]. eapply set_pte_ok; [done..|apply idx_range]. }
  set (st2 := if free && negb (r =? 0) then _ else _).
  assert (Hm : ∀ v, vmm_get_mapping v st2 = vmm_get_mapping v st1)
    by (intros; unfold st2; by case_if).
  split.
  - intros v Hv' Hne. by rewrite Hm; unfold st1; rewrite (set_pte_mapping st own), decide_False.
  - split_and!; [done| |unfold st2; by case_if|unfold st2; by case_if|].
    + by rewrite Hm; unfold st1; rewrite (set_pte_mapping st own), decide_True.
    + intros Hnone. unfold st2. case_if; [|done]. btests. apply free_frame_ok; [done| |done].
      assert (0 <= r); [|lia]. unfold r. rewrite Z.land_comm. apply Z.land_nonneg. by left.
Qed.

Lemma vmm_unmap_page_correct_witness :
  let st1 := vmm_map_page 0x40000000 0xF000 PTE_WRITABLE sample_vm in
  let '(r, st2) := vmm_unmap_page 0x40000000 true st1 in
  r = 0xF000 ∧ vmm_get_mapping 0x40000000 st2 = 0 ∧
  vmm_unmap_page 0x40000000 true sample_vm = (0, sample_vm).
Proof.
  intros st1.
  destruct (vmm_map_page_correct sample_vm _ 0x40000000 0xF000 PTE_WRITABLE sample_vm_ok)
    as (own1 & Hok1 & _); [unfold is_u64, PTE_WRITABLE; lia..|]. fold st1 in Hok1.
  pose proof (vmm_unmap_page_correct st1 own1 0x40000000 true Hok1 ltac:(unfold is_u64; lia)) as H.
  destruct (vmm_unmap_page 0x40000000 true st1) as [r st2] eqn:Hu.
  replace (walk 4 st1 (root st1) 0x40000000) with (WPage 0xF003) in H by reflexivity.
  destruct H as (_ & Hr & Hm & _). split_and!; [rewrite Hr; reflexivity|done|reflexivity].
Defined.
