(* ===== verification/Alloc.v ===== *)
(** * The allocator interface

    What the kernel's components rely on when they call [kmalloc], [kzalloc]
    and [kfree] ([src/include/heap.h]): the clients are verified against this
    class, and [Heap] provides the instance. *)

From S2P Require Import Prelude.

Class Allocator (H : Type) := {
  (** The pointer is 0 when the allocation fails. *)
  k_alloc : Z → H → Z * H;
  k_free : Z → H → H;
  (** The allocator's own invariant, and the live blocks: address and size. *)
  h_inv : H → Prop;
  live : H → list (Z * Z);
  k_alloc_ok : ∀ sz h, h_inv h → 0 < sz <= 2 ^ 63 →
    let '(p, h') := k_alloc sz h in
    h_inv h' ∧
    (p = 0 ∧ live h' = live h ∨
     ∃ s u1 u2, p ≠ 0 ∧ sz <= s ∧ live h = u1 ++ u2 ∧ live h' = u1 ++ (p, s) :: u2 ∧
       ∀ a t, (a, t) ∈ live h → a + t <= p ∨ p + s <= a);
  k_free_ok : ∀ h p s u1 u2, h_inv h → live h = u1 ++ (p, s) :: u2 →
    h_inv (k_free p h) ∧ live (k_free p h) = u1 ++ u2
}.

(** How many blocks are live after an allocation. *)
Lemma k_alloc_live_count `{Allocator H} sz h :
  h_inv h → 0 < sz <= 2 ^ 63 →
  let '(p, h') := k_alloc sz h in
  h_inv h' ∧ length (live h') = (length (live h) + (if (p =? 0)%Z then 0 else 1))%nat.
Proof.
  intros Hi Hsz. pose proof (k_alloc_ok sz h Hi Hsz) as Hk. destruct (k_alloc sz h) as [p h'].
  destruct Hk as [Hi' [[-> ->]|(s & u1 & u2 & Hp & _ & -> & -> & _)]]; (split; [done|]).
  - cbn. lia.
  - rewrite (proj2 (Z.eqb_neq p 0)) by done. rewrite !length_app. cbn. lia.
Qed.

(** What a client that keeps its own blocks needs to know of an allocation
    anywhere: its blocks stay, and the new block is none of them. *)
Definition heap_grows `{Allocator H} (h h' : H) : Prop := h_inv h' ∧ live h ⊆ live h'.

Definition fresh_block `{Allocator H} (h h' : H) (p sz : Z) : Prop :=
  p ≠ 0 ∧ (∃ s, sz <= s ∧ (p, s) ∈ live h') ∧ ∀ t, (p, t) ∈ live h → t <= 0.

Lemma k_alloc_grows `{Allocator H} sz h :
  h_inv h → 0 < sz <= 2 ^ 63 →
  let '(p, h') := k_alloc sz h in heap_grows h h' ∧ (p = 0 ∨ fresh_block h h' p sz).
Proof.
  intros Hi Hsz. pose proof (k_alloc_ok sz h Hi Hsz) as Hk. destruct (k_alloc sz h) as [p h'].
  destruct Hk as [Hi' [[-> Hl]|(s & u1 & u2 & Hp & Hs & Hu & Hu' & Hd)]]; (split; [split; [done|]|]).
  - by rewrite Hl.
  - by left.
  - rewrite Hu, Hu'. intros b Hb. apply elem_of_app in Hb as [?|?]; apply elem_of_app; [by left|].
    right. by right.
  - right. split; [done|]. split; [exists s; split; [done|]; rewrite Hu'; apply elem_of_app; right; left|].
    intros t Ht. destruct (Hd _ _ Ht); lia.
Qed.

(** ** A bump allocator over a bounded arena

    The simplest instance: it shows that the class can be met, with both
    outcomes of an allocation, and lets the clients be evaluated. *)

Record arena := MkArena { arena_next : Z; arena_end : Z; arena_blocks : list (Z * Z) }.

Definition arena_alloc (sz : Z) (h : arena) : Z * arena :=
  if arena_end h <? arena_next h + sz then (0, h)
  else (arena_next h,
        MkArena (arena_next h + sz) (arena_end h) (arena_blocks h ++ [(arena_next h, sz)])).

Definition arena_free (p : Z) (h : arena) : arena :=
  MkArena (arena_next h) (arena_end h) (filter (λ b, b.1 ≠ p) (arena_blocks h)).

Definition arena_inv (h : arena) : Prop :=
  0 < arena_next h ∧ NoDup (arena_blocks h).*1 ∧
  ∀ a s, (a, s) ∈ arena_blocks h → a < arena_next h ∧ a + s <= arena_next h.

Lemma arena_empty_inv a e : 0 < a → arena_inv (MkArena a e []).
Proof. intros Ha. split; [done|]. split; [constructor|]. intros x s Hx. by apply elem_of_nil in Hx. Qed.

Lemma arena_alloc_ok sz h :
  arena_inv h → 0 < sz <= 2 ^ 63 →
  let '(p, h') := arena_alloc sz h in
  arena_inv h' ∧
  (p = 0 ∧ arena_blocks h' = arena_blocks h ∨
   ∃ s u1 u2, p ≠ 0 ∧ sz <= s ∧ arena_blocks h = u1 ++ u2 ∧
     arena_blocks h' = u1 ++ (p, s) :: u2 ∧
     ∀ a t, (a, t) ∈ arena_blocks h → a + t <= p ∨ p + s <= a).
Proof.
  intros (Hpos & Hnd & Hb) Hsz. unfold arena_alloc. case_if; [by split; [|left]|]. cbn. split.
  - split; [cbn; lia|]. cbn. split.
    + rewrite fmap_app. apply NoDup_app. split; [done|]. split; [|apply NoDup_singleton].
      intros a ([a' s] & -> & Has%Hb)%list_elem_of_fmap ?%list_elem_of_singleton. cbn in *. lia.
    + intros a s [Ha%Hb|[= -> ->]%list_elem_of_singleton]%elem_of_app; lia.
  - right. exists sz, (arena_blocks h), []. rewrite app_nil_r. split_and!; [lia|lia|done|done|].
    intros a t Ha%Hb. lia.
Qed.

Lemma arena_free_ok h p s u1 u2 :
  arena_inv h → arena_blocks h = u1 ++ (p, s) :: u2 →
  arena_inv (arena_free p h) ∧ arena_blocks (arena_free p h) = u1 ++ u2.
Proof.
  intros (Hpos & Hnd & Hb) Heq.
  assert (Hf : filter (λ b : Z * Z, b.1 ≠ p) (arena_blocks h) = u1 ++ u2).
  { rewrite Heq, fmap_app, fmap_cons in Hnd.
    apply NoDup_app in Hnd as (_ & H1 & [H2 _]%NoDup_cons).
    rewrite Heq, filter_app, filter_cons_False by (cbn; tauto).
    rewrite !filter_all; [done|intros b Hb2 Hp|intros b Hb1 Hp].
    - apply H2. apply list_elem_of_fmap. by exists b.
    - apply (H1 p); [|left]. apply list_elem_of_fmap. by exists b. }
  split; [|done]. split; [done|]. cbn. rewrite Hf. split.
  - rewrite Heq, fmap_app, fmap_cons in Hnd. rewrite fmap_app.
    apply NoDup_app in Hnd as (? & H1 & [_ H2]%NoDup_cons). apply NoDup_app.
    split; [done|]. split; [|done]. intros x Hx Hy. apply (H1 x Hx). by right.
  - intros a t Ha. apply Hb. rewrite Heq. apply elem_of_app in Ha as [?|?]; apply elem_of_app; [by left|].
    right. by right.
Qed.

#[global] Instance arena_allocator : Allocator arena := {|
  k_alloc := arena_alloc;
  k_free := arena_free;
  h_inv := arena_inv;
  live := arena_blocks;
  k_alloc_ok := arena_alloc_ok;
  k_free_ok := arena_free_ok
|}.

(** ** Copies of strings

    [device.c] and [command.c] have the same [strdup]; [None] is a null
    pointer, as argument and as result. The copy is a value, its block on the
    heap is what the allocator keeps. *)
Definition k_strdup `{Allocator H} (s : option (list Z)) (h : H) : option (list Z) * H :=
  match s with
  | None => (None, h)
  | Some s =>
      let '(copy, h) := k_alloc (Zlength s + 1) h in
      if copy =? 0 then (None, h) else (Some s, h)
  end.

Lemma k_strdup_copy `{Allocator H} s h s' h' : k_strdup (Some s) h = (Some s', h') → s' = s.
Proof. unfold k_strdup. destruct (k_alloc _ h) as [p h1]. case_if; [done|]. by intros [= -> _]. Qed.
