(* ===== verification/Heap.v ===== *)
(** * The kernel heap ([src/kernel/heap.c])

    A doubly linked list of blocks that tile the mapped part of the heap
    region. A header is the 48-byte C structure at the block's address; the
    headers are kept by address, and a header that a merge has swallowed stays
    in memory, as in the code. Pages come from [Pmm] and [Vmm]. *)

From S2P Require Import Prelude Utils CString Print Pmm Vmm Alloc.

Definition KERNEL_HEAP_START : Z := 0x0000000041000000.
Definition KERNEL_HEAP_INITIAL_SIZE : Z := 0x0000000000004000.
Definition KERNEL_HEAP_MAX_SIZE : Z := 0x0000000001000000.

Definition HEAP_ALIGN : Z := 16.
Definition HEAP_MIN_SPLIT : Z := 32.
Definition HEAP_BLOCK_MAGIC : Z := 0x48454150424C4B30.
Definition HEAP_PAGE_FLAGS : Z := 0x03.
Definition sizeof_heap_block : Z := 48.

Record heap_block := MkBlock {
  magic : Z; size : Z; free : Z; prev : Z; next : Z; reserved : Z
}.

Record heap := MkHeap {
  blocks : gmap Z heap_block;
  heap_first : Z;
  heap_start : Z;
  heap_mapped_end : Z;
  heap_max_end : Z;
  heap_initialized : bool;
  heap_vm : vm
}.

(** The header at an address; memory that never held one reads as zeroes. *)
Definition hdr (h : heap) (a : Z) : heap_block :=
  default (MkBlock 0 0 0 0 0 0) (blocks h !! a).

Definition put (a : Z) (b : heap_block) (h : heap) : heap :=
  MkHeap (<[a := b]> (blocks h)) (heap_first h) (heap_start h) (heap_mapped_end h)
         (heap_max_end h) (heap_initialized h) (heap_vm h).

(** [block->field = x] *)
Definition set_size (a x : Z) (h : heap) : heap :=
  let b := hdr h a in put a (MkBlock (magic b) x (free b) (prev b) (next b) (reserved b)) h.
Definition set_free (a x : Z) (h : heap) : heap :=
  let b := hdr h a in put a (MkBlock (magic b) (size b) x (prev b) (next b) (reserved b)) h.
Definition set_prev (a x : Z) (h : heap) : heap :=
  let b := hdr h a in put a (MkBlock (magic b) (size b) (free b) x (next b) (reserved b)) h.
Definition set_next (a x : Z) (h : heap) : heap :=
  let b := hdr h a in put a (MkBlock (magic b) (size b) (free b) (prev b) x (reserved b)) h.

Definition set_first (x : Z) (h : heap) : heap :=
  MkHeap (blocks h) x (heap_start h) (heap_mapped_end h) (heap_max_end h) (heap_initialized h) (heap_vm h).
Definition set_mapped_end (x : Z) (h : heap) : heap :=
  MkHeap (blocks h) (heap_first h) (heap_start h) x (heap_max_end h) (heap_initialized h) (heap_vm h).
Definition set_initialized (x : bool) (h : heap) : heap :=
  MkHeap (blocks h) (heap_first h) (heap_start h) (heap_mapped_end h) (heap_max_end h) x (heap_vm h).
Definition set_vm (v : vm) (h : heap) : heap :=
  MkHeap (blocks h) (heap_first h) (heap_start h) (heap_mapped_end h) (heap_max_end h) (heap_initialized h) v.
Definition heap_print (o : output) (h : heap) : heap := set_vm (vm_print o (heap_vm h)) h.

Definition align_up (value align : Z) : Z := align_up_u64 value align.

Definition heap_init_block (block sz fr : Z) (h : heap) : heap :=
  put block (MkBlock HEAP_BLOCK_MAGIC sz fr 0 0 0) h.

(** The rollback loop of [heap_map_pages]: [n] pages are mapped. *)
Fixpoint heap_unmap_pages (n : nat) (virt_start : Z) (v : vm) : vm :=
  match n with
  | O => v
  | S n' =>
      let mapped := PAGE_SIZE * Z.of_nat n' in
      heap_unmap_pages n' virt_start (vmm_unmap_page (u64 (virt_start + mapped)) true v).2
  end.

(** The mapping loop, [n] pages to go, [done] pages mapped. *)
Fixpoint heap_map_loop (n dn : nat) (virt_start : Z) (v : vm) : bool * vm :=
  match n with
  | O => (true, v)
  | S n' =>
      let virt := u64 (virt_start + PAGE_SIZE * Z.of_nat dn) in
      let '(phys, v) := alloc_frame v in
      if phys =? 0 then (false, heap_unmap_pages dn virt_start v)
      else heap_map_loop n' (S dn) virt_start (vmm_map_page virt phys HEAP_PAGE_FLAGS v)
  end.

Definition heap_map_pages (virt_start sz : Z) (v : vm) : bool * vm :=
  let map_size := align_up sz PAGE_SIZE in
  heap_map_loop (Z.to_nat (map_size / PAGE_SIZE)) 0 virt_start v.

(** The walks over the list have one round per header as fuel. *)
Definition heap_fuel (h : heap) : nat := S (base.size (blocks h)).

(** [heap_find_free_block] from [current] on; [None]: the walk did not end. *)
Fixpoint find_free_from (fuel : nat) (current sz : Z) (h : heap) : option Z :=
  match fuel with
  | O => None
  | S fuel' =>
      if current =? 0 then Some 0
      else
        let b := hdr h current in
        if (magic b =? HEAP_BLOCK_MAGIC) && negb (free b =? 0) && (sz <=? size b)
        then Some current
        else find_free_from fuel' (next b) sz h
  end.

Definition heap_find_free_block (sz : Z) (h : heap) : option Z :=
  find_free_from (heap_fuel h) (heap_first h) sz h.

Definition heap_split_block (block sz : Z) (h : heap) : heap :=
  if block =? 0 then h
  else if size (hdr h block) <? sz then h
  else
    let remaining := size (hdr h block) - sz in
    if remaining <? sizeof_heap_block + HEAP_MIN_SPLIT then h
    else
      let new_block := u64 (block + sizeof_heap_block + sz) in
      let h := heap_init_block new_block (remaining - sizeof_heap_block) 1 h in
      let h := set_prev new_block block h in
      let h := set_next new_block (next (hdr h block)) h in
      let h := if negb (next (hdr h block) =? 0)
               then set_prev (next (hdr h block)) new_block h else h in
      let h := set_next block new_block h in
      set_size block sz h.

Definition heap_coalesce_with_next (block : Z) (h : heap) : heap :=
  if block =? 0 then h
  else
    let nx := next (hdr h block) in
    if nx =? 0 then h
    else if negb (magic (hdr h nx) =? HEAP_BLOCK_MAGIC) then h
    else if free (hdr h nx) =? 0 then h
    else
      let h := set_size block
                 (u64 (size (hdr h block) + sizeof_heap_block + size (hdr h nx))) h in
      let h := set_next block (next (hdr h nx)) h in
      if negb (next (hdr h nx) =? 0) then set_prev (next (hdr h nx)) block h else h.

Definition heap_coalesce (block : Z) (h : heap) : heap :=
  if block =? 0 then h
  else
    let h := heap_coalesce_with_next block h in
    if negb (prev (hdr h block) =? 0) && negb (free (hdr h (prev (hdr h block))) =? 0)
    then heap_coalesce_with_next (prev (hdr h block)) h else h.

Fixpoint last_from (fuel : nat) (current : Z) (h : heap) : option Z :=
  match fuel with
  | O => None
  | S fuel' =>
      if negb (next (hdr h current) =? 0) then last_from fuel' (next (hdr h current)) h
      else Some current
  end.

Definition heap_last_block (h : heap) : option Z :=
  if heap_first h =? 0 then Some 0 else last_from (heap_fuel h) (heap_first h) h.

(** [None]: the walk to the last block did not end. *)
Definition heap_expand (min_payload_size : Z) (h : heap) : option (bool * heap) :=
  let needed := u64 (sizeof_heap_block + min_payload_size) in
  let expand_size := align_up needed PAGE_SIZE in
  let expand_size := if expand_size <? KERNEL_HEAP_INITIAL_SIZE
                     then KERNEL_HEAP_INITIAL_SIZE else expand_size in
  if heap_max_end h <? u64 (heap_mapped_end h + expand_size) then Some (false, h)
  else
    let new_region_start := heap_mapped_end h in
    let '(ok, v) := heap_map_pages new_region_start expand_size (heap_vm h) in
    let h := set_vm v h in
    if negb ok then Some (false, h)
    else
      let h := set_mapped_end (u64 (heap_mapped_end h + expand_size)) h in
      let new_block := new_region_start in
      let h := heap_init_block new_block (u64 (expand_size - sizeof_heap_block)) 1 h in
      if heap_first h =? 0 then Some (true, set_first new_block h)
      else
        match heap_last_block h with
        | None => None
        | Some last =>
            let h := set_next last new_block h in
            let h := set_prev new_block last h in
            let h := if negb (free (hdr h last) =? 0) then heap_coalesce_with_next last h else h in
            Some (true, h)
        end.

(** The three accounting walks, as the list of the headers they visit. *)
Fixpoint headers_from (fuel : nat) (current : Z) (h : heap) : option (list heap_block) :=
  match fuel with
  | O => None
  | S fuel' =>
      if current =? 0 then Some []
      else match headers_from fuel' (next (hdr h current)) h with
           | Some bs => Some (hdr h current :: bs)
           | None => None
           end
  end.

Definition headers (h : heap) : option (list heap_block) :=
  headers_from (heap_fuel h) (heap_first h) h.

Definition counted (b : heap_block) : bool :=
  (magic b =? HEAP_BLOCK_MAGIC) && negb (free b =? 0).

Definition heap_total_free_bytes (h : heap) : option Z :=
  match headers h with
  | Some bs => Some (foldl (λ total b, if counted b then u64 (total + size b) else total) 0 bs)
  | None => None
  end.

Definition heap_largest_free_block (h : heap) : option Z :=
  match headers h with
  | Some bs => Some (foldl (λ largest b, if counted b && (largest <? size b) then size b else largest) 0 bs)
  | None => None
  end.

Definition heap_block_count (h : heap) : option Z :=
  match headers h with
  | Some bs => Some (foldl (λ count _, u64 (count + 1)) 0 bs)
  | None => None
  end.

Definition heap_init (h : heap) : option heap :=
  let h := MkHeap (blocks h) 0 KERNEL_HEAP_START KERNEL_HEAP_START
             (KERNEL_HEAP_START + KERNEL_HEAP_MAX_SIZE) false (heap_vm h) in
  match heap_expand (KERNEL_HEAP_INITIAL_SIZE - sizeof_heap_block) h with
  | None => None
  | Some (false, h) => Some (heap_print (color_line "Heap initialization FAILED" COLOR_RED_ON_BLACK) h)
  | Some (true, h) =>
      let h := set_initialized true h in
      match heap_total_free_bytes h with
      | None => None
      | Some total =>
          Some (heap_print
            (color_line "Kernel heap initialized" COLOR_GREEN_ON_BLACK ++
             print_field_hex "heap start = " (heap_start h) ++
             print_field_hex "heap end   = " (heap_mapped_end h) ++
             print_field_hex "heap max   = " (heap_max_end h) ++
             prints "heap free  = " ++ print_dec64 total ++ prints " bytes" ++ newline) h)
      end
  end.

(** [kmalloc]: the pointer (0 for null) and the heap; [None]: a walk over the
    list did not end. *)
Definition kmalloc (sz : Z) (h : heap) : option (Z * heap) :=
  if negb (heap_initialized h) then Some (0, h)
  else if sz =? 0 then Some (0, h)
  else
    let sz := align_up sz HEAP_ALIGN in
    let finish block h :=
      let h := heap_split_block block sz h in
      let h := set_free block 0 h in
      Some (u64 (block + sizeof_heap_block), h) in
    match heap_find_free_block sz h with
    | None => None
    | Some block =>
        if block =? 0 then
          match heap_expand sz h with
          | None => None
          | Some (false, h) => Some (0, h)
          | Some (true, h) =>
              match heap_find_free_block sz h with
              | None => None
              | Some block => if block =? 0 then Some (0, h) else finish block h
              end
          end
        else finish block h
    end.

Definition kfree (ptr : Z) (h : heap) : heap :=
  if ptr =? 0 then h
  else
    let block := u64 (ptr - sizeof_heap_block) in
    if negb (magic (hdr h block) =? HEAP_BLOCK_MAGIC) then
      heap_print (color_line "kfree invalid pointer" COLOR_RED_ON_BLACK) h
    else if negb (free (hdr h block) =? 0) then
      heap_print (color_line "kfree double free ignored" COLOR_RED_ON_BLACK) h
    else
      let h := set_free block 1 h in
      heap_coalesce block h.

(** [heap_memset] on the bytes of memory, one byte per round. *)
Fixpoint heap_memset (ptr value : Z) (n : nat) (m : Z → Z) : Z → Z :=
  match n with
  | O => m
  | S n' => let m := heap_memset ptr value n' m in
            λ a, if a =? ptr + Z.of_nat n' then value else m a
  end.

Definition kzalloc (sz : Z) (h : heap) (m : Z → Z) : option (Z * heap * (Z → Z)) :=
  match kmalloc sz h with
  | None => None
  | Some (ptr, h) =>
      if ptr =? 0 then Some (0, h, m) else Some (ptr, h, heap_memset ptr 0 (Z.to_nat sz) m)
  end.

(** ** The abstract heap: the list of its blocks *)

Record ablock := AB { b_addr : Z; b_size : Z; b_free : bool }.

Definition b_end (b : ablock) : Z := b_addr b + 48 + b_size b.

(** The address of the first block, [nxt] for an empty list. *)
Definition hd_or (l : list ablock) (nxt : Z) : Z :=
  match l with [] => nxt | b :: _ => b_addr b end.
Definition last_or (prv : Z) (l : list ablock) : Z :=
  match last l with None => prv | Some b => b_addr b end.

Definition header (b : ablock) (prv nxt : Z) : heap_block :=
  MkBlock HEAP_BLOCK_MAGIC (b_size b) (b2z (b_free b)) prv nxt 0.

(** The headers [f] link the blocks [l], between [prv] and [nxt]. *)
Fixpoint seg (f : Z → heap_block) (prv : Z) (l : list ablock) (nxt : Z) : Prop :=
  match l with
  | [] => True
  | b :: r => f (b_addr b) = header b prv (hd_or r nxt) ∧ seg f (b_addr b) r nxt
  end.

(** The blocks tile [s, e) and have sizes the alignment allows. *)
Fixpoint tiles (s : Z) (l : list ablock) (e : Z) : Prop :=
  match l with
  | [] => s = e
  | b :: r => b_addr b = s ∧ 0 <= b_size b ∧ b_size b mod 16 = 0 ∧ tiles (b_end b) r e
  end.

(** No two neighbours are both free. *)
Fixpoint no_adj (l : list ablock) : Prop :=
  match l with
  | [] => True
  | b :: r =>
      match r with [] => True | c :: _ => b_free b && b_free c = false end ∧ no_adj r
  end.

(** The headers in memory are the list [l], which tiles the mapped region. *)
Record heap_wf (h : heap) (l : list ablock) : Prop := {
  wf_first : heap_first h = hd_or l 0;
  wf_seg : seg (hdr h) 0 l 0;
  wf_tiles : tiles KERNEL_HEAP_START l (heap_mapped_end h);
  wf_end : KERNEL_HEAP_START <= heap_mapped_end h <= heap_max_end h;
  wf_max : heap_max_end h = KERNEL_HEAP_START + KERNEL_HEAP_MAX_SIZE;
  wf_page : heap_mapped_end h mod 4096 = 0
}.

(** The invariant between operations: also, no two free neighbours. *)
Definition heap_ok (h : heap) (l : list ablock) : Prop :=
  heap_wf h l ∧ no_adj l ∧ heap_initialized h = true.

(** The live blocks. *)
Definition used (l : list ablock) : list (Z * Z) :=
  (λ b, (b_addr b, b_size b)) <$> filter (λ b, b_free b = false) l.

(** ** Lemmas: lists of blocks *)

Lemma tiles_app s l1 l2 e : tiles s (l1 ++ l2) e ↔ ∃ m, tiles s l1 m ∧ tiles m l2 e.
Proof.
  revert s. induction l1 as [|b l1 IH]; intros s; cbn [app tiles].
  - split; [by exists s|]. by intros (m & -> & ?).
  - rewrite IH. naive_solver.
Qed.

Lemma tiles_le s l e : tiles s l e → s <= e.
Proof.
  revert s. induction l as [|b l IH]; intros s; cbn; [lia|]. unfold b_end.
  intros (<- & ? & _ & H%IH). lia.
Qed.

Lemma tiles_bounds s l e b :
  tiles s l e → b ∈ l → s <= b_addr b ∧ b_end b <= e ∧ 0 <= b_size b ∧ b_size b mod 16 = 0.
Proof.
  revert s. induction l as [|c l IH]; intros s Ht Hb; [by apply not_elem_of_nil in Hb|].
  cbn in Ht. destruct Ht as (<- & H0 & H16 & Ht). apply elem_of_cons in Hb as [->|Hb].
  - pose proof (tiles_le _ _ _ Ht). split_and!; try done; lia.
  - destruct (IH _ Ht Hb) as (? & ? & ? & ?). unfold b_end in *. split_and!; try done; lia.
Qed.

Lemma tiles_aligned s l e b : tiles s l e → s mod 16 = 0 → b ∈ l → b_addr b mod 16 = 0.
Proof.
  revert s. induction l as [|c l IH]; intros s Ht Hs Hb; [by apply not_elem_of_nil in Hb|].
  cbn in Ht. destruct Ht as (<- & H0 & H16 & Ht). apply elem_of_cons in Hb as [->|Hb]; [done|].
  eapply IH; [done| |done]. unfold b_end. zlia.
Qed.

(** Different blocks of a tiling are disjoint, headers included. *)
Lemma tiles_disjoint s l e i j b c :
  tiles s l e → (i < j)%nat → l !! i = Some b → l !! j = Some c → b_end b <= b_addr c.
Proof.
  revert s i j. induction l as [|x l IH]; intros s i j Ht Hij Hb Hc; [done|].
  cbn in Ht. destruct Ht as (<- & H0 & H16 & Ht).
  destruct j as [|j]; [lia|]. cbn in Hc. destruct i as [|i].
  - injection Hb as ->. apply list_elem_of_lookup_2 in Hc.
    by destruct (tiles_bounds _ _ _ _ Ht Hc).
  - cbn in Hb. eapply IH; [done| |done..]. lia.
Qed.

Lemma seg_app f prv l1 l2 nxt :
  seg f prv (l1 ++ l2) nxt ↔ seg f prv l1 (hd_or l2 nxt) ∧ seg f (last_or prv l1) l2 nxt.
Proof.
  revert prv. induction l1 as [|b l1 IH]; intros prv; cbn [app seg].
  - cbn. tauto.
  - rewrite IH. replace (last_or (b_addr b) l1) with (last_or prv (b :: l1)).
    + replace (hd_or (l1 ++ l2) nxt) with (hd_or l1 (hd_or l2 nxt)) by (by destruct l1). tauto.
    + unfold last_or. rewrite last_cons. by destruct (last l1).
Qed.

Lemma seg_ext f g prv l nxt :
  (∀ b, b ∈ l → f (b_addr b) = g (b_addr b)) → seg f prv l nxt → seg g prv l nxt.
Proof.
  revert prv. induction l as [|b l IH]; intros prv H; cbn [seg]; [done|].
  intros [Hb Hl]. split; [rewrite <- Hb; symmetry; apply H; left|].
  apply IH; [|done]. intros c Hc. apply H. by right.
Qed.

(** Changing the back pointer of the first block of a segment. *)
Lemma seg_set_prev f g prv prv' l nxt :
  (∀ b, b ∈ l → b_addr b ≠ hd_or l nxt → g (b_addr b) = f (b_addr b)) →
  (l ≠ [] → g (hd_or l nxt) =
     let b := f (hd_or l nxt) in MkBlock (magic b) (size b) (free b) prv' (next b) (reserved b)) →
  NoDup (b_addr <$> l) →
  seg f prv l nxt → seg g prv' l nxt.
Proof.
  destruct l as [|b l]; [done|]. cbn [hd_or seg]. intros Hother Hfirst Hnd [Hb Hl].
  split.
  - rewrite Hfirst by done. by rewrite Hb.
  - eapply seg_ext; [|done]. intros c Hc. symmetry. apply Hother; [by right|].
    rewrite fmap_cons in Hnd. apply NoDup_cons in Hnd as [Hnin _]. intros Heq.
    apply Hnin. rewrite <- Heq. by apply list_elem_of_fmap_2.
Qed.

Lemma last_or_snoc prv l b : last_or prv (l ++ [b]) = b_addr b.
Proof. unfold last_or. by rewrite last_snoc. Qed.

Lemma used_app l1 l2 : used (l1 ++ l2) = used l1 ++ used l2.
Proof. unfold used. by rewrite filter_app, fmap_app. Qed.

Lemma used_cons b l :
  used (b :: l) = (if b_free b then [] else [(b_addr b, b_size b)]) ++ used l.
Proof. unfold used. rewrite filter_cons. by destruct (b_free b); case_decide. Qed.

Lemma no_adj_app l1 l2 :
  no_adj (l1 ++ l2) ↔ no_adj l1 ∧ no_adj l2 ∧
    ∀ b c, last l1 = Some b → head l2 = Some c → b_free b && b_free c = false.
Proof.
  induction l1 as [|b l1 IH]; cbn [app no_adj].
  - naive_solver.
  - rewrite IH. rewrite last_cons. destruct l1 as [|c l1]; cbn [app].
    + destruct l2 as [|d l2]; cbn; naive_solver.
    + destruct (last (c :: l1)) eqn:Hl; [naive_solver|]. by apply last_None in Hl.
Qed.

Lemma tiles_split s l1 b l2 e :
  tiles s (l1 ++ b :: l2) e →
  s <= b_addr b ∧ 0 <= b_size b ∧ b_size b mod 16 = 0 ∧ b_end b <= e ∧
  tiles s l1 (b_addr b) ∧ tiles (b_end b) l2 e ∧
  (∀ c, c ∈ l1 → s <= b_addr c ∧ b_end c <= b_addr b ∧ 0 <= b_size c) ∧
  (∀ c, c ∈ l2 → b_end b <= b_addr c ∧ b_end c <= e ∧ 0 <= b_size c).
Proof.
  intros (m & H1 & H2)%tiles_app. cbn in H2. destruct H2 as (<- & H0 & H16 & H2).
  pose proof (tiles_le _ _ _ H1). pose proof (tiles_le _ _ _ H2).
  split_and!; try done.
  - intros c Hc. destruct (tiles_bounds _ _ _ _ H1 Hc) as (? & ? & ? & ?). done.
  - intros c Hc. destruct (tiles_bounds _ _ _ _ H2 Hc) as (? & ? & ? & ?). done.
Qed.

Lemma tiles_NoDup s l e : tiles s l e → NoDup (b_addr <$> l).
Proof.
  revert s. induction l as [|b l IH]; intros s Ht; [constructor|].
  pose proof (tiles_split s [] b l e Ht) as (_ & H0 & _ & _ & _ & Htl & _ & Hafter).
  rewrite fmap_cons. apply NoDup_cons. split; [|by eapply IH].
  intros (c & Heq & Hc)%list_elem_of_fmap. destruct (Hafter c Hc) as (? & _). unfold b_end in *. lia.
Qed.

Lemma hdr_put a b h x : hdr (put a b h) x = if x =? a then b else hdr h x.
Proof.
  unfold hdr, put. cbn. destruct (Z.eqb_spec x a) as [->|].
  - by rewrite lookup_insert_eq.
  - by rewrite lookup_insert_ne.
Qed.

Lemma hdr_set_size a v h x :
  hdr (set_size a v h) x =
  if x =? a then let b := hdr h a in MkBlock (magic b) v (free b) (prev b) (next b) (reserved b)
  else hdr h x.
Proof. apply hdr_put. Qed.

Lemma hdr_set_free a v h x :
  hdr (set_free a v h) x =
  if x =? a then let b := hdr h a in MkBlock (magic b) (size b) v (prev b) (next b) (reserved b)
  else hdr h x.
Proof. apply hdr_put. Qed.

Lemma hdr_set_prev a v h x :
  hdr (set_prev a v h) x =
  if x =? a then let b := hdr h a in MkBlock (magic b) (size b) (free b) v (next b) (reserved b)
  else hdr h x.
Proof. apply hdr_put. Qed.

Lemma hdr_set_next a v h x :
  hdr (set_next a v h) x =
  if x =? a then let b := hdr h a in MkBlock (magic b) (size b) (free b) (prev b) v (reserved b)
  else hdr h x.
Proof. apply hdr_put. Qed.

Lemma seg_hdr f prv l1 b l2 nxt :
  seg f prv (l1 ++ b :: l2) nxt → f (b_addr b) = header b (last_or prv l1) (hd_or l2 nxt).
Proof. by intros (_ & Hb & _)%seg_app. Qed.

Lemma seg_elem f prv l nxt b :
  seg f prv l nxt → b ∈ l → ∃ p n, f (b_addr b) = header b p n.
Proof.
  intros Hseg (l1 & l2 & ->)%list_elem_of_split. do 2 eexists. by eapply seg_hdr.
Qed.

(** Every block has its header in memory: the walks have fuel enough. *)
Lemma wf_fuel h l : heap_wf h l → (length l <= base.size (blocks h))%nat.
Proof.
  intros Hwf. rewrite <- size_dom.
  rewrite <- (length_fmap b_addr), <- (size_list_to_set (C := gset Z)).
  2:{ eapply tiles_NoDup, Hwf. }
  apply subseteq_size. intros a Ha. apply elem_of_list_to_set in Ha.
  apply list_elem_of_fmap in Ha as (b & -> & Hb).
  destruct (seg_elem _ _ _ _ _ (wf_seg _ _ Hwf) Hb) as (p & n & Hh).
  apply elem_of_dom. unfold hdr in Hh. destruct (blocks h !! b_addr b); [by eexists|]. done.
Qed.

Lemma addr_pos h l b : heap_wf h l → b ∈ l → KERNEL_HEAP_START <= b_addr b.
Proof. intros Hwf Hb. by destruct (tiles_bounds _ _ _ _ (wf_tiles _ _ Hwf) Hb). Qed.

(** ** Lemmas: the walks *)

Definition fits (sz : Z) (b : ablock) : bool := b_free b && (sz <=? b_size b).

Lemma find_free_from_spec h prv l sz fuel :
  seg (hdr h) prv l 0 → (∀ b, b ∈ l → 0 < b_addr b) → (length l < fuel)%nat →
  find_free_from fuel (hd_or l 0) sz h =
  Some (match find (fits sz) l with Some b => b_addr b | None => 0 end).
Proof.
  revert prv fuel. induction l as [|b l IH]; intros prv fuel Hseg Hpos Hf;
    (destruct fuel as [|fuel]; [cbn in Hf; lia|]); [done|].
  cbn [hd_or find_free_from]. cbn [seg] in Hseg. destruct Hseg as [Hb Hl].
  pose proof (Hpos b ltac:(left)). rewrite (proj2 (Z.eqb_neq _ 0)) by lia. rewrite Hb. cbn.
  unfold fits at 1. destruct (b_free b), (sz <=? b_size b); cbn; try done;
    (apply (IH (b_addr b)); [done|intros; apply Hpos; by right|cbn in Hf; lia]).
Qed.

Lemma heap_find_spec h l sz :
  heap_wf h l →
  heap_find_free_block sz h =
  Some (match find (fits sz) l with Some b => b_addr b | None => 0 end).
Proof.
  intros Hwf. unfold heap_find_free_block, heap_fuel. rewrite (wf_first _ _ Hwf).
  eapply find_free_from_spec; [apply Hwf| |pose proof (wf_fuel h l Hwf); lia].
  intros b Hb. pose proof (addr_pos h l b Hwf Hb). unfold KERNEL_HEAP_START in *. lia.
Qed.

Lemma find_split {A} (f : A → bool) l b :
  find f l = Some b → ∃ l1 l2, l = l1 ++ b :: l2 ∧ f b = true ∧ Forall (λ x, f x = false) l1.
Proof.
  induction l as [|x l IH]; cbn; [done|]. destruct (f x) eqn:Hx.
  - intros [= ->]. by exists [], l.
  - intros (l1 & l2 & -> & Hb & Hl1)%IH. exists (x :: l1), l2. split_and!; [done..|by constructor].
Qed.

Lemma last_from_spec h prv l fuel :
  seg (hdr h) prv l 0 → l ≠ [] → (∀ b, b ∈ l → 0 < b_addr b) → (length l < fuel)%nat →
  last_from fuel (hd_or l 0) h = Some (last_or 0 l).
Proof.
  revert prv fuel. induction l as [|b l IH]; intros prv fuel Hseg Hne Hpos Hf; [done|].
  destruct fuel as [|fuel]; [cbn in Hf; lia|]. cbn [last_from hd_or].
  cbn [seg] in Hseg. destruct Hseg as [Hb Hl]. rewrite Hb. cbn [header next].
  destruct l as [|c l]; [done|]. cbn [hd_or].
  pose proof (Hpos c ltac:(right; left)). rewrite (proj2 (Z.eqb_neq _ 0)) by lia. cbn [negb].
  change (b_addr c) with (hd_or (c :: l) 0). erewrite IH; [|done|done| |cbn in *; lia].
  - reflexivity.
  - intros x Hx. apply Hpos. by right.
Qed.

(** ** Lemmas: splitting *)

(** What the block becomes when [sz] bytes of it are handed out. *)
Definition carve (b : ablock) (sz : Z) : list ablock :=
  if b_size b - sz <? 80 then [AB (b_addr b) (b_size b) false]
  else [AB (b_addr b) sz false; AB (b_addr b + 48 + sz) (b_size b - sz - 48) true].

Lemma carve_tiles b sz l e :
  0 <= sz <= b_size b → sz mod 16 = 0 → b_size b mod 16 = 0 →
  tiles (b_end b) l e → tiles (b_addr b) (carve b sz ++ l) e.
Proof.
  intros Hsz H16 Hb16 Ht. unfold carve. case_ifs; cbn; unfold b_end in *; cbn.
  - split_and!; try done; lia.
  - split_and!; try done; try lia; [zlia|].
    by replace (b_addr b + 48 + sz + 48 + (b_size b - sz - 48)) with (b_addr b + 48 + b_size b) by lia.
Qed.

(** The headers after [heap_split_block] and [block->free = 0]. *)
Lemma split_hdr h b sz prv nx :
  hdr h (b_addr b) = header b prv nx → b_free b = true →
  0 <= sz <= b_size b → 0 < b_addr b → b_end b < 2 ^ 62 → (nx = 0 ∨ b_end b <= nx) →
  let h' := set_free (b_addr b) 0 (heap_split_block (b_addr b) sz h) in
  let new := b_addr b + 48 + sz in
  heap_first h' = heap_first h ∧ heap_start h' = heap_start h ∧
  heap_mapped_end h' = heap_mapped_end h ∧ heap_max_end h' = heap_max_end h ∧
  heap_initialized h' = heap_initialized h ∧ heap_vm h' = heap_vm h ∧
  ∀ x, hdr h' x =
    if b_size b - sz <? 80 then
      if x =? b_addr b then header (AB (b_addr b) (b_size b) false) prv nx else hdr h x
    else if x =? b_addr b then header (AB (b_addr b) sz false) prv new
    else if x =? new then header (AB new (b_size b - sz - 48) true) (b_addr b) nx
    else if negb (nx =? 0) && (x =? nx) then
      let c := hdr h nx in MkBlock (magic c) (size c) (free c) new (next c) (reserved c)
    else hdr h x.
Proof.
  intros Hb Hfree Hsz Hpos Hend Hnx. unfold b_end in *.
  unfold heap_split_block, sizeof_heap_block, HEAP_MIN_SPLIT.
  rewrite (proj2 (Z.eqb_neq (b_addr b) 0)) by lia. rewrite Hb. cbn [header size].
  rewrite (proj2 (Z.ltb_ge (b_size b) sz)) by lia. cbv zeta. change (48 + 32) with 80.
  destruct (b_size b - sz <? 80) eqn:Hsmall; btests.
  { cbn. split_and!; try done. intros x. unfold set_free. rewrite hdr_put, Hb. done. }
  rewrite u64_small by (unfold is_u64; lia). set (new := b_addr b + 48 + sz).
  assert (Hne : b_addr b ≠ new ∧ (nx ≠ 0 → nx ≠ new ∧ nx ≠ b_addr b)) by (unfold new; lia).
  destruct Hne as [Hn1 Hn2].
  assert (Hn1' : new ≠ b_addr b) by done.
  set (h1 := heap_init_block new (b_size b - sz - 48) 1 h).
  assert (H1 : ∀ x, hdr h1 x = if x =? new then header (AB new (b_size b - sz - 48) true) 0 0
                               else hdr h x) by (intros; apply hdr_put).
  set (h2 := set_prev new (b_addr b) h1).
  assert (H2 : ∀ x, hdr h2 x = if x =? new then header (AB new (b_size b - sz - 48) true) (b_addr b) 0
                               else hdr h x).
  { intros x. unfold h2. rewrite hdr_set_prev, !H1, Z.eqb_refl. by destruct (x =? new). }
  rewrite H2, (proj2 (Z.eqb_neq _ _) Hn1), Hb. cbn [next header].
  set (h3 := set_next new nx h2).
  assert (H3 : ∀ x, hdr h3 x = if x =? new then header (AB new (b_size b - sz - 48) true) (b_addr b) nx
                               else hdr h x).
  { intros x. unfold h3. rewrite hdr_set_next, !H2, Z.eqb_refl. by destruct (x =? new). }
  rewrite H3, (proj2 (Z.eqb_neq _ _) Hn1), Hb. cbn [next header].
  set (h4 := if negb (nx =? 0) then set_prev nx new h3 else h3).
  assert (H4 : ∀ x, hdr h4 x =
    if x =? new then header (AB new (b_size b - sz - 48) true) (b_addr b) nx
    else if negb (nx =? 0) && (x =? nx) then
      let c := hdr h nx in MkBlock (magic c) (size c) (free c) new (next c) (reserved c)
    else hdr h x).
  { intros x. unfold h4. destruct (Z.eqb_spec nx 0) as [|Hnx0]; cbn [negb andb]; [apply H3|].
    destruct (Hn2 Hnx0) as [Hn3 _].
    rewrite hdr_set_prev, !H3, (proj2 (Z.eqb_neq _ _) Hn3).
    destruct (Z.eqb_spec x nx) as [->|]; [by rewrite (proj2 (Z.eqb_neq _ _) Hn3)|done]. }
  assert (H4b : hdr h4 (b_addr b) = header b prv nx).
  { rewrite H4, (proj2 (Z.eqb_neq _ _) Hn1). destruct (Z.eqb_spec nx 0) as [|Hnx0]; [done|].
    cbn [negb andb]. rewrite (proj2 (Z.eqb_neq _ _)) by (symmetry; by apply Hn2). done. }
  split_and!; try (unfold h4; by destruct (negb (nx =? 0))).
  intros x. rewrite hdr_set_free, !hdr_set_size, !hdr_set_next, Z.eqb_refl, H4b.
  destruct (x =? b_addr b); [done|]. apply H4.
Qed.

(** The fields that are not headers. *)
Definition same_frame (h h' : heap) : Prop :=
  heap_first h' = heap_first h ∧ heap_mapped_end h' = heap_mapped_end h ∧
  heap_max_end h' = heap_max_end h ∧ heap_initialized h' = heap_initialized h ∧
  heap_vm h' = heap_vm h.

Lemma wf_change h h' l l' :
  heap_wf h l → same_frame h h' → hd_or l' 0 = hd_or l 0 →
  seg (hdr h') 0 l' 0 → tiles KERNEL_HEAP_START l' (heap_mapped_end h) → heap_wf h' l'.
Proof.
  intros [H1 H2 H3 H4 H5 H6] (Hf & He & Hm & _ & _) Hhd Hseg Ht.
  constructor; rewrite ?Hf, ?He, ?Hm, ?Hhd; done.
Qed.

Lemma hd_or_cons_app l1 b c l2 l3 nxt :
  b_addr b = b_addr c → hd_or (l1 ++ b :: l2) nxt = hd_or (l1 ++ c :: l3) nxt.
Proof. by destruct l1. Qed.

Lemma hd_or_range l2 s e :
  tiles s l2 e → (∀ c, c ∈ l2 → s <= b_addr c ∧ b_end c <= e ∧ 0 <= b_size c) →
  hd_or l2 0 = 0 ∨ s <= hd_or l2 0.
Proof. destruct l2 as [|c l2]; [by left|]. intros _ H. right. by apply (H c ltac:(left)). Qed.

(** Handing out [sz] bytes of a free block. *)
Lemma alloc_block_wf h l1 b l2 sz :
  heap_wf h (l1 ++ b :: l2) → b_free b = true → 0 <= sz <= b_size b → sz mod 16 = 0 →
  let h' := set_free (b_addr b) 0 (heap_split_block (b_addr b) sz h) in
  heap_wf h' (l1 ++ carve b sz ++ l2) ∧ same_frame h h'.
Proof.
  intros Hwf Hfree Hsz H16 h'.
  destruct (tiles_split _ _ _ _ _ (wf_tiles _ _ Hwf)) as (Hs & H0 & Hb16 & He & Ht1 & Ht2 & Hl1 & Hl2).
  pose proof (wf_seg _ _ Hwf) as Hseg. apply seg_app in Hseg as [Hseg1 [Hb Hseg2]].
  pose proof (wf_end _ _ Hwf). pose proof (wf_max _ _ Hwf).
  unfold KERNEL_HEAP_START, KERNEL_HEAP_MAX_SIZE in *.
  pose proof (hd_or_range l2 _ _ Ht2 Hl2) as Hnx. unfold b_end in *.
  destruct (split_hdr h b sz _ _ Hb Hfree Hsz) as (F1 & F2 & F3 & F4 & F5 & F6 & Hh);
    [lia|unfold b_end; lia|done|]. fold h' in F1, F2, F3, F4, F5, F6, Hh. cbv zeta in Hh.
  assert (Hsame : same_frame h h') by (by split_and!).
  split; [|done]. apply (wf_change h h' (l1 ++ b :: l2)); [done|done| | |].
  - unfold carve. case_if; destruct l1; done.
  - apply seg_app. split.
    + eapply seg_ext with (f := hdr h).
      * intros c Hc. destruct (Hl1 c Hc) as (? & ? & ?). rewrite Hh.
        rewrite (proj2 (Z.eqb_neq (b_addr c) (b_addr b))) by lia.
        rewrite (proj2 (Z.eqb_neq (b_addr c) (b_addr b + 48 + sz))) by lia.
        destruct (Z.eqb_spec (hd_or l2 0) 0); cbn [negb andb]; [by case_if|].
        rewrite (proj2 (Z.eqb_neq (b_addr c) (hd_or l2 0))) by lia. by case_if.
      * unfold carve. by case_if.
    + unfold carve. case_if; btests; cbn [app seg b_addr hd_or].
      * rewrite Hh, Z.eqb_refl. split; [done|]. eapply seg_ext; [|done].
        intros c Hc. destruct (Hl2 c Hc) as (? & ? & ?). rewrite Hh.
        by rewrite (proj2 (Z.eqb_neq (b_addr c) (b_addr b))) by lia.
      * rewrite !Hh, !Z.eqb_refl.
        rewrite (proj2 (Z.eqb_neq (b_addr b + 48 + sz) (b_addr b))) by lia.
        split; [done|]. split; [done|]. eapply seg_set_prev; [| | |exact Hseg2].
        -- intros c Hc Hne. destruct (Hl2 c Hc) as (? & ? & ?). rewrite Hh.
           rewrite (proj2 (Z.eqb_neq (b_addr c) (b_addr b))) by lia.
           rewrite (proj2 (Z.eqb_neq (b_addr c) (b_addr b + 48 + sz))) by lia.
           rewrite (proj2 (Z.eqb_neq (b_addr c) (hd_or l2 0))) by done.
           by rewrite andb_false_r.
        -- intros Hne. destruct l2 as [|c l2]; [done|]. cbn [hd_or] in *.
           destruct (Hl2 c ltac:(left)) as (? & ? & ?). rewrite Hh.
           rewrite (proj2 (Z.eqb_neq (b_addr c) (b_addr b))) by lia.
           rewrite (proj2 (Z.eqb_neq (b_addr c) (b_addr b + 48 + sz))) by lia.
           by rewrite (proj2 (Z.eqb_neq (b_addr c) 0)), Z.eqb_refl by lia.
        -- by eapply tiles_NoDup.
  - apply tiles_app. exists (b_addr b). split; [done|]. by apply carve_tiles.
Qed.

(** ** Lemmas: merging *)

(** Merge a block with the one after it, if that one is free. *)
Definition merge_next (b : ablock) (l2 : list ablock) : list ablock :=
  match l2 with
  | c :: r => if b_free c then AB (b_addr b) (b_size b + 48 + b_size c) (b_free b) :: r else b :: l2
  | [] => [b]
  end.

Lemma coalesce_hdr h b c prv nx :
  hdr h (b_addr b) = header b prv (b_addr c) → hdr h (b_addr c) = header c (b_addr b) nx →
  b_free c = true → 0 < b_addr b → b_end b = b_addr c → 0 <= b_size b → 0 <= b_size c →
  b_end c < 2 ^ 62 → (nx = 0 ∨ b_end c <= nx) →
  let h' := heap_coalesce_with_next (b_addr b) h in
  same_frame h h' ∧
  ∀ x, hdr h' x =
    if x =? b_addr b then header (AB (b_addr b) (b_size b + 48 + b_size c) (b_free b)) prv nx
    else if negb (nx =? 0) && (x =? nx) then
      let d := hdr h nx in MkBlock (magic d) (size d) (free d) (b_addr b) (next d) (reserved d)
    else hdr h x.
Proof.
  intros Hb Hc Hfree Hpos Hadj H0 H0c Hend Hnx h'. unfold b_end in *.
  assert (Hne : b_addr c ≠ b_addr b ∧ (nx ≠ 0 → nx ≠ b_addr b)) by lia. destruct Hne as [Hn1 Hn2].
  assert (Hdef : h' = let h2 := set_next (b_addr b) nx
      (set_size (b_addr b) (b_size b + 48 + b_size c) h) in
    if negb (nx =? 0) then set_prev nx (b_addr b) h2 else h2).
  { unfold h', heap_coalesce_with_next, sizeof_heap_block.
    rewrite (proj2 (Z.eqb_neq (b_addr b) 0)), Hb by lia. cbn [header next size].
    rewrite (proj2 (Z.eqb_neq (b_addr c) 0)), Hc by lia. cbn [header magic free size].
    rewrite Hfree, Z.eqb_refl. cbn [negb b2z]. cbv zeta. rewrite u64_small by (unfold is_u64; lia).
    rewrite !hdr_set_next, !hdr_set_size, (proj2 (Z.eqb_neq _ _) Hn1), Hc. cbn [header next].
    done. }
  rewrite Hdef. cbv zeta. clear h' Hdef.
  set (h2 := set_next _ _ _).
  assert (H2 : ∀ x, hdr h2 x = if x =? b_addr b
    then header (AB (b_addr b) (b_size b + 48 + b_size c) (b_free b)) prv nx else hdr h x).
  { intros x. unfold h2. rewrite hdr_set_next, !hdr_set_size, Z.eqb_refl, Hb.
    by destruct (x =? b_addr b). }
  split; [by destruct (negb (nx =? 0))|]. intros x.
  destruct (Z.eqb_spec nx 0) as [->|Hnx0]; cbn [negb andb]; [apply H2|].
  rewrite hdr_set_prev, !H2, (proj2 (Z.eqb_neq _ _) (Hn2 Hnx0)).
  destruct (Z.eqb_spec x nx) as [->|]; [by rewrite (proj2 (Z.eqb_neq _ _) (Hn2 Hnx0))|done].
Qed.

(** [heap_coalesce_with_next] is [merge_next]. *)
Lemma coalesce_next_wf h l1 b l2 :
  heap_wf h (l1 ++ b :: l2) →
  let h' := heap_coalesce_with_next (b_addr b) h in
  heap_wf h' (l1 ++ merge_next b l2) ∧ same_frame h h'.
Proof.
  intros Hwf h'.
  destruct (tiles_split _ _ _ _ _ (wf_tiles _ _ Hwf)) as (Hs & H0 & Hb16 & He & Ht1 & Ht2 & Hl1 & Hl2).
  pose proof (wf_seg _ _ Hwf) as Hseg. apply seg_app in Hseg as [Hseg1 [Hb Hseg2]].
  pose proof (wf_end _ _ Hwf). pose proof (wf_max _ _ Hwf).
  unfold KERNEL_HEAP_START, KERNEL_HEAP_MAX_SIZE in *.
  assert (Hid : (∀ c r, l2 = c :: r → b_free c = false) →
    heap_wf h' (l1 ++ merge_next b l2) ∧ same_frame h h').
  { intros Hno. assert (Hsame : h' = h).
    { unfold h', heap_coalesce_with_next. rewrite (proj2 (Z.eqb_neq (b_addr b) 0)), Hb by lia.
      cbn [header next]. destruct l2 as [|c r]; [done|]. cbn [hd_or].
      destruct Hseg2 as [Hc _]. rewrite Hc. cbn [header magic free].
      rewrite (Hno c r eq_refl). cbn. by case_if. }
    rewrite Hsame. replace (merge_next b l2) with (b :: l2); [by split|].
    destruct l2 as [|c r]; [done|]. cbn. by rewrite (Hno c r eq_refl). }
  destruct l2 as [|c r]; [by apply Hid|]. cbn [merge_next] in *.
  destruct (b_free c) eqn:Hfree; [clear Hid|by apply Hid; intros ? ? [= <- _]].
  destruct Hseg2 as [Hc Hseg3]. cbn [hd_or] in Hb.
  destruct (tiles_split _ [] c r _ Ht2) as (Hs2 & Hc0 & Hc16 & He2 & Hadj & Ht3 & _ & Hl3).
  cbn in Hadj. pose proof (hd_or_range r _ _ Ht3 Hl3) as Hnx.
  destruct (coalesce_hdr h b c _ _ Hb Hc Hfree) as [Hsame Hh];
    [lia|done|done|done|lia|done|]. fold h' in Hsame, Hh. split; [|done].
  unfold b_end in *.
  apply (wf_change h h' (l1 ++ b :: c :: r)); [done|done|by apply hd_or_cons_app| |].
  - apply seg_app. split.
    + eapply seg_ext with (f := hdr h); [|done]. intros d Hd. destruct (Hl1 d Hd) as (? & ? & ?).
      rewrite Hh, (proj2 (Z.eqb_neq (b_addr d) (b_addr b))) by lia.
      destruct (Z.eqb_spec (hd_or r 0) 0); cbn [negb andb]; [done|].
      by rewrite (proj2 (Z.eqb_neq (b_addr d) (hd_or r 0))) by lia.
    + cbn [seg b_addr]. rewrite Hh, Z.eqb_refl. split; [done|].
      eapply seg_set_prev; [| | |exact Hseg3].
      * intros d Hd Hne. destruct (Hl3 d Hd) as (? & ? & ?).
        rewrite Hh, (proj2 (Z.eqb_neq (b_addr d) (b_addr b))) by lia.
        rewrite (proj2 (Z.eqb_neq (b_addr d) (hd_or r 0))) by done. by rewrite andb_false_r.
      * intros Hne. destruct r as [|d r]; [done|]. cbn [hd_or] in *.
        destruct (Hl3 d ltac:(left)) as (? & ? & ?).
        rewrite Hh, (proj2 (Z.eqb_neq (b_addr d) (b_addr b))) by lia.
        by rewrite (proj2 (Z.eqb_neq (b_addr d) 0)), Z.eqb_refl by lia.
      * by eapply tiles_NoDup.
  - apply tiles_app. exists (b_addr b). split; [done|]. cbn. unfold b_end. cbn.
    split_and!; [done|lia|zlia|]. by replace (b_addr b + 48 + (b_size b + 48 + b_size c))
      with (b_addr c + 48 + b_size c) by lia.
Qed.

(** ** Lemmas: freeing *)

Definition freed (b : ablock) : ablock := AB (b_addr b) (b_size b) true.

(** The list after [b] is freed: merged with the next block, then with the
    previous one. *)
Definition free_at (l1 : list ablock) (b : ablock) (l2 : list ablock) : list ablock :=
  match last l1 with
  | Some p => if b_free p then removelast l1 ++ merge_next p (merge_next (freed b) l2)
              else l1 ++ merge_next (freed b) l2
  | None => merge_next (freed b) l2
  end.

Lemma merge_next_cons b l2 :
  ∃ b' r, merge_next b l2 = b' :: r ∧ b_addr b' = b_addr b ∧ b_free b' = b_free b.
Proof.
  destruct l2 as [|c r]; cbn; [by exists b, []|].
  destruct (b_free c); [by do 2 eexists|by exists b, (c :: r)].
Qed.

Lemma set_free_wf h l1 b l2 v :
  heap_wf h (l1 ++ b :: l2) →
  let h' := set_free (b_addr b) (b2z v) h in
  heap_wf h' (l1 ++ AB (b_addr b) (b_size b) v :: l2) ∧ same_frame h h'.
Proof.
  intros Hwf h'. assert (Hsame : same_frame h h') by done. split; [|done].
  destruct (tiles_split _ _ _ _ _ (wf_tiles _ _ Hwf)) as (Hs & H0 & Hb16 & He & Ht1 & Ht2 & Hl1 & Hl2).
  pose proof (wf_seg _ _ Hwf) as Hseg. apply seg_app in Hseg as [Hseg1 [Hb Hseg2]].
  apply (wf_change h h' (l1 ++ b :: l2)); [done|done|by apply hd_or_cons_app| |].
  - apply seg_app. unfold h', b_end in *. split; [|split].
    + eapply seg_ext; [|done]. intros c Hc. destruct (Hl1 c Hc) as (? & ? & ?).
      by rewrite hdr_set_free, (proj2 (Z.eqb_neq (b_addr c) (b_addr b))) by lia.
    + by rewrite hdr_set_free, Z.eqb_refl, Hb.
    + eapply seg_ext; [|done]. intros c Hc. destruct (Hl2 c Hc) as (? & ? & ?).
      by rewrite hdr_set_free, (proj2 (Z.eqb_neq (b_addr c) (b_addr b))) by lia.
  - apply tiles_app. exists (b_addr b). by split_and!.
Qed.

Lemma same_frame_trans h1 h2 h3 : same_frame h1 h2 → same_frame h2 h3 → same_frame h1 h3.
Proof. unfold same_frame. intros (? & ? & ? & ? & ?) (? & ? & ? & ? & ?). split_and!; congruence. Qed.

Lemma heap_coalesce_wf h l1 b l2 :
  heap_wf h (l1 ++ freed b :: l2) →
  let h' := heap_coalesce (b_addr b) h in
  heap_wf h' (free_at l1 b l2) ∧ same_frame h h'.
Proof.
  intros Hwf h'. unfold h', heap_coalesce.
  assert (Hpos : 0 < b_addr b).
  { pose proof (addr_pos h _ (freed b) Hwf ltac:(set_solver)). unfold KERNEL_HEAP_START in *. cbn in *. lia. }
  rewrite (proj2 (Z.eqb_neq (b_addr b) 0)) by lia.
  destruct (coalesce_next_wf h l1 (freed b) l2 Hwf) as [Hwf1 Hsame1]. cbn [freed b_addr] in Hwf1, Hsame1.
  set (h1 := heap_coalesce_with_next (b_addr b) h) in *. cbv zeta.
  destruct (merge_next_cons (freed b) l2) as (b' & r & Hm & Ha & Hfr). rewrite Hm in Hwf1.
  pose proof (wf_seg _ _ Hwf1) as Hseg. apply seg_hdr in Hseg. cbn in Ha, Hfr. rewrite Ha in Hseg.
  rewrite Hseg. cbn [header prev]. unfold free_at. rewrite Hm.
  destruct l1 as [|p l1 _] using rev_ind.
  { cbn. by split. }
  unfold last_or. rewrite last_snoc.
  assert (Hp : 0 < b_addr p).
  { pose proof (addr_pos h1 _ p Hwf1 ltac:(set_solver)). unfold KERNEL_HEAP_START in *. lia. }
  rewrite (proj2 (Z.eqb_neq (b_addr p) 0)) by lia. cbn [negb andb].
  rewrite <- (assoc_L (++) l1 [p]) in *. cbn [app] in *.
  pose proof (wf_seg _ _ Hwf1) as Hsegp. apply seg_hdr in Hsegp. rewrite Hsegp. cbn [header free].
  destruct (b_free p) eqn:Hpf; cbn [b2z Z.eqb negb].
  - rewrite removelast_last.
    destruct (coalesce_next_wf h1 l1 p (b' :: r) Hwf1) as [Hwf2 Hsame2].
    split; [done|by eapply same_frame_trans].
  - by split.
Qed.

Lemma kfree_spec h l1 b l2 :
  heap_wf h (l1 ++ b :: l2) → b_free b = false →
  heap_wf (kfree (b_addr b + 48) h) (free_at l1 b l2) ∧
  same_frame h (kfree (b_addr b + 48) h).
Proof.
  intros Hwf Hfree. unfold kfree, sizeof_heap_block.
  pose proof (addr_pos h _ b Hwf ltac:(set_solver)) as Hpos.
  destruct (tiles_split _ _ _ _ _ (wf_tiles _ _ Hwf)) as (_ & H0 & _ & He & _).
  pose proof (wf_end _ _ Hwf). pose proof (wf_max _ _ Hwf).
  unfold KERNEL_HEAP_START, KERNEL_HEAP_MAX_SIZE, b_end in *.
  rewrite (proj2 (Z.eqb_neq (b_addr b + 48) 0)) by lia. cbv zeta.
  rewrite u64_small by (unfold is_u64; lia).
  replace (b_addr b + 48 - 48) with (b_addr b) by lia.
  pose proof (wf_seg _ _ Hwf) as Hseg. apply seg_hdr in Hseg. rewrite Hseg. cbn [header magic free].
  rewrite Z.eqb_refl, Hfree. cbn [negb b2z Z.eqb].
  destruct (set_free_wf h l1 b l2 true Hwf) as [Hwf1 Hsame1]. cbn [b2z] in *.
  destruct (heap_coalesce_wf _ l1 b l2 Hwf1) as [Hwf2 Hsame2].
  split; [done|by eapply same_frame_trans].
Qed.

Lemma merge_next_used b l2 : b_free b = true → used (merge_next b l2) = used l2.
Proof.
  intros Hb. destruct l2 as [|c r]; cbn [merge_next]; [by rewrite used_cons, Hb|].
  destruct (b_free c) eqn:Hc; rewrite !used_cons; cbn [b_free]; by rewrite Hb, ?Hc.
Qed.

Lemma free_at_used l1 b l2 : used (free_at l1 b l2) = used l1 ++ used l2.
Proof.
  unfold free_at. destruct l1 as [|p l1 _] using rev_ind.
  - cbn [last]. by rewrite merge_next_used.
  - rewrite last_snoc. destruct (b_free p) eqn:Hp.
    + rewrite removelast_last, !used_app, !merge_next_used by done.
      rewrite used_cons, Hp. by rewrite app_nil_r.
    + by rewrite !used_app, merge_next_used by done.
Qed.

(** After a merge the next block is in use, if the list had no free pairs. *)
Lemma merge_next_adj b l2 :
  no_adj l2 → no_adj (merge_next b l2) ∧
  (match merge_next b l2 with b' :: (c :: _) => b_free c = false | _ => True end).
Proof.
  destruct l2 as [|c r]; [done|]. cbn [no_adj merge_next]. intros [Hc Hr].
  destruct (b_free c) eqn:Hf.
  - cbn [no_adj]. destruct r as [|d r]; [done|]. cbn in Hc. rewrite Hc, andb_false_r. done.
  - cbn [no_adj]. rewrite Hf, andb_false_r. done.
Qed.

Lemma free_at_adj l1 b l2 :
  no_adj (l1 ++ b :: l2) → no_adj (free_at l1 b l2).
Proof.
  intros (H1 & H2 & Hlink)%no_adj_app. cbn [no_adj] in H2. destruct H2 as [_ H2].
  destruct (merge_next_adj (freed b) l2 H2) as [Hm Hnext]. unfold free_at.
  destruct (merge_next_cons (freed b) l2) as (b' & r & Heq & _ & Hfr). rewrite Heq in *. cbn in Hfr.
  destruct l1 as [|p l1 _] using rev_ind; [done|]. rewrite last_snoc.
  destruct (b_free p) eqn:Hp.
  - rewrite removelast_last. cbn [merge_next]. rewrite Hfr.
    apply no_adj_app in H1 as (H1 & _ & Hl1). apply no_adj_app. split_and!; [done| |].
    + cbn [no_adj] in Hm |- *. split; [|tauto]. destruct r as [|d r]; [done|].
      cbn. by rewrite Hnext, andb_false_r.
    + intros x c Hx [= <-]. cbn. by apply (Hl1 x p Hx).
  - apply no_adj_app. split_and!; [done|done|]. intros x c Hx Hc.
    rewrite last_snoc in Hx. injection Hx as <-. by rewrite Hp.
Qed.

(** ** Lemmas: expansion *)

(** The list after a region was mapped: the new block at the end, merged with
    the last one if that is free. *)
Definition expand_list (l : list ablock) (nb : ablock) : list ablock :=
  match last l with
  | None => [nb]
  | Some p => if b_free p then removelast l ++ merge_next p [nb] else l ++ [nb]
  end.

Lemma expand_list_used l nb : b_free nb = true → used (expand_list l nb) = used l.
Proof.
  intros Hnb. unfold expand_list. destruct l as [|p l _] using rev_ind.
  - cbn [last]. by rewrite used_cons, Hnb.
  - rewrite last_snoc. destruct (b_free p) eqn:Hp.
    + rewrite removelast_last, !used_app, merge_next_used, !used_cons, Hnb, Hp by done. done.
    + rewrite used_app, (used_cons nb), Hnb. by rewrite !app_nil_r.
Qed.

Lemma expand_list_adj l nb : no_adj l → no_adj (expand_list l nb).
Proof.
  intros Hl. unfold expand_list. destruct l as [|p l _] using rev_ind; [done|].
  rewrite last_snoc. destruct (b_free p) eqn:Hp.
  - rewrite removelast_last. apply no_adj_app in Hl as (H1 & _ & Hlink). apply no_adj_app.
    split_and!; [done|by apply merge_next_adj|]. intros x c Hx Hc.
    destruct (merge_next_cons p [nb]) as (b' & r & Heq & _ & Hf). rewrite Heq in Hc.
    injection Hc as <-. rewrite Hf. by apply (Hlink x p).
  - apply no_adj_app. split_and!; [done|done|]. intros x c. rewrite last_snoc. intros [= <-] _.
    by rewrite Hp.
Qed.

Lemma expand_list_fits l nb sz :
  b_free nb = true → sz <= b_size nb → (∀ b, b ∈ l → 0 <= b_size b) →
  ∃ b, find (fits sz) (expand_list l nb) = Some b.
Proof.
  intros Hnb Hsz Hl. assert (Hex : ∃ b, b ∈ expand_list l nb ∧ fits sz b = true).
  { unfold expand_list, fits. destruct l as [|p l _] using rev_ind.
    - exists nb. rewrite Hnb, (proj2 (Z.leb_le _ _)) by done. split; [left|done].
    - rewrite last_snoc. destruct (b_free p) eqn:Hp.
      + rewrite removelast_last. cbn [merge_next]. rewrite Hnb. eexists. split.
        * apply elem_of_app. right. left.
        * cbn. rewrite Hp, (proj2 (Z.leb_le _ _)); [done|].
          specialize (Hl p ltac:(set_solver)). lia.
      + exists nb. rewrite Hnb, (proj2 (Z.leb_le _ _)) by done. split; [set_solver|done]. }
  destruct Hex as (b & Hb & Hf). destruct (find (fits sz) (expand_list l nb)) eqn:He; [by eexists|].
  apply list_elem_of_In in Hb. pose proof (find_none _ _ He b Hb). congruence.
Qed.

(** Linking a new last block. *)
Lemma append_wf h l p nb e' :
  heap_wf h (l ++ [p]) → b_addr nb = heap_mapped_end h → b_free nb = true →
  0 <= b_size nb → b_size nb mod 16 = 0 → b_end nb = e' → e' <= heap_max_end h → e' mod 4096 = 0 →
  let new := b_addr nb in
  let h1 := heap_init_block new (b_size nb) 1 (set_mapped_end e' h) in
  let h3 := set_prev new (b_addr p) (set_next (b_addr p) new h1) in
  heap_wf h3 (l ++ [p; nb]) ∧ heap_vm h3 = heap_vm h ∧ heap_initialized h3 = heap_initialized h.
Proof.
  intros Hwf Ha Hfr H0 H16 He' Hmax Hpg new h1 h3. split; [|done].
  destruct (tiles_split _ _ _ _ _ (wf_tiles _ _ Hwf)) as (Hs & Hp0 & Hp16 & He & Ht1 & Ht2 & Hl1 & _).
  cbn in Ht2. pose proof (wf_seg _ _ Hwf) as Hseg. apply seg_app in Hseg as [Hseg1 [Hp _]].
  cbn [hd_or] in Hp. unfold b_end in *. fold new in Ha.
  assert (Hn : b_addr p ≠ new ∧ new ≠ b_addr p) by lia. destruct Hn as [Hn Hn'].
  assert (Hh : ∀ x, hdr h3 x =
    if x =? new then header nb (b_addr p) 0
    else if x =? b_addr p then header p (last_or 0 l) new else hdr h x).
  { intros x. unfold h3, h1, heap_init_block.
    rewrite hdr_set_prev, !hdr_set_next, !hdr_put, !Z.eqb_refl.
    rewrite (proj2 (Z.eqb_neq _ _) Hn), (proj2 (Z.eqb_neq _ _) Hn').
    change (hdr (set_mapped_end e' h) (b_addr p)) with (hdr h (b_addr p)). rewrite Hp.
    destruct (x =? new); [unfold header; by rewrite Hfr|]. by destruct (x =? b_addr p). }
  pose proof (wf_end _ _ Hwf). constructor; try (cbn; apply Hwf); try done.
  - cbn. rewrite (wf_first _ _ Hwf). by destruct l.
  - apply seg_app. split; [|cbn [seg hd_or]; fold new; split_and!; [|rewrite Hh, Z.eqb_refl; done|done]].
    + eapply seg_ext; [|exact Hseg1]. intros c Hc. destruct (Hl1 c Hc) as (? & ? & ?).
      rewrite Hh, (proj2 (Z.eqb_neq (b_addr c) new)), (proj2 (Z.eqb_neq (b_addr c) (b_addr p))) by lia.
      done.
    + by rewrite Hh, (proj2 (Z.eqb_neq _ _) Hn), Z.eqb_refl.
  - cbn [heap_mapped_end]. apply tiles_app. exists (b_addr p). split; [done|]. cbn. unfold b_end.
    split_and!; try done; lia.
  - cbn. lia.
Qed.

(** The size of an expansion. *)
Definition expand_bytes (sz : Z) : Z :=
  Z.max KERNEL_HEAP_INITIAL_SIZE ((48 + sz + 4095) / 4096 * 4096).

Lemma heap_expand_spec h l sz :
  heap_wf h l → 0 <= sz <= 2 ^ 63 →
  ∃ ok h', heap_expand sz h = Some (ok, h') ∧ heap_initialized h' = heap_initialized h ∧
    if ok then
      heap_wf h' (expand_list l (AB (heap_mapped_end h) (expand_bytes sz - 48) true)) ∧
      heap_mapped_end h' = heap_mapped_end h + expand_bytes sz
    else heap_wf h' l ∧ heap_mapped_end h' = heap_mapped_end h.
Proof.
  intros Hwf Hsz. unfold heap_expand, sizeof_heap_block, align_up.
  rewrite (u64_small (48 + sz)), align_up_page by (unfold is_u64; lia). unfold PAGE_SIZE. cbv zeta.
  replace (if _ <? KERNEL_HEAP_INITIAL_SIZE then _ else _) with (expand_bytes sz)
    by (unfold expand_bytes, KERNEL_HEAP_INITIAL_SIZE; case_ifs; lia).
  pose proof (wf_end _ _ Hwf) as Hend. pose proof (wf_max _ _ Hwf) as Hmax.
  unfold KERNEL_HEAP_START, KERNEL_HEAP_MAX_SIZE in *.
  assert (HE : 16384 <= expand_bytes sz < 2 ^ 63 + 2 ^ 13 ∧ expand_bytes sz mod 4096 = 0)
    by (unfold expand_bytes, KERNEL_HEAP_INITIAL_SIZE; zlia).
  set (E := expand_bytes sz) in *.
  rewrite (u64_small (heap_mapped_end h + E)) by (unfold is_u64; lia).
  destruct (Z.ltb_spec (heap_max_end h) (heap_mapped_end h + E)).
  { by exists false, h. }
  destruct (heap_map_pages _ _ _) as [ok v].
  assert (Hwfv : heap_wf (set_vm v h) l) by (destruct Hwf; by constructor).
  destruct ok; cbn [negb]; [|by exists false, (set_vm v h)].
  change (heap_mapped_end (set_vm v h)) with (heap_mapped_end h).
  rewrite (u64_small (heap_mapped_end h + E)), (u64_small (E - 48)) by (unfold is_u64; lia).
  set (nb := AB (heap_mapped_end h) (E - 48) true).
  set (h1 := heap_init_block _ _ _ _).
  destruct l as [|p l _] using rev_ind.
  - pose proof (wf_first _ _ Hwf) as Hf. cbn in Hf. unfold h1 at 1. cbn [heap_init_block put set_mapped_end set_vm heap_first].
    rewrite Hf. cbn [Z.eqb]. do 2 eexists. split; [done|]. split; [done|]. split; [|done].
    pose proof (wf_tiles _ _ Hwf) as Ht. cbn in Ht.
    constructor; cbn; unfold b_end, KERNEL_HEAP_START, KERNEL_HEAP_MAX_SIZE in *; cbn; try done; try lia.
    + split; [|done]. unfold h1, heap_init_block. change (hdr (set_first _ ?g)) with (hdr g).
      rewrite hdr_put, Z.eqb_refl. done.
    + split_and!; try done; try lia. zlia.
    + pose proof (wf_page _ _ Hwf). zlia.
  - assert (Hfirst : heap_first h1 = hd_or (l ++ [p]) 0) by (unfold h1; cbn; apply Hwf).
    assert (Hpos : ∀ b, b ∈ l ++ [p] → 0 < b_addr b).
    { intros b Hb. pose proof (addr_pos h _ b Hwf Hb). unfold KERNEL_HEAP_START in *. lia. }
    assert (Hhd : hd_or (l ++ [p]) 0 ≠ 0).
    { destruct l as [|c l]; cbn; [pose proof (Hpos p ltac:(set_solver))|pose proof (Hpos c ltac:(set_solver))]; lia. }
    rewrite Hfirst, (proj2 (Z.eqb_neq _ 0)) by done.
    assert (Hbnd : ∀ b, b ∈ l ++ [p] → b_addr b < heap_mapped_end h).
    { intros b Hb. destruct (tiles_bounds _ _ _ _ (wf_tiles _ _ Hwf) Hb) as (_ & ? & ? & _).
      unfold b_end in *. lia. }
    assert (Hlast : heap_last_block h1 = Some (b_addr p)).
    { unfold heap_last_block. rewrite Hfirst, (proj2 (Z.eqb_neq _ 0)) by done.
      rewrite (last_from_spec h1 0 (l ++ [p])).
      - by rewrite last_or_snoc.
      - eapply seg_ext; [|apply Hwf]. intros b Hb. unfold h1, heap_init_block.
        rewrite hdr_put, (proj2 (Z.eqb_neq _ _)); [done|]. pose proof (Hbnd b Hb). lia.
      - by destruct l.
      - done.
      - unfold heap_fuel. pose proof (wf_fuel h _ Hwf).
        assert (base.size (blocks h) <= base.size (blocks h1))%nat; [|lia].
        unfold h1, heap_init_block. cbn. rewrite <- !size_dom. apply subseteq_size, dom_insert_subseteq. }
    rewrite Hlast.
    destruct (append_wf (set_vm v h) l p nb (heap_mapped_end h + E)) as (Hwf3 & Hvm3 & Hi3);
      try done; try (cbn; unfold b_end; cbn; lia); try (cbn; zlia).
    { pose proof (wf_page _ _ Hwf). zlia. }
    set (h3 := set_prev _ _ _) in *. fold h1 in h3.
    change (set_prev _ _ (set_next (b_addr p) _ h1)) with h3.
    pose proof (wf_seg _ _ Hwf3) as Hseg. apply seg_hdr in Hseg. rewrite Hseg. cbn [header free].
    unfold expand_list. rewrite last_snoc. destruct (b_free p) eqn:Hpf; cbn [b2z Z.eqb negb].
    + rewrite removelast_last.
      destruct (coalesce_next_wf h3 l p [nb] Hwf3) as [Hwf4 Hs]. do 2 eexists. split; [done|].
      destruct Hs as (_ & Hme & _ & Hi & _). split; [by rewrite Hi|]. split; [done|]. by rewrite Hme.
    + do 2 eexists. split; [done|]. split; [done|]. split; [|done].
      by rewrite <- (assoc_L (++) l [p]).
Qed.

(** ** Lemmas: allocation *)

(** The list after [sz] bytes are handed out of the first block that fits. *)
Lemma take_block h l sz b :
  heap_ok h l → find (fits sz) l = Some b → 0 <= sz → sz mod 16 = 0 →
  let h' := set_free (b_addr b) 0 (heap_split_block (b_addr b) sz h) in
  ∃ l1 l2, l = l1 ++ b :: l2 ∧ b_free b = true ∧ sz <= b_size b ∧
    heap_ok h' (l1 ++ carve b sz ++ l2) ∧ same_frame h h'.
Proof.
  intros (Hwf & Hadj & Hin) Hf Hsz H16 h'.
  destruct (find_split _ _ _ Hf) as (l1 & l2 & -> & Hfit & _). unfold fits in Hfit. btests.
  exists l1, l2. split; [done|]. split; [done|]. split; [done|].
  destruct (alloc_block_wf h l1 b l2 sz Hwf) as [Hwf' Hs]; [done|lia|done|]. fold h' in Hwf', Hs.
  split; [|done]. split; [done|]. split; [|destruct Hs as (_ & _ & _ & -> & _); done].
  apply no_adj_app in Hadj as (H1 & H2 & Hl). cbn [no_adj] in H2. destruct H2 as [Hbc H2].
  apply no_adj_app. split_and!; [done| |].
  - unfold carve. case_if; cbn [app no_adj b_free andb].
    + split; [|done]. by destruct l2.
    + split; [done|]. split; [|done]. destruct l2 as [|c l2]; [done|]. by rewrite H in Hbc.
  - intros x c Hx. unfold carve. case_if; intros [= <-]; cbn; apply andb_false_r.
Qed.

(** The pieces of [kmalloc] put together: where the block comes from. *)
Lemma kmalloc_spec h l sz :
  heap_ok h l → 0 < sz <= 2 ^ 63 →
  let asz := (sz + 15) / 16 * 16 in
  ∃ p h', kmalloc sz h = Some (p, h') ∧
    (p = 0 ∧ heap_ok h' l ∧ find (fits asz) l = None ∨
     ∃ l0 l1 b l2, (l0 = l ∨ l0 = expand_list l (AB (heap_mapped_end h) (expand_bytes asz - 48) true) ∧
                             find (fits asz) l = None) ∧
       l0 = l1 ++ b :: l2 ∧ find (fits asz) l0 = Some b ∧ b_free b = true ∧ asz <= b_size b ∧
       p = b_addr b + 48 ∧ heap_ok h' (l1 ++ carve b asz ++ l2)).
Proof.
  intros Hok Hsz asz. pose proof Hok as (Hwf & Hadj & Hin). unfold kmalloc, align_up, HEAP_ALIGN, sizeof_heap_block.
  rewrite Hin, (proj2 (Z.eqb_neq sz 0)) by lia. cbn [negb].
  assert (Halign : align_up_u64 sz 16 = asz).
  { change 16 with (2 ^ 4) at 1. rewrite align_up_pow2 by lia. unfold asz. change (2 ^ 4) with 16.
    do 2 f_equal. lia. }
  rewrite Halign. cbv zeta. clear Halign.
  assert (Ha : 0 < asz <= 2 ^ 63 ∧ asz mod 16 = 0) by (unfold asz; zlia).
  (* the common end *)
  assert (Hfin : ∀ g l0 b, heap_ok g l0 → find (fits asz) l0 = Some b →
    b_addr b ≠ 0 ∧ u64 (b_addr b + 48) = b_addr b + 48 ∧
    ∃ l1 l2, l0 = l1 ++ b :: l2 ∧ b_free b = true ∧ asz <= b_size b ∧
      heap_ok (set_free (b_addr b) 0 (heap_split_block (b_addr b) asz g)) (l1 ++ carve b asz ++ l2)).
  { intros g l0 b Hg Hf. destruct (take_block g l0 asz b Hg Hf) as (l1 & l2 & -> & ? & ? & ? & _);
      [lia..|]. pose proof Hg as (Hwfg & _).
    destruct (tiles_bounds _ _ _ b (wf_tiles _ _ Hwfg)) as (? & ? & ? & _); [set_solver|].
    pose proof (wf_end _ _ Hwfg). pose proof (wf_max _ _ Hwfg).
    unfold KERNEL_HEAP_START, KERNEL_HEAP_MAX_SIZE, b_end in *.
    split; [lia|]. split; [apply u64_small; unfold is_u64; lia|]. by exists l1, l2. }
  rewrite (heap_find_spec h l asz Hwf). destruct (find (fits asz) l) as [b|] eqn:Hf.
  - destruct (Hfin h l b Hok Hf) as (Hne & Hu & l1 & l2 & Hl & ? & ? & ?).
    rewrite (proj2 (Z.eqb_neq _ 0)), Hu by done. do 2 eexists. split; [done|]. right.
    exists l, l1, b, l2. split_and!; try done. by left.
  - cbn [Z.eqb]. destruct (heap_expand_spec h l asz Hwf) as (ok & h1 & -> & Hi1 & Hres); [lia|].
    destruct ok; destruct Hres as [Hwf1 Hme].
    2:{ do 2 eexists. split; [done|]. left. split; [done|]. split; [|done].
        split; [done|]. split; [done|by rewrite Hi1]. }
    set (nb := AB _ _ _) in *.
    assert (Hok1 : heap_ok h1 (expand_list l nb)).
    { split; [done|]. split; [by apply expand_list_adj|by rewrite Hi1]. }
    destruct (expand_list_fits l nb asz) as [b Hb]; [done| | |].
    { unfold nb, expand_bytes, KERNEL_HEAP_INITIAL_SIZE. cbn. zlia. }
    { intros c Hc. by destruct (tiles_bounds _ _ _ _ (wf_tiles _ _ Hwf) Hc) as (_ & _ & ? & _). }
    rewrite (heap_find_spec h1 _ asz Hwf1), Hb.
    destruct (Hfin h1 _ b Hok1 Hb) as (Hne & Hu & l1 & l2 & Hl & ? & ? & ?).
    rewrite (proj2 (Z.eqb_neq _ 0)), Hu by done. do 2 eexists. split; [done|]. right.
    exists (expand_list l nb), l1, b, l2. split_and!; try done. right. by split.
Qed.

Lemma carve_cons b sz :
  ∃ c r, carve b sz = c :: r ∧ b_addr c = b_addr b ∧ b_free c = false ∧ used r = [] ∧
    (b_size c = sz ∨ b_size c = b_size b).
Proof. unfold carve. case_if; do 2 eexists; split_and!; try done; auto. Qed.

(** Freeing what was carved gives the block back. *)
Lemma free_carve l1 b l2 sz l :
  l = l1 ++ b :: l2 → no_adj l → b_free b = true →
  ∃ c r, carve b sz ++ l2 = c :: r ∧ b_addr c = b_addr b ∧ b_free c = false ∧
    free_at l1 c r = l.
Proof.
  intros -> Hadj Hb. apply no_adj_app in Hadj as (_ & H2 & Hl). cbn [no_adj] in H2.
  destruct H2 as [Hbc _]. destruct b as [a s f]. cbn in *. subst f.
  assert (Hprev : ∀ x, last l1 = Some x → b_free x = false).
  { intros x Hx. specialize (Hl x _ Hx eq_refl). cbn in Hl. by rewrite andb_true_r in Hl. }
  assert (Hnext : merge_next (AB a s true) l2 = AB a s true :: l2).
  { destruct l2 as [|c l2]; [done|]. cbn in *. by rewrite Hbc. }
  unfold carve. cbn [b_size b_addr]. case_if; cbn [app]; do 2 eexists; (split; [done|]);
    cbn [b_addr b_free]; (split; [done|]); (split; [done|]); unfold free_at, freed; cbn [b_addr b_size].
  - rewrite Hnext. destruct (last l1) eqn:Hlast; [by rewrite (Hprev _ eq_refl)|].
    apply last_None in Hlast as ->. done.
  - cbn [merge_next b_free b_size b_addr].
    replace (sz + 48 + (s - sz - 48)) with s by lia.
    destruct (last l1) eqn:Hlast; [by rewrite (Hprev _ eq_refl)|].
    apply last_None in Hlast as ->. done.
Qed.

(** What the caller of [kmalloc] sees. *)
Lemma kmalloc_live h l sz :
  heap_ok h l → 0 < sz <= 2 ^ 63 →
  ∃ p h', kmalloc sz h = Some (p, h') ∧
    (p = 0 ∧ heap_ok h' l ∧ find (fits sz) l = None ∨
     ∃ l' s u1 u2, heap_ok h' l' ∧ used l = u1 ++ u2 ∧ used l' = u1 ++ (p - 48, s) :: u2 ∧
       sz <= s ∧ p mod 16 = 0 ∧ KERNEL_HEAP_START < p ∧ p + s <= heap_mapped_end h' ∧
       ∀ a t, (a, t) ∈ u1 ++ u2 → a + 48 + t <= p - 48 ∨ p + s <= a).
Proof.
  intros Hok Hsz. destruct (kmalloc_spec h l sz Hok Hsz) as (p & h' & Hk & Hres).
  exists p, h'. split; [done|]. set (asz := (sz + 15) / 16 * 16) in *.
  assert (Ha : sz <= asz) by (unfold asz; zlia).
  destruct Hres as [(-> & Hok' & Hf)|(l0 & l1 & b & l2 & Hl0 & Hsplit & Hf & Hfree & Hle & -> & Hok')].
  { left. split_and!; try done. destruct (find (fits sz) l) as [b|] eqn:He; [|done]. exfalso.
    (* a block that fits the request fits the rounded request: sizes are multiples of 16 *)
    destruct (find_split _ _ _ He) as (l1 & l2 & -> & Hfit & _).
    pose proof (find_none _ _ Hf b ltac:(apply list_elem_of_In; set_solver)) as Hn.
    destruct Hok as (Hwf & _).
    destruct (tiles_bounds _ _ _ b (wf_tiles _ _ Hwf)) as (_ & _ & _ & H16); [set_solver|].
    unfold fits in *. btests. rewrite H in Hn. cbn in Hn. btests. unfold asz in Hn. zlia. }
  right. destruct (carve_cons b asz) as (c & r & Hc & Hca & Hcf & Hr & Hs). rewrite Hc in *.
  exists (l1 ++ (c :: r) ++ l2), (b_size c), (used l1), (used l2).
  replace (b_addr b + 48 - 48) with (b_addr b) by lia.
  assert (Hul : used l = used l1 ++ used l2).
  { transitivity (used l0); [destruct Hl0 as [->|[-> _]]; [done|by rewrite expand_list_used]|].
    by rewrite Hsplit, used_app, used_cons, Hfree. }
  pose proof Hok' as (Hwf' & _ & _).
  cbn [app] in Hwf'.
  destruct (tiles_split _ l1 c (r ++ l2) _ (wf_tiles _ _ Hwf')) as (Hst & Hs0 & _ & He & _ & _ & Hl1 & Hl2).
  unfold b_end, KERNEL_HEAP_START in *.
  split_and!; try done; try lia.
  - rewrite used_app. cbn [app]. by rewrite used_cons, used_app, Hr, Hcf, Hca.
  - assert (b_addr c mod 16 = 0); [|zlia].
    eapply tiles_aligned; [apply (wf_tiles _ _ Hwf')|done|set_solver].
  - intros a t [Hin|Hin]%elem_of_app; unfold used in Hin;
      apply list_elem_of_fmap in Hin as (d & [= -> ->] & [_ Hd]%list_elem_of_filter).
    + destruct (Hl1 d Hd) as (? & ? & ?). lia.
    + destruct (Hl2 d ltac:(set_solver)) as (? & ? & ?). lia.
Qed.

(** ** The heap as an allocator *)

(** The abstract blocks, read off the headers. *)
Fixpoint blocks_from (fuel : nat) (current : Z) (h : heap) : list ablock :=
  match fuel with
  | O => []
  | S fuel' =>
      if current =? 0 then []
      else AB current (size (hdr h current)) (negb (free (hdr h current) =? 0))
             :: blocks_from fuel' (next (hdr h current)) h
  end.

Lemma blocks_from_spec h prv l fuel :
  seg (hdr h) prv l 0 → (∀ b, b ∈ l → 0 < b_addr b) → (length l < fuel)%nat →
  blocks_from fuel (hd_or l 0) h = l.
Proof.
  revert prv fuel. induction l as [|b l IH]; intros prv fuel Hseg Hpos Hf;
    (destruct fuel as [|fuel]; [cbn in Hf; lia|]); [done|].
  cbn [hd_or blocks_from]. cbn [seg] in Hseg. destruct Hseg as [Hb Hl].
  pose proof (Hpos b ltac:(left)). rewrite (proj2 (Z.eqb_neq _ 0)), Hb by lia.
  cbn [header size free next]. rewrite (IH (b_addr b)); [|done| |cbn in Hf; lia].
  - destruct b as [a s []]; done.
  - intros c Hc. apply Hpos. by right.
Qed.

Definition heap_live (h : heap) : list (Z * Z) :=
  (λ '(a, s), (a + 48, s)) <$> used (blocks_from (heap_fuel h) (heap_first h) h).

Lemma heap_live_used h l : heap_wf h l → heap_live h = (λ '(a, s), (a + 48, s)) <$> used l.
Proof.
  intros Hwf. unfold heap_live. do 2 f_equal. rewrite (wf_first _ _ Hwf).
  eapply blocks_from_spec; [apply Hwf| |unfold heap_fuel; pose proof (wf_fuel h l Hwf); lia].
  intros b Hb. pose proof (addr_pos h l b Hwf Hb). unfold KERNEL_HEAP_START in *. lia.
Qed.

(** A live block, as a split of the list of blocks. *)
Lemma used_split l u1 a s u2 :
  used l = u1 ++ (a, s) :: u2 →
  ∃ l1 l2, l = l1 ++ AB a s false :: l2 ∧ used l1 = u1 ∧ used l2 = u2.
Proof.
  revert u1. induction l as [|b l IH]; intros u1 Hu; [by destruct u1|].
  rewrite used_cons in Hu. destruct (b_free b) eqn:Hf; cbn [app] in Hu.
  - destruct (IH u1 Hu) as (l1 & l2 & -> & <- & <-). exists (b :: l1), l2.
    by rewrite used_cons, Hf.
  - destruct u1 as [|x u1]; cbn [app] in Hu; injection Hu as Hx Hu.
    + exists [], l. destruct b; cbn in *. by subst.
    + destruct (IH u1 Hu) as (l1 & l2 & -> & <- & <-). exists (b :: l1), l2.
      rewrite used_cons, Hf. by subst x.
Qed.

Lemma heap_alloc_ok sz h :
  (∃ l, heap_ok h l) → 0 < sz <= 2 ^ 63 →
  let '(p, h') := default (0, h) (kmalloc sz h) in
  (∃ l, heap_ok h' l) ∧
  (p = 0 ∧ heap_live h' = heap_live h ∨
   ∃ s u1 u2, p ≠ 0 ∧ sz <= s ∧ heap_live h = u1 ++ u2 ∧ heap_live h' = u1 ++ (p, s) :: u2 ∧
     ∀ a t, (a, t) ∈ heap_live h → a + t <= p ∨ p + s <= a).
Proof.
  intros [l Hok] Hsz. destruct (kmalloc_live h l sz Hok Hsz) as (p & h' & -> & Hres).
  cbn [default from_option id].
  rewrite (heap_live_used h l) by apply Hok.
  destruct Hres as [(-> & Hok' & _)|(l' & s & u1 & u2 & Hok' & Hu & Hu' & Hs & _ & Hp & _ & Hd)].
  - split; [by exists l|]. left. split; [done|]. by rewrite (heap_live_used h' l) by apply Hok'.
  - split; [by exists l'|]. right. rewrite (heap_live_used h' l') by apply Hok'.
    exists s, ((λ '(a, s), (a + 48, s)) <$> u1), ((λ '(a, s), (a + 48, s)) <$> u2).
    rewrite Hu, Hu', !fmap_app, fmap_cons. unfold KERNEL_HEAP_START in Hp.
    replace (p - 48 + 48) with p by lia. split_and!; [lia|done|done|done|].
    intros a t Hin. rewrite <- fmap_app in Hin.
    apply list_elem_of_fmap in Hin as ([a' t'] & [= -> ->] & Hin). destruct (Hd _ _ Hin); lia.
Qed.

Lemma heap_free_ok h p s u1 u2 :
  (∃ l, heap_ok h l) → heap_live h = u1 ++ (p, s) :: u2 →
  (∃ l, heap_ok (kfree p h) l) ∧ heap_live (kfree p h) = u1 ++ u2.
Proof.
  intros [l Hok] Hl. pose proof Hok as (Hwf & Hadj & Hin). rewrite (heap_live_used h l Hwf) in Hl.
  apply fmap_app_inv in Hl as (v1 & v2 & -> & Hv & Hul). symmetry in Hv.
  destruct v2 as [|[a s'] v2]; [done|]. rewrite fmap_cons in Hv. injection Hv as <- <- <-.
  destruct (used_split l v1 a s' v2 Hul) as (l1 & l2 & -> & <- & <-).
  destruct (kfree_spec h l1 (AB a s' false) l2 Hwf eq_refl) as [Hwf' Hs]. cbn [b_addr] in Hwf', Hs.
  assert (Hok' : heap_ok (kfree (a + 48) h) (free_at l1 (AB a s' false) l2)).
  { split; [done|]. split; [by apply free_at_adj|]. by destruct Hs as (_ & _ & _ & -> & _). }
  split; [by eexists|]. rewrite (heap_live_used _ _ Hwf'), free_at_used. by rewrite fmap_app.
Qed.

#[global] Instance heap_allocator : Allocator heap := {|
  k_alloc sz h := default (0, h) (kmalloc sz h);
  k_free := kfree;
  h_inv h := ∃ l, heap_ok h l;
  live := heap_live;
  k_alloc_ok := heap_alloc_ok;
  k_free_ok := heap_free_ok
|}.

(** ** Properties *)


(** A fresh heap over sixteen frames. *)
Definition sample_heap0 : heap := MkHeap ∅ 0 0 0 0 false sample_vm.
Definition sample_heap : heap := default sample_heap0 (heap_init sample_heap0).

Lemma sample_heap_ok : heap_ok sample_heap [AB KERNEL_HEAP_START 0x3FD0 true].
Proof.
  split; [|split; [done|by vm_compute]]. constructor.
  - by vm_compute.
  - split; [by vm_compute|exact I].
  - vm_compute. split_and!; congruence.
  - vm_compute. split; congruence.
  - by vm_compute.
  - by vm_compute.
Qed.




(** Freeing the pointer [kmalloc] just returned gives back exactly the list of
    blocks it was taken from: the one before the call, or, when the heap had to
    grow, the grown one. *)
Theorem kmalloc_kfree_roundtrip h l sz p h' :
  heap_ok h l → 0 < sz <= 2 ^ 63 → kmalloc sz h = Some (p, h') → p ≠ 0 →
  let asz := (sz + 15) / 16 * 16 in
  heap_ok (kfree p h')
    (if find (fits asz) l then l
     else expand_list l (AB (heap_mapped_end h) (expand_bytes asz - 48) true)).
Proof.
  intros Hok Hsz Hk Hp asz. destruct (kmalloc_spec h l sz Hok Hsz) as (q & g & Hk' & Hres).
  rewrite Hk in Hk'. injection Hk' as <- <-. fold asz in Hres.
  destruct Hres as [(? & _)|(l0 & l1 & b & l2 & Hl0 & Hsplit & Hf & Hfree & Hle & -> & Hok')]; [done|].
  assert (Hadj0 : no_adj l0).
  { destruct Hok as (_ & Hadj & _). destruct Hl0 as [->|[-> _]]; [done|by apply expand_list_adj]. }
  destruct (free_carve l1 b l2 asz l0 Hsplit Hadj0 Hfree) as (c & r & Hc & Ha & Hcf & Hat).
  rewrite Hc in Hok'. destruct Hok' as (Hwf' & Hadj' & Hi').
  destruct (kfree_spec h' l1 c r Hwf' Hcf) as [Hwf2 Hs]. rewrite Ha, Hat in *.
  assert (Hl : (if find (fits asz) l then l
     else expand_list l (AB (heap_mapped_end h) (expand_bytes asz - 48) true)) = l0).
  { destruct Hl0 as [->|[-> Hn]]; [by rewrite Hf|by rewrite Hn]. }
  rewrite Hl. split; [done|]. split; [done|]. by destruct Hs as (_ & _ & _ & -> & _).
Qed.

Lemma kmalloc_kfree_roundtrip_witness :
  match kmalloc 100 sample_heap with
  | Some (p, h') => heap_ok (kfree p h') [AB KERNEL_HEAP_START 0x3FD0 true]
  | None => False
  end.
Proof.
  assert (Hc : fst <$> kmalloc 100 sample_heap = Some 0x41000030) by (vm_compute; reflexivity).
  destruct (kmalloc 100 sample_heap) as [[p h']|] eqn:Hk; [|discriminate].
  assert (Hp : p ≠ 0) by (injection Hc as ->; discriminate).
  exact (kmalloc_kfree_roundtrip sample_heap _ 100 p h' sample_heap_ok ltac:(lia) Hk Hp).
Defined.

(** A request within 15 bytes of [2^64] is rounded up to 0, so it is not
    refused: with any free block in the heap [kmalloc] hands out a live block
    whose payload is far smaller than what was asked for (no larger than the
    heap, where the request is for nearly the whole address space). *)
Theorem kmalloc_wraps_to_zero h l sz b :
  heap_ok h l → 2 ^ 64 - 15 <= sz < 2 ^ 64 → b ∈ l → b_free b = true →
  ∃ p h' l' s, kmalloc sz h = Some (p, h') ∧ p ≠ 0 ∧ heap_ok h' l' ∧
    (p - 48, s) ∈ used l' ∧ s < sz.
Proof.
  intros Hok Hsz Hb Hfree. pose proof Hok as (Hwf & _ & Hin).
  assert (Hzero : align_up sz HEAP_ALIGN = 0).
  { unfold align_up, align_up_u64, HEAP_ALIGN.
    change (u64 (Z.lnot (u64 (16 - 1)))) with (u64 (Z.lnot (2 ^ 4 - 1))).
    rewrite (land_align_mask _ 4) by (apply u64_range || lia). unfold u64.
    replace (sz + 16 - 1) with (sz + 16 - 1 - 2 ^ 64 + 1 * 2 ^ 64) by lia.
    rewrite Z.mod_add, Z.mod_small, Z.div_small by lia. lia. }
  destruct (find (fits 0) l) as [c|] eqn:Hf.
  2:{ exfalso. pose proof (find_none _ _ Hf b ltac:(by apply list_elem_of_In)) as Hn.
      destruct (tiles_bounds _ _ _ _ (wf_tiles _ _ Hwf) Hb) as (_ & _ & ? & _).
      unfold fits in Hn. rewrite Hfree in Hn. cbn in Hn. btests. lia. }
  destruct (take_block h l 0 c Hok Hf) as (l1 & l2 & -> & Hcf & Hle & Hok' & Hs); [lia|done|].
  destruct (tiles_split _ _ _ _ _ (wf_tiles _ _ Hwf)) as (Hst & Hc0 & _ & He & _).
  pose proof (wf_end _ _ Hwf). pose proof (wf_max _ _ Hwf).
  unfold KERNEL_HEAP_START, KERNEL_HEAP_MAX_SIZE, b_end in *.
  destruct (carve_cons c 0) as (d & r & Hd & Hda & Hdf & _ & Hds).
  do 2 eexists. exists (l1 ++ carve c 0 ++ l2), (b_size d). split_and!; [| |exact Hok'| |].
  - unfold kmalloc, sizeof_heap_block. rewrite Hin, Hzero, (proj2 (Z.eqb_neq sz 0)) by lia.
    cbn [negb]. cbv zeta. rewrite (heap_find_spec h _ 0 Hwf), Hf.
    rewrite (proj2 (Z.eqb_neq (b_addr c) 0)) by lia.
    rewrite u64_small by (unfold is_u64; lia). done.
  - lia.
  - replace (b_addr c + 48 - 48) with (b_addr c) by lia. rewrite Hd, <- Hda.
    rewrite used_app. cbn [app]. rewrite used_cons, Hdf. set_solver.
  - lia.
Qed.

Lemma kmalloc_wraps_to_zero_witness :
  ∃ p h' l' s, kmalloc (2 ^ 64 - 1) sample_heap = Some (p, h') ∧ p ≠ 0 ∧ heap_ok h' l' ∧
    (p - 48, s) ∈ used l' ∧ s < 2 ^ 64 - 1.
Proof.
  apply (kmalloc_wraps_to_zero sample_heap [AB KERNEL_HEAP_START 0x3FD0 true] _
    (AB KERNEL_HEAP_START 0x3FD0 true)); [apply sample_heap_ok|lia|left|done].
Defined.
