(* ===== verification/Console.v ===== *)
(** * The text console ([src/kernel/console.c])

    A ring of 512 lines of 80 cells, addressed by an ever-growing line number,
    and a viewport of 25 lines rendered into the VGA text buffer. *)

From S2P Require Import Prelude Utils CString Print.

Definition CONSOLE_WIDTH : Z := 80.
Definition CONSOLE_HEIGHT : Z := 25.
Definition CONSOLE_SCROLLBACK_LINES : Z := 512.

Record console_cell := MkCell { ch : Z; color : Z }.

#[global] Instance console_cell_inhabited : Inhabited console_cell := populate (MkCell 0 0).

(** The statics, the VGA text memory and the position last written to the
    cursor registers of the CRT controller. *)
Record console := MkConsole {
  scrollback : list (list console_cell);
  current_line : Z;
  current_col : Z;
  viewport_top : Z;
  current_color : Z;
  vga_memory : list Z;
  hw_cursor : Z
}.

Definition LINES_N : nat := Z.to_nat CONSOLE_SCROLLBACK_LINES.
Definition WIDTH_N : nat := Z.to_nat CONSOLE_WIDTH.

(** The statics at boot; the VGA memory and the cursor are whatever the
    firmware left. *)
Definition console_boot (vga : list Z) (cursor : Z) : console :=
  MkConsole (replicate LINES_N (replicate WIDTH_N (MkCell 0 0))) 0 0 0 COLOR_WHITE_ON_BLACK vga cursor.

Definition with_lines (sb : list (list console_cell)) (c : console) : console :=
  MkConsole sb (current_line c) (current_col c) (viewport_top c) (current_color c)
            (vga_memory c) (hw_cursor c).
Definition with_pos (line col : Z) (c : console) : console :=
  MkConsole (scrollback c) line col (viewport_top c) (current_color c) (vga_memory c) (hw_cursor c).
Definition with_top (top : Z) (c : console) : console :=
  MkConsole (scrollback c) (current_line c) (current_col c) top (current_color c)
            (vga_memory c) (hw_cursor c).
Definition with_color (col : Z) (c : console) : console :=
  MkConsole (scrollback c) (current_line c) (current_col c) (viewport_top c) col
            (vga_memory c) (hw_cursor c).
Definition with_screen (vga : list Z) (cursor : Z) (c : console) : console :=
  MkConsole (scrollback c) (current_line c) (current_col c) (viewport_top c) (current_color c)
            vga cursor.

Definition scrollback_oldest_line (c : console) : Z :=
  if u64 (current_line c + 1) <=? CONSOLE_SCROLLBACK_LINES then 0
  else u64 (u64 (current_line c + 1) - CONSOLE_SCROLLBACK_LINES).

Definition scrollback_bottom_top (c : console) : Z :=
  if u64 (current_line c + 1) <=? CONSOLE_HEIGHT then 0
  else u64 (u64 (current_line c + 1) - CONSOLE_HEIGHT).

Definition physical_line (logical_line : Z) : Z := logical_line mod CONSOLE_SCROLLBACK_LINES.

(** [scrollback[line][col]], read and written. *)
Definition cell_at (c : console) (line col : Z) : console_cell := arr_get (arr_get (scrollback c) line) col.
Definition set_cell (line col : Z) (x : console_cell) (c : console) : console :=
  with_lines (arr_set (scrollback c) line (arr_set (arr_get (scrollback c) line) col x)) c.

Definition clear_scrollback_line (logical_line : Z) (c : console) : console :=
  let physical := physical_line logical_line in
  foldl (λ c col, set_cell physical col (MkCell CH_SPACE (current_color c)) c) c
    (seqZ 0 CONSOLE_WIDTH).

Definition vga_entry (ch color : Z) : Z := Z.lor (u16 (Z.shiftl color 8)) (u8 ch).

(** The two register writes set the low and the high byte of the cursor. *)
Definition hardware_cursor_set (row col : Z) (c : console) : console :=
  let row := if CONSOLE_HEIGHT <=? row then CONSOLE_HEIGHT - 1 else row in
  let col := if CONSOLE_WIDTH <=? col then CONSOLE_WIDTH - 1 else col in
  let pos := u16 (row * CONSOLE_WIDTH + col) in
  with_screen (vga_memory c)
    (Z.lor (Z.land pos 0xFF) (Z.shiftl (Z.land (Z.shiftr pos 8) 0xFF) 8)) c.

(** The cell of the screen at ([row], [col]) as [render_viewport] computes it. *)
Definition rendered_cell (c : console) (row col : Z) : Z :=
  let logical := u64 (viewport_top c + row) in
  let cell := if (scrollback_oldest_line c <=? logical) && (logical <=? current_line c)
              then cell_at c (physical_line logical) col
              else MkCell CH_SPACE (current_color c) in
  vga_entry (ch cell) (color cell).

Definition render_rows (c : console) : list Z :=
  foldl (λ vga row,
    foldl (λ vga col, arr_set vga (row * CONSOLE_WIDTH + col) (rendered_cell c row col)) vga
      (seqZ 0 CONSOLE_WIDTH))
    (vga_memory c) (seqZ 0 CONSOLE_HEIGHT).

Definition render_viewport (c : console) : console :=
  let oldest := scrollback_oldest_line c in
  let bottom := scrollback_bottom_top c in
  let c := if viewport_top c <? oldest then with_top oldest c else c in
  let c := if bottom <? viewport_top c then with_top bottom c else c in
  let c := with_screen (render_rows c) (hw_cursor c) c in
  if (viewport_top c <=? current_line c) && (current_line c <? u64 (viewport_top c + CONSOLE_HEIGHT))
  then hardware_cursor_set (u32 (current_line c - viewport_top c)) (current_col c) c
  else hardware_cursor_set (CONSOLE_HEIGHT - 1) (CONSOLE_WIDTH - 1) c.

Definition viewport_is_bottom (c : console) : bool := viewport_top c =? scrollback_bottom_top c.

Definition move_to_next_line (c : console) : console :=
  let c := with_pos (u64 (current_line c + 1)) 0 c in
  let c := clear_scrollback_line (current_line c) c in
  if viewport_is_bottom c then with_top (scrollback_bottom_top c) c else c.

Definition console_clear (c : console) : console :=
  let c := with_color COLOR_WHITE_ON_BLACK (with_top 0 (with_pos 0 0 c)) in
  let c := foldl (λ c line, clear_scrollback_line line c) c (seqZ 0 CONSOLE_SCROLLBACK_LINES) in
  render_viewport c.

Definition console_set_color (col : Z) (c : console) : console := with_color col c.
Definition console_get_color (c : console) : Z := current_color c.

(** The body of [console_put_char] for a character that is not a tab. *)
Definition put_glyph (x : Z) (c : console) : console :=
  let c := with_top (scrollback_bottom_top c) c in
  if x =? CH_LF then render_viewport (move_to_next_line c)
  else if x =? CH_CR then render_viewport (with_pos (current_line c) 0 c)
  else if x =? CH_BS then
    let c :=
      if 0 <? current_col c then
        let c := with_pos (current_line c) (current_col c - 1) c in
        set_cell (physical_line (current_line c)) (current_col c)
          (MkCell CH_SPACE (current_color c)) c
      else c in
    render_viewport c
  else
    let c := if CONSOLE_WIDTH <=? current_col c then move_to_next_line c else c in
    let c := set_cell (physical_line (current_line c)) (current_col c)
               (MkCell x (current_color c)) c in
    let c := with_pos (current_line c) (current_col c + 1) c in
    let c := if CONSOLE_WIDTH <=? current_col c then move_to_next_line c else c in
    render_viewport c.

(** A tab is four recursive calls with a space. *)
Definition console_put_char (x : Z) (c : console) : console :=
  if x =? CH_TAB then
    let c := with_top (scrollback_bottom_top c) c in
    foldl (λ c _, put_glyph CH_SPACE c) c (seqZ 0 4)
  else put_glyph x c.

Definition console_set_cursor (row col : Z) (c : console) : console :=
  let row := if CONSOLE_HEIGHT <=? row then CONSOLE_HEIGHT - 1 else row in
  let col := if CONSOLE_WIDTH <=? col then CONSOLE_WIDTH - 1 else col in
  let c := with_top (scrollback_bottom_top c) c in
  let c := with_pos (u64 (viewport_top c + row)) col c in
  render_viewport c.

Definition console_get_cursor (c : console) : Z * Z :=
  let visible_row := if viewport_top c <=? current_line c
                     then u32 (current_line c - viewport_top c) else 0 in
  let visible_row := if CONSOLE_HEIGHT <=? visible_row then CONSOLE_HEIGHT - 1 else visible_row in
  (visible_row, current_col c).

Definition console_scroll_page_up (c : console) : console :=
  let oldest := scrollback_oldest_line c in
  if viewport_top c <=? oldest then render_viewport (with_top oldest c)
  else
    let amount := CONSOLE_HEIGHT in
    let c := if viewport_top c <? u64 (oldest + amount) then with_top oldest c
             else with_top (viewport_top c - amount) c in
    render_viewport c.

Definition console_scroll_page_down (c : console) : console :=
  let bottom := scrollback_bottom_top c in
  if bottom <=? viewport_top c then render_viewport (with_top bottom c)
  else render_viewport (with_top (min_u64 (u64 (viewport_top c + CONSOLE_HEIGHT)) bottom) c).

Definition console_scroll_line_up (c : console) : console :=
  let oldest := scrollback_oldest_line c in
  if viewport_top c <=? oldest then render_viewport (with_top oldest c)
  else render_viewport (with_top (viewport_top c - 1) c).

Definition console_scroll_line_down (c : console) : console :=
  let bottom := scrollback_bottom_top c in
  if bottom <=? viewport_top c then render_viewport (with_top bottom c)
  else render_viewport (with_top (viewport_top c + 1) c).

(** ** The invariant *)

(** The shape of the arrays and the position of the cursor. *)
Definition shape_ok (c : console) : Prop :=
  length (scrollback c) = LINES_N ∧
  (∀ i, 0 <= i < CONSOLE_SCROLLBACK_LINES → length (arr_get (scrollback c) i) = WIDTH_N) ∧
  2000 <= Zlength (vga_memory c) ∧
  0 <= current_col c < CONSOLE_WIDTH ∧ 0 <= current_line c.

(** The viewport is inside the scrollback. *)
Definition viewport_ok (c : console) : Prop :=
  scrollback_oldest_line c <= viewport_top c <= scrollback_bottom_top c.

(** The screen shows the lines of the viewport, blank below the last line. *)
Definition screen_ok (c : console) : Prop :=
  ∀ row col, 0 <= row < CONSOLE_HEIGHT → 0 <= col < CONSOLE_WIDTH →
    let shown := arr_get (vga_memory c) (row * CONSOLE_WIDTH + col) in
    let line := viewport_top c + row in
    if line <=? current_line c
    then shown = vga_entry (ch (cell_at c (physical_line line) col))
                           (color (cell_at c (physical_line line) col))
    else ∃ k, shown = vga_entry CH_SPACE k.

Definition console_ok (c : console) : Prop := shape_ok c ∧ viewport_ok c ∧ screen_ok c.

(** ** Lemmas *)

#[local] Opaque LINES_N WIDTH_N.

Lemma LINES_Z : Z.of_nat LINES_N = 512.
Proof. done. Qed.
Lemma WIDTH_Z : Z.of_nat WIDTH_N = 80.
Proof. done. Qed.

Lemma oldest_bottom c :
  0 <= current_line c → current_line c + 1 < 2 ^ 64 →
  scrollback_oldest_line c = Z.max 0 (current_line c + 1 - 512) ∧
  scrollback_bottom_top c = Z.max 0 (current_line c + 1 - 25).
Proof.
  intros H0 Hm. unfold scrollback_oldest_line, scrollback_bottom_top,
    CONSOLE_SCROLLBACK_LINES, CONSOLE_HEIGHT.
  rewrite (u64_small (current_line c + 1)) by (unfold is_u64; lia).
  split; case_ifs; try lia; rewrite u64_small by (unfold is_u64; lia); lia.
Qed.

Lemma physical_range l : 0 <= physical_line l < 512.
Proof. apply Z.mod_pos_bound. lia. Qed.

Lemma set_cell_shape line col x c :
  shape_ok c → 0 <= line < 512 → shape_ok (set_cell line col x c).
Proof.
  intros (H1 & H2 & H3 & H4 & H5) Hl. unfold shape_ok, set_cell, with_lines. cbn.
  unfold CONSOLE_SCROLLBACK_LINES in *.
  split_and!; try done; try lia. 
  - by rewrite arr_set_length.
  - intros i Hi. rewrite arr_get_set by (unfold Zlength; rewrite ?H1, ?LINES_Z; lia).
    case_if; [|by apply H2]. rewrite arr_set_length. by apply H2.
Qed.

Lemma clear_line_shape line c :
  shape_ok c →
  let c' := clear_scrollback_line line c in
  shape_ok c' ∧ current_line c' = current_line c ∧ current_col c' = current_col c ∧
  viewport_top c' = viewport_top c ∧ current_color c' = current_color c.
Proof.
  intros Hc. unfold clear_scrollback_line. generalize (seqZ 0 CONSOLE_WIDTH). intros l.
  revert c Hc. induction l as [|x l IH]; intros c Hc; [done|]. cbn [foldl].
  apply (IH (set_cell _ _ _ c)), set_cell_shape; [done|apply physical_range].
Qed.

Lemma vga_cell_render c row col :
  2000 <= Zlength (vga_memory c) → 0 <= row < 25 → 0 <= col < 80 →
  arr_get (render_rows c) (row * 80 + col) = rendered_cell c row col.
Proof.
  intros Hlen Hrow Hcol. unfold render_rows, CONSOLE_WIDTH, CONSOLE_HEIGHT.
  assert (Hgen : ∀ n, (n <= 25)%nat →
    let v := foldl (λ vga row, foldl (λ vga col, arr_set vga (row * 80 + col) (rendered_cell c row col))
      vga (seqZ 0 80)) (vga_memory c) (seqZ 0 (Z.of_nat n)) in
    length v = length (vga_memory c) ∧
    ∀ r k, 0 <= r < Z.of_nat n → 0 <= k < 80 → arr_get v (r * 80 + k) = rendered_cell c r k).
  { induction n as [|n IH]; intros Hn; cbv zeta.
    - rewrite (seqZ_nil 0 (Z.of_nat 0)) by lia. split; [done|]. intros r k Hr. lia.
    - rewrite seqZ_S, foldl_snoc. destruct IH as [Hl Hg]; [lia|]. cbv zeta in Hl, Hg.
      set (v := foldl _ (vga_memory c) (seqZ 0 (Z.of_nat n))) in *.
      destruct (arr_fill (rendered_cell c (0 + Z.of_nat n)) ((0 + Z.of_nat n) * 80) 80 v) as [Hl2 Hg2];
        [lia|unfold Zlength in *; rewrite Hl; lia|].
      change (Z.of_nat 80) with 80 in *. split; [by rewrite Hl2|]. intros r k Hr Hk.
      rewrite Hg2 by lia. destruct (Z.eq_dec r (Z.of_nat n)) as [->|].
      + rewrite (proj2 (Z.leb_le _ _)), (proj2 (Z.ltb_lt _ _)) by lia. cbn [andb]. f_equal; lia.
      + rewrite (proj2 (andb_false_iff _ _)) by (left; apply Z.leb_gt; lia). apply Hg; lia. }
  apply (Hgen 25%nat); lia.
Qed.

Lemma render_rows_length c : 2000 <= Zlength (vga_memory c) → length (render_rows c) = length (vga_memory c).
Proof.
  intros _. unfold render_rows. generalize (vga_memory c), (seqZ 0 CONSOLE_HEIGHT).
  intros v l. revert v. induction l as [|r l IH]; intros v; [done|]. cbn [foldl]. rewrite IH.
  generalize (seqZ 0 CONSOLE_WIDTH). intros k. revert v.
  induction k as [|x k IHk]; intros v; [done|]. cbn [foldl]. by rewrite IHk, arr_set_length.
Qed.

(** Rendering, with the viewport moved back into the scrollback. *)
Lemma render_viewport_spec c :
  shape_ok c → current_line c + 64 < 2 ^ 64 →
  let c' := render_viewport c in
  console_ok c' ∧ scrollback c' = scrollback c ∧ current_line c' = current_line c ∧
  current_col c' = current_col c ∧ current_color c' = current_color c ∧
  viewport_top c' = Z.max (scrollback_oldest_line c)
                      (Z.min (scrollback_bottom_top c) (viewport_top c)).
Proof.
  intros Hs Hmax. pose proof Hs as (H1 & H2 & H3 & H4 & H5).
  destruct (oldest_bottom c H5 ltac:(lia)) as [Ho Hb].
  unfold render_viewport. cbv zeta.
  set (c1 := if viewport_top c <? scrollback_oldest_line c then _ else _).
  set (c2 := if scrollback_bottom_top c <? viewport_top c1 then _ else _).
  assert (Hc2 : scrollback c2 = scrollback c ∧ current_line c2 = current_line c ∧
    current_col c2 = current_col c ∧ current_color c2 = current_color c ∧
    vga_memory c2 = vga_memory c ∧
    viewport_top c2 = Z.max (scrollback_oldest_line c)
                        (Z.min (scrollback_bottom_top c) (viewport_top c))).
  { unfold c2, c1. case_ifs; cbn in *; split_and!; done || lia. }
  destruct Hc2 as (E1 & E2 & E3 & E4 & E5 & E6).
  assert (Ho2 : scrollback_oldest_line c2 = scrollback_oldest_line c)
    by (unfold scrollback_oldest_line; by rewrite E2).
  assert (Hb2 : scrollback_bottom_top c2 = scrollback_bottom_top c)
    by (unfold scrollback_bottom_top; by rewrite E2).
  set (c3 := with_screen (render_rows c2) (hw_cursor c2) c2).
  assert (Hlen : length (render_rows c2) = length (vga_memory c))
    by (rewrite render_rows_length, E5; [done|by rewrite E5]).
  assert (Hok : ∀ k, console_ok (with_screen (vga_memory c3) k c3)).
  { intros k. split_and!.
    - unfold shape_ok. cbn. rewrite E1, E2, E3. unfold Zlength in *. rewrite Hlen.
      split_and!; done || lia.
    - unfold viewport_ok. change (scrollback_oldest_line c2 <= viewport_top c2 <= scrollback_bottom_top c2).
      rewrite Ho2, Hb2, E6. lia.
    - intros row col Hr Hcol shown line. unfold shown. clear shown. cbn [vga_memory with_screen c3].
      unfold CONSOLE_HEIGHT, CONSOLE_WIDTH in *. rewrite vga_cell_render by (rewrite ?E5; done).
      unfold rendered_cell.
      assert (Hline : line = viewport_top c2 + row) by done. clearbody line. subst line.
      rewrite u64_small by (unfold is_u64; rewrite E6; lia).
      rewrite (proj2 (Z.leb_le (scrollback_oldest_line c2) _)) by (rewrite Ho2, E6; lia). cbn [andb].
      change (current_line (with_screen (render_rows c2) k c3)) with (current_line c2).
      case_if; [done|]. by eexists. }
  split; [case_if; apply Hok|]. case_if; cbn; by split_and!.
Qed.

Lemma with_top_shape t c : shape_ok c → shape_ok (with_top t c).
Proof. done. Qed.

(** The test of [move_to_next_line] comes after the line was advanced, so it
    never moves the viewport. *)
Lemma snap_bottom_same c :
  (if viewport_is_bottom c then with_top (scrollback_bottom_top c) c else c) = c.
Proof.
  unfold viewport_is_bottom. destruct (Z.eqb_spec (viewport_top c) (scrollback_bottom_top c)) as [<-|];
    [by destruct c|done].
Qed.

Lemma move_to_next_line_spec c :
  shape_ok c → current_line c + 64 < 2 ^ 64 →
  let c' := move_to_next_line c in
  shape_ok c' ∧ current_line c' = current_line c + 1 ∧ current_col c' = 0 ∧
  viewport_top c' = viewport_top c ∧ current_color c' = current_color c.
Proof.
  intros Hs Hm. pose proof Hs as (H1 & H2 & H3 & H4 & H5).
  assert (Hs1 : shape_ok (with_pos (current_line c + 1) 0 c)).
  { unfold shape_ok, CONSOLE_WIDTH. cbn. split_and!; try done; lia. }
  assert (Hmv : move_to_next_line c =
    clear_scrollback_line (current_line c + 1) (with_pos (current_line c + 1) 0 c)).
  { unfold move_to_next_line. rewrite u64_small by (unfold is_u64; lia). apply snap_bottom_same. }
  rewrite Hmv. exact (clear_line_shape (current_line c + 1) _ Hs1).
Qed.

Lemma move_next_col k c : move_to_next_line (with_pos (current_line c) k c) = move_to_next_line c.
Proof.
  unfold move_to_next_line. destruct c. cbn [with_pos current_line scrollback viewport_top
    current_color vga_memory hw_cursor]. reflexivity.
Qed.

(** Every operation that changes the console, with the lines it can advance. *)
Inductive console_op :=
  | OpClear | OpColor (col : Z) | OpPut (x : Z) | OpCursor (row col : Z)
  | OpPageUp | OpPageDown | OpLineUp | OpLineDown.

Definition console_do (o : console_op) (c : console) : console :=
  match o with
  | OpClear => console_clear c
  | OpColor col => console_set_color col c
  | OpPut x => console_put_char x c
  | OpCursor row col => console_set_cursor row col c
  | OpPageUp => console_scroll_page_up c
  | OpPageDown => console_scroll_page_down c
  | OpLineUp => console_scroll_line_up c
  | OpLineDown => console_scroll_line_down c
  end.

Definition op_ok (o : console_op) : Prop :=
  match o with OpCursor row col => 0 <= row ∧ 0 <= col | _ => True end.

Lemma with_pos_shape line col c :
  shape_ok c → 0 <= line → 0 <= col < 80 → shape_ok (with_pos line col c).
Proof. intros (? & ? & ? & ? & ?) ? ?. unfold shape_ok, CONSOLE_WIDTH. cbn. split_and!; done || lia. Qed.

(** One character that is not a tab: at most one line further. *)
Lemma put_glyph_spec x c :
  shape_ok c → current_line c + 128 < 2 ^ 64 →
  console_ok (put_glyph x c) ∧
  current_line c <= current_line (put_glyph x c) <= current_line c + 1.
Proof.
  intros Hs Hm. unfold put_glyph. cbv zeta.
  set (c0 := with_top (scrollback_bottom_top c) c).
  assert (Hs0 : shape_ok c0) by done. assert (HL : current_line c0 = current_line c) by done.
  pose proof Hs0 as (_ & _ & _ & Hcol & Hline). unfold CONSOLE_WIDTH in *.
  clearbody c0. case_if.
  { destruct (move_to_next_line_spec c0 Hs0) as (Hs1 & E1 & _); [lia|].
    destruct (render_viewport_spec _ Hs1) as (Hok & _ & E & _); [lia|]. split; [done|]. lia. }
  case_if.
  { destruct (render_viewport_spec (with_pos (current_line c0) 0 c0)) as (Hok & _ & E & _).
    - apply with_pos_shape; [done|lia..].
    - cbn. lia.
    - split; [done|]. rewrite E. cbn. lia. }
  case_if.
  { set (c1 := if 0 <? current_col c0 then _ else c0).
    assert (Hc1 : shape_ok c1 ∧ current_line c1 = current_line c0).
    { unfold c1. case_ifs; [|done]. split; [|done].
      apply set_cell_shape; [|apply physical_range]. apply with_pos_shape; [done|lia..]. }
    destruct Hc1 as [Hs1 E1]. destruct (render_viewport_spec c1 Hs1) as (Hok & _ & E & _); [lia|].
    split; [done|]. lia. }
  rewrite (proj2 (Z.leb_gt 80 (current_col c0))) by lia.
  set (c1 := set_cell _ _ _ c0).
  assert (Hs1 : shape_ok c1) by (apply set_cell_shape; [done|apply physical_range]).
  change (current_line c1) with (current_line c0). change (current_col c1) with (current_col c0).
  set (c2 := with_pos (current_line c0) (current_col c0 + 1) c1).
  change (current_col c2) with (current_col c0 + 1).
  destruct (Z.leb_spec 80 (current_col c0 + 1)).
  - (* the line is full *)
    assert (Hmv : move_to_next_line c2 = move_to_next_line c1)
      by exact (move_next_col (current_col c0 + 1) c1). rewrite Hmv.
    destruct (move_to_next_line_spec c1 Hs1) as (Hs3 & E3 & _); [cbn; lia|].
    destruct (render_viewport_spec _ Hs3) as (Hok & _ & E & _); [cbn in *; lia|].
    split; [done|]. cbn in E3. lia.
  - assert (Hs2 : shape_ok c2) by (apply with_pos_shape; [done|lia..]).
    destruct (render_viewport_spec c2 Hs2) as (Hok & _ & E & _); [cbn; lia|].
    split; [done|]. cbn in E. lia.
Qed.

(** Several such characters. *)
Lemma put_glyphs_spec x (l : list Z) c :
  shape_ok c → current_line c + Zlength l + 128 < 2 ^ 64 → l ≠ [] →
  console_ok (foldl (λ c _, put_glyph x c) c l).
Proof.
  unfold Zlength. revert c. induction l as [|k l IH]; intros c Hc Hm Hne; [done|].
  cbn [foldl length] in *. destruct (put_glyph_spec x c Hc) as [Hok E]; [lia|].
  destruct l as [|k' l]; [exact Hok|]. apply IH; [apply Hok|cbn [length] in *; lia|done].
Qed.

Lemma console_clear_shape c l :
  shape_ok c → shape_ok (foldl (λ c line, clear_scrollback_line line c) c l) ∧
  current_line (foldl (λ c line, clear_scrollback_line line c) c l) = current_line c.
Proof.
  revert c. induction l as [|x l IH]; intros c Hc; [done|]. cbn [foldl].
  destruct (clear_line_shape x c Hc) as (Hs & E & _). destruct (IH _ Hs) as [? E']. split; [done|].
  by rewrite E'.
Qed.

(** ** Properties *)

(** C31: the console invariant: the cursor is inside the line, the viewport inside the
    scrollback, and the VGA memory shows exactly the lines of the viewport
    (spaces below the last line). Clearing, printing any character, moving the
    cursor and scrolling all keep it, as long as the 64-bit line counter is far
    from wrapping. *)
Theorem console_invariant o c :
  console_ok c → op_ok o → current_line c + 256 < 2 ^ 64 → console_ok (console_do o c).
Proof.
  intros (Hs & Hv & Hsc) Ho Hm. pose proof Hs as (_ & _ & _ & Hcol & Hline).
  assert (Hr : ∀ t, console_ok (render_viewport (with_top t c)))
    by (intros t; apply render_viewport_spec; [done|cbn; lia]).
  destruct o as [|col|x|row col| | | |]; cbn [console_do].
  - unfold console_clear. cbv zeta. set (c0 := with_color _ _).
    assert (Hs0 : shape_ok c0) by (apply (with_pos_shape 0 0 c); [done|lia|lia]).
    destruct (console_clear_shape c0 (seqZ 0 CONSOLE_SCROLLBACK_LINES) Hs0) as [Hs1 E].
    apply render_viewport_spec; [done|]. rewrite E. cbn. lia.
  - done.
  - unfold console_put_char. case_if; [|by apply put_glyph_spec; [|lia]].
    apply put_glyphs_spec; [done|unfold Zlength; cbn [current_line with_top]; rewrite length_seqZ; lia|done].
  - unfold console_set_cursor. cbv zeta. destruct Ho as [Hr0 Hc0].
    destruct (oldest_bottom c Hline ltac:(lia)) as [_ Hb].
    unfold CONSOLE_HEIGHT, CONSOLE_WIDTH in *.
    set (row' := if 25 <=? row then 25 - 1 else row). set (col' := if 80 <=? col then 80 - 1 else col).
    assert (Hb' : 0 <= row' < 25 ∧ 0 <= col' < 80) by (unfold row', col'; case_ifs; lia).
    cbn [viewport_top with_top]. rewrite u64_small by (unfold is_u64; lia).
    apply render_viewport_spec; [apply with_pos_shape; [done|lia..]|cbn; lia].
  - unfold console_scroll_page_up. cbv zeta. case_if; [done|]. case_if; done.
  - unfold console_scroll_page_down. cbv zeta. case_if; done.
  - unfold console_scroll_line_up. cbv zeta. case_if; done.
  - unfold console_scroll_line_down. cbv zeta. case_if; done.
Qed.

(** A blank console, as [console_clear] leaves it. *)
Definition sample_console : console := console_clear (console_boot (replicate 2000 0) 0).

Lemma boot_shape : shape_ok (console_boot (replicate 2000 0) 0).
Proof.
  unfold shape_ok, console_boot, CONSOLE_WIDTH. cbn [scrollback vga_memory current_col current_line].
  split_and!; try lia.
  - apply length_replicate.
  - intros i Hi. unfold arr_get. rewrite list_lookup_total_alt, lookup_replicate_2;
      [apply length_replicate|]. unfold CONSOLE_SCROLLBACK_LINES in Hi. pose proof LINES_Z. lia.
  - unfold Zlength. rewrite length_replicate. lia.
Qed.

Lemma sample_console_ok : console_ok sample_console.
Proof.
  unfold sample_console, console_clear. cbv zeta. set (c0 := with_color _ _).
  assert (Hs0 : shape_ok c0) by (apply (with_pos_shape 0 0 _ boot_shape); lia).
  destruct (console_clear_shape c0 (seqZ 0 CONSOLE_SCROLLBACK_LINES) Hs0) as [Hs1 E].
  apply render_viewport_spec; [done|]. rewrite E. cbn. lia.
Qed.

Lemma console_invariant_witness :
  console_ok (console_do (OpPut 65) sample_console) ∧
  arr_get (vga_memory (console_do (OpPut 65) sample_console)) 0 = 0x0F41.
Proof.
  split; [|by vm_compute]. apply console_invariant; [apply sample_console_ok|done|].
  assert (H : current_line sample_console = 0) by (by vm_compute). rewrite H. lia.
Defined.

(** A printable character appears on the screen where the cursor was, in the
    current colour, after the viewport has returned to the bottom; the cursor
    moves one cell on. *)
Theorem console_put_char_shows x c :
  shape_ok c → current_line c + 256 < 2 ^ 64 → current_col c + 1 < CONSOLE_WIDTH →
  x ≠ CH_LF → x ≠ CH_CR → x ≠ CH_TAB → x ≠ CH_BS →
  let c' := console_put_char x c in
  viewport_top c' = scrollback_bottom_top c ∧ current_line c' = current_line c ∧
  current_col c' = current_col c + 1 ∧
  arr_get (vga_memory c')
    ((current_line c - scrollback_bottom_top c) * CONSOLE_WIDTH + current_col c) =
  vga_entry x (current_color c).
Proof.
  intros Hs Hm Hcol H1 H2 H3 H4. pose proof Hs as (Hl & Hrow & _ & Hc0 & Hline).
  unfold console_put_char, put_glyph, CONSOLE_WIDTH in *.
  do 4 (rewrite (proj2 (Z.eqb_neq x _)) by done). cbv zeta. set (top := scrollback_bottom_top c).
  change (current_col (with_top top c)) with (current_col c).
  rewrite (proj2 (Z.leb_gt 80 (current_col c))) by lia.
  set (c1 := set_cell _ _ _ (with_top top c)).
  set (c2 := with_pos (current_line c1) (current_col c1 + 1) c1).
  change (current_col c2) with (current_col c + 1).
  rewrite (proj2 (Z.leb_gt 80 (current_col c + 1))) by lia.
  assert (Hs1 : shape_ok c1) by (apply set_cell_shape; [done|apply physical_range]).
  assert (Hs2 : shape_ok c2) by (apply with_pos_shape; [done|cbn; lia|cbn; lia]).
  destruct (render_viewport_spec c2 Hs2) as (Hok & Esb & EL & EC & _ & ET); [cbn; lia|].
  destruct (oldest_bottom c Hline ltac:(lia)) as [Ho Hb].
  assert (Htop : viewport_top (render_viewport c2) = top).
  { rewrite ET. change (scrollback_bottom_top c2) with top.
    change (scrollback_oldest_line c2) with (scrollback_oldest_line c).
    change (viewport_top c2) with top. unfold top. lia. }
  split_and!; [done|by rewrite EL|by rewrite EC|].
  destruct Hok as (_ & _ & Hscreen).
  assert (Hr : 0 <= current_line c - top < 25) by (unfold top; lia).
  specialize (Hscreen (current_line c - top) (current_col c) Hr Hc0). cbv zeta in Hscreen.
  rewrite Htop, EL in Hscreen. change (current_line c2) with (current_line c) in Hscreen.
  replace (top + (current_line c - top)) with (current_line c) in Hscreen by lia.
  rewrite Z.leb_refl in Hscreen. unfold CONSOLE_WIDTH in Hscreen. rewrite Hscreen.
  unfold cell_at. rewrite Esb. change (scrollback c2) with (scrollback c1).
  pose proof (physical_range (current_line c)) as Hp.
  unfold c1, set_cell, with_lines. cbn [scrollback with_top current_line current_col current_color].
  rewrite arr_get_set_eq by (unfold Zlength; rewrite Hl, LINES_Z; lia).
  rewrite arr_get_set_eq; [done|].
  unfold Zlength. rewrite Hrow, WIDTH_Z by (unfold CONSOLE_SCROLLBACK_LINES; lia). lia.
Qed.

Lemma console_put_char_shows_witness :
  arr_get (vga_memory (console_put_char 72 sample_console)) 0 = vga_entry 72 COLOR_WHITE_ON_BLACK.
Proof.
  assert (H : current_line sample_console = 0 ∧ current_col sample_console = 0 ∧
    scrollback_bottom_top sample_console = 0 ∧ current_color sample_console = COLOR_WHITE_ON_BLACK)
    by (by vm_compute).
  destruct H as (E1 & E2 & E3 & E4).
  destruct (console_put_char_shows 72 sample_console (proj1 sample_console_ok)) as (_ & _ & _ & Hv);
    [rewrite E1; lia|rewrite E2; unfold CONSOLE_WIDTH; lia|discriminate..|].
  rewrite E1, E2, E3, E4 in Hv. exact Hv.
Defined.

(** A newline printed on the last row leaves the viewport one line above the
    bottom, although the comment in [console_put_char] says new output always
    returns there: the test [viewport_is_bottom] is made after the line counter
    has advanced, so it fails and the viewport is not moved. The new line is
    off screen and the hardware cursor is parked in the bottom right corner,
    until the next character is printed. *)
Theorem console_newline_lags c :
  shape_ok c → 24 <= current_line c → current_line c + 256 < 2 ^ 64 →
  let c' := console_put_char CH_LF c in
  viewport_top c' = scrollback_bottom_top c' - 1 ∧
  current_line c' = viewport_top c' + CONSOLE_HEIGHT ∧
  hw_cursor c' = 24 * CONSOLE_WIDTH + 79.
Proof.
  intros Hs H24 Hm. unfold console_put_char, put_glyph.
  change (CH_LF =? CH_TAB) with false. change (CH_LF =? CH_LF) with true. cbv iota zeta.
  set (c0 := with_top (scrollback_bottom_top c) c).
  destruct (move_to_next_line_spec c0 Hs) as (Hs1 & E1 & _ & E3 & _); [cbn; lia|].
  set (c1 := move_to_next_line c0) in *. clearbody c1.
  change (current_line c0) with (current_line c) in E1.
  change (viewport_top c0) with (scrollback_bottom_top c) in E3.
  pose proof Hs as (_ & _ & _ & _ & Hline).
  destruct (oldest_bottom c Hline ltac:(lia)) as [_ Hb].
  destruct (oldest_bottom c1 ltac:(lia) ltac:(lia)) as [Ho1 Hb1].
  destruct (render_viewport_spec c1 Hs1) as (_ & _ & EL & _ & _ & ET); [lia|].
  assert (Ebot : scrollback_bottom_top (render_viewport c1) = scrollback_bottom_top c1)
    by (unfold scrollback_bottom_top; by rewrite EL).
  assert (Htop : viewport_top (render_viewport c1) = current_line c - 24)
    by (rewrite ET, Ho1, Hb1, E3, Hb, E1; lia).
  rewrite Ebot, Hb1, EL, E1, Htop. unfold CONSOLE_HEIGHT. split_and!; [lia|lia|].
  (* the line is just below the viewport *)
  unfold render_viewport. cbv zeta.
  rewrite (proj2 (Z.ltb_ge (viewport_top c1) _)) by lia.
  rewrite (proj2 (Z.ltb_ge (scrollback_bottom_top c1) (viewport_top c1))) by lia.
  cbn [viewport_top current_line with_screen]. unfold CONSOLE_HEIGHT.
  rewrite u64_small by (unfold is_u64; lia).
  rewrite (proj2 (Z.ltb_ge (current_line c1) _)) by lia. by rewrite andb_false_r.
Qed.

Lemma console_newline_lags_witness :
  let c := console_set_cursor 24 0 sample_console in
  viewport_top (console_put_char CH_LF c) = scrollback_bottom_top (console_put_char CH_LF c) - 1.
Proof.
  intros c. assert (H : current_line c = 24) by (vm_compute; reflexivity).
  assert (H0 : viewport_top (with_top (scrollback_bottom_top sample_console) sample_console) = 0)
    by (vm_compute; reflexivity).
  assert (Hs : shape_ok c).
  { unfold c, console_set_cursor. cbv zeta. rewrite H0.
    apply render_viewport_spec; [|vm_compute; reflexivity].
    apply with_pos_shape; [apply with_top_shape, (proj1 sample_console_ok)|vm_compute; congruence|vm_compute; split; congruence]. }
  clearbody c. destruct (console_newline_lags c Hs ltac:(lia) ltac:(lia)) as [Hv _]. exact Hv.
Defined.
