(* ===== verification/Task.v ===== *)
(** * Cooperative tasks and the scheduler ([src/kernel/task.c])

    Tasks are never removed, and the list only grows at its tail: the linked
    list is a list, a [task*] is a position in it, [task->next] is the next
    position. [now] is [pit_get_ticks()] at the call; the stack pointer a
    context switch saves is an argument, since the switch itself is assembly.
    Each block under [task_lock] is one step. *)

From S2P Require Import Prelude Utils CString Print Alloc.

Inductive task_state :=
  | TASK_STATE_UNUSED | TASK_STATE_READY | TASK_STATE_RUNNING
  | TASK_STATE_SLEEPING | TASK_STATE_WAITING | TASK_STATE_DONE.

#[global] Instance task_state_eq_dec : EqDecision task_state.
Proof. solve_decision. Defined.

Definition TASK_STACK_SIZE : Z := 16384.
Definition TASK_NAME_MAX : Z := 32.

(** [sizeof(task_t)]: twelve words of 8 bytes. *)
Definition sizeof_task : Z := 96.

Record task := MkTask {
  id : Z;
  name : cstr;
  state : task_state;
  wake_tick : Z;
  rsp : Z;
  stack : Z;
  stack_size : Z;
  entry : Z;
  arg : Z;
  saved_kernel_rsp : Z;
  wait_next : option nat
}.

Record sched := MkSched {
  tasks : list task;
  current_task : option nat;
  schedule_cursor : option nat;
  next_task_id : Z;
  total_task_count : Z;
  scheduler_rsp : Z
}.

(** ** Updates *)

Definition with_state (st : task_state) (t : task) : task :=
  MkTask (id t) (name t) st (wake_tick t) (rsp t) (stack t) (stack_size t) (entry t) (arg t)
         (saved_kernel_rsp t) (wait_next t).
Definition with_wake (w : Z) (t : task) : task :=
  MkTask (id t) (name t) (state t) w (rsp t) (stack t) (stack_size t) (entry t) (arg t)
         (saved_kernel_rsp t) (wait_next t).
Definition with_rsp (r : Z) (t : task) : task :=
  MkTask (id t) (name t) (state t) (wake_tick t) r (stack t) (stack_size t) (entry t) (arg t)
         (saved_kernel_rsp t) (wait_next t).
Definition with_wait_next (n : option nat) (t : task) : task :=
  MkTask (id t) (name t) (state t) (wake_tick t) (rsp t) (stack t) (stack_size t) (entry t) (arg t)
         (saved_kernel_rsp t) n.

Definition with_tasks (ts : list task) (s : sched) : sched :=
  MkSched ts (current_task s) (schedule_cursor s) (next_task_id s) (total_task_count s) (scheduler_rsp s).
Definition with_current (c : option nat) (s : sched) : sched :=
  MkSched (tasks s) c (schedule_cursor s) (next_task_id s) (total_task_count s) (scheduler_rsp s).
Definition with_cursor (c : option nat) (s : sched) : sched :=
  MkSched (tasks s) (current_task s) c (next_task_id s) (total_task_count s) (scheduler_rsp s).
Definition with_sched_rsp (r : Z) (s : sched) : sched :=
  MkSched (tasks s) (current_task s) (schedule_cursor s) (next_task_id s) (total_task_count s) r.

(** [task->field = ...] through a pointer. *)
Definition upd (i : nat) (f : task → task) (s : sched) : sched := with_tasks (alter f i (tasks s)) s.

(** ** Creation *)

Definition task_strlen (s : cstr) : Z := c_strlen s.

(** The name that is copied; [None] is a null argument. *)
Definition limited_name (s : option cstr) : cstr :=
  let s := default (s2z "task") s in
  let len := task_strlen s in
  let len := if TASK_NAME_MAX <? len then TASK_NAME_MAX else len in
  take (Z.to_nat len) s.

Definition task_strdup_limited `{Allocator H} (s : option cstr) (h : H) : option cstr * H :=
  let name := limited_name s in
  let '(copy, h) := k_alloc (Zlength name + 1) h in
  if copy =? 0 then (None, h) else (Some name, h).

Definition align_down_u64_local (value align : Z) : Z := align_down_u64 value align.

Definition task_state_name (st : task_state) : cstr :=
  match st with
  | TASK_STATE_READY => s2z "ready"
  | TASK_STATE_RUNNING => s2z "running"
  | TASK_STATE_SLEEPING => s2z "sleeping"
  | TASK_STATE_WAITING => s2z "waiting"
  | TASK_STATE_DONE => s2z "done"
  | TASK_STATE_UNUSED => s2z "unused"
  end.

(** The statics after [task_init]; the device and the message are [Device]'s
    and the console's business. *)
Definition task_init : sched := MkSched [] None None 1 0 0.

(** [task_create]: the new id (0 on failure), the scheduler, the heap and what
    is printed. The fake register frame takes seven words of the stack. *)
Definition task_create `{Allocator H} (nm : option cstr) (ent ar : Z) (s : sched) (h : H)
    : Z * sched * H * output :=
  if ent =? 0 then (0, s, h, [])
  else
    let '(task_ptr, h) := k_alloc sizeof_task h in
    if task_ptr =? 0 then
      (0, s, h, color_line "task_create failed: no memory for task" COLOR_RED_ON_BLACK)
    else
      let '(copy, h) := task_strdup_limited nm h in
      match copy with
      | None => (0, s, h, color_line "task_create failed: no memory for name" COLOR_RED_ON_BLACK)
      | Some nm =>
          let '(stk, h) := k_alloc TASK_STACK_SIZE h in
          if stk =? 0 then
            (0, s, h, color_line "task_create failed: no memory for stack" COLOR_RED_ON_BLACK)
          else
            let stack_top := align_down_u64_local (u64 (stk + TASK_STACK_SIZE)) 16 in
            let sp := stack_top - 7 * 8 in
            let t := MkTask (next_task_id s) nm TASK_STATE_READY 0 sp stk TASK_STACK_SIZE ent ar 0 None in
            (next_task_id s,
             MkSched (tasks s ++ [t]) (current_task s) (schedule_cursor s)
                     (u32 (next_task_id s + 1)) (u32 (total_task_count s + 1)) (scheduler_rsp s),
             h, [])
      end.

(** ** Scheduling *)

Definition wake_if_due (now : Z) (t : task) : task :=
  if decide (state t = TASK_STATE_SLEEPING) then
    if wake_tick t <=? now then with_wake 0 (with_state TASK_STATE_READY t) else t
  else t.

Definition task_wakeup_sleeping_locked (now : Z) (s : sched) : sched :=
  with_tasks (wake_if_due now <$> tasks s) s.

Definition is_ready (ts : list task) (i : nat) : bool :=
  match ts !! i with Some t => bool_decide (state t = TASK_STATE_READY) | None => false end.

(** [current->next], or the head at the end of the list. *)
Definition next_pos (n i : nat) : nat := if (S i <? n)%nat then S i else O.

(** The [do ... while] loop, with one round per task as fuel. *)
Fixpoint pick_loop (fuel : nat) (ts : list task) (start current : nat) : option nat :=
  match fuel with
  | O => None
  | S fuel' =>
      if is_ready ts current then Some current
      else
        let current := next_pos (length ts) current in
        if decide (current = start) then None else pick_loop fuel' ts start current
  end.

Definition pick_start (s : sched) : nat :=
  match schedule_cursor s with
  | Some c => next_pos (length (tasks s)) c
  | None => O
  end.

Definition task_pick_next_locked (now : Z) (s : sched) : option nat * sched :=
  match tasks s with
  | [] => (None, s)
  | _ =>
      let s := task_wakeup_sleeping_locked now s in
      let start := pick_start s in
      match pick_loop (length (tasks s)) (tasks s) start start with
      | Some i => (Some i, with_cursor (Some i) s)
      | None => (None, s)
      end
  end.

(** [task_run_once] up to the context switch: the stack pointer to switch to;
    [r] is the scheduler's own, which the switch saves. *)
Definition task_run_once_enter (now r : Z) (s : sched) : option Z * sched :=
  let '(next, s) := task_pick_next_locked now s in
  match next with
  | None => (None, s)
  | Some i =>
      let s := upd i (with_state TASK_STATE_RUNNING) (with_current (Some i) s) in
      let next_rsp := match tasks s !! i with Some t => rsp t | None => 0 end in
      (Some next_rsp, with_sched_rsp r s)
  end.

(** [task_run_once] after the task has switched back. *)
Definition task_run_once_leave (s : sched) : sched := with_current None s.

(** The task-side switches: the current task's stack pointer [r] is saved and
    the scheduler's is the target. [None]: there is no current task. *)
Definition task_yield (r : Z) (s : sched) : option Z * sched :=
  match current_task s with
  | None => (None, s)
  | Some i =>
      let s := upd i (λ t, if decide (state t = TASK_STATE_RUNNING)
                           then with_state TASK_STATE_READY t else t) s in
      (Some (scheduler_rsp s), upd i (with_rsp r) s)
  end.

Definition task_sleep_ticks (now ticks r : Z) (s : sched) : option Z * sched :=
  match current_task s with
  | None => (None, s)
  | Some i =>
      if ticks =? 0 then task_yield r s
      else
        let s := upd i (λ t, with_wake (u64 (now + ticks)) (with_state TASK_STATE_SLEEPING t)) s in
        (Some (scheduler_rsp s), upd i (with_rsp r) s)
  end.

(** [None] is the panic of an exit without a current task. *)
Definition task_exit (r : Z) (s : sched) : option Z * sched :=
  match current_task s with
  | None => (None, s)
  | Some i =>
      let s := upd i (λ t, with_wake 0 (with_state TASK_STATE_DONE t)) s in
      (Some (scheduler_rsp s), upd i (with_rsp r) s)
  end.

Definition task_block_switch (r : Z) (s : sched) : option Z * sched :=
  match current_task s with
  | None => (None, s)
  | Some i => (Some (scheduler_rsp s), upd i (with_rsp r) s)
  end.

(** ** The primitives the wait queues use *)

Definition task_current (s : sched) : option nat := current_task s.

Definition task_current_id (s : sched) : Z :=
  match current_task s with
  | Some i => match tasks s !! i with Some t => id t | None => 0 end
  | None => 0
  end.

Definition task_user_saved_kernel_rsp (s : sched) : Z :=
  match current_task s with
  | Some i => match tasks s !! i with Some t => saved_kernel_rsp t | None => 0 end
  | None => 0
  end.

Definition task_set_waiting (p : option nat) (s : sched) : sched :=
  match p with None => s | Some i => upd i (with_state TASK_STATE_WAITING) s end.

Definition task_set_ready (p : option nat) (s : sched) : sched :=
  match p with
  | None => s
  | Some i => upd i (λ t, if decide (state t = TASK_STATE_WAITING)
                          then with_state TASK_STATE_READY t else t) s
  end.

Definition task_wait_next (p : option nat) (s : sched) : option nat :=
  match p with
  | None => None
  | Some i => match tasks s !! i with Some t => wait_next t | None => None end
  end.

Definition task_wait_set_next (p next : option nat) (s : sched) : sched :=
  match p with None => s | Some i => upd i (with_wait_next next) s end.

(** ** Statistics *)

Definition count_state (st : task_state) (s : sched) : Z :=
  Zlength (filter (λ t, state t = st) (tasks s)).

Definition task_count (s : sched) : Z := total_task_count s.
Definition task_ready_count (now : Z) (s : sched) : Z * sched :=
  let s := task_wakeup_sleeping_locked now s in (count_state TASK_STATE_READY s, s).
Definition task_sleeping_count (now : Z) (s : sched) : Z * sched :=
  let s := task_wakeup_sleeping_locked now s in (count_state TASK_STATE_SLEEPING s, s).
Definition task_waiting_count (s : sched) : Z := count_state TASK_STATE_WAITING s.

Definition print_task (t : task) : output :=
  prints "  #" ++ print_dec64 (id t) ++ prints " " ++ print (name t) ++
  (if task_strlen (name t) <? 12 then print (replicate (Z.to_nat (12 - task_strlen (name t))) CH_SPACE)
   else prints " ") ++
  prints " state=" ++ print (task_state_name (state t)) ++
  (if decide (state t = TASK_STATE_SLEEPING) then prints " wake=" ++ print_dec64 (wake_tick t) else []) ++
  prints " stack=" ++ print_hex64 (stack t) ++ prints " rsp=" ++ print_hex64 (rsp t) ++ newline.

Definition task_print_all (now : Z) (s : sched) : sched * output :=
  let s := task_wakeup_sleeping_locked now s in
  (s, prints "tasks:" ++ newline ++ concat (print_task <$> tasks s) ++
      prints "task count = " ++ print_dec64 (total_task_count s) ++ newline).

Definition cmd_taskstats (now : Z) (s : sched) : sched * output :=
  let '(ready, s1) := task_ready_count now s in
  let '(sleeping, s2) := task_sleeping_count now s1 in
  (s2, prints "task count = " ++ print_dec64 (task_count s) ++ newline ++
       prints "ready tasks = " ++ print_dec64 ready ++ newline ++
       prints "sleeping tasks = " ++ print_dec64 sleeping ++ newline ++
       prints "waiting tasks = " ++ print_dec64 (task_waiting_count s2) ++ newline).

(** The demo commands: two tasks with the same entry; the arguments are the
    literals "A" and "B". *)
Definition create_pair `{Allocator H} (n1 n2 : cstr) (ent a1 a2 : Z) (msg : string) (s : sched) (h : H)
    : sched * H * output :=
  let '(a, s, h, o1) := task_create (Some n1) ent a1 s h in
  let '(b, s, h, o2) := task_create (Some n2) ent a2 s h in
  (s, h, o1 ++ o2 ++ prints msg ++ print_dec64 a ++ prints ", " ++ print_dec64 b ++ newline).

Definition cmd_taskdemo `{Allocator H} (demo_task a1 a2 : Z) (s : sched) (h : H) : sched * H * output :=
  create_pair (s2z "demoA") (s2z "demoB") demo_task a1 a2 "created demo tasks: " s h.

Definition cmd_sleepdemo `{Allocator H} (sleepy_task a1 a2 : Z) (s : sched) (h : H) : sched * H * output :=
  create_pair (s2z "sleepA") (s2z "sleepB") sleepy_task a1 a2 "created sleepy tasks: " s h.

(** ** Lemmas: the round-robin scan *)

(** The [k]-th position of the scan. *)
Definition scan_pos (n start k : nat) : nat := ((start + k) mod n)%nat.

Lemma next_pos_scan n start k :
  (0 < n)%nat → next_pos n (scan_pos n start k) = scan_pos n start (S k).
Proof.
  intros Hn. unfold next_pos, scan_pos.
  pose proof (Nat.mod_upper_bound (start + k) n ltac:(lia)).
  replace (start + S k)%nat with (S (start + k)) by lia.
  assert (Hm : (S (start + k) mod n = S ((start + k) mod n) mod n)%nat).
  { rewrite <- (Nat.add_1_r (start + k)), <- (Nat.add_1_r ((start + k) mod n)).
    by rewrite Nat.Div0.add_mod_idemp_l. }
  rewrite Hm.
  destruct (Nat.ltb_spec (S ((start + k) mod n)) n) as [Hlt|Hge].
  - symmetry. by apply Nat.mod_small.
  - replace (S ((start + k) mod n)) with n by lia. by rewrite Nat.Div0.mod_same.
Qed.

Lemma scan_pos_inj n start j k :
  (j < n)%nat → (k < n)%nat → scan_pos n start j = scan_pos n start k → j = k.
Proof.
  unfold scan_pos. intros Hj Hk Heq.
  assert (Hj' : (start + j)%nat = (n * ((start + j) / n) + (start + j) mod n)%nat) by (apply Nat.div_mod_eq).
  assert (Hk' : (start + k)%nat = (n * ((start + k) / n) + (start + k) mod n)%nat) by (apply Nat.div_mod_eq).
  rewrite Heq in Hj'. set (q1 := ((start + j) / n)%nat) in *. set (q2 := ((start + k) / n)%nat) in *.
  destruct (Nat.lt_trichotomy q1 q2) as [Hq|[Hq|Hq]]; [|subst; lia|].
  - assert (n * q1 + n <= n * q2)%nat by nia. lia.
  - assert (n * q2 + n <= n * q1)%nat by nia. lia.
Qed.

Lemma scan_pos_0 n start : (start < n)%nat → scan_pos n start 0 = start.
Proof. intros. unfold scan_pos. rewrite Nat.add_0_r. by apply Nat.mod_small. Qed.

Lemma scan_pos_surj n start i : (start < n)%nat → (i < n)%nat → ∃ k, (k < n)%nat ∧ scan_pos n start k = i.
Proof.
  intros Hs Hi. unfold scan_pos. destruct (Nat.le_gt_cases start i).
  - exists (i - start)%nat. split; [lia|]. replace (start + (i - start))%nat with i by lia.
    by apply Nat.mod_small.
  - exists (i + n - start)%nat. split; [lia|]. replace (start + (i + n - start))%nat with (i + 1 * n)%nat by lia.
    by rewrite Nat.Div0.mod_add, Nat.mod_small.
Qed.

Lemma pick_loop_find ts start j fuel :
  (start < length ts)%nat → (j + fuel)%nat = length ts → (0 < fuel)%nat →
  pick_loop fuel ts start (scan_pos (length ts) start j) =
  scan_pos (length ts) start <$>
    find (λ k, is_ready ts (scan_pos (length ts) start k)) (seq j fuel).
Proof.
  intros Hs. revert j. induction fuel as [|fuel IH]; intros j Hj Hf; [lia|].
  cbn [pick_loop seq find]. destruct (is_ready ts _) eqn:Hr; [done|].
  rewrite next_pos_scan by lia. destruct fuel as [|fuel].
  - cbn [find seq]. rewrite decide_True; [done|]. unfold scan_pos.
    replace (start + S j)%nat with (start + 1 * length ts)%nat by lia.
    by rewrite Nat.Div0.mod_add, Nat.mod_small.
  - rewrite decide_False; [apply IH; lia|]. rewrite <- (scan_pos_0 (length ts) start) at 2 by done.
    intros Heq%scan_pos_inj; lia.
Qed.

(** What the pick returns, in terms of scan positions. *)
Lemma pick_scan ts start :
  (start < length ts)%nat →
  match pick_loop (length ts) ts start start with
  | Some i => ∃ k, (k < length ts)%nat ∧ i = scan_pos (length ts) start k ∧ is_ready ts i = true ∧
                ∀ j, (j < k)%nat → is_ready ts (scan_pos (length ts) start j) = false
  | None => ∀ i, is_ready ts i = false
  end.
Proof.
  intros Hs. pose proof (pick_loop_find ts start 0 (length ts) Hs eq_refl ltac:(lia)) as Hp.
  rewrite scan_pos_0 in Hp by done. rewrite Hp. clear Hp.
  destruct (find _ (seq 0 (length ts))) as [k|] eqn:Hf; cbn [fmap option_fmap option_map].
  - assert (Hgen : ∀ b m k, find (λ k, is_ready ts (scan_pos (length ts) start k)) (seq b m) = Some k →
      (b <= k < b + m)%nat ∧ is_ready ts (scan_pos (length ts) start k) = true ∧
      ∀ j, (b <= j < k)%nat → is_ready ts (scan_pos (length ts) start j) = false).
    { clear. intros b m. revert b. induction m as [|m IH]; intros b k; cbn [seq find]; [done|].
      destruct (is_ready ts _) eqn:Hr.
      - intros [= <-]. split_and!; [lia|lia|done|lia].
      - intros (? & ? & Hj)%IH. split_and!; [lia|lia|done|]. intros j Hjr.
        destruct (decide (j = b)) as [->|]; [done|]. apply Hj. lia. }
    destruct (Hgen _ _ _ Hf) as (Hk & Hr & Hj). exists k. split_and!; [lia|done|done|].
    intros j Hjk. apply Hj. lia.
  - intros i. destruct (decide (i < length ts)%nat) as [Hi|Hi].
    + destruct (scan_pos_surj (length ts) start i Hs Hi) as (k & Hk & <-).
      by apply (find_none _ _ Hf), in_seq; split; [lia|].
    + unfold is_ready. rewrite lookup_ge_None_2 by lia. done.
Qed.

Lemma pick_start_lt s : tasks s ≠ [] → (pick_start s < length (tasks s))%nat.
Proof.
  intros Hne. assert (0 < length (tasks s))%nat by (destruct (tasks s); cbn; [done|lia]).
  unfold pick_start, next_pos. destruct (schedule_cursor s); [|done].
  destruct (Nat.ltb_spec (S n) (length (tasks s))); lia.
Qed.

(** ** Lemmas: waiting times *)

(** How many positions the scan is away from task [j]: at most one lap. *)
Definition distance (s : sched) (j : nat) : nat :=
  (* the least k with scan_pos k = j *)
  default (length (tasks s))
    (find (λ k, bool_decide (scan_pos (length (tasks s)) (pick_start s) k = j)) (seq 0 (length (tasks s)))).

Lemma distance_spec s j :
  tasks s ≠ [] → (j < length (tasks s))%nat →
  (distance s j < length (tasks s))%nat ∧
  scan_pos (length (tasks s)) (pick_start s) (distance s j) = j.
Proof.
  intros Hne Hj. pose proof (pick_start_lt s Hne) as Hs. unfold distance.
  destruct (scan_pos_surj _ _ j Hs Hj) as (k & Hk & Hkj).
  destruct (find _ _) as [k'|] eqn:Hf; cbn.
  - apply find_some in Hf as [Hin Hd]. apply in_seq in Hin. apply bool_decide_eq_true in Hd.
    split; [lia|done].
  - exfalso. pose proof (find_none _ _ Hf k) as Hn.
    specialize (Hn ltac:(apply in_seq; lia)). cbv beta in Hn. by apply bool_decide_eq_false in Hn.
Qed.

Lemma scan_from_next n start k j :
  (start < n)%nat → (k < j)%nat → (j < n)%nat →
  scan_pos n (next_pos n (scan_pos n start k)) (j - S k) = scan_pos n start j.
Proof.
  intros Hs Hk Hj. rewrite next_pos_scan by lia. unfold scan_pos.
  rewrite Nat.Div0.add_mod_idemp_l. f_equal. lia.
Qed.

Lemma is_ready_wake now ts i : is_ready ts i = true → is_ready (wake_if_due now <$> ts) i = true.
Proof.
  unfold is_ready. rewrite list_lookup_fmap. destruct (ts !! i) as [t|]; cbn; [|done].
  intros Hr%bool_decide_eq_true. unfold wake_if_due. rewrite decide_False by congruence.
  by apply bool_decide_eq_true.
Qed.

(** The pick as a scan over the woken tasks. *)
Lemma pick_spec now s :
  tasks s ≠ [] →
  let n := length (tasks s) in
  let ts := wake_if_due now <$> tasks s in
  match task_pick_next_locked now s with
  | (Some i, s') =>
      s' = with_cursor (Some i) (task_wakeup_sleeping_locked now s) ∧
      ∃ k, (k < n)%nat ∧ i = scan_pos n (pick_start s) k ∧ is_ready ts i = true ∧
        ∀ j, (j < k)%nat → is_ready ts (scan_pos n (pick_start s) j) = false
  | (None, s') => s' = task_wakeup_sleeping_locked now s ∧ ∀ i, is_ready ts i = false
  end.
Proof.
  intros Hne n ts. set (s1 := task_wakeup_sleeping_locked now s).
  assert (Hdef : task_pick_next_locked now s =
    match pick_loop (length (tasks s1)) (tasks s1) (pick_start s1) (pick_start s1) with
    | Some i => (Some i, with_cursor (Some i) s1)
    | None => (None, s1)
    end) by (unfold task_pick_next_locked; clear ts; by destruct (tasks s)).
  rewrite Hdef. clear Hdef.
  assert (Hst : pick_start s1 = pick_start s).
  { unfold pick_start, s1. cbn. by rewrite length_fmap. }
  assert (Hlen : length (tasks s1) = n) by (unfold s1; cbn; by rewrite length_fmap).
  rewrite Hst. pose proof (pick_start_lt s Hne) as Hs.
  pose proof (pick_scan (tasks s1) (pick_start s)) as Hp. rewrite Hlen in Hp. specialize (Hp Hs).
  rewrite Hlen. destruct (pick_loop n (tasks s1) (pick_start s) (pick_start s)) as [i|].
  - split; [done|]. exact Hp.
  - split; [done|]. exact Hp.
Qed.

(** ** Histories of the scheduler *)

(** [passed_over j m s]: from [s] the scheduler has picked [m] times, each time
    another task than [j], although [j] was ready; between two picks the tasks
    may change in any way that keeps their number and the cursor. *)
Inductive passed_over (j : nat) : nat → sched → Prop :=
  | passed_none s : passed_over j 0 s
  | passed_once m now s i s1 s2 :
      is_ready (tasks s) j = true →
      task_pick_next_locked now s = (Some i, s1) → i ≠ j →
      length (tasks s2) = length (tasks s1) → schedule_cursor s2 = schedule_cursor s1 →
      passed_over j m s2 → passed_over j (S m) s.

Lemma is_ready_lt ts j : is_ready ts j = true → (j < length ts)%nat.
Proof. unfold is_ready. destruct (ts !! j) eqn:He; [|done]. intros _. by eapply lookup_lt_Some. Qed.

Lemma passed_over_distance j m s :
  passed_over j m s → (j < length (tasks s))%nat → (m <= distance s j)%nat.
Proof.
  intros Hp. induction Hp as [s|m now s i s1 s2 Hr Hpick Hij Hlen Hcur _ IH]; intros Hj; [lia|].
  assert (Hne : tasks s ≠ []) by (intros He; rewrite He in Hj; cbn in Hj; lia).
  pose proof (pick_spec now s Hne) as Hs. rewrite Hpick in Hs.
  destruct Hs as [-> (k & Hk & Hi & _ & Hbefore)]. cbn in Hlen, Hcur.
  rewrite length_fmap in Hlen. set (n := length (tasks s)) in *.
  destruct (distance_spec s j Hne Hj) as [Hd Hdj]. fold n in Hd, Hdj.
  pose proof (pick_start_lt s Hne) as Hst. fold n in Hst.
  (* the picked task comes before j in the scan *)
  assert (Hkd : (k < distance s j)%nat).
  { destruct (Nat.lt_trichotomy k (distance s j)) as [|[Heq|Hgt]]; [done| |].
    - exfalso. apply Hij. by rewrite Hi, Heq, Hdj.
    - exfalso. pose proof (Hbefore _ Hgt) as Hf. rewrite Hdj in Hf.
      pose proof (is_ready_wake now _ _ Hr). congruence. }
  assert (Hne2 : tasks s2 ≠ []) by (intros He; rewrite He in Hlen; cbn in Hlen; lia).
  assert (Hj2 : (j < length (tasks s2))%nat) by lia.
  specialize (IH Hj2). destruct (distance_spec s2 j Hne2 Hj2) as [Hd2 Hdj2].
  assert (Hs2 : pick_start s2 = next_pos n i) by (unfold pick_start; by rewrite Hcur, Hlen).
  rewrite Hs2, Hlen in Hdj2. rewrite Hlen in Hd2.
  assert (Heq : scan_pos n (next_pos n i) (distance s j - S k) = j).
  { rewrite Hi. by rewrite scan_from_next. }
  rewrite <- Heq in Hdj2 at 2. apply scan_pos_inj in Hdj2; lia.
Qed.

(** Where the processor is: in the scheduler, in the current task, or in the
    current task after it has put itself on a wait queue. *)
Inductive context := InSched | InTask | InTaskWaiting.

(** The scheduler's own transitions. *)
Inductive core_step `{Allocator H} : sched * context → sched * context → Prop :=
  | step_enter now r s s' x :
      task_run_once_enter now r s = (Some x, s') → core_step (s, InSched) (s', InTask)
  | step_idle now r s s' :
      task_run_once_enter now r s = (None, s') → core_step (s, InSched) (s', InSched)
  | step_yield r s s' x :
      task_yield r s = (Some x, s') → core_step (s, InTask) (task_run_once_leave s', InSched)
  | step_sleep now n r s s' x :
      task_sleep_ticks now n r s = (Some x, s') →
      core_step (s, InTask) (task_run_once_leave s', InSched)
  | step_exit r s s' x :
      task_exit r s = (Some x, s') → core_step (s, InTask) (task_run_once_leave s', InSched)
  | step_block r s s' x :
      task_block_switch r s = (Some x, s') →
      core_step (s, InTaskWaiting) (task_run_once_leave s', InSched)
  | step_create nm e a s h s' h' i o c :
      task_create nm e a s h = (i, s', h', o) → core_step (s, c) (s', c)
  | step_stats now s c : core_step (s, c) (task_wakeup_sleeping_locked now s, c).

(** With the primitives the wait queues use. *)
Inductive sched_step `{Allocator H} : sched * context → sched * context → Prop :=
  | step_core a b : core_step a b → sched_step a b
  | step_wait s : sched_step (s, InTask) (task_set_waiting (task_current s) s, InTaskWaiting)
  | step_wake p s c : sched_step (s, c) (task_set_ready p s, c)
  | step_link p n s c : sched_step (s, c) (task_wait_set_next p n s, c).

Definition state_at (s : sched) (i : nat) : option task_state := state <$> tasks s !! i.

Definition no_running (s : sched) : Prop := ∀ i, state_at s i ≠ Some TASK_STATE_RUNNING.

Definition sched_inv (sc : sched * context) : Prop :=
  let '(s, c) := sc in
  (match c with
   | InSched => current_task s = None ∧ no_running s
   | InTask => ∃ i, current_task s = Some i ∧ state_at s i = Some TASK_STATE_RUNNING ∧
                 ∀ j, j ≠ i → state_at s j ≠ Some TASK_STATE_RUNNING
   | InTaskWaiting => (∃ i, current_task s = Some i ∧ (i < length (tasks s))%nat ∧
                            state_at s i ≠ Some TASK_STATE_DONE) ∧ no_running s
   end) ∧
  next_task_id s = u32 (Zlength (tasks s) + 1) ∧
  ∀ i t, tasks s !! i = Some t → id t = u32 (Z.of_nat i + 1).

(** What an update of one task changes. *)
Lemma state_at_upd i f s j :
  state_at (upd i f s) j =
  if decide (j = i) then (state ∘ f) <$> tasks s !! j else state_at s j.
Proof.
  unfold state_at, upd. cbn. destruct (decide (j = i)) as [->|].
  - rewrite list_lookup_alter_eq. by destruct (tasks s !! i).
  - by rewrite list_lookup_alter_ne.
Qed.

(** Updates that keep the ids keep the bookkeeping part of the invariant. *)
Definition ids_ok (s : sched) : Prop :=
  next_task_id s = u32 (Zlength (tasks s) + 1) ∧
  ∀ i t, tasks s !! i = Some t → id t = u32 (Z.of_nat i + 1).

Lemma ids_upd i f s : (∀ t, id (f t) = id t) → ids_ok s → ids_ok (upd i f s).
Proof.
  intros Hf [H1 H2]. unfold ids_ok, upd, Zlength. cbn. rewrite length_alter. split; [done|].
  intros j t Hj. destruct (decide (j = i)) as [->|].
  - rewrite list_lookup_alter_eq in Hj. destruct (tasks s !! i) as [u|] eqn:Hu; [|done].
    injection Hj as <-. rewrite Hf. by apply H2.
  - rewrite list_lookup_alter_ne in Hj by done. by apply H2.
Qed.

Lemma ids_wakeup now s : ids_ok s → ids_ok (task_wakeup_sleeping_locked now s).
Proof.
  intros [H1 H2]. unfold ids_ok, task_wakeup_sleeping_locked, Zlength. cbn. rewrite length_fmap.
  split; [done|]. intros i t. rewrite list_lookup_fmap. destruct (tasks s !! i) as [u|] eqn:Hu; [|done].
  intros [= <-]. rewrite <- (H2 i u Hu). unfold wake_if_due. case_decide; [|done]. by case_if.
Qed.

Lemma state_at_wakeup now s i :
  state_at (task_wakeup_sleeping_locked now s) i = state_at s i ∨
  state_at s i = Some TASK_STATE_SLEEPING ∧
  state_at (task_wakeup_sleeping_locked now s) i = Some TASK_STATE_READY.
Proof.
  unfold state_at, task_wakeup_sleeping_locked. cbn. rewrite list_lookup_fmap.
  destruct (tasks s !! i) as [t|]; cbn; [|by left]. unfold wake_if_due.
  case_decide as Hs; [|by left]. case_if; [|by left]. right. by rewrite Hs.
Qed.

Lemma no_running_wakeup now s : no_running s → no_running (task_wakeup_sleeping_locked now s).
Proof. intros Hn i. destruct (state_at_wakeup now s i) as [->|[_ ->]]; [apply Hn|done]. Qed.

Lemma pick_cases now s :
  (∃ i s1, task_pick_next_locked now s = (Some i, s1) ∧ (i < length (tasks s))%nat ∧
     s1 = with_cursor (Some i) (task_wakeup_sleeping_locked now s) ∧
     state_at s1 i = Some TASK_STATE_READY) ∨
  task_pick_next_locked now s = (None, task_wakeup_sleeping_locked now s) ∨
  task_pick_next_locked now s = (None, s).
Proof.
  destruct (decide (tasks s = [])) as [He|Hne].
  { right. right. unfold task_pick_next_locked. by rewrite He. }
  pose proof (pick_spec now s Hne) as Hp. destruct (task_pick_next_locked now s) as [[i|] s1].
  - destruct Hp as (-> & k & Hk & Hi & Hr & _). left. exists i. eexists. split; [done|].
    pose proof (is_ready_lt _ _ Hr) as Hl. rewrite length_fmap in Hl. split_and!; [done|done|].
    unfold is_ready in Hr. unfold state_at. cbn.
    destruct ((wake_if_due now <$> tasks s) !! i); [|done]. cbn. apply bool_decide_eq_true in Hr.
    by rewrite Hr.
  - destruct Hp as [-> _]. right. by left.
Qed.

(** An update of the current task that leaves it in a state that is not
    running: nothing runs when the scheduler is back. *)
Lemma leave_no_running i f r s :
  (∀ j, j ≠ i → state_at s j ≠ Some TASK_STATE_RUNNING) →
  (∀ t, tasks s !! i = Some t → state (f t) ≠ TASK_STATE_RUNNING) →
  no_running (task_run_once_leave (upd i (with_rsp r) (upd i f s))).
Proof.
  intros Ho Hf j. change (state_at (upd i (with_rsp r) (upd i f s)) j ≠ Some TASK_STATE_RUNNING).
  rewrite state_at_upd. case_decide as Hj; [subst j|].
  - unfold upd. cbn. rewrite list_lookup_alter_eq. destruct (tasks s !! i) as [t|] eqn:Ht; [|done].
    cbn. intros [= Hx]. by apply (Hf t).
  - rewrite state_at_upd, decide_False by done. by apply Ho.
Qed.

Lemma ids_switch i f r s :
  (∀ t, id (f t) = id t) → ids_ok s →
  ids_ok (task_run_once_leave (upd i (with_rsp r) (upd i f s))).
Proof. intros Hf Hs. change (ids_ok (upd i (with_rsp r) (upd i f s))).
  apply ids_upd; [done|]. by apply ids_upd.
Qed.

Lemma task_create_cases `{Allocator H} nm e a s h i s' h' o :
  task_create nm e a s h = (i, s', h', o) →
  s' = s ∨ ∃ t, id t = next_task_id s ∧ state t = TASK_STATE_READY ∧
    tasks s' = tasks s ++ [t] ∧ current_task s' = current_task s ∧
    next_task_id s' = u32 (next_task_id s + 1).
Proof.
  unfold task_create. case_if; [intros [= <- <- <- <-]; by left|].
  destruct (k_alloc sizeof_task h) as [p h1]. case_if; [intros [= <- <- <- <-]; by left|].
  destruct (task_strdup_limited nm h1) as [[nm'|] h2]; [|intros [= <- <- <- <-]; by left].
  destruct (k_alloc TASK_STACK_SIZE h2) as [stk h3]. case_if; [intros [= <- <- <- <-]; by left|].
  intros [= <- <- <- <-]. right. eexists.
  split; [|split; [|split; [reflexivity|split; reflexivity]]]; reflexivity.
Qed.

Lemma ids_create s s' t :
  ids_ok s → id t = next_task_id s → tasks s' = tasks s ++ [t] →
  next_task_id s' = u32 (next_task_id s + 1) → ids_ok s'.
Proof.
  intros [H1 H2] Hid Ht Hn. unfold ids_ok. rewrite Ht, Hn, H1. unfold Zlength in *. split.
  - rewrite length_app. cbn [length]. unfold u32. rewrite Z.add_mod_idemp_l by lia. f_equal. lia.
  - intros i u [Hi|[Hi Hu]]%lookup_app_Some; [by apply H2|].
    assert (i = length (tasks s)) as ->.
    { apply lookup_lt_Some in Hu. cbn in Hu. lia. }
    rewrite Nat.sub_diag in Hu. injection Hu as <-. congruence.
Qed.

Lemma state_at_app s s' t i :
  tasks s' = tasks s ++ [t] → state_at s' i = state_at s i ∨ 
  (i = length (tasks s) ∧ state_at s' i = Some (state t) ∧ state_at s i = None).
Proof.
  intros Ht. unfold state_at. rewrite Ht. destruct (decide (i < length (tasks s))%nat) as [Hi|Hi].
  - left. by rewrite lookup_app_l.
  - destruct (decide (i = length (tasks s))) as [->|Hne].
    + right. rewrite lookup_app_r, Nat.sub_diag by lia. split; [done|]. split; [done|].
      by rewrite lookup_ge_None_2.
    + left. rewrite !lookup_ge_None_2; [done|lia|rewrite length_app; cbn; lia].
Qed.

(** States that change only as [task_set_ready] or waking up change them. *)
Definition benign (s s' : sched) : Prop :=
  length (tasks s') = length (tasks s) ∧ current_task s' = current_task s ∧
  ∀ i, state_at s' i = state_at s i ∨
       state_at s' i = Some TASK_STATE_READY ∧
       (state_at s i = Some TASK_STATE_WAITING ∨ state_at s i = Some TASK_STATE_SLEEPING).

Lemma benign_inv s s' c : benign s s' → ids_ok s' → sched_inv (s, c) → sched_inv (s', c).
Proof.
  intros (Hlen & Hcur & Hst) Hids [Hc _]. split; [|exact Hids].
  assert (Hnr : no_running s → no_running s').
  { intros Hn i. destruct (Hst i) as [->|[-> _]]; [apply Hn|done]. }
  destruct c; rewrite Hcur.
  - destruct Hc as [? ?]. split; [done|by apply Hnr].
  - destruct Hc as (i & Hi & Hr & Ho). exists i. split_and!; [done| |].
    + destruct (Hst i) as [->|[_ [Hx|Hx]]]; [done|congruence..].
    + intros j Hj. destruct (Hst j) as [->|[-> _]]; [by apply Ho|done].
  - destruct Hc as [(i & Hi & Hl & Hd) Hn]. split; [|by apply Hnr]. exists i.
    split_and!; [done|lia|]. destruct (Hst i) as [->|[-> _]]; done.
Qed.

Lemma benign_upd p f s :
  (∀ t, state (f t) = state t ∨ state (f t) = TASK_STATE_READY ∧ state t = TASK_STATE_WAITING) →
  benign s (upd p f s).
Proof.
  intros Hf. split_and!; [unfold upd; cbn; apply length_alter|done|]. intros i.
  rewrite state_at_upd. case_decide as Hi; [subst i|by left]. unfold state_at.
  destruct (tasks s !! p) as [t|]; [|by left]. cbn. destruct (Hf t) as [->|[-> ->]]; [by left|].
  right. split; [done|by left].
Qed.

Lemma wakeup_benign now s : benign s (task_wakeup_sleeping_locked now s).
Proof.
  split_and!; [cbn; apply length_fmap|done|]. intros i.
  destruct (state_at_wakeup now s i) as [->|[-> ->]]; [by left|]. right. split; [done|by right].
Qed.

(** A task-side switch back to the scheduler. *)
Lemma switch_inv s i f r :
  sched_inv (s, InTask) → current_task s = Some i →
  (∀ t, state t = TASK_STATE_RUNNING → state (f t) ≠ TASK_STATE_RUNNING) → (∀ t, id (f t) = id t) →
  sched_inv (task_run_once_leave (upd i (with_rsp r) (upd i f s)), InSched).
Proof.
  intros [(k & Hk & Hr & Ho) Hids] Hi Hf Hid. rewrite Hi in Hk. injection Hk as <-.
  split; [|by apply ids_switch]. split; [done|]. apply leave_no_running; [done|].
  intros t Ht. apply Hf. unfold state_at in Hr. rewrite Ht in Hr. by injection Hr.
Qed.

Lemma yield_switch r s s' x i :
  task_yield r s = (Some x, s') → current_task s = Some i →
  s' = upd i (with_rsp r) (upd i (λ t, if decide (state t = TASK_STATE_RUNNING)
                                       then with_state TASK_STATE_READY t else t) s).
Proof. unfold task_yield. intros He Hi. rewrite Hi in He. by injection He as _ <-. Qed.

Lemma core_step_inv `{Allocator H} a b : core_step a b → sched_inv a → sched_inv b.
Proof.
  intros Hstep Hinv. destruct Hstep as [now r s s' x He|now r s s' He|r s s' x He|now n r s s' x He
    |r s s' x He|r s s' x He|nm e a s h s' h' i o c He|now s c].
  - (* enter *)
    destruct Hinv as [[Hc Hn] Hids]. unfold task_run_once_enter in He.
    destruct (pick_cases now s) as [(i & s1 & Hp & Hi & Hs1 & Hr)|[Hp|Hp]]; rewrite Hp in He; [|done..].
    injection He as _ <-.
    assert (Hn1 : no_running s1) by (subst s1; by apply no_running_wakeup).
    split; [|apply (ids_upd i (with_state TASK_STATE_RUNNING) s1); [done|]; subst s1; by apply ids_wakeup].
    exists i. split; [done|].
    change (state_at (upd i (with_state TASK_STATE_RUNNING) s1) i = Some TASK_STATE_RUNNING ∧
      ∀ j, j ≠ i → state_at (upd i (with_state TASK_STATE_RUNNING) s1) j ≠ Some TASK_STATE_RUNNING).
    split.
    + rewrite state_at_upd, decide_True by done. unfold state_at in Hr.
      by destruct (tasks s1 !! i).
    + intros j Hj. rewrite state_at_upd, decide_False by done. apply Hn1.
  - (* idle *)
    unfold task_run_once_enter in He.
    destruct (pick_cases now s) as [(i & s1 & Hp & _)|[Hp|Hp]]; rewrite Hp in He; [done| |];
      injection He as <-; [|done].
    eapply benign_inv; [apply wakeup_benign|apply ids_wakeup, Hinv|done].
  - (* yield *)
    pose proof Hinv as [(i & Hi & _) _]. rewrite (yield_switch r s s' x i He Hi).
    apply switch_inv; [done|done| |]; intros t; case_decide; done.
  - (* sleep *)
    pose proof Hinv as [(i & Hi & _) _]. unfold task_sleep_ticks in He. rewrite Hi in He.
    destruct (n =? 0).
    + rewrite (yield_switch r s s' x i He Hi).
      apply switch_inv; [done|done| |]; intros t; case_decide; done.
    + injection He as _ <-. by apply switch_inv.
  - (* exit *)
    pose proof Hinv as [(i & Hi & _) _]. unfold task_exit in He. rewrite Hi in He.
    injection He as _ <-. by apply switch_inv.
  - (* block *)
    destruct Hinv as [[(i & Hi & _) Hn] Hids]. unfold task_block_switch in He. rewrite Hi in He.
    injection He as _ <-. split; [|by apply (ids_upd i)]. split; [done|].
    intros j. change (state_at (upd i (with_rsp r) s) j ≠ Some TASK_STATE_RUNNING).
    rewrite state_at_upd. case_decide; [|apply Hn]. specialize (Hn j). unfold state_at in Hn.
    by destruct (tasks s !! j).
  - (* create *)
    destruct (task_create_cases _ _ _ _ _ _ _ _ _ He) as [->|(t & Hid & Hst & Ht & Hc & Hn)]; [done|].
    destruct Hinv as [Hctx Hids]. split; [|by eapply ids_create].
    assert (Hsame : ∀ j, state_at s' j = Some TASK_STATE_RUNNING → state_at s j = Some TASK_STATE_RUNNING).
    { intros j. destruct (state_at_app s s' t j Ht) as [->|(_ & -> & _)]; [done|]. by rewrite Hst. }
    assert (Hkeep : ∀ j x, state_at s j = Some x → state_at s' j = Some x).
    { intros j x Hx. destruct (state_at_app s s' t j Ht) as [->|(_ & _ & Hnone)]; [done|congruence]. }
    destruct c; rewrite Hc.
    + destruct Hctx as [? Hnr]. split; [done|]. intros j Hj. by apply (Hnr j), Hsame.
    + destruct Hctx as (k & Hk & Hr & Ho). exists k. split_and!; [done|by apply Hkeep|].
      intros j Hj Hx. by apply (Ho j Hj), Hsame.
    + destruct Hctx as [(k & Hk & Hl & Hd) Hnr]. split; [|intros j Hj; by apply (Hnr j), Hsame].
      exists k. rewrite Ht, length_app. split_and!; [done|lia|].
      destruct (state_at_app s s' t k Ht) as [->|(-> & _)]; [done|lia].
  - (* statistics *)
    eapply benign_inv; [apply wakeup_benign|apply ids_wakeup, Hinv|done].
Qed.

(** The scheduler's own transitions leave a waiting task where it is, and make
    no task wait. *)
Definition waits (s : sched) (i : nat) (next : option nat) : Prop :=
  ∃ t, tasks s !! i = Some t ∧ state t = TASK_STATE_WAITING ∧ wait_next t = next.

Lemma waits_upd s i j f next :
  (∀ t, state (f t) = state t ∧ wait_next (f t) = wait_next t) →
  waits (upd i f s) j next ↔ waits s j next.
Proof.
  intros Hf. unfold waits, upd. cbn. destruct (decide (j = i)) as [->|].
  - rewrite list_lookup_alter_eq. destruct (tasks s !! i) as [t|]; cbn.
    + destruct (Hf t) as [H1 H2]. split.
      * intros (? & [= <-] & ? & ?). exists t. by rewrite <- H1, <- H2.
      * intros (? & [= <-] & ? & ?). exists (f t). by rewrite H1, H2.
    + split; by intros (? & ? & _).
  - by rewrite list_lookup_alter_ne.
Qed.

Lemma waits_upd_busy s i j f next :
  state_at s i = Some TASK_STATE_RUNNING ∨ state_at s i = Some TASK_STATE_READY →
  (∀ t, state t ≠ TASK_STATE_WAITING → state (f t) ≠ TASK_STATE_WAITING) →
  waits (upd i f s) j next ↔ waits s j next.
Proof.
  unfold state_at. intros Hi Hf. unfold waits, upd. cbn. destruct (decide (j = i)) as [->|].
  - rewrite list_lookup_alter_eq. destruct (tasks s !! i) as [t|]; cbn in *.
    + assert (Ht : state t ≠ TASK_STATE_WAITING) by (intros Hx; rewrite Hx in Hi; by destruct Hi).
      split; intros (? & [= <-] & ? & ?); [|done]. by destruct (Hf t Ht).
    + split; by intros (? & ? & _).
  - by rewrite list_lookup_alter_ne.
Qed.

Lemma waits_wakeup now s j next : waits (task_wakeup_sleeping_locked now s) j next ↔ waits s j next.
Proof.
  unfold waits. cbn. rewrite list_lookup_fmap. destruct (tasks s !! j) as [t|]; cbn.
  - assert (Hw : wake_if_due now t = t ∨ state t = TASK_STATE_SLEEPING ∧
      state (wake_if_due now t) = TASK_STATE_READY).
    { unfold wake_if_due. case_decide; [|by left]. case_if; [by right|by left]. }
    destruct Hw as [->|[H1 H2]]; [done|].
    split; intros (? & [= <-] & ? & ?); congruence.
  - split; by intros (? & ? & _).
Qed.

Lemma waits_leave s j next : waits (task_run_once_leave s) j next ↔ waits s j next.
Proof. done. Qed.

Lemma waits_create s s' t j next :
  tasks s' = tasks s ++ [t] → state t = TASK_STATE_READY → waits s' j next ↔ waits s j next.
Proof.
  intros Ht Hst. unfold waits. rewrite Ht. split.
  - intros (u & [Hu|[_ Hu]]%lookup_app_Some & Hw & Hn); [by exists u|].
    apply list_elem_of_lookup_2, list_elem_of_singleton in Hu. subst u. congruence.
  - intros (u & Hu & ?). exists u. split; [by apply lookup_app_l_Some|done].
Qed.

Lemma core_step_waits `{Allocator H} s c s' c' j next :
  core_step (s, c) (s', c') → sched_inv (s, c) → waits s' j next ↔ waits s j next.
Proof.
  intros Hstep Hinv. inversion Hstep as [now r ? ? x He|now r ? ? He|r ? s1 x He|now n r ? s1 x He
    |r ? s1 x He|r ? s1 x He|nm e a ? h ? h' i o ? He|now]; subst; try rewrite waits_leave.
  - unfold task_run_once_enter in He.
    destruct (pick_cases now s) as [(i & s1 & Hp & Hi & Hs1 & Hr)|[Hp|Hp]]; rewrite Hp in He; [|done..].
    injection He as _ <-. change (waits (upd i (with_state TASK_STATE_RUNNING) s1) j next ↔ waits s j next).
    rewrite waits_upd_busy; [|by right|done]. subst s1. apply (waits_wakeup now s).
  - unfold task_run_once_enter in He.
    destruct (pick_cases now s) as [(i & s1 & Hp & _)|[Hp|Hp]]; rewrite Hp in He; [done| |];
      injection He as <-; [apply waits_wakeup|done].
  - pose proof Hinv as [(i & Hi & Hr & _) _]. rewrite (yield_switch r s s1 x i He Hi).
    rewrite waits_upd by done. apply waits_upd_busy; [by left|]. intros t Ht. by case_decide.
  - pose proof Hinv as [(i & Hi & Hr & _) _]. unfold task_sleep_ticks in He. rewrite Hi in He.
    destruct (n =? 0).
    + rewrite (yield_switch r s s1 x i He Hi).
      rewrite waits_upd by done. apply waits_upd_busy; [by left|]. intros t Ht. by case_decide.
    + injection He as _ <-. rewrite waits_upd by done. apply waits_upd_busy; [by left|done].
  - pose proof Hinv as [(i & Hi & Hr & _) _]. unfold task_exit in He. rewrite Hi in He.
    injection He as _ <-. rewrite waits_upd by done. apply waits_upd_busy; [by left|done].
  - destruct Hinv as [[(i & Hi & _) Hn] Hids]. unfold task_block_switch in He. rewrite Hi in He.
    injection He as _ <-. by apply waits_upd.
  - destruct (task_create_cases _ _ _ _ _ _ _ _ _ He) as [->|(t & Hid & Hst & Ht & _)]; [done|].
    by eapply waits_create.
  - apply waits_wakeup.
Qed.

Lemma sched_step_inv `{Allocator H} a b : sched_step a b → sched_inv a → sched_inv b.
Proof.
  intros Hstep Hinv. destruct Hstep as [a b He|s|p s c|p n s c].
  - by eapply core_step_inv.
  - (* register on a wait queue *)
    destruct Hinv as [(i & Hi & Hr & Ho) Hids]. unfold task_current, task_set_waiting. rewrite Hi.
    assert (Hlt : (i < length (tasks s))%nat).
    { unfold state_at in Hr. destruct (tasks s !! i) eqn:He; [|done]. by eapply lookup_lt_Some. }
    split; [|by apply ids_upd]. split.
    + exists i. split; [done|]. split; [unfold upd; cbn; by rewrite length_alter|].
      rewrite state_at_upd, decide_True by done. by destruct (tasks s !! i).
    + intros j. rewrite state_at_upd. case_decide as Hj; [|by apply Ho]. by destruct (tasks s !! j).
  - (* wake *)
    destruct p as [p|]; [|done]. eapply benign_inv; [|apply ids_upd, Hinv|done].
    + apply benign_upd. intros t. case_decide as Ht; [|by left]. right. by rewrite Ht.
    + intros t. by case_decide.
  - (* link *)
    destruct p as [p|]; [|done]. eapply benign_inv; [|by apply ids_upd, Hinv|done].
    apply benign_upd. by left.
Qed.

(** ** Properties *)

(** C4: over every interleaving of scheduler entries, yields, sleeps, exits, blocking,
    task creation and wake-ups from interrupts: at most one task is running and
    it is the current one; when the scheduler runs there is no current task and
    nothing is marked running; and the id of a task is its position in the list,
    so ids are unique as long as fewer than [2^32] tasks were created. *)
Theorem sched_invariant `{Allocator H} sc :
  rtc sched_step (task_init, InSched) sc →
  sched_inv sc ∧
  ∀ i j t u, Zlength (tasks sc.1) < 2 ^ 32 - 1 →
    tasks sc.1 !! i = Some t → tasks sc.1 !! j = Some u → id t = id u → i = j.
Proof.
  intros Hr. assert (Hinv : sched_inv sc).
  { assert (Hinit : sched_inv (task_init, InSched)).
    { split; [split; [done|by intros i]|]. split; [done|]. by intros i t Ht. }
    revert Hinit. induction Hr as [x|x y z Hxy _ IH]; [done|]. intros Hx. by eapply IH, sched_step_inv. }
  split; [done|]. intros i j t u Hlen Hi Hj Heq. destruct sc as [s c].
  destruct Hinv as [_ [_ Hids]]. cbn in *. rewrite (Hids i t Hi), (Hids j u Hj) in Heq.
  apply lookup_lt_Some in Hi, Hj. unfold Zlength in Hlen.
  rewrite !u32_small in Heq by (unfold is_u32; lia). lia.
Qed.

(** One task is created, entered and goes to sleep. *)
Lemma sched_invariant_witness :
  let s1 := (task_create (Some (s2z "a")) 5 0 task_init (MkArena 16 100000 [])).1.1.2 in
  let s2 := (task_run_once_enter 0 7 s1).2 in
  let s3 := task_run_once_leave (task_sleep_ticks 0 10 9 s2).2 in
  rtc (@sched_step arena _) (task_init, InSched) (s3, InSched) ∧
  state_at s3 0 = Some TASK_STATE_SLEEPING ∧ sched_inv (s3, InSched).
Proof.
  intros s1 s2 s3. assert (Hr : rtc (@sched_step arena _) (task_init, InSched) (s3, InSched)).
  { eapply (rtc_l _ _ (s1, InSched)).
    { eapply step_core, (step_create (Some (s2z "a")) 5 0 task_init (MkArena 16 100000 [])); reflexivity. }
    eapply (rtc_l _ _ (s2, InTask)); [eapply step_core, (step_enter 0 7); reflexivity|].
    eapply rtc_once, step_core, (step_sleep 0 10 9). reflexivity. }
  split; [exact Hr|]. split; [reflexivity|]. exact (proj1 (sched_invariant _ Hr)).
Defined.

Lemma scan_rotate n start :
  (start < n)%nat → scan_pos n start <$> seq 0 n = rotate start (seq 0 n).
Proof.
  intros Hs. apply list_eq. intros i. rewrite list_lookup_fmap. unfold rotate.
  rewrite length_seq, Nat.mod_small by done. destruct (decide (i < n)%nat) as [Hi|Hi].
  - rewrite lookup_seq_lt by done. cbn. unfold scan_pos.
    destruct (decide (start + i < n)%nat) as [Hl|Hl].
    + rewrite lookup_app_l by (rewrite length_drop, length_seq; lia).
      rewrite lookup_drop, lookup_seq_lt by done. by rewrite Nat.mod_small.
    + rewrite lookup_app_r, length_drop, length_seq by (rewrite length_drop, length_seq; lia).
      rewrite lookup_take_lt, lookup_seq_lt by lia.
      replace (start + i)%nat with ((i - (n - start)) + 1 * n)%nat by lia.
      by rewrite Nat.Div0.mod_add, Nat.mod_small by lia.
  - rewrite lookup_seq_ge by lia. cbn. rewrite lookup_ge_None_2; [done|].
    rewrite length_app, length_drop, length_take, length_seq. lia.
Qed.

Lemma find_fmap {A B} (f : A → B) (p : B → bool) l :
  find p (f <$> l) = f <$> find (λ x, p (f x)) l.
Proof. induction l as [|x l IH]; cbn; [done|]. by case_if. Qed.

(** The scheduler's choice. The [do ... while] scan over the linked list is
    the search for the first ready task in the list rotated to start just after
    the task chosen last, after every due sleeper was woken; the cursor moves
    exactly when a task is found. *)
Theorem task_pick_is_find now s :
  let s1 := task_wakeup_sleeping_locked now s in
  let choice := find (is_ready (tasks s1)) (rotate (pick_start s) (seq 0 (length (tasks s)))) in
  task_pick_next_locked now s =
    (choice, match choice with Some i => with_cursor (Some i) s1 | None => s1 end).
Proof.
  intros s1 choice. destruct (decide (tasks s = [])) as [He|Hne].
  { unfold choice, s1, task_pick_next_locked, task_wakeup_sleeping_locked. destruct s as [ts ?????].
    cbn in He. subst ts. unfold rotate. cbn. by rewrite drop_nil, take_nil. }
  pose proof (pick_start_lt s Hne) as Hs.
  assert (Hst : pick_start s1 = pick_start s).
  { unfold pick_start, s1. cbn. by rewrite length_fmap. }
  assert (Hlen : length (tasks s1) = length (tasks s)) by (unfold s1; cbn; by rewrite length_fmap).
  assert (Hc : pick_loop (length (tasks s1)) (tasks s1) (pick_start s1) (pick_start s1) = choice).
  { unfold choice. rewrite <- scan_rotate, find_fmap by done. rewrite Hst.
    pose proof (pick_loop_find (tasks s1) (pick_start s) 0 (length (tasks s1))) as Hp.
    rewrite Hlen, scan_pos_0 in Hp by done. rewrite Hlen. apply Hp; [done|done|lia]. }
  unfold task_pick_next_locked. fold s1. rewrite Hc.
  destruct (tasks s) as [|t ts]; [done|]. by destruct choice.
Qed.


Definition sample_task (i : Z) : task := MkTask i [] TASK_STATE_READY 0 0 0 0 1 0 0 None.


(** What each failed allocation leaves behind. *)
Definition create_error (k : nat) : output :=
  match k with
  | 0%nat => color_line "task_create failed: no memory for task" COLOR_RED_ON_BLACK
  | 1%nat => color_line "task_create failed: no memory for name" COLOR_RED_ON_BLACK
  | _ => color_line "task_create failed: no memory for stack" COLOR_RED_ON_BLACK
  end.

(** The outcomes of [task_create]. A null entry changes nothing. On success
    a ready task with the next id is appended and exactly three blocks are live
    in addition. When an allocation fails the scheduler is untouched and an error
    is printed, but the blocks obtained before the failure stay allocated. *)
Theorem task_create_outcomes `{Allocator H} nm ent ar s h :
  h_inv h →
  let '(i, s', h', o) := task_create nm ent ar s h in
  h_inv h' ∧
  (ent = 0 ∧ (i, s', h', o) = (0, s, h, []) ∨
   ent ≠ 0 ∧ i = next_task_id s ∧ o = [] ∧ length (live h') = (length (live h) + 3)%nat ∧
     (∃ t, tasks s' = tasks s ++ [t] ∧ id t = i ∧ state t = TASK_STATE_READY ∧
       name t = limited_name nm ∧ entry t = ent ∧ arg t = ar ∧ stack t ≠ 0 ∧
       rsp t = (u64 (stack t + TASK_STACK_SIZE)) / 16 * 16 - 56) ∨
   ent ≠ 0 ∧ i = 0 ∧ s' = s ∧
     ∃ k, (k < 3)%nat ∧ o = create_error k ∧ length (live h') = (length (live h) + k)%nat).
Proof.
  intros Hinv. unfold task_create, task_strdup_limited. case_if; btests; [split; [done|by left]|].
  assert (Hname : 0 < Zlength (limited_name nm) + 1 <= 2 ^ 63).
  { unfold limited_name, Zlength. rewrite length_take. case_if; btests; unfold TASK_NAME_MAX in *; [lia|].
    unfold task_strlen in *. rewrite c_strlen_length in *. unfold Zlength in *. lia. }
  pose proof (k_alloc_live_count sizeof_task h Hinv ltac:(unfold sizeof_task; lia)) as H1.
  destruct (k_alloc sizeof_task h) as [p1 h1]. destruct H1 as [Hi1 Hl1].
  case_if; btests.
  { split; [done|]. right. right. split_and!; [done..|]. exists 0%nat. split_and!; [lia|done|lia]. }
  pose proof (k_alloc_live_count _ h1 Hi1 Hname) as H2.
  destruct (k_alloc (Zlength (limited_name nm) + 1) h1) as [p2 h2]. destruct H2 as [Hi2 Hl2].
  destruct (p2 =? 0).
  { split; [done|]. right. right. split_and!; [done..|]. exists 1%nat. split_and!; [lia|done|lia]. }
  pose proof (k_alloc_live_count TASK_STACK_SIZE h2 Hi2 ltac:(unfold TASK_STACK_SIZE; lia)) as H3.
  destruct (k_alloc TASK_STACK_SIZE h2) as [p3 h3]. destruct H3 as [Hi3 Hl3].
  destruct (p3 =? 0) eqn:Hp3; btests.
  { split; [done|]. right. right. split_and!; [done..|]. exists 2%nat. split_and!; [lia|done|lia]. }
  split; [done|]. right. left. split_and!; [done|done|done|lia|].
  eexists. split; [reflexivity|]. cbn [id state name entry arg stack rsp]. split_and!; try done.
  change (7 * 8) with 56. f_equal. unfold align_down_u64_local, align_down_u64.
  change (u64 (Z.lnot (u64 (16 - 1)))) with (u64 (Z.lnot (2 ^ 4 - 1))).
  apply land_align_mask; [apply u64_range|lia].
Qed.

(** The third allocation fails: two blocks are lost. *)
Lemma task_create_outcomes_witness :
  let '(i, s', h', o) := task_create (Some (s2z "a")) 5 0 task_init (MkArena 16 1000 []) in
  i = 0 ∧ s' = task_init ∧ o = create_error 2 ∧ length (live h') = 2%nat ∧ h_inv h'.
Proof.
  assert (Hi : h_inv (MkArena 16 1000 [])).
  { split; [cbn; lia|]. split; [apply NoDup_nil_2|]. intros a t Ha. by apply not_elem_of_nil in Ha. }
  pose proof (task_create_outcomes (Some (s2z "a")) 5 0 task_init _ Hi) as Hx.
  split; [reflexivity|]. split; [reflexivity|]. split; [reflexivity|]. split; [reflexivity|].
  exact (proj1 Hx).
Defined.
