(* ===== verification/Wait.v ===== *)
(** * Wait queues ([src/kernel/wait.c])

    A queue is a head and a tail pointer; the links are the [wait_next] fields
    of the tasks ([Task]), so the operations act on the queue and on the
    scheduler's tasks. The queue's lock and the interrupt flag are [Spinlock]'s:
    each operation is one step here. *)

From S2P Require Import Prelude Alloc Task.

Record wait_queue := MkQueue { head : option nat; tail : option nat }.

Definition wait_queue_init : wait_queue := MkQueue None None.

(** Up to the [irq_restore]: the current task registers itself. [None]: there
    is no current task and nothing happens. *)
Definition wait_queue_enqueue (q : wait_queue) (s : sched) : option (wait_queue * sched) :=
  match task_current s with
  | None => None
  | Some current =>
      let s := task_wait_set_next (Some current) None s in
      let '(q, s) :=
        match head q with
        | None => (MkQueue (Some current) (Some current), s)
        | Some _ => (MkQueue (head q) (Some current), task_wait_set_next (tail q) (Some current) s)
        end in
      Some (q, task_set_waiting (Some current) s)
  end.

(** The whole call, when nothing interrupts it: the queue, the scheduler and the
    stack pointer that is switched to. *)
Definition wait_queue_block_irqrestore (r : Z) (q : wait_queue) (s : sched)
    : option Z * wait_queue * sched :=
  match wait_queue_enqueue q s with
  | None => (None, q, s)
  | Some (q, s) => let '(target, s) := task_block_switch r s in (target, q, s)
  end.

Definition wait_queue_wake_one (q : wait_queue) (s : sched) : Z * wait_queue * sched :=
  match head q with
  | None => (0, q, s)
  | Some task =>
      let h := task_wait_next (Some task) s in
      let q := MkQueue h (match h with None => None | Some _ => tail q end) in
      (1, q, task_set_ready (Some task) (task_wait_set_next (Some task) None s))
  end.

(** The loop of [wait_queue_wake_all]; [None] is a loop that runs out of fuel. *)
Fixpoint wake_all_loop (fuel : nat) (task : option nat) (woke : Z) (s : sched) : option (Z * sched) :=
  match task with
  | None => Some (woke, s)
  | Some i =>
      match fuel with
      | O => None
      | S fuel' =>
          let next := task_wait_next (Some i) s in
          let s := task_set_ready (Some i) (task_wait_set_next (Some i) None s) in
          wake_all_loop fuel' next (u32 (woke + 1)) s
      end
  end.

Definition wait_queue_wake_all (q : wait_queue) (s : sched) : option (Z * wait_queue * sched) :=
  '(woke, s) ← wake_all_loop (length (tasks s)) (head q) 0 s;
  Some (woke, MkQueue None None, s).

(** ** The queue as a list of tasks *)

Definition linked (s : sched) (l : list nat) : Prop :=
  ∀ k i, l !! k = Some i → waits s i (l !! S k).

Definition queue_is (q : wait_queue) (s : sched) (l : list nat) : Prop :=
  head q = l !! 0%nat ∧ tail q = last l ∧ NoDup l ∧ linked s l.

(** ** Lemmas *)

Lemma waits_lookup s i next :
  waits s i next → ∃ t, tasks s !! i = Some t ∧ state t = TASK_STATE_WAITING ∧ wait_next t = next.
Proof. done. Qed.

Lemma waits_lt s i next : waits s i next → (i < length (tasks s))%nat.
Proof. intros (t & Ht & _). by eapply lookup_lt_Some. Qed.

Lemma queue_members_lt q s l i : queue_is q s l → i ∈ l → (i < length (tasks s))%nat.
Proof. intros (_ & _ & _ & Hl) [k Hk]%list_elem_of_lookup. by eapply waits_lt, Hl. Qed.

(** An update of a task that is not in the queue does not touch it. *)
Lemma waits_upd_ne s i j f next : i ≠ j → waits (upd i f s) j next ↔ waits s j next.
Proof. intros Hij. unfold waits, upd. cbn. by rewrite list_lookup_alter_ne. Qed.

Lemma linked_upd_other s l i f : i ∉ l → linked s l → linked (upd i f s) l.
Proof.
  intros Hi Hl k j Hk. apply waits_upd_ne; [|by apply Hl]. intros ->.
  apply Hi. by eapply list_elem_of_lookup_2.
Qed.

Lemma linked_frame s s' l :
  (∀ j next, waits s j next → waits s' j next) → linked s l → linked s' l.
Proof. intros Hw Hl k i Hk. by apply Hw, Hl. Qed.

Lemma linked_tail s i l : linked s (i :: l) → linked s l.
Proof. intros Hl k j Hk. exact (Hl (S k) j Hk). Qed.

Lemma queue_frame q s s' l :
  (∀ j next, waits s j next → waits s' j next) → queue_is q s l → queue_is q s' l.
Proof. intros Hw (Hh & Ht & Hnd & Hl). split_and!; [done..|]. by eapply linked_frame. Qed.

(** Taking the first task off a linked list. *)
Lemma linked_pop s i l :
  NoDup (i :: l) → linked s (i :: l) →
  let s' := task_set_ready (Some i) (task_wait_set_next (Some i) None s) in
  task_wait_next (Some i) s = l !! 0%nat ∧ linked s' l ∧
  (∃ t, tasks s' !! i = Some t ∧ state t = TASK_STATE_READY ∧ wait_next t = None) ∧
  (∀ j, j ≠ i → tasks s' !! j = tasks s !! j) ∧ length (tasks s') = length (tasks s).
Proof.
  intros [Hi _]%NoDup_cons Hl s'. destruct (Hl 0%nat i eq_refl) as (t & Ht & Hw & Hn).
  cbn [lookup list_lookup] in Hn. split_and!.
  - unfold task_wait_next. by rewrite Ht.
  - unfold s', task_set_ready, task_wait_set_next. apply linked_upd_other; [done|].
    apply linked_upd_other; [done|]. by eapply linked_tail.
  - eexists. split; [unfold s', task_set_ready, task_wait_set_next, upd; cbn;
      by rewrite !list_lookup_alter_eq, Ht|].
    cbn. rewrite decide_True by done. by split.
  - intros j Hj. unfold s', task_set_ready, task_wait_set_next, upd. cbn.
    by rewrite !list_lookup_alter_ne by done.
  - unfold s', task_set_ready, task_wait_set_next, upd. cbn. by rewrite !length_alter.
Qed.

Lemma linked_snoc s l i :
  linked s l → i ∉ l → (i < length (tasks s))%nat →
  let s1 := task_wait_set_next (last l) (Some i) (task_wait_set_next (Some i) None s) in
  NoDup l → linked (task_set_waiting (Some i) s1) (l ++ [i]).
Proof.
  intros Hl Hi Hlt s1 Hnd k j Hk.
  destruct (lookup_lt_is_Some_2 (tasks s) i Hlt) as [ti Hti].
  apply lookup_app_Some in Hk as [Hk|[Hge Hk]].
  - assert (Hji : j ≠ i) by (intros ->; apply Hi; by eapply list_elem_of_lookup_2).
    pose proof (lookup_lt_Some _ _ _ Hk) as Hkl. unfold task_set_waiting.
    apply waits_upd_ne; [done|]. destruct (decide (S k = length l)) as [Hlast|Hnl].
    + assert (Hlj : last l = Some j) by (rewrite last_lookup, <- Hlast; done).
      unfold s1. rewrite Hlj, lookup_app_r, Hlast, Nat.sub_diag by lia. cbn [lookup list_lookup].
      destruct (Hl k j Hk) as (t & Ht & Hw & _). exists (with_wait_next (Some i) t).
      unfold task_wait_set_next, upd. cbn. rewrite list_lookup_alter_eq, list_lookup_alter_ne, Ht by done.
      done.
    + rewrite lookup_app_l by lia. unfold s1, task_wait_set_next. destruct (last l) as [z|] eqn:Hz.
      * assert (z ≠ j).
        { intros ->. rewrite last_lookup in Hz.
          assert (k = pred (length l)) by (eapply NoDup_lookup; done). lia. }
        apply waits_upd_ne; [done|]. apply waits_upd_ne; [done|]. by apply Hl.
      * apply waits_upd_ne; [done|]. by apply Hl.
  - assert (k = length l) as ->.
    { apply lookup_lt_Some in Hk. cbn in Hk. lia. }
    rewrite Nat.sub_diag in Hk. injection Hk as <-.
    rewrite lookup_ge_None_2 by (rewrite length_app; cbn; lia).
    assert (Hz : last l ≠ Some i).
    { intros Hz. apply Hi. rewrite last_lookup in Hz. by eapply list_elem_of_lookup_2. }
    unfold waits, task_set_waiting, s1, task_wait_set_next, upd. cbn.
    rewrite list_lookup_alter_eq. destruct (last l) as [z|]; cbn.
    + rewrite list_lookup_alter_ne, list_lookup_alter_eq, Hti by congruence. by eexists.
    + rewrite list_lookup_alter_eq, Hti. by eexists.
Qed.

(** Registering the current task. *)
Lemma enqueue_spec q s l i :
  queue_is q s l → current_task s = Some i → i ∉ l → (i < length (tasks s))%nat →
  ∃ q' s', wait_queue_enqueue q s = Some (q', s') ∧ queue_is q' s' (l ++ [i]) ∧
    s' = task_set_waiting (Some i) (task_wait_set_next (last l) (Some i) (task_wait_set_next (Some i) None s)).
Proof.
  intros (Hh & Ht & Hnd & Hl) Hc Hi Hlt. unfold wait_queue_enqueue, task_current. rewrite Hc.
  assert (Hnd' : NoDup (l ++ [i])).
  { apply NoDup_app. split_and!; [done| |apply NoDup_singleton].
    by intros x Hx ->%list_elem_of_singleton. }
  pose proof (linked_snoc s l i Hl Hi Hlt Hnd) as Hsn.
  destruct l as [|z l]; rewrite Hh; cbn [lookup list_lookup].
  - do 2 eexists. split; [reflexivity|]. split; [|done]. split_and!; try done.
  - do 2 eexists. split; [reflexivity|]. rewrite Ht. split; [|done]. split_and!; try done.
    cbn [tail]. by rewrite last_snoc.
Qed.

Lemma enqueue_states s i z j :
  j ≠ i →
  state_at (task_set_waiting (Some i) (task_wait_set_next z (Some i) (task_wait_set_next (Some i) None s))) j
  = state_at s j.
Proof.
  intros Hj. unfold task_set_waiting, task_wait_set_next.
  destruct z; rewrite !state_at_upd; repeat case_decide; try done; subst; unfold upd, state_at; cbn;
    rewrite ?list_lookup_alter_ne by done; by destruct (tasks s !! _).
Qed.

Lemma state_at_waits s i : state_at s i = Some TASK_STATE_WAITING ↔ ∃ n, waits s i n.
Proof.
  unfold state_at, waits. destruct (tasks s !! i) as [t|]; cbn; split.
  - intros [= Ht]. by exists (wait_next t), t.
  - by intros (n & ? & [= <-] & -> & _).
  - done.
  - by intros (n & ? & ? & _).
Qed.

(** Waking the task that has waited longest. *)
Lemma wake_one_spec q s i l :
  queue_is q s (i :: l) →
  ∃ q' s', wait_queue_wake_one q s = (1, q', s') ∧ queue_is q' s' l ∧
    s' = task_set_ready (Some i) (task_wait_set_next (Some i) None s).
Proof.
  intros (Hh & Ht & Hnd & Hl). destruct (linked_pop s i l Hnd Hl) as (Hn & Hl' & _).
  unfold wait_queue_wake_one. rewrite Hh. cbn [lookup list_lookup]. rewrite Hn.
  do 2 eexists. split; [reflexivity|]. split; [|done]. apply NoDup_cons in Hnd as [_ Hnd].
  split_and!; [done| |done|done]. cbn [tail]. by destruct l.
Qed.

Lemma wake_one_empty q s : queue_is q s [] → wait_queue_wake_one q s = (0, q, s).
Proof. intros (Hh & _). unfold wait_queue_wake_one. by rewrite Hh. Qed.

Lemma wake_all_loop_spec l :
  ∀ fuel woke s, NoDup l → linked s l → (length l <= fuel)%nat →
  ∃ s', wake_all_loop fuel (l !! 0%nat) woke s =
          Some (if decide (l = []) then woke else u32 (woke + Zlength l), s') ∧
    (∀ i, i ∈ l → ∃ t, tasks s' !! i = Some t ∧ state t = TASK_STATE_READY ∧ wait_next t = None) ∧
    (∀ j, j ∉ l → tasks s' !! j = tasks s !! j).
Proof.
  induction l as [|i l IH]; intros fuel woke s Hnd Hl Hf.
  { exists s. destruct fuel; (split; [done|]; split; [|done]); intros i Hi; by apply not_elem_of_nil in Hi. }
  destruct fuel as [|fuel]; [cbn in Hf; lia|]. cbn [lookup list_lookup wake_all_loop].
  destruct (linked_pop s i l Hnd Hl) as (-> & Hl' & Hr & Ho & _).
  apply NoDup_cons in Hnd as [Hi Hnd]. cbn in Hf.
  destruct (IH fuel (u32 (woke + 1)) _ Hnd Hl' ltac:(lia)) as (s' & Heq & Hin & Hout).
  exists s'. rewrite Heq. split; [|split].
  - do 2 f_equal. destruct (decide (l = [])) as [->|]; [done|].
    unfold Zlength. cbn [length]. unfold u32. rewrite Z.add_mod_idemp_l by lia. f_equal. lia.
  - intros j [->|Hj]%elem_of_cons; [|by apply Hin]. by rewrite (Hout i Hi).
  - intros j [Hji Hjl]%not_elem_of_cons. rewrite (Hout j Hjl). by apply Ho.
Qed.

Lemma queue_length_le q s l : queue_is q s l → (length l <= length (tasks s))%nat.
Proof.
  intros Hq. pose proof Hq as (_ & _ & Hnd & _).
  rewrite <- (length_seq (length (tasks s)) 0).
  apply submseteq_length, NoDup_submseteq; [done|].
  intros i Hi%(queue_members_lt q s l); [|done]. apply elem_of_seq. lia.
Qed.

(** ** Properties *)

(** A wait queue is a FIFO of tasks. When the links represent the list [l]:
    registering the current task (which runs, so is not in the queue) appends it
    and marks it waiting; waking one takes the task that has waited longest,
    marks it ready and touches no other task, and returns 0 exactly on the empty
    queue; waking all ends, returns the number of waiting tasks modulo [2^32],
    marks each of them ready, touches no other task and leaves the queue empty. *)
Theorem wait_queue_is_fifo q s l :
  queue_is q s l →
  (∀ i, current_task s = Some i → state_at s i = Some TASK_STATE_RUNNING →
     ∃ q' s', wait_queue_enqueue q s = Some (q', s') ∧ queue_is q' s' (l ++ [i]) ∧
       state_at s' i = Some TASK_STATE_WAITING ∧ ∀ j, state_at s' j = state_at s j ∨ j = i) ∧
  match l with
  | [] => wait_queue_wake_one q s = (0, q, s)
  | i :: l' => ∃ q' s', wait_queue_wake_one q s = (1, q', s') ∧ queue_is q' s' l' ∧
      state_at s' i = Some TASK_STATE_READY ∧ ∀ j, j ≠ i → tasks s' !! j = tasks s !! j
  end ∧
  ∃ s', wait_queue_wake_all q s = Some (u32 (Zlength l), MkQueue None None, s') ∧
    queue_is (MkQueue None None) s' [] ∧
    ∀ j, if decide (j ∈ l) then state_at s' j = Some TASK_STATE_READY
         else tasks s' !! j = tasks s !! j.
Proof.
  intros Hq. pose proof Hq as (Hh & Ht & Hnd & Hl). split_and!.
  - intros i Hc Hr.
    assert (Hi : i ∉ l).
    { intros [k Hk]%list_elem_of_lookup. destruct (Hl k i Hk) as (t & Hti & Hw & _).
      unfold state_at in Hr. rewrite Hti in Hr. cbn in Hr. congruence. }
    assert (Hlt : (i < length (tasks s))%nat).
    { unfold state_at in Hr. destruct (tasks s !! i) eqn:He; [|done]. by eapply lookup_lt_Some. }
    destruct (enqueue_spec q s l i Hq Hc Hi Hlt) as (q' & s' & He & Hq' & Hs'). exists q', s'.
    split_and!; [done|done| |].
    + pose proof Hq' as (_ & _ & _ & Hl'). destruct (Hl' (length l) i) as (t & Hti & Hw & _).
      { by rewrite lookup_app_r, Nat.sub_diag. }
      unfold state_at. by rewrite Hti, <- Hw.
    + intros j. destruct (decide (j = i)) as [->|Hj]; [by right|]. left.
      subst s'. by apply enqueue_states.
  - destruct l as [|i l]; [by apply wake_one_empty|].
    destruct (wake_one_spec q s i l Hq) as (q' & s' & He & Hq' & ->).
    destruct (linked_pop s i l Hnd Hl) as (_ & _ & (t & Hti & Hr & _) & Ho & _).
    exists q'. eexists. split_and!; [exact He|done| |done]. unfold state_at. by rewrite Hti, <- Hr.
  - destruct (wake_all_loop_spec l (length (tasks s)) 0 s Hnd Hl (queue_length_le q s l Hq))
      as (s' & He & Hin & Hout).
    exists s'. unfold wait_queue_wake_all. rewrite Hh, He. cbn [mbind option_bind]. split; [|split].
    + do 3 f_equal. by destruct l.
    + split; [done|]. split; [done|]. split; [apply NoDup_nil_2|]. intros k i. by rewrite lookup_nil.
    + intros j. destruct (decide (j ∈ l)) as [Hj|Hj]; [|by apply Hout]. destruct (Hin j Hj) as (t & Htj & Hr & _).
      unfold state_at. by rewrite Htj, <- Hr.
Qed.

(** Task 0 waits, task 1 runs and registers behind it. *)
Lemma wait_queue_is_fifo_witness :
  let s := MkSched [with_state TASK_STATE_WAITING (sample_task 1);
                    with_state TASK_STATE_RUNNING (sample_task 2)] (Some 1%nat) None 3 2 0 in
  let q := MkQueue (Some 0%nat) (Some 0%nat) in
  queue_is q s [0%nat] ∧
  ∃ q' s', wait_queue_enqueue q s = Some (q', s') ∧ queue_is q' s' [0%nat; 1%nat].
Proof.
  intros s q. assert (Hq : queue_is q s [0%nat]).
  { split_and!; [reflexivity|reflexivity|apply NoDup_singleton|].
    intros [|k] i Hk; [|rewrite lookup_cons_ne_0, lookup_nil in Hk by lia; discriminate].
    injection Hk as <-. eexists. split_and!; reflexivity. }
  split; [exact Hq|].
  destruct (wait_queue_is_fifo q s [0%nat] Hq) as [He _].
  destruct (He 1%nat eq_refl eq_refl) as (q' & s' & H1 & H2 & _). exists q', s'. split; [exact H1|exact H2].
Defined.
