(* ===== verification/Tty.v ===== *)
(** * The terminal's input buffer ([src/kernel/tty.c])

    A ring of 256 keys between the keyboard interrupt, which pushes, and the
    tasks that read. A reader that finds the ring empty registers on the wait
    queue ([Wait]) before interrupts are enabled again; a push wakes one
    reader. Each stretch with interrupts off is one step. *)

From S2P Require Import Prelude CString Alloc Console Task Wait.

Definition TTY_BUFFER_SIZE : Z := 256.

Record tty := MkTty {
  tty_buffer : list Z;
  tty_head : Z;
  tty_tail : Z;
  tty_dropped : Z;
  tty_wait_queue : wait_queue
}.

Definition next_index (index : Z) : Z := u32 (index + 1) mod TTY_BUFFER_SIZE.

Definition tty_read_key_irq_disabled (t : tty) : option Z * tty :=
  if tty_tail t =? tty_head t then (None, t)
  else (Some (arr_get (tty_buffer t) (tty_tail t)),
        MkTty (tty_buffer t) (tty_head t) (next_index (tty_tail t)) (tty_dropped t) (tty_wait_queue t)).

(** The statics after [tty_init]; the buffer keeps what it held. *)
Definition tty_init (buffer : list Z) : tty := MkTty buffer 0 0 0 wait_queue_init.

Definition tty_push_key (key : Z) (t : tty) (s : sched) : Z * tty * sched :=
  let next := next_index (tty_head t) in
  if next =? tty_tail t then
    (0, MkTty (tty_buffer t) (tty_head t) (tty_tail t) (u32 (tty_dropped t + 1)) (tty_wait_queue t), s)
  else
    let buffer := arr_set (tty_buffer t) (tty_head t) key in
    let '(_, q, s) := wait_queue_wake_one (tty_wait_queue t) s in
    (1, MkTty buffer next (tty_tail t) (tty_dropped t) q, s).

Definition tty_push_char (c : Z) (t : tty) (s : sched) : Z * tty * sched := tty_push_key (u8 c) t s.

(** One round of the loop of [tty_read_key_blocking], up to where interrupts
    are enabled again: a key is returned, or the reader has registered and goes
    on to [task_block_switch], or (with no current task) the loop spins. *)
Inductive read_round := ReadKey (key : Z) | ReadBlocked | ReadSpin.

Definition tty_read_round (t : tty) (s : sched) : read_round * tty * sched :=
  match tty_read_key_irq_disabled t with
  | (Some key, t) => (ReadKey key, t, s)
  | (None, t) =>
      match wait_queue_enqueue (tty_wait_queue t) s with
      | Some (q, s) =>
          (ReadBlocked, MkTty (tty_buffer t) (tty_head t) (tty_tail t) (tty_dropped t) q, s)
      | None => (ReadSpin, t, s)
      end
  end.

Definition sizeof_tty_key : Z := 2.

(** [tty_vfs_read] once its blocking read has delivered [key]: the bytes stored
    and the count; too small a buffer reads nothing and consumes nothing. *)
Definition tty_vfs_read_wants (buffer size : Z) : bool :=
  negb (buffer =? 0) && negb (size <? sizeof_tty_key).

Definition tty_vfs_read_result (key : Z) : list Z * Z := ([u8 key; u8 (Z.shiftr key 8)], sizeof_tty_key).

(** [tty_vfs_write]: [text] are the [size] bytes at [buffer]. *)
Definition tty_vfs_write (buffer size : Z) (text : list Z) (c : console) : Z * console :=
  if (buffer =? 0) || (size =? 0) then (0, c)
  else (size, foldl (λ c x, console_put_char x c) c (take (Z.to_nat size) text)).

(** ** The ring as a list of keys *)

Definition tty_wf (t : tty) : Prop :=
  Zlength (tty_buffer t) = TTY_BUFFER_SIZE ∧
  0 <= tty_head t < TTY_BUFFER_SIZE ∧ 0 <= tty_tail t < TTY_BUFFER_SIZE.

Definition tty_count (t : tty) : nat := Z.to_nat ((tty_head t - tty_tail t) mod TTY_BUFFER_SIZE).

Definition tty_keys (t : tty) : list Z := ring_read (tty_buffer t) (tty_tail t) (tty_count t).

(** ** Lemmas *)

Lemma next_index_range i : 0 <= next_index i < 256.
Proof. unfold next_index, TTY_BUFFER_SIZE. apply Z.mod_pos_bound. lia. Qed.

Lemma tty_next_index_mod i : 0 <= i < 256 → next_index i = (i + 1) mod 256.
Proof. intros. unfold next_index, TTY_BUFFER_SIZE. rewrite u32_small; [done|]. unfold is_u32. lia. Qed.

Lemma tty_keys_length t : length (tty_keys t) = tty_count t.
Proof. apply ring_read_length. Qed.

Lemma tty_count_lt t : (tty_count t < 256)%nat.
Proof.
  unfold tty_count, TTY_BUFFER_SIZE.
  pose proof (Z.mod_pos_bound (tty_head t - tty_tail t) 256 ltac:(lia)). lia.
Qed.

Lemma tty_empty t : tty_wf t → (tty_tail t =? tty_head t) = bool_decide (tty_keys t = []).
Proof.
  intros (_ & Hh & Ht). unfold TTY_BUFFER_SIZE in *. apply eq_true_iff_eq.
  rewrite bool_decide_eq_true, Z.eqb_eq, <- length_zero_iff_nil, tty_keys_length.
  unfold tty_count, TTY_BUFFER_SIZE. zlia.
Qed.

Lemma tty_full t : tty_wf t → (next_index (tty_head t) =? tty_tail t) = (length (tty_keys t) =? 255)%nat.
Proof.
  intros (_ & Hh & Ht). unfold TTY_BUFFER_SIZE in *. apply eq_true_iff_eq.
  rewrite Z.eqb_eq, Nat.eqb_eq, tty_keys_length, tty_next_index_mod by done.
  unfold tty_count, TTY_BUFFER_SIZE. zlia.
Qed.

(** Reading takes the oldest key. *)
Lemma tty_read_spec t :
  tty_wf t →
  let '(r, t') := tty_read_key_irq_disabled t in
  tty_wf t' ∧ tty_dropped t' = tty_dropped t ∧ tty_wait_queue t' = tty_wait_queue t ∧
  match tty_keys t with
  | [] => r = None ∧ t' = t
  | k :: ks => r = Some k ∧ tty_keys t' = ks
  end.
Proof.
  intros Hwf. unfold tty_read_key_irq_disabled. rewrite (tty_empty t Hwf).
  case_bool_decide as He; [by rewrite He|]. pose proof Hwf as (Hl & Hh & Ht).
  unfold TTY_BUFFER_SIZE in *. split; [split; [done|]; split; [done|apply next_index_range]|].
  split; [done|]. split; [done|].
  destruct (tty_keys t) as [|k ks] eqn:Hk; [done|]. unfold tty_keys in *.
  destruct (tty_count t) as [|n] eqn:Hn; [done|].
  rewrite ring_read_pop in Hk by (rewrite Hl; done). injection Hk as <- <-. split; [done|].
  cbn. rewrite Hl, tty_next_index_mod by done. f_equal.
  unfold tty_count, TTY_BUFFER_SIZE in *. cbn. zlia.
Qed.

(** Pushing appends the key, unless 255 are waiting. *)
Lemma tty_push_spec key t s :
  tty_wf t →
  let '(r, t', s') := tty_push_key key t s in
  tty_wf t' ∧
  if (length (tty_keys t) =? 255)%nat
  then r = 0 ∧ tty_keys t' = tty_keys t ∧ tty_dropped t' = u32 (tty_dropped t + 1) ∧
       tty_wait_queue t' = tty_wait_queue t ∧ s' = s
  else r = 1 ∧ tty_keys t' = tty_keys t ++ [key] ∧ tty_dropped t' = tty_dropped t ∧
       ∃ n, wait_queue_wake_one (tty_wait_queue t) s = (n, tty_wait_queue t', s').
Proof.
  intros Hwf. unfold tty_push_key. rewrite (tty_full t Hwf). pose proof Hwf as (Hl & Hh & Ht).
  destruct (Nat.eqb_spec (length (tty_keys t)) 255) as [Hf|Hf]; [done|].
  destruct (wait_queue_wake_one (tty_wait_queue t) s) as [[w q] s'].
  unfold TTY_BUFFER_SIZE in *.
  assert (Hl' : Zlength (arr_set (tty_buffer t) (tty_head t) key) = 256).
  { unfold Zlength in *. by rewrite arr_set_length. }
  pose proof (next_index_range (tty_head t)) as Hn.
  split; [split; [done|]; split; done|]. split; [done|]. split; [|split; [done|by exists w]].
  rewrite tty_keys_length in Hf. unfold tty_keys. cbn [tty_buffer tty_tail].
  assert (Hc : tty_count (MkTty (arr_set (tty_buffer t) (tty_head t) key) (next_index (tty_head t))
                 (tty_tail t) (tty_dropped t) q) = S (tty_count t)).
  { unfold tty_count, TTY_BUFFER_SIZE in *. cbn. rewrite tty_next_index_mod by done. zlia. }
  rewrite Hc. replace (tty_head t) with (ring_idx (tty_buffer t) (tty_tail t) (tty_count t)).
  - apply ring_read_push. pose proof (tty_count_lt t). unfold Zlength in *. lia.
  - unfold ring_idx, tty_count, TTY_BUFFER_SIZE. rewrite Hl. zlia.
Qed.

(** ** Readers and the keyboard interrupt together *)

(** The tasks a push has woken and that have not yet looked at the ring again
    are recorded beside the state of the code. *)
Record tty_sys := MkSys { term : tty; sch : sched; ctx : context; woken : list nat }.

Inductive tty_step `{Allocator H} : tty_sys → tty_sys → Prop :=
  (** the interrupt handler pushes a key, whatever runs *)
  | tty_push key t s c w r t' s' :
      tty_push_key key t s = (r, t', s') →
      tty_step (MkSys t s c w)
        (MkSys t' s' c (if r =? 0 then w else match head (tty_wait_queue t) with
                                              | Some i => i :: w | None => w end))
  (** the current task goes once around the loop of [tty_read_key_blocking] *)
  | tty_got i t s w key t' s' :
      current_task s = Some i → tty_read_round t s = (ReadKey key, t', s') →
      tty_step (MkSys t s InTask w) (MkSys t' s' InTask (filter (λ j, j ≠ i) w))
  | tty_blocks i t s w t' s' :
      current_task s = Some i → tty_read_round t s = (ReadBlocked, t', s') →
      tty_step (MkSys t s InTask w) (MkSys t' s' InTaskWaiting (filter (λ j, j ≠ i) w))
  (** the scheduler, and tasks that do not read *)
  | tty_other t s c w s' c' :
      core_step (s, c) (s', c') → tty_step (MkSys t s c w) (MkSys t s' c' w).

(** While somebody still sleeps, there is a woken reader for every key. *)
Definition tty_inv (x : tty_sys) : Prop :=
  tty_wf (term x) ∧ sched_inv (sch x, ctx x) ∧
  ∃ l, queue_is (tty_wait_queue (term x)) (sch x) l ∧
    (l ≠ [] → (length (tty_keys (term x)) <= length (woken x))%nat) ∧
    NoDup (woken x) ∧ ∀ i, i ∈ woken x → state_at (sch x) i ≠ Some TASK_STATE_WAITING.

Lemma length_filter_ne (i : nat) w : NoDup w → (length w <= S (length (filter (λ j, j ≠ i) w)))%nat.
Proof.
  induction w as [|x w IH]; intros Hnd; [cbn; lia|]. apply NoDup_cons in Hnd as [Hx Hnd].
  rewrite filter_cons. case_decide as Hxi; cbn.
  - specialize (IH Hnd). lia.
  - rewrite filter_all; [lia|]. intros y Hy ->. by subst x.
Qed.

Lemma wake_sched_inv `{Allocator H} i s c :
  sched_inv (s, c) → sched_inv (task_set_ready (Some i) (task_wait_set_next (Some i) None s), c).
Proof.
  intros Hs. eapply (sched_step_inv (task_wait_set_next (Some i) None s, c)); [apply step_wake|].
  eapply (sched_step_inv (s, c)); [apply step_link|done].
Qed.

Lemma enqueue_sched_inv `{Allocator H} i z s :
  current_task s = Some i → sched_inv (s, InTask) →
  sched_inv (task_set_waiting (Some i)
    (task_wait_set_next z (Some i) (task_wait_set_next (Some i) None s)), InTaskWaiting).
Proof.
  intros Hc Hs. set (s1 := task_wait_set_next z (Some i) (task_wait_set_next (Some i) None s)).
  assert (Hc1 : task_current s1 = Some i) by (unfold s1; by destruct z).
  rewrite <- Hc1. eapply (sched_step_inv (s1, InTask)); [apply step_wait|].
  eapply (sched_step_inv (task_wait_set_next (Some i) None s, InTask)); [apply step_link|].
  eapply (sched_step_inv (s, InTask)); [apply step_link|done].
Qed.

Lemma tty_push_inv `{Allocator H} key t s c w r t' s' :
  tty_push_key key t s = (r, t', s') → tty_inv (MkSys t s c w) →
  tty_inv (MkSys t' s' c (if r =? 0 then w else match head (tty_wait_queue t) with
                                                | Some i => i :: w | None => w end)).
Proof.
  intros Hp (Hwf & Hs & l & Hq & Hk & Hnd & Hw). cbn in *.
  pose proof (tty_push_spec key t s Hwf) as Hspec. rewrite Hp in Hspec. destruct Hspec as [Hwf' Hspec].
  split; [done|]. cbn. destruct (Nat.eqb (length (tty_keys t)) 255).
  { destruct Hspec as (-> & Hks & _ & Hqq & ->). split; [done|]. exists l. rewrite Hqq, Hks. done. }
  destruct Hspec as (-> & Hks & _ & n & Hwake). cbn [Z.eqb].
  destruct l as [|i l].
  - rewrite (wake_one_empty _ _ Hq) in Hwake. injection Hwake as <- <- <-.
    rewrite (proj1 Hq). split; [done|]. by exists [].
  - destruct (wake_one_spec _ _ _ _ Hq) as (q' & s1 & Hwake' & Hq' & Hs1).
    rewrite Hwake' in Hwake. injection Hwake as <- <- <-.
    pose proof Hq as (Hh & _ & Hndq & Hl). rewrite Hh. cbn [lookup list_lookup].
    destruct (linked_pop s i l Hndq Hl) as (_ & _ & (u & Hu & Hur & _) & Ho & _). rewrite <- Hs1 in Hu, Ho.
    split; [rewrite Hs1; by apply wake_sched_inv|].
    exists l. split; [done|]. split; [|split].
    + intros _. rewrite Hks, length_app. specialize (Hk ltac:(done)). cbn. lia.
    + apply NoDup_cons. split; [|done]. intros Hiw. apply (Hw i Hiw), state_at_waits.
      eexists. exact (Hl 0%nat i eq_refl).
    + intros j [->|Hj]%elem_of_cons; unfold state_at.
      * rewrite Hu. cbn. by rewrite Hur.
      * destruct (decide (j = i)) as [->|Hji]; [rewrite Hu; cbn; by rewrite Hur|].
        rewrite (Ho j Hji). by apply Hw.
Qed.

Lemma tty_got_inv i t s w key t' s' :
  tty_read_round t s = (ReadKey key, t', s') → tty_inv (MkSys t s InTask w) →
  tty_inv (MkSys t' s' InTask (filter (λ j, j ≠ i) w)).
Proof.
  intros Hr (Hwf & Hs & l & Hq & Hk & Hnd & Hw). cbn in *. unfold tty_read_round in Hr.
  pose proof (tty_read_spec t Hwf) as Hspec.
  destruct (tty_read_key_irq_disabled t) as [[k|] t1]; [|by destruct (wait_queue_enqueue _ _) as [[? ?]|]].
  injection Hr as <- <- <-. destruct Hspec as (Hwf' & _ & Hqq & Hks).
  destruct (tty_keys t) as [|k' ks] eqn:Ht; [by destruct Hks|]. destruct Hks as [_ Hks].
  split; [done|]. split; [done|]. exists l. cbn. rewrite Hqq, Hks. split; [done|]. split; [|split].
  - intros Hl. specialize (Hk Hl). cbn in Hk. pose proof (length_filter_ne i w Hnd). lia.
  - by apply NoDup_filter.
  - intros j [_ Hj]%list_elem_of_filter. by apply Hw.
Qed.

Lemma tty_blocks_inv `{Allocator H} i t s w t' s' :
  current_task s = Some i → tty_read_round t s = (ReadBlocked, t', s') → tty_inv (MkSys t s InTask w) →
  tty_inv (MkSys t' s' InTaskWaiting (filter (λ j, j ≠ i) w)).
Proof.
  intros Hc Hr (Hwf & Hs & l & Hq & Hk & Hnd & Hw). cbn in *. unfold tty_read_round in Hr.
  pose proof (tty_read_spec t Hwf) as Hspec.
  destruct (tty_read_key_irq_disabled t) as [[k|] t1]; [done|]. destruct Hspec as (_ & _ & _ & Hks).
  destruct (tty_keys t) as [|k' ks] eqn:Ht; [|by destruct Hks]. destruct Hks as [_ ->].
  pose proof Hs as [(k & Hk1 & Hrun & _) _]. rewrite Hc in Hk1. injection Hk1 as <-.
  assert (Hi : i ∉ l).
  { intros [k Hk1]%list_elem_of_lookup. destruct Hq as (_ & _ & _ & Hl).
    assert (Hx : state_at s i = Some TASK_STATE_WAITING) by (apply state_at_waits; eauto). congruence. }
  assert (Hlt : (i < length (tasks s))%nat).
  { unfold state_at in Hrun. destruct (tasks s !! i) eqn:He; [|done]. by eapply lookup_lt_Some. }
  destruct (enqueue_spec _ s l i Hq Hc Hi Hlt) as (q' & s1 & He & Hq' & Hs1). rewrite He in Hr.
  injection Hr as <- <-. split; [done|]. split; [cbn; rewrite Hs1; by apply enqueue_sched_inv|].
  exists (l ++ [i]). cbn. split; [done|]. split; [|split].
  - intros _. change (length (tty_keys t) <= length (filter (λ j, j ≠ i) w))%nat. rewrite Ht. cbn. lia.
  - by apply NoDup_filter.
  - intros j [Hji Hj]%list_elem_of_filter. rewrite Hs1, enqueue_states by done. by apply Hw.
Qed.

Lemma tty_step_inv `{Allocator H} x y : tty_step x y → tty_inv x → tty_inv y.
Proof.
  intros Hstep. destruct Hstep as [key t s c w r t' s' Hp|i t s w key t' s' _ Hr|i t s w t' s' Hc Hr
    |t s c w s' c' Hst].
  - intros Hi. by eapply tty_push_inv.
  - intros Hi. by eapply tty_got_inv.
  - intros Hi. by eapply tty_blocks_inv.
  - intros (Hwf & Hs & l & Hq & Hk & Hnd & Hw). cbn in *. split; [done|].
    split; [by eapply core_step_inv|]. exists l. cbn.
    assert (Hwt : ∀ j n, waits s' j n ↔ waits s j n) by (intros; by eapply core_step_waits).
    split; [eapply queue_frame; [|done]; intros j n; apply Hwt|]. split; [done|]. split; [done|].
    intros j Hj Hx. apply (Hw j Hj), state_at_waits. apply state_at_waits in Hx as [n Hn].
    exists n. by apply Hwt.
Qed.

(** ** Properties *)

(** The input ring is a FIFO of at most 255 keys. A push appends the key and
    returns 1, or, with 255 keys waiting, leaves them alone, counts a drop and
    returns 0; a read takes the oldest key, or finds the ring empty and changes
    nothing. The indices stay in the buffer. *)
Theorem tty_ring_is_fifo key t s :
  tty_wf t →
  (let '(r, t', _) := tty_push_key key t s in
   tty_wf t' ∧ (length (tty_keys t') <= 255)%nat ∧
   if (length (tty_keys t) =? 255)%nat
   then r = 0 ∧ tty_keys t' = tty_keys t ∧ tty_dropped t' = u32 (tty_dropped t + 1)
   else r = 1 ∧ tty_keys t' = tty_keys t ++ [key] ∧ tty_dropped t' = tty_dropped t) ∧
  (let '(r, t') := tty_read_key_irq_disabled t in
   tty_wf t' ∧
   match tty_keys t with
   | [] => r = None ∧ t' = t
   | k :: ks => r = Some k ∧ tty_keys t' = ks
   end).
Proof.
  intros Hwf. pose proof (tty_push_spec key t s Hwf) as Hp. pose proof (tty_read_spec t Hwf) as Hr.
  split.
  - destruct (tty_push_key key t s) as [[r t'] s']. destruct Hp as [Hwf' Hp]. split; [done|].
    split; [rewrite tty_keys_length; pose proof (tty_count_lt t'); lia|].
    case_if; destruct Hp as (? & ? & ? & _); done.
  - destruct (tty_read_key_irq_disabled t) as [r t']. by destruct Hr as (? & _ & _ & ?).
Qed.

Lemma tty_init_wf buffer : Zlength buffer = 256 → tty_wf (tty_init buffer).
Proof. intros Hl. split; [done|]. unfold TTY_BUFFER_SIZE. cbn. lia. Qed.

Lemma tty_ring_is_fifo_witness :
  let t := tty_init (replicate 256 0) in
  (tty_push_key 65 t task_init).1.1 = 1 ∧
  tty_keys (tty_push_key 65 t task_init).1.2 = [65] ∧
  tty_read_key_irq_disabled t = (None, t).
Proof.
  intros t. assert (Hwf : tty_wf t) by (apply tty_init_wf; reflexivity).
  destruct (tty_ring_is_fifo 65 t task_init Hwf) as [Hp _].
  destruct (tty_push_key 65 t task_init) as [[r t'] s']. destruct Hp as (_ & _ & Hr & Hk & _).
  split; [exact Hr|]. split; [exact Hk|reflexivity].
Defined.

(** C5: no lost wake-up. Over every interleaving of key presses, readers and
    scheduling: whenever a reader sleeps on the terminal, at least as many woken
    readers as there are buffered keys have left the wait queue and have not yet
    looked at the ring again. So no key waits while everybody who could read it
    sleeps. The queue of sleepers stays a well-formed list throughout. *)
Theorem tty_no_lost_wakeup `{Allocator H} buffer x :
  Zlength buffer = 256 →
  rtc tty_step (MkSys (tty_init buffer) task_init InSched []) x →
  ∃ l, queue_is (tty_wait_queue (term x)) (sch x) l ∧
    (l ≠ [] → (length (tty_keys (term x)) <= length (woken x))%nat) ∧
    NoDup (woken x) ∧
    ∀ i, i ∈ woken x → i ∉ l ∧ state_at (sch x) i ≠ Some TASK_STATE_WAITING.
Proof.
  intros Hb Hr. assert (Hinv : tty_inv x).
  { assert (Hi : tty_inv (MkSys (tty_init buffer) task_init InSched [])).
    { split; [by apply tty_init_wf|]. split; [split; [split; [done|by intros i]|by split]|].
      exists []. cbn. split; [split; [done|]; split; [done|]; split; [apply NoDup_nil_2|]; intros k i; by rewrite lookup_nil|].
      split; [done|]. split; [apply NoDup_nil_2|]. intros i Hi. by apply not_elem_of_nil in Hi. }
    revert Hi. induction Hr as [|x y z Hxy _ IH]; [done|]. intros Hx. by eapply IH, tty_step_inv. }
  destruct Hinv as (_ & _ & l & Hq & Hk & Hnd & Hw). exists l. split_and!; [done..|].
  intros i Hi. split; [|by apply Hw]. intros [k Hk']%list_elem_of_lookup.
  apply (Hw i Hi), state_at_waits. destruct Hq as (_ & _ & _ & Hl). eexists. by apply Hl.
Qed.

(** A task is created, runs, finds no key and blocks; a key wakes it. *)
Lemma tty_no_lost_wakeup_witness :
  let t := tty_init (replicate 256 0) in
  let s1 := (task_create (Some (s2z "a")) 5 0 task_init (MkArena 16 100000 [])).1.1.2 in
  let s2 := (task_run_once_enter 0 7 s1).2 in
  let '(_, t3, s3) := tty_read_round t s2 in
  let '(_, t4, s4) := tty_push_key 65 t3 s3 in
  rtc (@tty_step arena _) (MkSys t task_init InSched []) (MkSys t4 s4 InTaskWaiting [0%nat]) ∧
  ∃ l, queue_is (tty_wait_queue t4) s4 l.
Proof.
  intros t s1 s2. destruct (tty_read_round t s2) as [[r3 t3] s3] eqn:H3.
  destruct (tty_push_key 65 t3 s3) as [[r4 t4] s4] eqn:H4.
  assert (Hr : rtc (@tty_step arena _) (MkSys t task_init InSched []) (MkSys t4 s4 InTaskWaiting [0%nat])).
  { eapply (rtc_l _ _ (MkSys t s1 InSched [])).
    { apply tty_other.
      eapply (step_create (Some (s2z "a")) 5 0 task_init (MkArena 16 100000 [])). reflexivity. }
    eapply (rtc_l _ _ (MkSys t s2 InTask [])); [apply tty_other; eapply (step_enter 0 7); reflexivity|].
    assert (E3 : tty_read_round t s2 = (ReadBlocked, t3, s3)) by (rewrite H3; injection H3 as <- _ _; reflexivity).
    eapply (rtc_l _ _ (MkSys t3 s3 InTaskWaiting [])); [exact (tty_blocks 0%nat t s2 [] t3 s3 eq_refl E3)|].
    assert (Hw : tty_wait_queue t3 = MkQueue (Some 0%nat) (Some 0%nat)) by (injection H3 as _ <- _; reflexivity).
    pose proof (tty_push 65 t3 s3 InTaskWaiting [] r4 t4 s4 H4) as Hp. rewrite Hw in Hp.
    assert (Hr4 : r4 = 1) by (injection H3 as _ <- <-; injection H4 as <- _ _; reflexivity).
    rewrite Hr4 in Hp. exact (rtc_once _ _ Hp). }
  split; [exact Hr|].
  destruct (tty_no_lost_wakeup (replicate 256 0) _ eq_refl Hr) as (l & Hl & _). exists l. exact Hl.
Defined.
