(* ===== verification/Vfs.v ===== *)
(** * The file tree ([src/kernel/vfs.c], [src/include/vfs.h])

    Nodes are allocated once and never freed: a [vfs_node_t*] is a position in
    the list of all nodes, in the order of their creation. The children of a
    directory are linked by [first_child] and [next_sibling]. The bytes of the
    buffer [data] points to are kept beside the pointer. [vfs_read] and
    [vfs_write] call through the node's function pointers and are in [Ramfs]. *)

From S2P Require Import Prelude CString Print.

Inductive vfs_node_type := VFS_NODE_UNKNOWN | VFS_NODE_FILE | VFS_NODE_DIR | VFS_NODE_DEVICE.

#[global] Instance vfs_node_type_eq_dec : EqDecision vfs_node_type.
Proof. solve_decision. Defined.

(** The functions that are ever stored in a node's [read] and [write]: the
    pairs [ramfs_read]/[ramfs_write] and [tty_vfs_read]/[tty_vfs_write]. *)
Inductive vfs_fn := FN_RAMFS | FN_TTY.

#[global] Instance vfs_fn_eq_dec : EqDecision vfs_fn.
Proof. solve_decision. Defined.

Definition VFS_NAME_MAX : Z := 32.
Definition VFS_CMD_PATH_MAX : Z := 128.

Record vfs_node := MkNode {
  vn_id : Z;
  vn_name : cstr;
  vn_type : vfs_node_type;
  vn_parent : option nat;
  vn_first_child : option nat;
  vn_next_sibling : option nat;
  vn_data : Z;
  vn_bytes : list Z;
  vn_size : Z;
  vn_capacity : Z;
  vn_read : option vfs_fn;
  vn_write : option vfs_fn
}.

(** The nodes, and the two statics named [root_node]: [vfs.c]'s and [ramfs.c]'s. *)
Record fs := MkFs {
  nodes : list vfs_node;
  vfs_root_node : option nat;
  ramfs_root_node : option nat;
  next_node_id : Z
}.

(** Reading a field through a pointer. *)
Definition node_field {A} (f : vfs_node → A) (d : A) (s : fs) (i : nat) : A :=
  match nodes s !! i with Some n => f n | None => d end.

Definition name_of := node_field vn_name [].
Definition type_of := node_field vn_type VFS_NODE_UNKNOWN.
Definition parent_of := node_field vn_parent None.
Definition first_of := node_field vn_first_child None.
Definition next_of := node_field vn_next_sibling None.
Definition size_of := node_field vn_size 0.

Definition str_equal (a b : cstr) : bool := c_streq a b.
Definition is_space (c : Z) : bool := c_is_space c.
Definition copy_first_arg (args : option cstr) (out_size : Z) : bool * cstr := c_copy_first_arg args out_size.
Definition path_is_separator (c : Z) : bool := c =? CH_SLASH.

Definition vfs_init (root : option nat) (s : fs) : fs * output :=
  (MkFs (nodes s) root (ramfs_root_node s) (next_node_id s),
   color_line "VFS initialized" COLOR_GREEN_ON_BLACK).

Definition vfs_root (s : fs) : option nat := vfs_root_node s.

(** The loop over the siblings; the fuel is the number of nodes. *)
Fixpoint find_sibling (fuel : nat) (s : fs) (current : option nat) (name : cstr) : option nat :=
  match fuel, current with
  | S fuel', Some i =>
      if str_equal (name_of s i) name then Some i else find_sibling fuel' s (next_of s i) name
  | _, _ => None
  end.

Definition vfs_find_child (s : fs) (dir : option nat) (name : cstr) : option nat :=
  match dir with
  | None => None
  | Some d =>
      if decide (type_of s d ≠ VFS_NODE_DIR) then None
      else find_sibling (length (nodes s)) s (first_of s d) name
  end.

(** The loop that copies one component; [None] is the [return 0] of a component
    that does not fit. *)
Fixpoint take_component (path : cstr) (component_len : Z) : option (cstr * cstr) :=
  match path with
  | [] => Some ([], [])
  | c :: r =>
      if path_is_separator c then Some ([], path)
      else if VFS_NAME_MAX <=? component_len + 1 then None
      else '(comp, rest) ← take_component r (component_len + 1); Some (c :: comp, rest)
  end.

(** One round per component: the length of the path is enough fuel. *)
Fixpoint lookup_loop (fuel : nat) (s : fs) (path : cstr) (current : nat) : option nat :=
  match path with
  | [] => Some current
  | _ =>
      match fuel with
      | O => None
      | S fuel' =>
          match c_skip path_is_separator path with
          | [] => Some current
          | p =>
              '(component, rest) ← take_component p 0;
              next ← vfs_find_child s (Some current) component;
              lookup_loop fuel' s rest next
          end
      end
  end.

Definition vfs_lookup (s : fs) (path : cstr) : option nat :=
  match vfs_root_node s with
  | None => None
  | Some root =>
      match path with
      | c :: _ => if negb (c =? CH_SLASH) then None else lookup_loop (length path) s path root
      | [] => None
      end
  end.

(** The fuel bounds the depth of the recursion and the number of siblings. *)
Fixpoint count_nodes_recursive (fuel : nat) (s : fs) (node : option nat) : Z :=
  match fuel, node with
  | S fuel', Some i =>
      u32 (1 + (fix siblings (k : nat) (child : option nat) : Z :=
                  match k, child with
                  | S k', Some c => u32 (count_nodes_recursive fuel' s (Some c) + siblings k' (next_of s c))
                  | _, _ => 0
                  end) (length (nodes s)) (first_of s i))
  | _, _ => 0
  end.

Definition vfs_count_nodes (s : fs) : Z :=
  count_nodes_recursive (length (nodes s)) s (vfs_root_node s).

Definition file_size_text (s : fs) (i : nat) : output :=
  prints "  " ++ print_dec64 (size_of s i) ++ prints " bytes".

Definition list_child (s : fs) (i : nat) : output :=
  (match type_of s i with
   | VFS_NODE_DIR => prints "d "
   | VFS_NODE_FILE => prints "f "
   | VFS_NODE_DEVICE => prints "c "
   | VFS_NODE_UNKNOWN => prints "? "
   end) ++ print (name_of s i) ++
  (if decide (type_of s i = VFS_NODE_FILE) then file_size_text s i else []) ++ newline.

Fixpoint list_siblings (fuel : nat) (s : fs) (child : option nat) : output :=
  match fuel, child with
  | S fuel', Some i => list_child s i ++ list_siblings fuel' s (next_of s i)
  | _, _ => []
  end.

Definition vfs_list_dir (s : fs) (dir : option nat) : output :=
  match dir with
  | None => color_line "ls: null node" COLOR_RED_ON_BLACK
  | Some d =>
      if decide (type_of s d ≠ VFS_NODE_DIR) then color_line "ls: not a directory" COLOR_RED_ON_BLACK
      else list_siblings (length (nodes s)) s (first_of s d)
  end.

Definition vfs_node_type_name (t : vfs_node_type) : cstr :=
  match t with
  | VFS_NODE_FILE => s2z "file"
  | VFS_NODE_DIR => s2z "dir"
  | VFS_NODE_DEVICE => s2z "device"
  | VFS_NODE_UNKNOWN => s2z "unknown"
  end.

Definition cmd_ls (args : option cstr) (s : fs) : output :=
  let '(found, path) := copy_first_arg args VFS_CMD_PATH_MAX in
  let path := if found then path else [CH_SLASH] in
  match vfs_lookup s path with
  | None => prints "ls: not found: " ++ print path ++ newline
  | Some i =>
      if decide (type_of s i = VFS_NODE_DIR) then vfs_list_dir s (Some i)
      else print (name_of s i) ++ prints "  " ++ print (vfs_node_type_name (type_of s i)) ++
           (if decide (type_of s i = VFS_NODE_FILE) then file_size_text s i else []) ++ newline
  end.

(** ** The tree *)

(** The children of [d], in the order of their creation. *)
Definition kids (s : fs) (d : nat) : list nat :=
  filter (λ j, parent_of s j = Some d) (seq 0 (length (nodes s))).

(** [chain s p l]: following [next_sibling] from [p] visits exactly [l]. *)
Fixpoint chain (s : fs) (p : option nat) (l : list nat) : Prop :=
  match l with
  | [] => p = None
  | i :: r => p = Some i ∧ chain s (next_of s i) r
  end.

(** A well-formed tree: parents are older than their children, the sibling
    links of each node list exactly its children, and names fit their buffer. *)
Record fs_ok (s : fs) : Prop := {
  ok_parent : ∀ i d, parent_of s i = Some d → (d < i)%nat;
  ok_chain : ∀ d, (d < length (nodes s))%nat → chain s (first_of s d) (kids s d);
  ok_names : ∀ i, Zlength (name_of s i) < VFS_NAME_MAX;
  ok_roots : ∀ r, vfs_root_node s = Some r ∨ ramfs_root_node s = Some r →
    (r < length (nodes s))%nat ∧ parent_of s r = None ∧ type_of s r = VFS_NODE_DIR
}.

(** ** The reference for lookups: split at the separators and walk *)

Fixpoint split_path (cur path : cstr) : list cstr :=
  match path with
  | [] => if decide (cur = []) then [] else [cur]
  | c :: r =>
      if c =? CH_SLASH then (if decide (cur = []) then [] else [cur]) ++ split_path [] r
      else split_path (cur ++ [c]) r
  end.

(** The oldest child of the directory [d] with this name. *)
Definition child_named (s : fs) (d : nat) (name : cstr) : option nat :=
  if decide (type_of s d = VFS_NODE_DIR)
  then find (λ j, bool_decide (name_of s j = name)) (kids s d) else None.

Fixpoint resolve (s : fs) (d : nat) (comps : list cstr) : option nat :=
  match comps with
  | [] => Some d
  | c :: r => next ← child_named s d c; resolve s next r
  end.

(** ** Lemmas *)

Lemma kids_lt s d j : j ∈ kids s d → (j < length (nodes s))%nat ∧ parent_of s j = Some d.
Proof. intros [Hp [_ Hj]%elem_of_seq]%list_elem_of_filter. split; [lia|done]. Qed.

Lemma kids_length s d : (length (kids s d) <= length (nodes s))%nat.
Proof. unfold kids. etrans; [apply length_filter|]. by rewrite length_seq. Qed.

Lemma find_sibling_chain l :
  ∀ fuel s p name, chain s p l → (length l <= fuel)%nat →
  find_sibling fuel s p name = find (λ j, bool_decide (name_of s j = name)) l.
Proof.
  induction l as [|i l IH]; intros fuel s p name Hc Hf; cbn in Hc.
  - subst p. by destruct fuel.
  - destruct Hc as [-> Hc]. destruct fuel as [|fuel]; [cbn in Hf; lia|]. cbn.
    unfold str_equal. rewrite c_streq_decide. case_if; [done|]. apply IH; [done|cbn in Hf; lia].
Qed.

Lemma find_child_ref s d name :
  fs_ok s → (d < length (nodes s))%nat → vfs_find_child s (Some d) name = child_named s d name.
Proof.
  intros Hok Hd. unfold vfs_find_child, child_named. do 2 case_decide; try done.
  apply find_sibling_chain; [by apply ok_chain|apply kids_length].
Qed.

Lemma child_named_in s d name j :
  child_named s d name = Some j → j ∈ kids s d ∧ name_of s j = name ∧ (j < length (nodes s))%nat.
Proof.
  unfold child_named. case_decide; [|done]. intros [Hj Hn]%find_some.
  apply list_elem_of_In in Hj. apply bool_decide_eq_true in Hn.
  pose proof (kids_lt _ _ _ Hj). tauto.
Qed.

(** The first component of a path and what follows it. *)
Fixpoint word (p : cstr) : cstr * cstr :=
  match p with
  | [] => ([], [])
  | c :: r => if path_is_separator c then ([], p) else let '(w, rest) := word r in (c :: w, rest)
  end.

Lemma take_component_word p n :
  0 <= n <= 31 →
  take_component p n = if n + Zlength (word p).1 <=? 31 then Some (word p) else None.
Proof.
  revert n. induction p as [|c p IH]; intros n Hn; cbn [take_component word].
  { unfold Zlength. cbn. rewrite (proj2 (Z.leb_le _ _)) by lia. done. }
  destruct (path_is_separator c).
  { unfold Zlength. cbn. rewrite (proj2 (Z.leb_le _ _)) by lia. done. }
  destruct (word p) as [w rest] eqn:Hw. unfold VFS_NAME_MAX, Zlength in *. cbn [fst length].
  destruct (Z.leb_spec 32 (n + 1)).
  { rewrite (proj2 (Z.leb_gt _ _)) by lia. done. }
  rewrite IH by lia. cbn [fst].
  destruct (Z.leb_spec (n + 1 + Z.of_nat (length w)) 31), (Z.leb_spec (n + Z.of_nat (S (length w))) 31);
    try lia; done.
Qed.

Lemma word_length p : length p = (length (word p).1 + length (word p).2)%nat.
Proof.
  induction p as [|c p IH]; [done|]. cbn. destruct (path_is_separator c); [done|].
  destruct (word p). cbn in *. lia.
Qed.

Definition flush (cur : cstr) : list cstr := if decide (cur = []) then [] else [cur].

Lemma split_path_word p cur :
  split_path cur p = flush (cur ++ (word p).1) ++ split_path [] (word p).2.
Proof.
  revert cur. induction p as [|c p IH]; intros cur; cbn.
  - by rewrite !app_nil_r.
  - unfold path_is_separator. destruct (c =? CH_SLASH) eqn:Hc; cbn.
    + by rewrite Hc, app_nil_r.
    + rewrite IH. destruct (word p) as [w rest]. cbn. by rewrite <- app_assoc.
Qed.

Lemma split_path_skip p : split_path [] (c_skip path_is_separator p) = split_path [] p.
Proof.
  induction p as [|c p IH]; [done|]. cbn. unfold path_is_separator at 1.
  destruct (c =? CH_SLASH) eqn:Hc; cbn; [exact IH|]. by rewrite Hc.
Qed.

Lemma lookup_loop_resolve s :
  fs_ok s → ∀ fuel path d, (length path <= fuel)%nat → (d < length (nodes s))%nat →
  lookup_loop fuel s path d = resolve s d (split_path [] path).
Proof.
  intros Hok. induction fuel as [|fuel IH]; intros path d Hf Hd.
  { destruct path; [done|cbn in Hf; lia]. }
  rewrite <- split_path_skip. destruct path as [|x path]; [done|]. cbn [lookup_loop].
  pose proof (c_skip_app path_is_separator (x :: path)) as (pre & Hpre & _).
  assert (Hlen : (length (c_skip path_is_separator (x :: path)) <= S fuel)%nat).
  { apply (f_equal length) in Hpre. rewrite length_app in Hpre. cbn [length] in *. lia. }
  destruct (c_skip path_is_separator (x :: path)) as [|c p] eqn:Hs; [done|]. clear Hpre.
  assert (Hc : path_is_separator c = false) by (by eapply c_skip_head).
  rewrite take_component_word by lia. rewrite split_path_word. cbn [app].
  pose proof (word_length (c :: p)) as Hwl. cbn [word] in *. rewrite Hc in *.
  destruct (word p) as [w rest]. cbn [fst snd] in *. unfold flush.
  rewrite decide_False by done. cbn [app resolve].
  destruct (Z.leb_spec (0 + Zlength (c :: w)) 31) as [Hle|Hgt]; cbn [mbind option_bind].
  - rewrite find_child_ref by done. destruct (child_named s d (c :: w)) as [j|] eqn:Hj; [|done].
    cbn. apply IH; [cbn in *; lia|]. by apply child_named_in in Hj as (_ & _ & ?).
  - destruct (child_named s d (c :: w)) as [j|] eqn:Hj; [|done]. exfalso.
    apply child_named_in in Hj as (_ & Hn & _). pose proof (ok_names s Hok j) as Hx.
    rewrite Hn in Hx. unfold VFS_NAME_MAX in Hx. lia.
Qed.

Lemma vfs_lookup_resolve s path :
  fs_ok s → vfs_lookup s path =
    match vfs_root_node s, path with
    | Some r, c :: _ => if c =? CH_SLASH then resolve s r (split_path [] path) else None
    | _, _ => None
    end.
Proof.
  intros Hok. unfold vfs_lookup. destruct (vfs_root_node s) as [r|] eqn:Hr; [|done].
  destruct path as [|c p]; [done|]. destruct (c =? CH_SLASH); cbn [negb]; [|done].
  apply lookup_loop_resolve; [done|done|]. apply (ok_roots s Hok r). by left.
Qed.

(** ** Properties *)

(** C27: path lookup. In a well-formed tree [vfs_lookup] is the reference walk:
    split the path at the slashes, ignore empty components, and from the root
    take for each component the oldest child of that name of a directory; there
    is no result exactly when the path does not start with a slash, there is no
    root, or some component is not found. In particular components too long for
    the name buffer are not found, and the sibling and path loops end. *)
Theorem vfs_lookup_is_walk s path :
  fs_ok s → vfs_lookup s path =
    match vfs_root_node s, path with
    | Some r, c :: _ => if c =? CH_SLASH then resolve s r (split_path [] path) else None
    | _, _ => None
    end.
Proof. exact (vfs_lookup_resolve s path). Qed.

(** A root with one directory "dev". *)
Definition sample_dir (name : cstr) (p c n : option nat) : vfs_node :=
  MkNode 1 name VFS_NODE_DIR p c n 0 [] 0 0 None None.
Definition sample_fs : fs :=
  MkFs [sample_dir [] None (Some 1%nat) None; sample_dir (s2z "dev") (Some 0%nat) None None]
    (Some 0%nat) (Some 0%nat) 3.

Lemma sample_fs_ok : fs_ok sample_fs.
Proof.
  constructor.
  - intros [|[|i]] d; unfold parent_of, node_field; cbn; [done|intros [= <-]; lia|done].
  - intros [|[|d]] Hd; [vm_compute; done|vm_compute; done|cbn in Hd; lia].
  - intros [|[|i]]; unfold name_of, node_field; cbn; done.
  - intros r [[= <-]|[= <-]]; cbn; split; (lia || done).
Qed.

Lemma vfs_lookup_is_walk_witness :
  vfs_lookup sample_fs (s2z "//dev/") = Some 1%nat ∧ vfs_lookup sample_fs (s2z "/tmp") = None.
Proof.
  rewrite (vfs_lookup_is_walk sample_fs (s2z "//dev/") sample_fs_ok),
    (vfs_lookup_is_walk sample_fs (s2z "/tmp") sample_fs_ok).
  split; reflexivity.
Defined.
