(* ===== verification/Ramfs.v ===== *)
(** * The memory file system ([src/kernel/ramfs.c]) and the reads and writes of
    [src/kernel/vfs.c] that go through it

    Nodes and file buffers come from the allocator interface of [Alloc]. A
    [memcpy] that would leave the buffer is the outcome [None]. *)

From S2P Require Import Prelude CString Print Alloc Vfs.

(** [sizeof(vfs_node_t)]. *)
Definition sizeof_vfs_node : Z := 104.

(** ** Field updates *)

Definition node_upd (i : nat) (f : vfs_node → vfs_node) (s : fs) : fs :=
  MkFs (alter f i (nodes s)) (vfs_root_node s) (ramfs_root_node s) (next_node_id s).

Definition set_parent (p : option nat) (n : vfs_node) : vfs_node :=
  MkNode (vn_id n) (vn_name n) (vn_type n) p (vn_first_child n) (vn_next_sibling n)
    (vn_data n) (vn_bytes n) (vn_size n) (vn_capacity n) (vn_read n) (vn_write n).
Definition set_first (c : option nat) (n : vfs_node) : vfs_node :=
  MkNode (vn_id n) (vn_name n) (vn_type n) (vn_parent n) c (vn_next_sibling n)
    (vn_data n) (vn_bytes n) (vn_size n) (vn_capacity n) (vn_read n) (vn_write n).
Definition set_next (c : option nat) (n : vfs_node) : vfs_node :=
  MkNode (vn_id n) (vn_name n) (vn_type n) (vn_parent n) (vn_first_child n) c
    (vn_data n) (vn_bytes n) (vn_size n) (vn_capacity n) (vn_read n) (vn_write n).
Definition set_data (ptr : Z) (bytes : list Z) (size capacity : Z) (n : vfs_node) : vfs_node :=
  MkNode (vn_id n) (vn_name n) (vn_type n) (vn_parent n) (vn_first_child n) (vn_next_sibling n)
    ptr bytes size capacity (vn_read n) (vn_write n).
Definition set_fns (r w : option vfs_fn) (n : vfs_node) : vfs_node :=
  MkNode (vn_id n) (vn_name n) (vn_type n) (vn_parent n) (vn_first_child n) (vn_next_sibling n)
    (vn_data n) (vn_bytes n) (vn_size n) (vn_capacity n) r w.

(** ** Memory *)

(** [ramfs_memcpy(dst + offset, src, |src|)] into a buffer. *)
Definition ramfs_memcpy (dst : list Z) (offset : Z) (src : list Z) : option (list Z) :=
  if (offset <? 0) || (Zlength dst <? offset + Zlength src) then None
  else Some (take (Z.to_nat offset) dst ++ src ++ drop (Z.to_nat (offset + Zlength src)) dst).

Definition ramfs_memzero (size : Z) : list Z := replicate (Z.to_nat size) 0.

Definition ramfs_copy_name (src : option cstr) : cstr :=
  match src with None => [] | Some s => c_copy_limit s 0 VFS_NAME_MAX end.

(** The bytes copied to the caller's buffer; their number is the result. *)
Definition ramfs_read (n : vfs_node) (offset : Z) (buffer : bool) (size : Z) : list Z :=
  if negb buffer || (size =? 0) then []
  else if vn_size n <=? offset then []
  else
    let available := vn_size n - offset in
    let to_read := if available <? size then available else size in
    take (Z.to_nat to_read) (drop (Z.to_nat offset) (vn_bytes n)).

(** The growing of the buffer in [ramfs_write]: the new pointer, contents and
    capacity; the inner [None] is the failed [kmalloc], the outer one a copy
    outside the buffer. *)
Definition ramfs_grow `{Allocator H} (n : vfs_node) (end_ : Z) (h : H)
    : option (option (Z * list Z * Z) * H) :=
  let new_capacity := if end_ <? 64 then 64 else end_ in
  let '(new_data, h) := k_alloc new_capacity h in
  if new_data =? 0 then Some (None, h)
  else
    let zeros := ramfs_memzero new_capacity in
    if negb (vn_data n =? 0) && (0 <? vn_size n) then
      bytes ← ramfs_memcpy zeros 0 (take (Z.to_nat (vn_size n)) (vn_bytes n));
      Some (Some (new_data, bytes, new_capacity), k_free (vn_data n) h)
    else Some (Some (new_data, zeros, new_capacity), h).

(** [src] are the [size] bytes of the caller's buffer. *)
Definition ramfs_write `{Allocator H} (n : vfs_node) (offset : Z) (buffer : bool) (src : list Z) (h : H)
    : option (Z * vfs_node * H) :=
  let size := Zlength src in
  if negb buffer || (size =? 0) then Some (0, n, h)
  else
    let end_ := u64 (offset + size) in
    '(buf, h) ← (if vn_capacity n <? end_ then ramfs_grow n end_ h
                 else Some (Some (vn_data n, vn_bytes n, vn_capacity n), h));
    match buf with
    | None => Some (0, n, h)
    | Some (ptr, bytes, capacity) =>
        bytes ← ramfs_memcpy bytes offset src;
        let new_size := if vn_size n <? end_ then end_ else vn_size n in
        Some (size, set_data ptr bytes new_size capacity n, h)
    end.

(** ** Nodes *)

Definition ramfs_alloc_node `{Allocator H} (name : option cstr) (type : vfs_node_type) (s : fs) (h : H)
    : option nat * fs * H :=
  let '(p, h) := k_alloc sizeof_vfs_node h in
  if p =? 0 then (None, s, h)
  else
    let fn := if decide (type = VFS_NODE_FILE) then Some FN_RAMFS else None in
    let n := MkNode (next_node_id s) (ramfs_copy_name name) type None None None 0 [] 0 0 fn fn in
    (Some (length (nodes s)),
     MkFs (nodes s ++ [n]) (vfs_root_node s) (ramfs_root_node s) (u32 (next_node_id s + 1)), h).

(** The loop to the last sibling; the fuel is the number of nodes. *)
Fixpoint last_sibling (fuel : nat) (s : fs) (current : nat) : nat :=
  match fuel with
  | O => current
  | S fuel' => match next_of s current with None => current | Some j => last_sibling fuel' s j end
  end.

Definition ramfs_add_child (parent child : option nat) (s : fs) : fs :=
  match parent, child with
  | Some p, Some c =>
      let s := node_upd c (set_parent (Some p)) s in
      match first_of s p with
      | None => node_upd p (set_first (Some c)) s
      | Some f => node_upd (last_sibling (length (nodes s)) s f) (set_next (Some c)) s
      end
  | _, _ => s
  end.

Definition ramfs_root (s : fs) : option nat := ramfs_root_node s.

Definition ramfs_create_dir `{Allocator H} (parent : option nat) (name : option cstr) (s : fs) (h : H)
    : option nat * fs * H :=
  let '(node, s, h) := ramfs_alloc_node name VFS_NODE_DIR s h in
  match node with
  | None => (None, s, h)
  | Some _ => (node, ramfs_add_child parent node s, h)
  end.

(** [data] are the [size] bytes at a non-null pointer. *)
Definition ramfs_create_file_from_buffer `{Allocator H} (parent : option nat) (name : option cstr)
    (data : option (list Z)) (s : fs) (h : H) : option nat * fs * H :=
  let '(node, s, h) := ramfs_alloc_node name VFS_NODE_FILE s h in
  match node with
  | None => (None, s, h)
  | Some i =>
      match data with
      | Some (x :: r) =>
          let bytes := x :: r in
          let '(file_data, h) := k_alloc (Zlength bytes) h in
          if file_data =? 0 then (None, s, h)
          else
            let s := node_upd i (set_data file_data bytes (Zlength bytes) (Zlength bytes)) s in
            (node, ramfs_add_child parent node s, h)
      | _ => (node, ramfs_add_child parent node s, h)
      end
  end.

Definition ramfs_create_device `{Allocator H} (parent : option nat) (name : option cstr)
    (read write : option vfs_fn) (s : fs) (h : H) : option nat * fs * H :=
  let '(node, s, h) := ramfs_alloc_node name VFS_NODE_DEVICE s h in
  match node with
  | None => (None, s, h)
  | Some i => (node, ramfs_add_child parent node (node_upd i (set_fns read write) s), h)
  end.

Definition ramfs_init `{Allocator H} (s : fs) (h : H) : fs * H * output :=
  let s := MkFs (nodes s) (vfs_root_node s) (ramfs_root_node s) 1 in
  let '(root, s, h) := ramfs_create_dir None (Some []) s h in
  let s := MkFs (nodes s) (vfs_root_node s) root (next_node_id s) in
  match root with
  | None => (s, h, color_line "RAMFS init failed" COLOR_RED_ON_BLACK)
  | Some _ =>
      let '(_, s, h) := ramfs_create_dir root (Some (s2z "dev")) s h in
      let '(_, s, h) := ramfs_create_dir root (Some (s2z "tmp")) s h in
      let '(s, o) := vfs_init root s in
      (s, h, o ++ color_line "RAMFS initialized" COLOR_GREEN_ON_BLACK)
  end.

(** ** Dispatch through the node's functions

    What [/dev/tty0] does is the terminal's business: its two functions are the
    operations of a class, over the state they act on. *)

Class TtyDevice (W : Type) := {
  dev_read : Z → W → list Z * W;
  dev_write : list Z → W → Z * W;
  (** [console_put_char] *)
  con_put_char : Z → W → W
}.

Definition is_file_or_device (t : vfs_node_type) : bool :=
  bool_decide (t = VFS_NODE_FILE) || bool_decide (t = VFS_NODE_DEVICE).

Definition vfs_read `{TtyDevice W} (node : option nat) (offset : Z) (buffer : bool) (size : Z)
    (s : fs) (w : W) : list Z * W :=
  match node with
  | None => ([], w)
  | Some i =>
      if negb buffer || (size =? 0) then ([], w)
      else match nodes s !! i with
           | None => ([], w)
           | Some n =>
               if negb (is_file_or_device (vn_type n)) then ([], w)
               else match vn_read n with
                    | None => ([], w)
                    | Some FN_RAMFS => (ramfs_read n offset buffer size, w)
                    | Some FN_TTY => dev_read size w
                    end
           end
  end.

Definition vfs_write `{Allocator H, TtyDevice W} (node : option nat) (offset : Z) (buffer : bool)
    (src : list Z) (s : fs) (h : H) (w : W) : option (Z * fs * H * W) :=
  match node with
  | None => Some (0, s, h, w)
  | Some i =>
      if negb buffer || (Zlength src =? 0) then Some (0, s, h, w)
      else match nodes s !! i with
           | None => Some (0, s, h, w)
           | Some n =>
               if negb (is_file_or_device (vn_type n)) then Some (0, s, h, w)
               else match vn_write n with
                    | None => Some (0, s, h, w)
                    | Some FN_RAMFS =>
                        '(r, n', h) ← ramfs_write n offset buffer src h;
                        Some (r, node_upd i (λ _, n') s, h, w)
                    | Some FN_TTY => let '(r, w) := dev_write src w in Some (r, s, h, w)
                    end
           end
  end.

(** The bytes of a [char] buffer up to its terminator: what [print] shows. *)
Fixpoint until_nul (l : list Z) : cstr :=
  match l with [] => [] | c :: r => if c =? 0 then [] else c :: until_nul r end.

(** The reading loop of [cat], 128 bytes at a time; the fuel bounds the rounds
    and [None] means it did not suffice. *)
Fixpoint cat_loop `{TtyDevice W} (fuel : nat) (node : nat) (offset : Z) (s : fs) (w : W)
    : option (output * W) :=
  match fuel with
  | O => None
  | S fuel' =>
      let '(chunk, w) := vfs_read (Some node) offset true 128 s w in
      if Zlength chunk =? 0 then Some ([], w)
      else
        '(rest, w) ← cat_loop fuel' node (u64 (offset + Zlength chunk)) s w;
        Some (print (until_nul chunk) ++ rest, w)
  end.

Definition cmd_cat `{TtyDevice W} (fuel : nat) (args : option cstr) (s : fs) (w : W)
    : option (output * W) :=
  let '(found, path) := copy_first_arg args VFS_CMD_PATH_MAX in
  if negb found then Some (prints "usage: cat <path>" ++ newline, w)
  else
    match vfs_lookup s path with
    | None => Some (prints "cat: not found: " ++ print path ++ newline, w)
    | Some i =>
        if decide (type_of s i ≠ VFS_NODE_FILE) then
          Some (prints "cat: not a file: " ++ print path ++ newline, w)
        else
          '(o, w) ← cat_loop fuel i 0 s w;
          if 0 <? size_of s i then
            let '(b, w) := vfs_read (Some i) (size_of s i - 1) true 1 s w in
            let last := match b with x :: _ => x | [] => 0 end in
            Some (o ++ (if last =? CH_LF then [] else newline), w)
          else Some (o, w)
    end.

Definition cmd_fsinfo (s : fs) (root_address : Z) : output :=
  prints "vfs root = " ++ print_hex64 root_address ++ newline ++
  prints "vfs nodes = " ++ print_dec64 (vfs_count_nodes s) ++ newline.

(** ** Lemmas: fields *)

Lemma node_field_upd {A} (f : vfs_node → A) d i g s j :
  node_field f d (node_upd i g s) j =
  if decide (j = i) then match nodes s !! i with Some n => f (g n) | None => d end
  else node_field f d s j.
Proof.
  unfold node_field, node_upd. cbn. case_decide as Hj; [subst j|].
  - rewrite list_lookup_alter_eq. by destruct (nodes s !! i).
  - by rewrite list_lookup_alter_ne.
Qed.

(** An update that keeps a field. *)
Lemma node_field_keep {A} (f : vfs_node → A) d i g s j :
  (∀ n, f (g n) = f n) → node_field f d (node_upd i g s) j = node_field f d s j.
Proof.
  intros Hg. rewrite node_field_upd. case_decide as Hj; [subst j|done].
  unfold node_field. destruct (nodes s !! i); [apply Hg|done].
Qed.

Lemma nodes_upd_length i g s : length (nodes (node_upd i g s)) = length (nodes s).
Proof. apply length_alter. Qed.

(** A new node at the end. *)
Definition append (n : vfs_node) (id' : Z) (s : fs) : fs :=
  MkFs (nodes s ++ [n]) (vfs_root_node s) (ramfs_root_node s) id'.

Lemma node_field_append {A} (f : vfs_node → A) d n id' s j :
  node_field f d (append n id' s) j =
  if decide (j = length (nodes s)) then f n else node_field f d s j.
Proof.
  unfold node_field, append. cbn. case_decide as Hj.
  - subst j. by rewrite lookup_app_r, Nat.sub_diag.
  - destruct (decide (j < length (nodes s))%nat) as [Hl|Hl].
    + by rewrite lookup_app_l.
    + rewrite (lookup_ge_None_2 (nodes s)) by lia.
      rewrite lookup_ge_None_2; [done|]. rewrite length_app. cbn. lia.
Qed.

(** A node without parent: not in the tree (yet). *)
Definition detached (n : vfs_node) : Prop :=
  vn_parent n = None ∧ vn_first_child n = None ∧ vn_next_sibling n = None ∧
  Zlength (vn_name n) < VFS_NAME_MAX.

(** ** Lemmas: sibling chains *)

Lemma chain_frame s s' l p :
  (∀ i, i ∈ l → next_of s' i = next_of s i) → chain s p l → chain s' p l.
Proof.
  revert p. induction l as [|i l IH]; intros p Hn Hc; [done|]. destruct Hc as [-> Hc].
  split; [done|]. rewrite Hn by left. apply IH; [|done]. intros j Hj. apply Hn. by right.
Qed.

Lemma chain_snoc s s' l p c :
  chain s p l → NoDup l → c ∉ l → next_of s' c = None →
  (∀ i, i ∈ l → next_of s' i = if decide (last l = Some i) then Some c else next_of s i) →
  chain s' (match l with [] => Some c | _ => p end) (l ++ [c]).
Proof.
  revert p. induction l as [|i l IH]; intros p Hc Hnd Hcl Hnc Hn; cbn [app chain].
  { done. }
  destruct Hc as [-> Hc]. split; [done|].
  apply NoDup_cons in Hnd as [Hi Hnd]. apply not_elem_of_cons in Hcl as [Hci Hcl].
  destruct l as [|j l].
  - rewrite (Hn i) by left. cbn. by rewrite decide_True.
  - rewrite (Hn i) by left. rewrite decide_False.
    2:{ intros Hl. apply Hi. rewrite last_cons_cons in Hl. by apply last_Some_elem_of. }
    apply IH; [done..|]. intros k Hk. rewrite (Hn k) by (by right). by rewrite last_cons_cons.
Qed.

Lemma last_sibling_chain l :
  ∀ fuel s i, chain s (Some i) (i :: l) → (length l <= fuel)%nat →
  last (i :: l) = Some (last_sibling fuel s i).
Proof.
  induction l as [|j l IH]; intros fuel s i [_ Hc] Hf.
  - cbn in Hc. destruct fuel; cbn; [done|]. by rewrite Hc.
  - destruct fuel as [|fuel]; [cbn in Hf; lia|]. cbn [last_sibling].
    pose proof Hc as [-> _]. rewrite last_cons_cons. apply IH; [|cbn in Hf; lia].
    destruct Hc as [Hn Hc]. by split.
Qed.

(** ** Lemmas: growing the tree *)

Lemma kids_NoDup s d : NoDup (kids s d).
Proof. apply NoDup_filter, NoDup_seq. Qed.

Lemma kids_append s n id' d :
  detached n → kids (append n id' s) d = kids s d.
Proof.
  intros (Hp & _). unfold kids. cbn [append nodes]. rewrite length_app, Nat.add_1_r, seq_S, filter_app.
  rewrite filter_cons_False, filter_nil, app_nil_r.
  - apply filter_ext_elem. intros j [_ Hj]%elem_of_seq. unfold parent_of.
    rewrite node_field_append, decide_False by lia. done.
  - unfold parent_of. rewrite node_field_append, decide_True by lia. by rewrite Hp.
Qed.

Lemma append_ok s n id' : fs_ok s → detached n → fs_ok (append n id' s).
Proof.
  intros Hok Hd. pose proof Hd as (Hp & Hf & Hn & Hname). constructor.
  - intros i d. unfold parent_of. rewrite node_field_append. case_decide; [by rewrite Hp|].
    apply (ok_parent s Hok).
  - intros d Hdl. rewrite kids_append by done. unfold first_of. rewrite node_field_append.
    case_decide as Hdd.
    + rewrite Hf. subst d. unfold kids. rewrite filter_none; [done|].
      intros j [_ Hj]%elem_of_seq Hx%(ok_parent s Hok). lia.
    + cbn in Hdl. rewrite length_app in Hdl. cbn in Hdl.
      eapply chain_frame; [|apply (ok_chain s Hok); lia].
      intros i [Hi _]%kids_lt. unfold next_of. rewrite node_field_append, decide_False by lia. done.
  - intros i. unfold name_of. rewrite node_field_append. case_decide; [done|]. apply (ok_names s Hok).
  - intros r Hr. cbn in Hr. destruct (ok_roots s Hok r Hr) as (Hl & Hpar & Hty). cbn.
    rewrite length_app. unfold parent_of, type_of. rewrite !node_field_append, !decide_False by lia.
    split; [lia|done].
Qed.

(** Everything of a node but its links. *)
Definition content (n : vfs_node) : vfs_node := set_parent None (set_first None (set_next None n)).

Definition same_contents (s s' : fs) : Prop := ∀ i, content <$> nodes s' !! i = content <$> nodes s !! i.

Lemma same_contents_upd i g s :
  (∀ n, content (g n) = content n) → same_contents s (node_upd i g s).
Proof.
  intros Hg j. unfold node_upd. cbn. destruct (decide (j = i)) as [->|].
  - rewrite list_lookup_alter_eq. destruct (nodes s !! i); cbn; by rewrite ?Hg.
  - by rewrite list_lookup_alter_ne.
Qed.

Lemma same_contents_field {A} (f : vfs_node → A) d s s' i :
  (∀ n, f (content n) = f n) → same_contents s s' → node_field f d s' i = node_field f d s i.
Proof.
  intros Hf Hs. specialize (Hs i). unfold node_field.
  destruct (nodes s' !! i) as [n'|], (nodes s !! i) as [n|]; try done.
  apply (inj Some) in Hs. rewrite <- (Hf n), <- (Hf n'). by f_equal.
Qed.

Section attach.
Context (s : fs) (p c : nat).
Context (Hok : fs_ok s) (Hlen : length (nodes s) = S c) (Hp : (p < c)%nat).
Context (Hpar : parent_of s c = None) (Hnext : next_of s c = None).
Context (Hroot : ∀ r, vfs_root_node s = Some r ∨ ramfs_root_node s = Some r → r ≠ c).

Let s1 := node_upd c (set_parent (Some p)) s.
Let s2 := ramfs_add_child (Some p) (Some c) s.

Lemma attach_child_lt d j : j ∈ kids s d → (j < c)%nat.
Proof.
  intros [Hj Hjp]%kids_lt. destruct (decide (j = c)) as [->|]; [congruence|lia].
Qed.

Lemma attach_first1 d : first_of s1 d = first_of s d.
Proof. by apply node_field_keep. Qed.

Lemma attach_next1 i : next_of s1 i = next_of s i.
Proof. by apply node_field_keep. Qed.

(** The new state by cases. *)
Lemma attach_cases :
  (kids s p = [] ∧ s2 = node_upd p (set_first (Some c)) s1) ∨
  (∃ l, last (kids s p) = Some l ∧ s2 = node_upd l (set_next (Some c)) s1).
Proof.
  pose proof (ok_chain s Hok p ltac:(lia)) as Hc. unfold s2, ramfs_add_child. fold s1.
  rewrite attach_first1. destruct (kids s p) as [|f l] eqn:Hk.
  - left. cbn in Hc. by rewrite Hc.
  - right. pose proof Hc as [Hf _]. rewrite Hf. eexists. split; [|done].
    apply last_sibling_chain.
    + eapply chain_frame; [intros; apply attach_next1|]. by rewrite <- Hf.
    + unfold s1. rewrite nodes_upd_length. pose proof (kids_length s p) as Hx. rewrite Hk in Hx. cbn in Hx. lia.
Qed.

Lemma attach_length : length (nodes s2) = S c.
Proof. by destruct attach_cases as [[_ ->]|(l & _ & ->)]; unfold s1; rewrite !nodes_upd_length. Qed.

Lemma attach_contents : same_contents s s2.
Proof.
  assert (H1 : same_contents s s1) by (by apply same_contents_upd).
  intros i. rewrite <- H1. by destruct attach_cases as [[_ ->]|(l & _ & ->)]; apply same_contents_upd.
Qed.

Lemma attach_parent i : parent_of s2 i = if decide (i = c) then Some p else parent_of s i.
Proof.
  assert (H2 : parent_of s2 i = parent_of s1 i).
  { by destruct attach_cases as [[_ ->]|(l & _ & ->)]; apply node_field_keep. }
  rewrite H2. unfold parent_of, s1. rewrite node_field_upd. case_decide; [|done].
  destruct (lookup_lt_is_Some_2 (nodes s) c) as [n Hn]; [lia|]. by rewrite Hn.
Qed.

Lemma attach_next i :
  next_of s2 i = if decide (last (kids s p) = Some i) then Some c else next_of s i.
Proof.
  destruct attach_cases as [[Hk ->]|(l & Hl & ->)].
  - rewrite Hk. cbn. trans (next_of s1 i); [by apply node_field_keep|apply attach_next1].
  - rewrite Hl. unfold next_of at 1. rewrite node_field_upd. destruct (decide (i = l)) as [->|Hne].
    + rewrite decide_True by done. apply last_Some_elem_of, attach_child_lt in Hl.
      destruct (lookup_lt_is_Some_2 (nodes s1) l) as [n ->]; [|done].
      unfold s1. rewrite nodes_upd_length. lia.
    + rewrite decide_False by congruence. apply attach_next1.
Qed.

Lemma attach_first d :
  first_of s2 d = if decide (d = p ∧ kids s p = []) then Some c else first_of s d.
Proof.
  destruct attach_cases as [[Hk ->]|(l & Hl & ->)].
  - unfold first_of at 1. rewrite node_field_upd. destruct (decide (d = p)) as [->|].
    + rewrite decide_True by done. destruct (lookup_lt_is_Some_2 (nodes s1) p) as [n ->]; [|done].
      unfold s1. rewrite nodes_upd_length. lia.
    + rewrite decide_False by tauto. apply attach_first1.
  - rewrite decide_False by (intros [_ Hk]; rewrite Hk in Hl; done).
    trans (first_of s1 d); [by apply node_field_keep|apply attach_first1].
Qed.

Lemma attach_kids d : kids s2 d = if decide (d = p) then kids s d ++ [c] else kids s d.
Proof.
  assert (Hold : filter (λ j, parent_of s2 j = Some d) (seq 0 c) = kids s d).
  { unfold kids. rewrite Hlen, seq_S, filter_app, filter_cons_False, filter_nil, app_nil_r.
    - apply filter_ext_elem. intros j [_ Hj]%elem_of_seq. by rewrite attach_parent, decide_False by lia.
    - cbn. congruence. }
  unfold kids at 1. rewrite attach_length, seq_S, filter_app, Hold, filter_cons, filter_nil. cbn [Nat.add].
  rewrite (attach_parent c). repeat case_decide; simplify_eq; try done. by rewrite app_nil_r.
Qed.

Lemma attach_ok : fs_ok s2.
Proof.
  constructor.
  - intros i d. rewrite attach_parent. case_decide; [intros [= <-]; lia|]. apply (ok_parent s Hok).
  - intros d Hd. rewrite attach_length in Hd. rewrite attach_kids, attach_first.
    pose proof (ok_chain s Hok d ltac:(lia)) as Hc. destruct (decide (d = p)) as [->|Hdp].
    + assert (Hnl : last (kids s p) ≠ Some c).
      { intros Hx%last_Some_elem_of%attach_child_lt. lia. }
      replace (if decide (p = p ∧ kids s p = []) then Some c else first_of s p)
        with (match kids s p with [] => Some c | _ => first_of s p end)
        by (destruct (kids s p); [by rewrite decide_True|by rewrite decide_False by (intros [_ [=]])]).
      eapply chain_snoc; [done|apply kids_NoDup| | |].
      * intros Hx%attach_child_lt. lia.
      * by rewrite attach_next, decide_False.
      * intros i _. apply attach_next.
    + rewrite decide_False by tauto. eapply chain_frame; [|done]. intros i Hi.
      rewrite attach_next, decide_False; [done|]. intros Hx%last_Some_elem_of.
      apply kids_lt in Hi, Hx. destruct Hi, Hx. congruence.
  - intros i. unfold name_of. rewrite (same_contents_field vn_name [] s s2 i); [|done|apply attach_contents].
    apply (ok_names s Hok).
  - intros r Hr.
    assert (Hr' : vfs_root_node s = Some r ∨ ramfs_root_node s = Some r)
      by (by destruct attach_cases as [[_ He]|(l & _ & He)]; rewrite He in Hr).
    destruct (ok_roots s Hok r Hr') as (H1 & H2 & H3). rewrite attach_length, attach_parent.
    rewrite decide_False by (by apply Hroot). unfold type_of.
    rewrite (same_contents_field vn_type VFS_NODE_UNKNOWN s s2 r); [|done|apply attach_contents].
    split; [lia|done].
Qed.
End attach.

(** ** Lemmas: what the creating operations do *)

(** [s'] is [s] with one more node, attached to [p] as its last child. *)
Record created (s s' : fs) (p : option nat) (n : vfs_node) : Prop := {
  cr_ok : fs_ok s';
  cr_length : length (nodes s') = S (length (nodes s));
  cr_roots : vfs_root_node s' = vfs_root_node s ∧ ramfs_root_node s' = ramfs_root_node s;
  cr_old : ∀ i, (i < length (nodes s))%nat → content <$> nodes s' !! i = content <$> nodes s !! i;
  cr_new : content <$> nodes s' !! length (nodes s) = Some (content n);
  cr_kids : ∀ d, kids s' d = if decide (p = Some d) then kids s d ++ [length (nodes s)] else kids s d
}.

Lemma root_lt s r :
  fs_ok s → vfs_root_node s = Some r ∨ ramfs_root_node s = Some r → (r < length (nodes s))%nat.
Proof. intros Hok Hr. apply (ok_roots s Hok r Hr). Qed.

Lemma append_attach s p n id' :
  fs_ok s → detached n → (∀ d, p = Some d → (d < length (nodes s))%nat) →
  created s (ramfs_add_child p (Some (length (nodes s))) (append n id' s)) p n.
Proof.
  intros Hok Hd Hp. set (c := length (nodes s)). pose proof (append_ok s n id' Hok Hd) as Hok1.
  assert (Hlen : length (nodes (append n id' s)) = S c) by (cbn; rewrite length_app; cbn; lia).
  assert (Hnew : nodes (append n id' s) !! c = Some n) by (cbn; by rewrite lookup_app_r, Nat.sub_diag).
  assert (Hold : ∀ i, (i < c)%nat → nodes (append n id' s) !! i = nodes s !! i)
    by (intros i Hi; cbn; by rewrite lookup_app_l).
  destruct p as [p|].
  2:{ change (created s (append n id' s) None n).
      constructor; [done|done|done| | |intros d; by apply kids_append].
      - intros i Hi. by rewrite Hold.
      - fold c. by rewrite Hnew. }
  specialize (Hp p eq_refl). pose proof Hd as (Hd1 & _ & Hd3 & _).
  assert (Hpar : parent_of (append n id' s) c = None)
    by (unfold parent_of; by rewrite node_field_append, decide_True).
  assert (Hnext : next_of (append n id' s) c = None)
    by (unfold next_of; by rewrite node_field_append, decide_True).
  assert (Hroot : ∀ r, vfs_root_node s = Some r ∨ ramfs_root_node s = Some r → r ≠ c).
  { intros r Hr%(root_lt s r Hok). unfold c. lia. }
  pose proof (attach_contents _ p c Hok1 Hlen Hp) as Hcont. constructor.
  - by apply attach_ok.
  - by apply attach_length.
  - destruct (attach_cases _ p c Hok1 Hlen Hp) as [[_ ->]|(l & _ & ->)]; done.
  - intros i Hi. rewrite Hcont, Hold; done.
  - fold c. by rewrite Hcont, Hnew.
  - intros d. rewrite (attach_kids _ p c Hok1 Hlen Hp Hpar), kids_append by done.
    repeat case_decide; simplify_eq; done.
Qed.

Definition new_node (s : fs) (name : option cstr) (type : vfs_node_type) : vfs_node :=
  let fn := if decide (type = VFS_NODE_FILE) then Some FN_RAMFS else None in
  MkNode (next_node_id s) (ramfs_copy_name name) type None None None 0 [] 0 0 fn fn.

Lemma copy_name_length name : Zlength (ramfs_copy_name name) < VFS_NAME_MAX.
Proof.
  unfold VFS_NAME_MAX. destruct name as [nm|]; cbn [ramfs_copy_name]; [|unfold Zlength; cbn; lia].
  pose proof (proj1 (c_copy_limit_bound nm 32 ltac:(lia))). unfold VFS_NAME_MAX. lia.
Qed.

Lemma detached_new s name type : detached (new_node s name type).
Proof. split_and!; try done. cbn [new_node vn_name]. apply copy_name_length. Qed.

Lemma alloc_node_spec `{Allocator H} name type s h :
  let '(r, s', h') := ramfs_alloc_node name type s h in
  (h_inv h → heap_grows h h') ∧
  (r = None ∧ s' = s ∨
   r = Some (length (nodes s)) ∧ s' = append (new_node s name type) (u32 (next_node_id s + 1)) s).
Proof.
  unfold ramfs_alloc_node.
  assert (Hg : h_inv h → heap_grows h (k_alloc sizeof_vfs_node h).2).
  { intros Hi. pose proof (k_alloc_grows sizeof_vfs_node h Hi ltac:(unfold sizeof_vfs_node; lia)) as Ha.
    destruct (k_alloc sizeof_vfs_node h). apply Ha. }
  destruct (k_alloc sizeof_vfs_node h) as [p h']. case_if; (split; [exact Hg|]); [by left|by right].
Qed.

Lemma append_upd s n id' g : node_upd (length (nodes s)) g (append n id' s) = append (g n) id' s.
Proof.
  unfold node_upd, append. cbn. f_equal. rewrite alter_app_r_alt, Nat.sub_diag by lia. done.
Qed.

(** The outcomes of the three constructors: nothing, an unreachable node (a
    file whose buffer could not be allocated), or a new last child. *)
Definition outcome (s : fs) (p : option nat) (n : vfs_node) (r : option nat) (s' : fs) : Prop :=
  r = None ∧ s' = s ∨
  r = None ∧ created s s' None (set_data 0 [] 0 0 n) ∨
  r = Some (length (nodes s)) ∧ created s s' p n.

Section creating.
Context `{Allocator H} (s : fs) (p : option nat) (name : option cstr) (h : H).
Context (Hok : fs_ok s) (Hp : ∀ d, p = Some d → (d < length (nodes s))%nat).

Lemma create_dir_outcome :
  let '(r, s', h') := ramfs_create_dir p name s h in
  (h_inv h → heap_grows h h') ∧ outcome s p (new_node s name VFS_NODE_DIR) r s'.
Proof.
  unfold ramfs_create_dir. pose proof (alloc_node_spec name VFS_NODE_DIR s h) as Ha.
  destruct (ramfs_alloc_node name VFS_NODE_DIR s h) as [[r s1] h1].
  destruct Ha as [Hg [[-> ->]|[-> ->]]]; (split; [done|]); [by left|]. right. right. split; [done|].
  apply append_attach; [done|apply detached_new|done].
Qed.

Definition file_node (bytes : list Z) (ptr : Z) : vfs_node :=
  if decide (bytes = []) then new_node s name VFS_NODE_FILE
  else set_data ptr bytes (Zlength bytes) (Zlength bytes) (new_node s name VFS_NODE_FILE).

Lemma create_file_outcome data :
  let '(r, s', h') := ramfs_create_file_from_buffer p name data s h in
  ∃ ptr, outcome s p (file_node (default [] data) ptr) r s' ∧
    (h_inv h → Zlength (default [] data) <= 2 ^ 63 →
     heap_grows h h' ∧
     (r ≠ None → default [] data ≠ [] → fresh_block h h' ptr (Zlength (default [] data)))).
Proof.
  unfold ramfs_create_file_from_buffer. pose proof (alloc_node_spec name VFS_NODE_FILE s h) as Ha.
  destruct (ramfs_alloc_node name VFS_NODE_FILE s h) as [[r s1] h1].
  destruct Ha as [Hg [[-> ->]|[-> ->]]].
  { exists 0. split; [by left|]. intros Hi _. split; [by apply Hg|done]. }
  destruct data as [[|x b]|].
  1, 3: exists 0; split; [right; right; split; [done|]; apply append_attach; [done|apply detached_new|done]|];
    intros Hi _; split; [by apply Hg|done].
  assert (Ha : h_inv h → Zlength (x :: b) <= 2 ^ 63 →
    let '(q, h2) := k_alloc (Zlength (x :: b)) h1 in
    heap_grows h h2 ∧ (q = 0 ∨ fresh_block h h2 q (Zlength (x :: b)))).
  { intros Hi Hm. destruct (Hg Hi) as [Hi1 Hl1].
    pose proof (k_alloc_grows (Zlength (x :: b)) h1 Hi1 ltac:(unfold Zlength in *; cbn in *; lia)) as Ha.
    destruct (k_alloc (Zlength (x :: b)) h1) as [q h2]. destruct Ha as [[Hi2 Hl2] Hq].
    split; [split; [done|by etrans]|]. destruct Hq as [|(H1 & H2 & H3)]; [by left|]. right.
    split; [done|]. split; [done|]. intros t Ht. by apply H3, Hl1. }
  cbn [default]. destruct (k_alloc (Zlength (x :: b)) h1) as [q h2].
  destruct (q =? 0) eqn:Hq; btests; exists q.
  - split; [|intros Hi Hm; split; [by apply Ha|done]].
    right. left. split; [done|].
    apply (append_attach s None (new_node s name VFS_NODE_FILE)); [done|apply detached_new|done].
  - split; [|intros Hi Hm; destruct (Ha Hi Hm) as [? [|]]; done]. right. right. split; [done|].
    rewrite append_upd. apply append_attach; [done|apply detached_new|done].
Qed.

Lemma create_device_outcome rd wr :
  let '(r, s', h') := ramfs_create_device p name rd wr s h in
  (h_inv h → heap_grows h h') ∧ outcome s p (set_fns rd wr (new_node s name VFS_NODE_DEVICE)) r s'.
Proof.
  unfold ramfs_create_device. pose proof (alloc_node_spec name VFS_NODE_DEVICE s h) as Ha.
  destruct (ramfs_alloc_node name VFS_NODE_DEVICE s h) as [[r s1] h1].
  destruct Ha as [Hg [[-> ->]|[-> ->]]]; (split; [done|]); [by left|]. right. right. split; [done|].
  rewrite append_upd. apply append_attach; [done|apply detached_new|done].
Qed.
End creating.

(** ** Lemmas: lookups in a tree that has grown *)

Lemma created_field {A} (f : vfs_node → A) d s s' p n i :
  (∀ m, f (content m) = f m) → created s s' p n → (i < length (nodes s))%nat →
  node_field f d s' i = node_field f d s i.
Proof.
  intros Hf Hc Hi. pose proof (cr_old _ _ _ _ Hc i Hi) as Ho. unfold node_field.
  destruct (nodes s' !! i) as [m'|], (nodes s !! i) as [m|]; try done.
  apply (inj Some) in Ho. rewrite <- (Hf m), <- (Hf m'). by f_equal.
Qed.

Lemma created_new_field {A} (f : vfs_node → A) d s s' p n :
  (∀ m, f (content m) = f m) → created s s' p n → node_field f d s' (length (nodes s)) = f n.
Proof.
  intros Hf Hc. pose proof (cr_new _ _ _ _ Hc) as Ho. unfold node_field.
  destruct (nodes s' !! length (nodes s)) as [m|]; [|done].
  apply (inj Some) in Ho. rewrite <- (Hf m), <- (Hf n). by f_equal.
Qed.

Lemma find_app {A} (f : A → bool) l1 l2 :
  find f (l1 ++ l2) = match find f l1 with Some x => Some x | None => find f l2 end.
Proof. induction l1 as [|x l1 IH]; cbn; [done|]. by case_if. Qed.

Lemma find_ext_elem {A} (f g : A → bool) l :
  (∀ x, x ∈ l → f x = g x) → find f l = find g l.
Proof.
  induction l as [|x l IH]; intros Hfg; [done|]. cbn. rewrite (Hfg x) by left.
  rewrite IH; [done|]. intros y Hy. apply Hfg. by right.
Qed.

(** The children found by name: as before, and then the new node. *)
Lemma created_child s s' p n d name :
  created s s' p n → (d < length (nodes s))%nat →
  child_named s' d name =
  match child_named s d name with
  | Some j => Some j
  | None => if decide (p = Some d ∧ type_of s d = VFS_NODE_DIR ∧ vn_name n = name)
            then Some (length (nodes s)) else None
  end.
Proof.
  intros Hc Hd. unfold child_named. unfold type_of.
  rewrite (created_field vn_type VFS_NODE_UNKNOWN s s' p n d) by done.
  destruct (decide (node_field vn_type VFS_NODE_UNKNOWN s d = VFS_NODE_DIR)) as [Ht|Ht].
  2:{ rewrite decide_False by tauto. done. }
  assert (Hold : find (λ j, bool_decide (name_of s' j = name)) (kids s d) =
                 find (λ j, bool_decide (name_of s j = name)) (kids s d)).
  { apply find_ext_elem. intros j [Hj _]%kids_lt. unfold name_of.
    by rewrite (created_field vn_name [] s s' p n j). }
  rewrite (cr_kids _ _ _ _ Hc). destruct (decide (p = Some d)) as [Hp|Hp].
  - rewrite find_app, Hold. clear Hold. destruct (find _ (kids s d)); [done|]. cbn.
    unfold name_of. rewrite (created_new_field vn_name [] s s' p n) by done.
    case_bool_decide; case_decide; try done; tauto.
  - rewrite Hold, (decide_False (P := p = Some d ∧ _)) by tauto. clear Hold. by destruct (find _ (kids s d)).
Qed.

(** A path that resolved still resolves to the same node. *)
Lemma created_resolve s s' p n d comps j :
  created s s' p n → fs_ok s → (d < length (nodes s))%nat →
  resolve s d comps = Some j → resolve s' d comps = Some j.
Proof.
  intros Hc Hok. revert d. induction comps as [|c comps IH]; intros d Hd Hr; [done|].
  cbn in *. rewrite (created_child s s' p n d c Hc Hd).
  destruct (child_named s d c) as [k|] eqn:Hk; [|done]. cbn in *.
  apply IH; [|done]. by apply child_named_in in Hk as (_ & _ & ?).
Qed.

Lemma resolve_app s d l1 l2 : resolve s d (l1 ++ l2) = j ← resolve s d l1; resolve s j l2.
Proof.
  revert d. induction l1 as [|c l1 IH]; intros d; [done|]. cbn.
  destruct (child_named s d c); cbn; [apply IH|done].
Qed.

Lemma resolve_lt s d comps j :
  (d < length (nodes s))%nat → resolve s d comps = Some j → (j < length (nodes s))%nat.
Proof.
  revert d. induction comps as [|c comps IH]; intros d Hd Hr; cbn in Hr; [by injection Hr as <-|].
  destruct (child_named s d c) as [k|] eqn:Hk; [|done]. apply (IH k); [|done].
  by apply child_named_in in Hk as (_ & _ & ?).
Qed.

(** The name of a new entry as the last component of a path. *)
Definition plain_name (name : cstr) : Prop :=
  name ≠ [] ∧ Zlength name < VFS_NAME_MAX ∧ Forall (λ c, c ≠ CH_SLASH) name.

Lemma split_path_plain name cur :
  Forall (λ c, c ≠ CH_SLASH) name → split_path cur name = flush (cur ++ name).
Proof.
  intros Hn. revert cur. induction Hn as [|c name Hc _ IH]; intros cur; cbn.
  - by rewrite app_nil_r.
  - destruct (Z.eqb_spec c CH_SLASH); [done|]. rewrite IH. by rewrite <- app_assoc.
Qed.

Lemma split_path_app cur path name :
  plain_name name → split_path cur (path ++ CH_SLASH :: name) = split_path cur path ++ [name].
Proof.
  intros (Hne & _ & Hn). revert cur. induction path as [|c path IH]; intros cur; cbn.
  - rewrite (split_path_plain name []) by done. cbn. unfold flush. rewrite (decide_False (P := name = [])) by done.
    done.
  - destruct (c =? CH_SLASH); [|apply IH]. rewrite IH. by rewrite app_assoc.
Qed.

Lemma copy_name_plain name : Zlength name < VFS_NAME_MAX → ramfs_copy_name (Some name) = name.
Proof. intros Hn. unfold ramfs_copy_name. by apply c_copy_limit_bound. Qed.

(** Looking up a new entry, and everything that was there. *)
Lemma created_lookup s s' d n path name :
  fs_ok s → created s s' (Some d) n → vn_name n = name → plain_name name →
  vfs_lookup s path = Some d → type_of s d = VFS_NODE_DIR → child_named s d name = None →
  vfs_lookup s' (path ++ CH_SLASH :: name) = Some (length (nodes s)) ∧
  ∀ path0 j, vfs_lookup s path0 = Some j → vfs_lookup s' path0 = Some j.
Proof.
  intros Hok Hc Hnm Hpl Hlk Hty Hno. pose proof (cr_roots _ _ _ _ Hc) as [Hr _].
  assert (Hstab : ∀ path0 j, vfs_lookup s path0 = Some j → vfs_lookup s' path0 = Some j).
  { intros path0 j. rewrite !vfs_lookup_resolve by (done || apply Hc). rewrite Hr.
    destruct (vfs_root_node s) as [r|] eqn:Hrt; [|done]. destruct path0 as [|c p]; [done|].
    destruct (c =? CH_SLASH); [|done]. apply (created_resolve s s' (Some d) n); [done|done|].
    apply (root_lt s); [done|by left]. }
  split; [|done]. rewrite vfs_lookup_resolve in Hlk by done.
  rewrite vfs_lookup_resolve by apply Hc. rewrite Hr.
  destruct (vfs_root_node s) as [r|] eqn:Hrt; [|done].
  assert (Hrl : (r < length (nodes s))%nat) by (apply (root_lt s); [done|by left]).
  destruct path as [|c p]; [done|]. cbn [app].
  destruct (c =? CH_SLASH); [|done]. change (c :: p ++ CH_SLASH :: name) with ((c :: p) ++ CH_SLASH :: name).
  rewrite split_path_app, resolve_app by done.
  rewrite (created_resolve s s' (Some d) n r _ d Hc Hok Hrl Hlk). cbn.
  rewrite (created_child s s' (Some d) n d name Hc) by (by eapply resolve_lt).
  rewrite Hno, decide_True by done. done.
Qed.
