(* ===== verification/Files.v ===== *)
(** * The contents of files: properties of [src/kernel/ramfs.c] and [cat]

    The tree part is in [Ramfs]; here are the lemmas on the bytes of a file and
    the properties of the file system as a whole. *)

From S2P Require Import Prelude CString Print Alloc Vfs Ramfs.

(** A byte of a buffer; what is not stored reads as 0. *)
Definition byte_at (l : list Z) (k : Z) : Z := default 0 (l !! Z.to_nat k).

(** The bytes of a file, and the invariant of its buffer: the size fits the
    capacity, the part behind the size is zero, and there is a buffer exactly
    when there are bytes. *)
Definition file_bytes (n : vfs_node) : list Z := take (Z.to_nat (vn_size n)) (vn_bytes n).

Definition file_ok (n : vfs_node) : Prop :=
  0 <= vn_size n <= vn_capacity n ∧ Zlength (vn_bytes n) = vn_capacity n ∧
  drop (Z.to_nat (vn_size n)) (vn_bytes n) = replicate (Z.to_nat (vn_capacity n - vn_size n)) 0 ∧
  (vn_data n = 0 → vn_capacity n = 0) ∧ (vn_data n ≠ 0 → 0 < vn_size n).

(** The node's buffer is a live block of the heap that can hold it. *)
Definition owns `{Allocator H} (h : H) (n : vfs_node) : Prop :=
  vn_data n = 0 ∨ ∃ sz, (vn_data n, sz) ∈ live h ∧ vn_capacity n <= sz.

(** ** Lemmas: buffers *)

Lemma byte_at_app l1 l2 k :
  0 <= k → byte_at (l1 ++ l2) k = if k <? Zlength l1 then byte_at l1 k else byte_at l2 (k - Zlength l1).
Proof.
  intros Hk. unfold byte_at, Zlength. destruct (Z.ltb_spec k (Z.of_nat (length l1))).
  - by rewrite lookup_app_l by lia.
  - rewrite lookup_app_r by lia. do 2 f_equal. lia.
Qed.

Lemma byte_at_take l n k : 0 <= k → byte_at (take (Z.to_nat n) l) k = if k <? n then byte_at l k else 0.
Proof.
  intros Hk. unfold byte_at. destruct (Z.ltb_spec k n).
  - by rewrite lookup_take_lt by lia.
  - by rewrite lookup_take_ge by lia.
Qed.

Lemma byte_at_drop l n k : 0 <= n → 0 <= k → byte_at (drop (Z.to_nat n) l) k = byte_at l (n + k).
Proof. intros. unfold byte_at. rewrite lookup_drop. do 2 f_equal. lia. Qed.

Lemma byte_at_zeros n k : byte_at (replicate n 0) k = 0.
Proof.
  unfold byte_at. destruct (decide (Z.to_nat k < n)%nat).
  - by rewrite lookup_replicate_2.
  - by rewrite lookup_ge_None_2 by (rewrite length_replicate; lia).
Qed.

Lemma byte_at_beyond l k : Zlength l <= k → byte_at l k = 0.
Proof. unfold byte_at, Zlength. intros. by rewrite lookup_ge_None_2 by lia. Qed.

Lemma bytes_ext l1 l2 :
  length l1 = length l2 → (∀ k, 0 <= k < Zlength l1 → byte_at l1 k = byte_at l2 k) → l1 = l2.
Proof.
  intros Hlen Hk. apply list_eq_same_length with (length l1); [done..|].
  intros i x y Hi H1 H2. specialize (Hk (Z.of_nat i) ltac:(unfold Zlength; lia)).
  unfold byte_at in Hk. rewrite Nat2Z.id, H1, H2 in Hk. done.
Qed.

(** The buffer of a well-formed file, byte by byte. *)
Lemma file_byte n k : file_ok n → 0 <= k → byte_at (vn_bytes n) k = byte_at (file_bytes n) k.
Proof.
  intros (Hs & Hl & Hz & _) Hk. unfold file_bytes. rewrite byte_at_take by done.
  destruct (Z.ltb_spec k (vn_size n)); [done|].
  replace k with (vn_size n + (k - vn_size n)) by lia.
  rewrite <- byte_at_drop by lia. rewrite Hz. apply byte_at_zeros.
Qed.

Lemma file_bytes_length n : file_ok n → Zlength (file_bytes n) = vn_size n.
Proof.
  intros (Hs & Hl & _). unfold file_bytes, Zlength in *. rewrite length_take. lia.
Qed.

Lemma zeros_ext l m : Zlength l = m → (∀ k, 0 <= k → byte_at l k = 0) → l = replicate (Z.to_nat m) 0.
Proof.
  intros Hl Hk. apply bytes_ext; [rewrite length_replicate; unfold Zlength in Hl; lia|].
  intros k Hx. rewrite byte_at_zeros. apply Hk. lia.
Qed.

(** A copy into a buffer. *)
Lemma memcpy_spec dst off src :
  0 <= off → off + Zlength src <= Zlength dst →
  ∃ b, ramfs_memcpy dst off src = Some b ∧ Zlength b = Zlength dst ∧
    ∀ k, 0 <= k → byte_at b k =
      if (off <=? k) && (k <? off + Zlength src) then byte_at src (k - off) else byte_at dst k.
Proof.
  intros Ho Hb. unfold ramfs_memcpy. rewrite (proj2 (Z.ltb_ge off 0)) by lia.
  rewrite (proj2 (Z.ltb_ge (Zlength dst) _)) by lia. cbn [orb]. eexists. split; [reflexivity|].
  assert (Hs : 0 <= Zlength src) by (unfold Zlength; lia).
  assert (Ht : Zlength (take (Z.to_nat off) dst) = off).
  { unfold Zlength in *. rewrite length_take. lia. }
  split.
  - unfold Zlength in *. rewrite !length_app, length_take, length_drop. lia.
  - intros k Hk. rewrite byte_at_app, Ht by done.
    destruct (Z.ltb_spec k off).
    + rewrite (proj2 (Z.leb_gt off k)) by lia. cbn [andb]. rewrite byte_at_take by done.
      by rewrite (proj2 (Z.ltb_lt k off)) by lia.
    + rewrite (proj2 (Z.leb_le off k)) by lia. cbn [andb]. rewrite byte_at_app by lia.
      destruct (Z.ltb_spec (k - off) (Zlength src)), (Z.ltb_spec k (off + Zlength src)); try done; try lia.
      rewrite byte_at_drop by lia. f_equal. lia.
Qed.

(** ** Lemmas: growing and writing *)

(** The blocks of everybody else survive, and the pointer [ptr] of the node is
    its old one or a new block. *)
Definition keeps_others `{Allocator H} (n : vfs_node) (ptr : Z) (h h' : H) : Prop :=
  (∀ a t, (a, t) ∈ live h → a ≠ vn_data n → (a, t) ∈ live h') ∧
  (ptr = vn_data n ∨ ∀ t, (ptr, t) ∈ live h → t <= 0).

Lemma grow_spec `{Allocator H} n e h :
  file_ok n → h_inv h → owns h n → vn_capacity n < e <= 2 ^ 63 →
  ∃ buf h', ramfs_grow n e h = Some (buf, h') ∧ h_inv h' ∧
    match buf with
    | None => live h' = live h
    | Some (ptr, bytes, cap) =>
        ptr ≠ 0 ∧ e <= cap ∧ Zlength bytes = cap ∧
        (∀ k, 0 <= k → byte_at bytes k = byte_at (file_bytes n) k) ∧
        (∃ sz, (ptr, sz) ∈ live h' ∧ cap <= sz) ∧ keeps_others n ptr h h' ∧
        length (live h') = (length (live h) + (if decide (vn_data n = 0%Z) then 1 else 0))%nat
    end.
Proof.
  intros Hf Hi Hown He. pose proof Hf as (Hs & Hl & _ & Hd0 & Hd1). unfold ramfs_grow.
  set (cap := if e <? 64 then 64 else e).
  assert (Hcap : 0 < cap <= 2 ^ 63 ∧ e <= cap) by (unfold cap; case_if; btests; lia).
  pose proof (k_alloc_ok cap h Hi ltac:(lia)) as Ha. destruct (k_alloc cap h) as [p h1].
  destruct Ha as [Hi1 [[-> Hlv]|(sz & u1 & u2 & Hp & Hsz & Hu & Hu' & Hdis)]].
  { cbn. by exists None, h1. }
  rewrite (proj2 (Z.eqb_neq p 0)) by done.
  assert (Hzl : Zlength (ramfs_memzero cap) = cap).
  { unfold ramfs_memzero, Zlength. rewrite length_replicate. lia. }
  destruct (decide (vn_data n = 0)) as [Hz|Hnz].
  - rewrite Hz. cbn [Z.eqb negb andb]. do 2 eexists. split; [reflexivity|]. split; [done|].
    split_and!; [done|lia|done| | | |].
    + intros k Hk. unfold ramfs_memzero. rewrite byte_at_zeros, byte_at_beyond; [done|].
      rewrite file_bytes_length by done. specialize (Hd0 Hz). lia.
    + exists sz. split; [rewrite Hu'; apply elem_of_app; right; left|lia].
    + split; [|right; intros t Ht; destruct (Hdis _ _ Ht); lia]. intros a t Ha _.
      rewrite Hu'. rewrite Hu in Ha. apply elem_of_app in Ha as [?|?]; apply elem_of_app;
        [by left|right; by right].
    + rewrite Hu, Hu', !length_app. cbn. lia.
  - rewrite (proj2 (Z.eqb_neq (vn_data n) 0)), (proj2 (Z.ltb_lt 0 (vn_size n))) by (done || auto).
    cbn [negb andb]. fold (file_bytes n).
    destruct (memcpy_spec (ramfs_memzero cap) 0 (file_bytes n)) as (b & -> & Hbl & Hb); [lia| |].
    { rewrite Hzl, file_bytes_length by done. lia. }
    cbn [mbind option_bind]. do 2 eexists. split; [reflexivity|].
    destruct Hown as [|(osz & Hold & Hosz)]; [done|].
    assert (Hin : (vn_data n, osz) ∈ live h1).
    { rewrite Hu'. rewrite Hu in Hold. apply elem_of_app in Hold as [?|?]; apply elem_of_app;
        [by left|right; by right]. }
    apply list_elem_of_split in Hin as (v1 & v2 & Hv).
    destruct (k_free_ok h1 (vn_data n) osz v1 v2 Hi1 Hv) as [Hi2 Hv2]. split; [done|].
    split_and!; [done|lia|by rewrite Hbl| | | |].
    + intros k Hk. rewrite Hb by done. unfold ramfs_memzero. rewrite byte_at_zeros.
      case_if; btests; [by rewrite Z.sub_0_r|]. symmetry.
      rewrite byte_at_beyond; [done|].
      match goal with Hx : (_ && _)%bool = false |- _ => apply andb_false_iff in Hx as [Hx|Hx] end; btests; lia.
    + exists sz. split; [|lia]. rewrite Hv2. specialize (Hd1 Hnz).
      assert (Hne : (p, sz) ≠ (vn_data n, osz)).
      { intros [= -> ->]. destruct (Hdis _ _ Hold); lia. }
      assert (Hin : (p, sz) ∈ live h1) by (rewrite Hu'; apply elem_of_app; right; left).
      rewrite Hv in Hin. apply elem_of_app in Hin as [Hin|[Hin|Hin]%elem_of_cons]; [|done|];
        apply elem_of_app; [by left|by right].
    + split; [|right; intros t Ht; destruct (Hdis _ _ Ht); lia]. intros a t Ha Hne. rewrite Hv2.
      assert (Hin : (a, t) ∈ live h1).
      { rewrite Hu'. rewrite Hu in Ha. apply elem_of_app in Ha as [?|?]; apply elem_of_app;
          [by left|right; by right]. }
      rewrite Hv in Hin. apply elem_of_app in Hin as [Hin|[Hin|Hin]%elem_of_cons];
        [|congruence|]; apply elem_of_app; [by left|by right].
    + rewrite Hv2. assert (Hx : length (live h1) = length (v1 ++ (vn_data n, osz) :: v2)) by (by rewrite Hv).
      rewrite Hu', !length_app in Hx. rewrite Hu, !length_app. cbn in *. lia.
Qed.

Lemma set_data_ok ptr b sz cap n :
  0 < sz <= cap → ptr ≠ 0 → Zlength b = cap → (∀ k, sz <= k → byte_at b k = 0) →
  file_ok (set_data ptr b sz cap n).
Proof.
  intros Hs Hp Hl Hz. split; [cbn; lia|]. split; [done|]. split; [|split; cbn; [done|lia]]. cbn.
  apply zeros_ext; [unfold Zlength in *; rewrite length_drop; lia|].
  intros k Hk. rewrite byte_at_drop by lia. apply Hz. lia.
Qed.

(** A write of at least one byte: out of memory with nothing changed, or the
    bytes are in the file. *)
Lemma ramfs_write_spec `{Allocator H} n off src h :
  file_ok n → h_inv h → owns h n → 0 <= off → 0 < Zlength src → off + Zlength src <= 2 ^ 63 →
  ∃ r n' h', ramfs_write n off true src h = Some (r, n', h') ∧ h_inv h' ∧ file_ok n' ∧ owns h' n' ∧
    (r = 0 ∧ n' = n ∧ live h' = live h ∧ vn_capacity n < off + Zlength src ∨
     r = Zlength src ∧ vn_size n' = Z.max (vn_size n) (off + Zlength src) ∧
     set_data 0 [] 0 0 n' = set_data 0 [] 0 0 n ∧
     (∀ k, 0 <= k → byte_at (file_bytes n') k =
        if (off <=? k) && (k <? off + Zlength src) then byte_at src (k - off)
        else byte_at (file_bytes n) k) ∧
     keeps_others n (vn_data n') h h' ∧
     length (live h') = (length (live h) + (if decide (vn_data n = 0%Z) then 1 else 0))%nat).
Proof.
  intros Hf Hi Hown Ho Hsrc Hmax. pose proof Hf as (Hs & Hl & _ & Hd0 & Hd1). unfold ramfs_write.
  rewrite (proj2 (Z.eqb_neq (Zlength src) 0)) by lia. cbn [negb orb].
  rewrite (u64_small (off + Zlength src)) by (unfold is_u64; lia). set (e := off + Zlength src) in *.
  assert (Hbuf : ∃ buf h1,
    (if vn_capacity n <? e then ramfs_grow n e h
     else Some (Some (vn_data n, vn_bytes n, vn_capacity n), h)) = Some (buf, h1) ∧ h_inv h1 ∧
    match buf with
    | None => live h1 = live h ∧ vn_capacity n < e
    | Some (ptr, bytes, cap) =>
        ptr ≠ 0 ∧ e <= cap ∧ vn_size n <= cap ∧ Zlength bytes = cap ∧
        (∀ k, 0 <= k → byte_at bytes k = byte_at (file_bytes n) k) ∧
        (∃ sz, (ptr, sz) ∈ live h1 ∧ cap <= sz) ∧ keeps_others n ptr h h1 ∧
        length (live h1) = (length (live h) + (if decide (vn_data n = 0%Z) then 1 else 0))%nat
    end).
  { destruct (Z.ltb_spec (vn_capacity n) e) as [Hlt|Hge].
    - destruct (grow_spec n e h Hf Hi Hown ltac:(lia)) as (buf & h1 & -> & Hi1 & Hb).
      exists buf, h1. split; [done|]. split; [done|].
      destruct buf as [[[ptr bytes] cap]|]; [|done]. destruct Hb as (? & ? & ? & ? & ? & ? & ?).
      split; [done|]. split; [lia|]. split; [lia|]. by split_and!.
    - do 2 eexists. split; [reflexivity|]. split; [done|].
      assert (Hnz : vn_data n ≠ 0) by (intros Hz; specialize (Hd0 Hz); lia).
      rewrite decide_False by done. destruct Hown as [|Hown]; [done|].
      split; [done|]. split; [lia|]. split; [lia|]. split; [done|].
      split; [by intros; apply file_byte|]. split; [done|]. split; [by split; [|left]|lia]. }
  destruct Hbuf as (buf & h1 & -> & Hi1 & Hb). cbn [mbind option_bind].
  destruct buf as [[[ptr bytes] cap]|].
  2:{ destruct Hb as [Hlv Hcap]. exists 0, n, h1. split; [done|]. split; [done|]. split; [done|].
      split; [unfold owns in *; by rewrite Hlv|]. by left. }
  destruct Hb as (Hp & Hec & Hsc & Hbl & Hbk & Hlv & Hkeep & Hcnt).
  destruct (memcpy_spec bytes off src Ho ltac:(lia)) as (b & -> & Hbl' & Hb'). cbn [mbind option_bind].
  do 3 eexists. split; [reflexivity|]. split; [done|].
  set (sz := if vn_size n <? e then e else vn_size n).
  assert (Hsz : sz = Z.max (vn_size n) e) by (unfold sz; case_if; btests; lia).
  assert (Hbeyond : ∀ k, sz <= k → byte_at b k = 0).
  { intros k Hk. rewrite Hb' by lia. fold e. rewrite (proj2 (Z.ltb_ge k e)) by lia. rewrite andb_false_r.
    rewrite Hbk by lia. apply byte_at_beyond. rewrite file_bytes_length by done. lia. }
  split; [apply set_data_ok; [lia|done|lia|done]|]. split; [right; exact Hlv|]. right.
  split; [done|]. split; [done|]. split; [by destruct n|]. split; [|by split]. intros k Hk.
  unfold file_bytes at 1. cbn [set_data vn_size vn_bytes]. rewrite byte_at_take by done.
  specialize (Hb' k Hk). fold e in Hb'. rewrite <- (Hbk k Hk), <- Hb'.
  destruct (Z.ltb_spec k sz); [done|]. symmetry. by apply Hbeyond.
Qed.

(** Reading gives the bytes of the file from the offset on. *)
Lemma ramfs_read_spec n off size :
  file_ok n → 0 <= off → 0 < size →
  ramfs_read n off true size = take (Z.to_nat size) (drop (Z.to_nat off) (file_bytes n)).
Proof.
  intros Hf Ho Hs. pose proof (file_bytes_length n Hf) as Hfl.
  unfold ramfs_read. rewrite (proj2 (Z.eqb_neq size 0)) by lia. cbn [negb orb].
  destruct (Z.leb_spec (vn_size n) off).
  - rewrite (drop_ge (file_bytes n)) by (unfold Zlength in *; lia). by rewrite take_nil.
  - unfold file_bytes. rewrite skipn_firstn_comm, take_take. f_equal. case_if; btests; lia.
Qed.

Lemma ramfs_read_written n n' off src :
  file_ok n' → 0 <= off → 0 < Zlength src → off + Zlength src <= vn_size n' →
  (∀ k, 0 <= k → byte_at (file_bytes n') k =
     if (off <=? k) && (k <? off + Zlength src) then byte_at src (k - off)
     else byte_at (file_bytes n) k) →
  ramfs_read n' off true (Zlength src) = src.
Proof.
  intros Hf Ho Hs Hsz Hb. rewrite ramfs_read_spec by done.
  pose proof (file_bytes_length n' Hf) as Hl. apply bytes_ext.
  - rewrite length_take, length_drop. unfold Zlength in *. lia.
  - intros k Hk. rewrite byte_at_take, byte_at_drop by lia.
    assert (Hks : k < Zlength src).
    { unfold Zlength in *. rewrite length_take in Hk. lia. }
    rewrite (proj2 (Z.ltb_lt k _)) by lia. rewrite Hb by lia.
    rewrite (proj2 (Z.leb_le _ _)), (proj2 (Z.ltb_lt _ _)) by lia. cbn [andb]. f_equal. lia.
Qed.

(** ** Lemmas: cat *)

Lemma until_nul_id l : Forall (λ c, c ≠ 0) l → until_nul l = l.
Proof. induction 1 as [|c l Hc _ IH]; cbn; [done|]. by rewrite (proj2 (Z.eqb_neq c 0)), IH. Qed.

Lemma vfs_read_file `{TtyDevice W} i n off size s (w : W) :
  nodes s !! i = Some n → vn_type n = VFS_NODE_FILE → vn_read n = Some FN_RAMFS →
  file_ok n → 0 <= off → 0 < size →
  vfs_read (Some i) off true size s w =
    (take (Z.to_nat size) (drop (Z.to_nat off) (file_bytes n)), w).
Proof.
  intros Hn Ht Hr Hf Ho Hs. unfold vfs_read. rewrite (proj2 (Z.eqb_neq size 0)) by lia. cbn [negb orb].
  rewrite Hn, Ht, Hr. cbn. f_equal. by apply ramfs_read_spec.
Qed.

Lemma cat_loop_spec `{TtyDevice W} i n s (w : W) :
  nodes s !! i = Some n → vn_type n = VFS_NODE_FILE → vn_read n = Some FN_RAMFS → file_ok n →
  vn_size n < 2 ^ 63 → Forall (λ c, c ≠ 0) (file_bytes n) →
  ∀ fuel off, 0 <= off <= vn_size n → vn_size n - off < Z.of_nat fuel →
  cat_loop fuel i off s w = Some (print (drop (Z.to_nat off) (file_bytes n)), w).
Proof.
  intros Hn Ht Hr Hf Hmax Hnz. pose proof (file_bytes_length n Hf) as Hfl.
  induction fuel as [|fuel IH]; intros off Ho Hfuel; [lia|]. cbn [cat_loop].
  rewrite (vfs_read_file i n) by (done || lia).
  set (rest := drop (Z.to_nat off) (file_bytes n)).
  assert (Hrl : Zlength rest = vn_size n - off).
  { unfold rest, Zlength in *. rewrite length_drop. lia. }
  assert (Htl : Zlength (take (Z.to_nat 128) rest) = Z.min 128 (vn_size n - off)).
  { unfold Zlength in *. rewrite length_take. lia. }
  rewrite Htl. destruct (Z.eqb_spec (Z.min 128 (vn_size n - off)) 0).
  - destruct rest; [done|]. unfold Zlength in Hrl. cbn in Hrl. lia.
  - rewrite u64_small by (unfold is_u64; lia). rewrite IH by lia. cbn [mbind option_bind].
    rewrite until_nul_id by (by apply Forall_take, Forall_drop). do 2 f_equal.
    unfold print. rewrite <- fmap_app. f_equal. rewrite <- (take_drop (Z.to_nat 128) rest) at 2. f_equal.
    unfold rest. rewrite drop_drop.
    destruct (decide (128 <= vn_size n - off)).
    + f_equal. lia.
    + rewrite !drop_ge; [done|unfold Zlength in *; lia..].
Qed.

(** ** The file system and the heap together *)

(** Every file's buffer is well formed, is a live heap block that can hold it,
    and belongs to no other node. *)
Definition fs_safe `{Allocator H} (x : fs * H) : Prop :=
  let '(s, h) := x in
  fs_ok s ∧ h_inv h ∧
  (∀ i n, nodes s !! i = Some n → file_ok n ∧ owns h n) ∧
  (∀ i j n m, nodes s !! i = Some n → nodes s !! j = Some m →
     vn_data n = vn_data m → vn_data n ≠ 0 → i = j).

(** What the kernel does with files, and what the rest of it does with the heap
    in between. *)
Inductive fs_step `{Allocator H, TtyDevice W} : fs * H → fs * H → Prop :=
  | fs_create_dir p name s h r s' h' :
      (∀ d, p = Some d → (d < length (nodes s))%nat) →
      ramfs_create_dir p name s h = (r, s', h') → fs_step (s, h) (s', h')
  | fs_create_file p name data s h r s' h' :
      (∀ d, p = Some d → (d < length (nodes s))%nat) → Zlength (default [] data) <= 2 ^ 63 →
      ramfs_create_file_from_buffer p name data s h = (r, s', h') → fs_step (s, h) (s', h')
  | fs_create_device p name rd wr s h r s' h' :
      (∀ d, p = Some d → (d < length (nodes s))%nat) →
      ramfs_create_device p name rd wr s h = (r, s', h') → fs_step (s, h) (s', h')
  | fs_write i off src s h (w : W) r s' h' w' :
      0 <= off → off + Zlength src <= 2 ^ 63 →
      vfs_write (Some i) off true src s h w = Some (r, s', h', w') → fs_step (s, h) (s', h')
  | fs_other_alloc sz s h p h' :
      0 < sz <= 2 ^ 63 → k_alloc sz h = (p, h') → fs_step (s, h) (s, h')
  | fs_other_free p t s h :
      (p, t) ∈ live h → (∀ i n, nodes s !! i = Some n → vn_data n ≠ p) →
      fs_step (s, h) (s, k_free p h).

Lemma owns_grows `{Allocator H} h h' n : heap_grows h h' → owns h n → owns h' n.
Proof. intros [_ Hl] [Hz|(sz & Hin & Hsz)]; [by left|]. right. exists sz. split; [by apply Hl|done]. Qed.

Lemma file_ok_content n : file_ok (content n) ↔ file_ok n.
Proof. done. Qed.

Lemma content_inj_file `{Allocator H} (h : H) n m :
  content n = content m → (file_ok n ↔ file_ok m) ∧ (owns h n ↔ owns h m) ∧ vn_data n = vn_data m.
Proof.
  intros Hc. assert (Hd : vn_data n = vn_data m) by exact (f_equal vn_data Hc).
  assert (Hk : vn_capacity n = vn_capacity m) by exact (f_equal vn_capacity Hc).
  split; [by rewrite <- (file_ok_content n), Hc|]. split; [|done]. unfold owns. by rewrite Hd, Hk.
Qed.

Lemma safe_fresh `{Allocator H} s h h' ptr sz i n :
  fs_safe (s, h) → fresh_block h h' ptr sz → nodes s !! i = Some n → vn_data n ≠ ptr.
Proof.
  intros (_ & _ & Hf & _) (Hp & _ & Hfr) Hn Heq. destruct (Hf i n Hn) as [(Hs & _ & _ & _ & Hd) [|(t & Ht & Hc)]];
    [congruence|]. rewrite Heq in Ht. specialize (Hfr t Ht). specialize (Hd ltac:(congruence)). lia.
Qed.

(** Adding a node. *)
Lemma created_safe `{Allocator H} s s' h h' p n0 :
  fs_safe (s, h) → created s s' p n0 → heap_grows h h' → file_ok n0 → owns h' n0 →
  (vn_data n0 ≠ 0 → ∀ i n, nodes s !! i = Some n → vn_data n ≠ vn_data n0) →
  fs_safe (s', h').
Proof.
  intros (Hok & Hi & Hf & Hd) Hc Hg Hf0 Ho0 Hfr.
  assert (Hcases : ∀ i n, nodes s' !! i = Some n →
    (∃ m, nodes s !! i = Some m ∧ content n = content m) ∨
    i = length (nodes s) ∧ content n = content n0).
  { intros i n Hn. pose proof (lookup_lt_Some _ _ _ Hn) as Hl. rewrite (cr_length _ _ _ _ Hc) in Hl.
    destruct (decide (i = length (nodes s))) as [->|Hne].
    - right. pose proof (cr_new _ _ _ _ Hc) as Hnew. rewrite Hn in Hnew. by apply (inj Some) in Hnew.
    - left. pose proof (cr_old _ _ _ _ Hc i ltac:(lia)) as Hold. rewrite Hn in Hold.
      destruct (nodes s !! i) as [m|]; [|done]. exists m. split; [done|]. by apply (inj Some) in Hold. }
  split; [apply Hc|]. split; [apply Hg|]. split.
  - intros i n Hn. destruct (Hcases i n Hn) as [(m & Hm & Hcm)|[_ Hcm]];
      destruct (content_inj_file h' n _ Hcm) as (-> & -> & _); [|done].
    destruct (Hf i m Hm). split; [done|]. by eapply owns_grows.
  - intros i j n m Hn Hm Heq Hnz.
    destruct (Hcases i n Hn) as [(n1 & Hn1 & Hc1)|[-> Hc1]],
      (Hcases j m Hm) as [(m1 & Hm1 & Hc2)|[-> Hc2]]; [| | |done];
      apply (f_equal vn_data) in Hc1, Hc2; cbn in Hc1, Hc2.
    + apply (Hd i j n1 m1); congruence.
    + exfalso. apply (Hfr ltac:(congruence) i n1 Hn1). congruence.
    + exfalso. apply (Hfr ltac:(congruence) j m1 Hm1). congruence.
Qed.

Lemma empty_file_ok n : vn_data n = 0 → vn_bytes n = [] → vn_size n = 0 → vn_capacity n = 0 → file_ok n.
Proof.
  intros H1 H2 H3 H4. unfold file_ok. rewrite H1, H2, H3, H4.
  split; [lia|]. split; [done|]. split; [done|]. split; [done|lia].
Qed.

Lemma outcome_safe `{Allocator H} s s' h h' p n r :
  fs_safe (s, h) → outcome s p n r s' → heap_grows h h' →
  (r ≠ None → file_ok n ∧ owns h' n ∧
     (vn_data n ≠ 0 → ∀ i m, nodes s !! i = Some m → vn_data m ≠ vn_data n)) →
  fs_safe (s', h').
Proof.
  intros Hs Hout Hg Hn. destruct Hout as [[-> ->]|[[-> Hc]|[-> Hc]]].
  - destruct Hs as (? & ? & Hf & ?). split; [done|]. split; [apply Hg|]. split; [|done].
    intros i m Hm. destruct (Hf i m Hm). split; [done|]. by eapply owns_grows.
  - eapply created_safe; [done|done|done|by apply empty_file_ok|by left|done].
  - destruct (Hn ltac:(done)) as (? & ? & ?). by eapply created_safe.
Qed.

Lemma file_node_safe `{Allocator H} s name data ptr h h' :
  data = [] ∨ fresh_block h h' ptr (Zlength data) →
  file_ok (file_node s name data ptr) ∧ owns h' (file_node s name data ptr).
Proof.
  intros Hd. unfold file_node. case_decide as He; [split; [by apply empty_file_ok|by left]|].
  destruct Hd as [|(Hp & (t & Ht & Hin) & _)]; [done|].
  assert (0 < Zlength data) by (destruct data; [done|unfold Zlength; cbn; lia]). split.
  - apply set_data_ok; [lia|done|done|]. intros k Hk. by apply byte_at_beyond.
  - right. cbn. by exists t.
Qed.

(** Replacing a node by its new contents. *)
Lemma node_upd_ok i n n' s :
  fs_ok s → nodes s !! i = Some n →
  set_data 0 [] 0 0 n' = set_data 0 [] 0 0 n → fs_ok (node_upd i (λ _, n') s).
Proof.
  intros Hok Hn Heq.
  assert (Hfld : ∀ A (f : vfs_node → A) d j, (∀ m, f (set_data 0 [] 0 0 m) = f m) →
    node_field f d (node_upd i (λ _, n') s) j = node_field f d s j).
  { intros A f d j Hf. rewrite node_field_upd. case_decide as Hj; [|done]. subst j.
    unfold node_field. rewrite Hn. by rewrite <- (Hf n), <- (Hf n'), Heq. }
  assert (Hk : ∀ d, kids (node_upd i (λ _, n') s) d = kids s d).
  { intros d. unfold kids. rewrite nodes_upd_length. apply filter_ext_elem. intros j _.
    unfold parent_of. by rewrite Hfld. }
  constructor.
  - intros j d. unfold parent_of. rewrite Hfld by done. apply (ok_parent s Hok).
  - intros d Hd. rewrite nodes_upd_length in Hd. rewrite Hk. unfold first_of. rewrite Hfld by done.
    eapply chain_frame; [|by apply (ok_chain s Hok)]. intros j _. unfold next_of. by rewrite Hfld.
  - intros j. unfold name_of. rewrite Hfld by done. apply (ok_names s Hok).
  - intros r Hr. rewrite nodes_upd_length. unfold parent_of, type_of. rewrite !Hfld by done.
    by apply (ok_roots s Hok).
Qed.

(** Writing to a node of a safe file system. *)
Lemma write_safe `{Allocator H} s h i n off src r n' h' :
  fs_safe (s, h) → nodes s !! i = Some n → 0 <= off → 0 < Zlength src → off + Zlength src <= 2 ^ 63 →
  ramfs_write n off true src h = Some (r, n', h') → fs_safe (node_upd i (λ _, n') s, h').
Proof.
  intros (Hok & Hi & Hf & Hd) Hn Ho Hs Hm Hw. destruct (Hf i n Hn) as [Hfn Hon].
  destruct (ramfs_write_spec n off src h Hfn Hi Hon Ho Hs Hm) as (r1 & n1 & h1 & Hw1 & Hi1 & Hf1 & Ho1 & Hres).
  rewrite Hw1 in Hw. injection Hw as <- <- <-.
  assert (Hsd : set_data 0 [] 0 0 n1 = set_data 0 [] 0 0 n)
    by (destruct Hres as [(_ & -> & _)|(_ & _ & ? & _)]; done).
  assert (Hkeep : keeps_others n (vn_data n1) h h1).
  { destruct Hres as [(_ & -> & Hlv & _)|(_ & _ & _ & _ & Hk & _)]; [|done].
    split; [intros a t Ha _; by rewrite Hlv|by left]. }
  destruct Hkeep as [Hkeep Hptr].
  assert (Hlk : ∀ j m, nodes (node_upd i (λ _, n1) s) !! j = Some m →
    j = i ∧ m = n1 ∨ j ≠ i ∧ nodes s !! j = Some m).
  { intros j m Hj. unfold node_upd in Hj. cbn in Hj. destruct (decide (j = i)) as [->|Hne].
    - rewrite list_lookup_alter_eq, Hn in Hj. injection Hj as <-. by left.
    - rewrite list_lookup_alter_ne in Hj by done. by right. }
  assert (Hother : ∀ j m, j ≠ i → nodes s !! j = Some m → vn_data m ≠ 0 →
    vn_data m ≠ vn_data n ∧ vn_data m ≠ vn_data n1).
  { intros j m Hj Hm' Hnz. assert (Hmn : vn_data m ≠ vn_data n) by (intros He; apply Hj; by eapply Hd).
    split; [done|]. destruct Hptr as [->|Hfr]; [done|]. intros He.
    destruct (Hf j m Hm') as [(? & _ & _ & _ & Hpos) [|(t & Ht & Hc)]]; [done|].
    rewrite He in Ht. specialize (Hfr t Ht). specialize (Hpos Hnz). lia. }
  split; [by eapply node_upd_ok|]. split; [done|]. split.
  - intros j m [[-> ->]|[Hj Hm']]%Hlk; [done|]. destruct (Hf j m Hm') as [? Hom]. split; [done|].
    destruct (decide (vn_data m = 0)) as [|Hnz]; [by left|].
    destruct Hom as [|(t & Ht & Hc)]; [done|]. right. exists t. split; [|done].
    apply Hkeep; [done|]. by apply (Hother j m Hj Hm' Hnz).
  - intros j k m1 m2 [[-> ->]|[Hj Hm1]]%Hlk [[-> ->]|[Hk Hm2]]%Hlk Heq Hnz; [done| | |].
    + exfalso. destruct (Hother k m2 Hk Hm2 ltac:(congruence)). congruence.
    + exfalso. destruct (Hother j m1 Hj Hm1 Hnz). congruence.
    + by eapply Hd.
Qed.

Lemma fs_empty_safe `{Allocator H} (h : H) : h_inv h → fs_safe (MkFs [] None None 1, h).
Proof.
  intros Hi. split; [|split; [done|split; [by intros i n|by intros i j n m]]].
  constructor; [done|intros d Hd; cbn in Hd; lia| |by intros r [|]]. intros i.
  unfold name_of, node_field. cbn [nodes]. rewrite lookup_nil. done.
Qed.

(** The three constructors. *)
Lemma create_dir_safe `{Allocator H} p name s h r s' h' :
  fs_safe (s, h) → (∀ d, p = Some d → (d < length (nodes s))%nat) →
  ramfs_create_dir p name s h = (r, s', h') → fs_safe (s', h').
Proof.
  intros Hs Hp He. pose proof Hs as (Hok & Hi & _). pose proof (create_dir_outcome s p name h Hok Hp) as Ho.
  rewrite He in Ho. destruct Ho as [Hg Ho]. eapply outcome_safe; [done|done|by apply Hg|]. intros _.
  split; [by apply empty_file_ok|]. split; [by left|done].
Qed.

Lemma create_file_safe `{Allocator H} p name data s h r s' h' :
  fs_safe (s, h) → (∀ d, p = Some d → (d < length (nodes s))%nat) → Zlength (default [] data) <= 2 ^ 63 →
  ramfs_create_file_from_buffer p name data s h = (r, s', h') → fs_safe (s', h').
Proof.
  intros Hs Hp Hm He. pose proof Hs as (Hok & Hi & _). pose proof (create_file_outcome s p name h Hok Hp data) as Ho.
  rewrite He in Ho. destruct Ho as (ptr & Ho & Hg). destruct (Hg Hi Hm) as [Hgr Hfb].
  eapply outcome_safe; [done|done|done|]. intros Hr.
  assert (Hcase : default [] data = [] ∨ fresh_block h h' ptr (Zlength (default [] data))).
  { destruct (decide (default [] data = [])); [by left|]. right. by apply Hfb. }
  destruct (file_node_safe s name (default [] data) ptr h h' Hcase) as [Hfo Hoo].
  split; [done|]. split; [done|]. unfold file_node. case_decide; [done|]. intros _ j m Hj.
  destruct Hcase as [|Hfr]; [done|]. by eapply safe_fresh.
Qed.

Lemma create_device_safe `{Allocator H} p name rd wr s h r s' h' :
  fs_safe (s, h) → (∀ d, p = Some d → (d < length (nodes s))%nat) →
  ramfs_create_device p name rd wr s h = (r, s', h') → fs_safe (s', h').
Proof.
  intros Hs Hp He. pose proof Hs as (Hok & Hi & _). pose proof (create_device_outcome s p name h Hok Hp rd wr) as Ho.
  rewrite He in Ho. destruct Ho as [Hg Ho]. eapply outcome_safe; [done|done|by apply Hg|]. intros _.
  split; [by apply empty_file_ok|]. split; [by left|done].
Qed.

Lemma fs_step_safe `{Allocator H, TtyDevice W} x y : fs_step x y → fs_safe x → fs_safe y.
Proof.
  intros Hst Hs. destruct Hst as [p name s h r s' h' Hp He|p name data s h r s' h' Hp Hm He
    |p name rd wr s h r s' h' Hp He|i off src s h w r s' h' w' Ho Hm He|sz s h p h' Hsz He|p t s h Hin Hfr];
    pose proof Hs as (Hok & Hi & Hf & Hd).
  - by eapply create_dir_safe.
  - by eapply create_file_safe.
  - by eapply create_device_safe.
  - unfold vfs_write in He. destruct (Z.eqb_spec (Zlength src) 0) as [Hz|Hz]; cbn [negb orb] in He; [by injection He as _ <- <- _|].
    destruct (nodes s !! i) as [n|] eqn:Hn; [|by injection He as _ <- <- _].
    destruct (is_file_or_device (vn_type n)); cbn [negb] in He; [|by injection He as _ <- <- _].
    destruct (vn_write n) as [[|]|]; [| |by injection He as _ <- <- _].
    + destruct (ramfs_write n off true src h) as [[[r1 n1] h1]|] eqn:Hw; [|done].
      cbn in He. injection He as _ <- <- _. eapply write_safe; [done|done|done| |done|done].
      unfold Zlength in *. lia.
    + destruct (dev_write src w). by injection He as _ <- <- _.
  - pose proof (k_alloc_grows sz h Hi Hsz) as Ha. rewrite He in Ha. destruct Ha as [Hg _].
    split; [done|]. split; [apply Hg|]. split; [|done]. intros i n Hn. destruct (Hf i n Hn).
    split; [done|]. by eapply owns_grows.
  - apply list_elem_of_split in Hin as (u1 & u2 & Hu).
    destruct (k_free_ok h p t u1 u2 Hi Hu) as [Hi' Hl]. split; [done|]. split; [done|]. split; [|done].
    intros i n Hn. destruct (Hf i n Hn) as [? Ho]. split; [done|].
    destruct Ho as [|(sz & Hin & Hc)]; [by left|]. right. exists sz. split; [|done].
    rewrite Hl. rewrite Hu in Hin. apply elem_of_app in Hin as [?|[Heq|?]%elem_of_cons]; apply elem_of_app;
      [by left| |by right]. exfalso. injection Heq as Heq _. by apply (Hfr i n Hn).
Qed.

(** ** Properties *)


#[local] Instance no_tty : TtyDevice unit :=
  {| dev_read _ w := ([], w); dev_write _ w := (0, w); con_put_char _ w := w |}.


(** C28: writing a file. With the offset and length within [2^63], a write either
    reports 0 bytes, with file and heap as they were, which happens only when the
    buffer has to grow; or it writes every byte: the file is the old one with the
    new bytes at the offset, extended if necessary, with zeros in a gap; reading
    the same range back gives what was written; and at most one block more is
    live (the old buffer is freed). *)
Theorem ramfs_write_correct `{Allocator H} n off src h :
  file_ok n → h_inv h → owns h n → 0 <= off → 0 < Zlength src → off + Zlength src <= 2 ^ 63 →
  ∃ r n' h', ramfs_write n off true src h = Some (r, n', h') ∧ h_inv h' ∧ file_ok n' ∧
    (r = 0 ∧ n' = n ∧ live h' = live h ∧ vn_capacity n < off + Zlength src ∨
     r = Zlength src ∧ vn_size n' = Z.max (vn_size n) (off + Zlength src) ∧
     (∀ k, 0 <= k → byte_at (file_bytes n') k =
        if (off <=? k) && (k <? off + Zlength src) then byte_at src (k - off)
        else byte_at (file_bytes n) k) ∧
     ramfs_read n' off true (Zlength src) = src ∧
     length (live h') = (length (live h) + (if decide (vn_data n = 0%Z) then 1 else 0))%nat).
Proof.
  intros Hf Hi Hown Ho Hs Hm.
  destruct (ramfs_write_spec n off src h Hf Hi Hown Ho Hs Hm) as (r & n' & h' & Hw & Hi' & Hf' & _ & Hres).
  exists r, n', h'. split; [done|]. split; [done|]. split; [done|].
  destruct Hres as [Hres|(Hr & Hsz & _ & Hb & _ & Hl)]; [by left|]. right.
  split; [done|]. split; [done|]. split; [done|]. split; [|done].
  apply (ramfs_read_written n); [done|done|done|lia|done].
Qed.

Definition sample_file : vfs_node :=
  MkNode 1 (s2z "a") VFS_NODE_FILE None None None 0 [] 0 0 (Some FN_RAMFS) (Some FN_RAMFS).

Lemma ramfs_write_correct_witness :
  let h := MkArena 16 100000 [] in
  ∃ r n' h', ramfs_write sample_file 2 true [65; 66] h = Some (r, n', h') ∧ r = 2 ∧
    file_bytes n' = [0; 0; 65; 66] ∧ ramfs_read n' 2 true 2 = [65; 66].
Proof.
  intros h. assert (Hi : h_inv h).
  { split; [cbn; lia|]. split; [apply NoDup_nil_2|]. intros a t Ha. by apply not_elem_of_nil in Ha. }
  destruct (ramfs_write_correct sample_file 2 [65; 66] h) as (r & n' & h' & Hw & _ & _ & Hres);
    [by apply empty_file_ok|done|by left|lia|unfold Zlength; cbn [length]; lia|unfold Zlength; cbn [length]; lia|].
  exists r, n', h'. split; [exact Hw|]. injection Hw as Hr Hn Hh.
  split; [by rewrite <- Hr|]. split; [by rewrite <- Hn|].
  destruct Hres as [(H0 & _)|(_ & _ & _ & Hread & _)]; [rewrite <- Hr in H0; discriminate|exact Hread].
Defined.

(** The heap is not asked for more than it has: the write is past the end of
    the address space and the end wraps around to a small number. The model's
    [None]: the copy leaves the buffer. *)
Theorem ramfs_write_wraps `{Allocator H} n off src h :
  file_ok n → 0 < Zlength src → off < 2 ^ 64 → 2 ^ 64 <= off + Zlength src →
  off + Zlength src - 2 ^ 64 <= vn_capacity n < 2 ^ 63 → 2 ^ 63 <= off →
  ramfs_write n off true src h = None.
Proof.
  intros (Hs & Hl & _) Hsrc Ho1 Ho2 Hc Ho3. unfold ramfs_write.
  rewrite (proj2 (Z.eqb_neq (Zlength src) 0)) by lia. cbn [negb orb].
  assert (He : u64 (off + Zlength src) = off + Zlength src - 2 ^ 64).
  { assert (Zlength src < 2 ^ 64 ∨ 2 ^ 64 <= Zlength src) as [|] by lia.
    - unfold u64. rewrite <- (Z.mod_small (off + Zlength src - 2 ^ 64) (2 ^ 64)) by lia.
      rewrite <- (Z.mod_add (off + Zlength src - 2 ^ 64) 1 (2 ^ 64)) by lia. f_equal. lia.
    - exfalso. lia. }
  rewrite He, (proj2 (Z.ltb_ge (vn_capacity n) _)) by lia. cbn [mbind option_bind].
  unfold ramfs_memcpy. rewrite (proj2 (Z.ltb_lt (Zlength (vn_bytes n)) _)) by lia.
  by rewrite orb_true_r.
Qed.

(** Creating a file and finding it again. In a directory without an entry of
    that name, [ramfs_create_file_from_buffer] either fails for lack of memory,
    and then no path changes its meaning; or the path of the directory followed
    by the name leads to a file with exactly the given bytes, and every path that
    led somewhere still leads there. *)
Theorem ramfs_create_then_lookup `{Allocator H} s h path d name data :
  fs_ok s → vfs_lookup s path = Some d → type_of s d = VFS_NODE_DIR →
  vfs_find_child s (Some d) name = None → plain_name name → data ≠ [] →
  let '(r, s', h') := ramfs_create_file_from_buffer (Some d) (Some name) (Some data) s h in
  (∀ path0 j, vfs_lookup s path0 = Some j → vfs_lookup s' path0 = Some j) ∧
  (r = None ∨
   ∃ n, r = Some (length (nodes s)) ∧ vfs_lookup s' (path ++ CH_SLASH :: name) = r ∧
     nodes s' !! length (nodes s) = Some n ∧ vn_type n = VFS_NODE_FILE ∧ vn_name n = name ∧
     file_bytes n = data).
Proof.
  intros Hok Hlk Hty Hno Hpl Hne.
  assert (Hd : (d < length (nodes s))%nat).
  { unfold type_of, node_field in Hty. destruct (nodes s !! d) eqn:Hx; [|done]. by eapply lookup_lt_Some. }
  rewrite find_child_ref in Hno by done.
  pose proof (create_file_outcome s (Some d) (Some name) h Hok ltac:(by intros ? [= <-]) (Some data)) as Hout.
  destruct (ramfs_create_file_from_buffer _ _ _ s h) as [[r s'] h']. destruct Hout as (ptr & Hout & _).
  cbn [default] in Hout. unfold file_node in Hout. rewrite decide_False in Hout by done.
  destruct Hout as [[-> ->]|[[-> Hc]|[-> Hc]]].
  - split; [done|by left].
  - split; [|by left]. intros path0 j. rewrite !vfs_lookup_resolve by (done || apply Hc).
    destruct (cr_roots _ _ _ _ Hc) as [-> _].
    destruct (vfs_root_node s) as [rt|] eqn:Hrt; [|done]. destruct path0 as [|c p]; [done|].
    destruct (c =? CH_SLASH); [|done]. eapply created_resolve; [done|done|].
    apply (root_lt s); [done|by left].
  - set (nn := set_data _ _ _ _ _) in Hc.
    assert (Hnm : vn_name nn = name) by (apply copy_name_plain, Hpl).
    destruct (created_lookup s s' d nn path name Hok Hc Hnm Hpl Hlk Hty Hno) as [Hnew Hold].
    split; [done|]. right. pose proof (cr_new _ _ _ _ Hc) as Hn.
    destruct (nodes s' !! length (nodes s)) as [n|]; [|done]. apply (inj Some) in Hn. exists n.
    split; [done|]. split; [done|]. split; [done|]. split; [exact (f_equal vn_type Hn)|].
    split; [rewrite <- Hnm; exact (f_equal vn_name Hn)|].
    assert (Hbytes : vn_bytes n = data) by exact (f_equal vn_bytes Hn).
    assert (Hsize : vn_size n = Zlength data) by exact (f_equal vn_size Hn).
    unfold file_bytes. rewrite Hbytes, Hsize. apply take_ge. unfold Zlength. lia.
Qed.

Lemma ramfs_create_then_lookup_witness :
  let '(r, s', _) := ramfs_create_file_from_buffer (Some 1%nat) (Some (s2z "f")) (Some [65; 66])
                       sample_fs (MkArena 16 1000 []) in
  r = Some 2%nat ∧ vfs_lookup s' (s2z "/dev/f") = Some 2%nat ∧ vfs_lookup s' (s2z "/dev") = Some 1%nat.
Proof.
  assert (Hpl : plain_name (s2z "f")) by (split; [done|]; split; [done|]; by repeat constructor).
  pose proof (ramfs_create_then_lookup sample_fs (MkArena 16 1000 []) (s2z "/dev") 1%nat (s2z "f") [65; 66]
    sample_fs_ok eq_refl eq_refl eq_refl Hpl ltac:(discriminate)) as Hc.
  assert (Hr : (ramfs_create_file_from_buffer (Some 1%nat) (Some (s2z "f")) (Some [65; 66])
                  sample_fs (MkArena 16 1000 [])).1.1 = Some 2%nat) by reflexivity.
  destruct (ramfs_create_file_from_buffer _ _ _ sample_fs _) as [[r s'] h']. cbn in Hr. subst r.
  destruct Hc as [Hold [Hx|(n & _ & Hnew & _)]]; [discriminate|].
  split; [reflexivity|]. split; [exact Hnew|]. apply Hold. reflexivity.
Defined.

(** [cat] prints a file. For a well-formed file without NUL bytes it ends, having
    printed exactly the bytes of the file, 128 at a time, and a line feed if the
    file is not empty and does not end in one; the terminal's own state is not
    touched. *)
Theorem cmd_cat_prints_file `{TtyDevice W} fuel args path i n s (w : W) :
  copy_first_arg args VFS_CMD_PATH_MAX = (true, path) →
  vfs_lookup s path = Some i → nodes s !! i = Some n →
  vn_type n = VFS_NODE_FILE → vn_read n = Some FN_RAMFS → file_ok n → vn_size n < 2 ^ 63 →
  Forall (λ c, c ≠ 0) (file_bytes n) → vn_size n < Z.of_nat fuel →
  cmd_cat fuel args s w =
    Some (print (file_bytes n) ++
          match last (file_bytes n) with
          | Some c => if c =? CH_LF then [] else newline
          | None => []
          end, w).
Proof.
  intros Ha Hlk Hn Ht Hr Hf Hm Hnz Hfuel. unfold cmd_cat. rewrite Ha. cbn [negb]. rewrite Hlk.
  unfold type_of, size_of, node_field. rewrite Hn, Ht. rewrite decide_False by (intros Hx; by apply Hx).
  pose proof (file_bytes_length n Hf) as Hl. pose proof Hf as (Hs & _).
  rewrite (cat_loop_spec i n) by (done || lia). cbn [mbind option_bind Z.to_nat]. rewrite drop_0.
  destruct (Z.ltb_spec 0 (vn_size n)) as [Hpos|Hzero].
  - rewrite (vfs_read_file i n) by (done || lia).
    rewrite last_lookup. change (Z.to_nat 1) with 1%nat.
    replace (Z.to_nat (vn_size n - 1)) with (pred (length (file_bytes n))) by (unfold Zlength in Hl; lia).
    destruct (lookup_lt_is_Some_2 (file_bytes n) (pred (length (file_bytes n)))) as [c Hc];
      [unfold Zlength in Hl; lia|].
    rewrite (drop_S _ _ _ Hc). cbn [take]. by rewrite Hc.
  - destruct (file_bytes n); [by rewrite app_nil_r|]. unfold Zlength in Hl. cbn in Hl. lia.
Qed.

Lemma cmd_cat_prints_file_witness :
  let n := set_data 64 [72; 105] 2 2 sample_file in
  let s := MkFs [sample_dir [] None (Some 1%nat) None; set_parent (Some 0%nat) n] (Some 0%nat) None 3 in
  cmd_cat 3 (Some (s2z " /a")) s tt = Some (print [72; 105] ++ newline, tt).
Proof.
  intros n s. rewrite (cmd_cat_prints_file 3 _ (s2z "/a") 1%nat (set_parent (Some 0%nat) n) s tt); try reflexivity.
  - apply (set_data_ok 64 [72; 105] 2 2); [lia|discriminate|reflexivity|].
    intros k Hk. apply byte_at_beyond. exact Hk.
  - by repeat constructor.
Defined.
