(* ===== verification/Fd.v ===== *)
(** * File descriptors ([src/kernel/fd.c])

    One table of 32 entries. A block under [fd_lock] is one step; the reads and
    writes between two such blocks go through [vfs_read] and [vfs_write] of
    [Ramfs]. *)

From S2P Require Import Prelude CString Print Alloc Vfs Ramfs Files.

Definition FD_STDIN : Z := 0.
Definition FD_STDOUT : Z := 1.
Definition FD_STDERR : Z := 2.
Definition FD_INVALID : Z := -1.
Definition FD_TABLE_SIZE : Z := 32.
Definition FD_CMD_PATH_MAX : Z := 128.

Inductive fd_type := FD_TYPE_UNUSED | FD_TYPE_CONSOLE | FD_TYPE_VFS_NODE.

#[global] Instance fd_type_eq_dec : EqDecision fd_type.
Proof. solve_decision. Defined.

Record fd_entry := MkFd {
  used : bool;
  fd_kind : fd_type;
  object : option nat;
  offset : Z;
  readable : bool;
  writable : bool
}.

#[global] Instance fd_entry_inhabited : Inhabited fd_entry :=
  populate (MkFd false FD_TYPE_UNUSED None 0 false false).

Abbreviation fd_table := (list fd_entry).

Definition cleared : fd_entry := MkFd false FD_TYPE_UNUSED None 0 false false.

Definition fd_clear_entry (index : Z) (t : fd_table) : fd_table := arr_set t index cleared.

Definition fd_type_name (k : fd_type) : cstr :=
  match k with
  | FD_TYPE_UNUSED => s2z "unused"
  | FD_TYPE_CONSOLE => s2z "console"
  | FD_TYPE_VFS_NODE => s2z "vfs"
  end.

Definition fd_set_vfs_node (fd : Z) (node : option nat) (r w : bool) (t : fd_table) : fd_table :=
  arr_set t fd (MkFd true FD_TYPE_VFS_NODE node 0 r w).

Definition fd_set_console (fd : Z) (r w : bool) (t : fd_table) : fd_table :=
  arr_set t fd (MkFd true FD_TYPE_CONSOLE None 0 r w).

Definition fd_init (s : fs) (t : fd_table) : fd_table * output :=
  let t := foldl (λ t i, fd_clear_entry i t) t (seqZ 0 FD_TABLE_SIZE) in
  let tty0 := vfs_lookup s (s2z "/dev/tty0") in
  let t :=
    match tty0 with
    | Some _ => fd_set_vfs_node FD_STDERR tty0 false true
                  (fd_set_vfs_node FD_STDOUT tty0 false true (fd_set_vfs_node FD_STDIN tty0 true false t))
    | None => fd_set_console FD_STDERR false true
                (fd_set_console FD_STDOUT false true (fd_set_console FD_STDIN false false t))
    end in
  (t, color_line "FD table initialized" COLOR_GREEN_ON_BLACK).

(** The loop of [fd_alloc_locked] from index [i] on. *)
Fixpoint fd_alloc_from (fuel : nat) (i : Z) (t : fd_table) : Z * fd_table :=
  match fuel with
  | O => (FD_INVALID, t)
  | S fuel' =>
      let e := arr_get t i in
      if negb (used e) then
        (i, arr_set t i (MkFd true (fd_kind e) (object e) (offset e) (readable e) (writable e)))
      else fd_alloc_from fuel' (i + 1) t
  end.

Definition fd_alloc_locked (t : fd_table) : Z * fd_table :=
  fd_alloc_from (Z.to_nat (FD_TABLE_SIZE - 3)) 3 t.

(** [None] is a null path. *)
Definition fd_open (path : option cstr) (s : fs) (t : fd_table) : Z * fd_table :=
  match path with
  | None => (FD_INVALID, t)
  | Some p =>
      match vfs_lookup s p with
      | None => (FD_INVALID, t)
      | Some node =>
          if negb (is_file_or_device (type_of s node)) then (FD_INVALID, t)
          else
            let '(fd, t) := fd_alloc_locked t in
            if fd =? FD_INVALID then (fd, t)
            else (fd, arr_set t fd (MkFd (used (arr_get t fd)) FD_TYPE_VFS_NODE (Some node) 0 true true))
      end
  end.

Definition fd_bad (fd : Z) (buffer : bool) (size : Z) : bool :=
  (fd <? 0) || (FD_TABLE_SIZE <=? fd) || negb buffer || (size =? 0).

(** The second locked block of a read or write: the offset moves if the
    descriptor still denotes the same object. *)
Definition fd_advance (fd count : Z) (entry : fd_entry) (t : fd_table) : fd_table :=
  let e := arr_get t fd in
  if used e && bool_decide (object e = object entry) then
    arr_set t fd (MkFd (used e) (fd_kind e) (object e) (u64 (offset e + count)) (readable e) (writable e))
  else t.

(** The result, the bytes stored in the buffer, the table and the terminal. *)
Definition fd_read `{TtyDevice W} (fd : Z) (buffer : bool) (size : Z) (s : fs) (t : fd_table) (w : W)
    : Z * list Z * fd_table * W :=
  if fd_bad fd buffer size then (-1, [], t, w)
  else
    let entry := arr_get t fd in
    if negb (used entry) || negb (readable entry) then (-1, [], t, w)
    else match fd_kind entry with
         | FD_TYPE_VFS_NODE =>
             let '(bytes, w) := vfs_read (object entry) (offset entry) buffer size s w in
             let t := match object entry with
                      | Some node => if decide (type_of s node = VFS_NODE_FILE)
                                     then fd_advance fd (Zlength bytes) entry t else t
                      | None => t
                      end in
             (s64 (Zlength bytes), bytes, t, w)
         | _ => (-1, [], t, w)
         end.

(** [None] is a copy outside a file's buffer. *)
Definition fd_write `{Allocator H, TtyDevice W} (fd : Z) (buffer : bool) (src : list Z)
    (s : fs) (t : fd_table) (h : H) (w : W) : option (Z * fs * fd_table * H * W) :=
  let size := Zlength src in
  if fd_bad fd buffer size then Some (-1, s, t, h, w)
  else
    let entry := arr_get t fd in
    if negb (used entry) || negb (writable entry) then Some (-1, s, t, h, w)
    else match fd_kind entry with
         | FD_TYPE_CONSOLE => Some (s64 size, s, t, h, foldl (λ w c, con_put_char c w) w src)
         | FD_TYPE_VFS_NODE =>
             '(written, s, h, w) ← vfs_write (object entry) (offset entry) buffer src s h w;
             let t := match object entry with
                      | Some node => if decide (type_of s node = VFS_NODE_FILE)
                                     then fd_advance fd written entry t else t
                      | None => t
                      end in
             Some (s64 written, s, t, h, w)
         | FD_TYPE_UNUSED => Some (-1, s, t, h, w)
         end.

Definition fd_close (fd : Z) (t : fd_table) : Z * fd_table :=
  if (fd <? 0) || (FD_TABLE_SIZE <=? fd) then (-1, t)
  else if (fd =? FD_STDIN) || (fd =? FD_STDOUT) || (fd =? FD_STDERR) then (-1, t)
  else if negb (used (arr_get t fd)) then (-1, t)
  else (0, fd_clear_entry fd t).

Definition fd_count_used (t : fd_table) : Z :=
  Zlength (filter (λ e, used e = true) (take (Z.to_nat FD_TABLE_SIZE) t)).

Definition print_fd (s : fs) (i : Z) (e : fd_entry) : output :=
  if negb (used e) then []
  else
    prints "  " ++ print_dec64 i ++ prints " type=" ++ print (fd_type_name (fd_kind e)) ++
    prints " readable=" ++ print_dec64 (b2z (readable e)) ++
    prints " writable=" ++ print_dec64 (b2z (writable e)) ++
    prints " offset=" ++ print_dec64 (offset e) ++
    (match fd_kind e, object e with
     | FD_TYPE_VFS_NODE, Some node =>
         prints " node=" ++ print (name_of s node) ++
         prints " kind=" ++ print (vfs_node_type_name (type_of s node)) ++
         prints " size=" ++ print_dec64 (size_of s node)
     | _, _ => []
     end) ++ newline.

Definition fd_print_table (s : fs) (t : fd_table) : output :=
  prints "fd table:" ++ newline ++
  concat ((λ i, print_fd s i (arr_get t i)) <$> seqZ 0 FD_TABLE_SIZE).

Definition cmd_fdinfo (s : fs) (t : fd_table) : output :=
  prints "used fds = " ++ print_dec64 (fd_count_used t) ++ newline ++ fd_print_table s t.

(** The loop of [fdcat]: [None] when the fuel did not suffice (or a write left
    a buffer); the output is what is printed besides what goes to the
    descriptor. *)
Fixpoint fdcat_loop `{Allocator H, TtyDevice W} (fuel : nat) (fd : Z) (s : fs) (t : fd_table) (h : H) (w : W)
    : option (output * fs * fd_table * H * W) :=
  match fuel with
  | O => None
  | S fuel' =>
      let '(read, bytes, t, w) := fd_read fd true 128 s t w in
      if read <? 0 then Some (prints "fdcat: read failed" ++ newline, s, t, h, w)
      else if read =? 0 then Some ([], s, t, h, w)
      else
        '(_, s, t, h, w) ← fd_write FD_STDOUT true (take (Z.to_nat read) bytes) s t h w;
        fdcat_loop fuel' fd s t h w
  end.

(** This file's copy of the function. *)
Definition copy_first_arg (args : option cstr) (out_size : Z) : bool * cstr := c_copy_first_arg args out_size.

Definition cmd_fdcat `{Allocator H, TtyDevice W} (fuel : nat) (args : option cstr)
    (s : fs) (t : fd_table) (h : H) (w : W) : option (output * fs * fd_table * H * W) :=
  let '(found, path) := copy_first_arg args FD_CMD_PATH_MAX in
  if negb found then Some (prints "usage: fdcat <path>" ++ newline, s, t, h, w)
  else
    let '(fd, t) := fd_open (Some path) s t in
    if fd <? 0 then Some (prints "fdcat: open failed: " ++ print path ++ newline, s, t, h, w)
    else
      '(o, s, t, h, w) ← fdcat_loop fuel fd s t h w;
      Some (o, s, (fd_close fd t).2, h, w).

Definition cmd_fdwrite `{Allocator H, TtyDevice W} (args : option cstr)
    (s : fs) (t : fd_table) (h : H) (w : W) : option (output * fs * fd_table * H * W) :=
  let usage := prints "usage: fdwrite <text>" ++ newline in
  match args with
  | None => Some (usage, s, t, h, w)
  | Some a =>
      match c_skip is_space a with
      | [] => Some (usage, s, t, h, w)
      | text =>
          '(_, s, t, h, w) ← fd_write FD_STDOUT true text s t h w;
          '(_, s, t, h, w) ← fd_write FD_STDOUT true [CH_LF] s t h w;
          Some ([], s, t, h, w)
      end
  end.

(** ** Lemmas *)

Lemma s64_small x : 0 <= x < 2 ^ 63 → s64 x = x.
Proof. intros Hx. by apply (to_signed_small 64). Qed.

Lemma fd_alloc_from_spec fuel i t :
  0 <= i →
  let '(fd, t') := fd_alloc_from fuel i t in
  (fd = FD_INVALID ∧ t' = t ∧ ∀ j, i <= j < i + Z.of_nat fuel → used (arr_get t j) = true) ∨
  (i <= fd < i + Z.of_nat fuel ∧ used (arr_get t fd) = false ∧
   (∀ j, i <= j < fd → used (arr_get t j) = true) ∧
   ∃ e, t' = arr_set t fd e ∧ used e = true).
Proof.
  revert i. induction fuel as [|fuel IH]; intros i Hi; cbn [fd_alloc_from].
  { left. split_and!; [done|done|lia]. }
  destruct (used (arr_get t i)) eqn:Hu; cbn [negb].
  - specialize (IH (i + 1) ltac:(lia)). destruct (fd_alloc_from fuel (i + 1) t) as [fd t'].
    destruct IH as [(-> & -> & Hall)|(Hr & Hf & Hall & He)].
    + left. split; [done|]. split; [done|]. intros j Hj.
      destruct (decide (j = i)) as [->|]; [done|]. apply Hall. lia.
    + right. split; [lia|]. split; [done|]. split; [|done]. intros j Hj.
      destruct (decide (j = i)) as [->|]; [done|]. apply Hall. lia.
  - right. split; [lia|]. split; [done|]. split; [lia|]. by eexists.
Qed.

Lemma arr_set_set {A} (l : list A) i x y : arr_set (arr_set l i x) i y = arr_set l i y.
Proof. apply list_insert_insert_eq. Qed.

Lemma arr_set_same {A} `{Inhabited A} (l : list A) i : 0 <= i < Zlength l → arr_set l i (arr_get l i) = l.
Proof.
  unfold arr_set, arr_get, Zlength. intros Hi. apply list_insert_id.
  destruct (lookup_lt_is_Some_2 l (Z.to_nat i)) as [x Hx]; [lia|].
  by rewrite Hx, (list_lookup_total_correct _ _ _ Hx).
Qed.

Lemma fd_open_spec path s t :
  Zlength t = FD_TABLE_SIZE →
  let '(fd, t') := fd_open (Some path) s t in
  (fd = FD_INVALID ∧ t' = t ∧
   (vfs_lookup s path = None ∨
    (∃ node, vfs_lookup s path = Some node ∧ is_file_or_device (type_of s node) = false) ∨
    ∀ i, 3 <= i < FD_TABLE_SIZE → used (arr_get t i) = true)) ∨
  (∃ node, vfs_lookup s path = Some node ∧ is_file_or_device (type_of s node) = true ∧
     3 <= fd < FD_TABLE_SIZE ∧ used (arr_get t fd) = false ∧
     (∀ i, 3 <= i < fd → used (arr_get t i) = true) ∧
     t' = arr_set t fd (MkFd true FD_TYPE_VFS_NODE (Some node) 0 true true)).
Proof.
  intros Hl. unfold fd_open. destruct (vfs_lookup s path) as [node|] eqn:Hlk; [|left; split; [done|]; split; [done|by left]].
  destruct (is_file_or_device (type_of s node)) eqn:Ht; cbn [negb].
  2:{ left. split; [done|]. split; [done|]. right. left. by exists node. }
  unfold fd_alloc_locked.
  pose proof (fd_alloc_from_spec (Z.to_nat (FD_TABLE_SIZE - 3)) 3 t ltac:(lia)) as Ha.
  destruct (fd_alloc_from (Z.to_nat (FD_TABLE_SIZE - 3)) 3 t) as [fd t1].
  unfold FD_TABLE_SIZE, FD_INVALID in *.
  destruct Ha as [(-> & -> & Hall)|(Hr & Hf & Hall & e & -> & He)].
  - left. cbn. split; [done|]. split; [done|]. right. right. intros i Hi. apply Hall. lia.
  - rewrite (proj2 (Z.eqb_neq fd (-1))) by lia. right. exists node.
    split; [done|]. split; [done|]. split; [lia|]. split; [done|]. split; [done|].
    rewrite arr_get_set_eq by (rewrite Hl; lia). by rewrite He, arr_set_set.
Qed.

(** ** The invariant of the table *)

Definition entry_ok (s : fs) (e : fd_entry) : Prop :=
  if used e then
    fd_kind e = FD_TYPE_CONSOLE ∨
    fd_kind e = FD_TYPE_VFS_NODE ∧ ∃ node, object e = Some node ∧ is_file_or_device (type_of s node) = true
  else e = cleared.

Definition fd_ok (s : fs) (t : fd_table) : Prop :=
  Zlength t = FD_TABLE_SIZE ∧ Forall (entry_ok s) t ∧
  ∀ i, 0 <= i < 3 → used (arr_get t i) = true.

Lemma fd_ok_entry s t i : fd_ok s t → 0 <= i < FD_TABLE_SIZE → entry_ok s (arr_get t i).
Proof.
  intros (Hl & Hf & _) Hi. rewrite Forall_forall in Hf. apply Hf, arr_get_elem. by rewrite Hl.
Qed.

Lemma fd_ok_set s t i e :
  fd_ok s t → 0 <= i < FD_TABLE_SIZE → entry_ok s e → (i < 3 → used e = true) → fd_ok s (arr_set t i e).
Proof.
  intros (Hl & Hf & Hstd) Hi He Hu. unfold FD_TABLE_SIZE in *. split; [|split].
  - unfold Zlength in *. by rewrite arr_set_length.
  - by apply Forall_insert.
  - intros j Hj. rewrite arr_get_set by lia. destruct (Z.eqb_spec j i) as [->|]; [apply Hu; lia|by apply Hstd].
Qed.

Lemma fd_advance_ok s t fd n e : fd_ok s t → 0 <= fd < FD_TABLE_SIZE → fd_ok s (fd_advance fd n e t).
Proof.
  intros Hok Hfd. pose proof (fd_ok_entry s t fd Hok Hfd) as He. unfold fd_advance.
  destruct (used (arr_get t fd)) eqn:Hu; cbn [andb]; [|done]. case_bool_decide; [|done].
  apply fd_ok_set; [done|done| |done]. unfold entry_ok in *. rewrite Hu in He. done.
Qed.

(** Calls on a descriptor that is not open. *)
Lemma fd_closed_calls `{Allocator H, TtyDevice W} fd s t (h : H) (w : W) b size src :
  ¬ 0 <= fd < FD_TABLE_SIZE ∨ used (arr_get t fd) = false →
  fd_read fd b size s t w = (-1, [], t, w) ∧ fd_write fd b src s t h w = Some (-1, s, t, h, w) ∧
  fd_close fd t = (-1, t).
Proof.
  intros Hfd. unfold fd_read, fd_write, fd_close.
  assert (Hcase : (∀ x, fd_bad fd b x = true) ∧ ((fd <? 0) || (FD_TABLE_SIZE <=? fd) = true) ∨
                  used (arr_get t fd) = false).
  { destruct Hfd as [Hfd|]; [|by right]. left. unfold fd_bad.
    destruct (Z.ltb_spec fd 0); [by split|]. destruct (Z.leb_spec FD_TABLE_SIZE fd); [by split|lia]. }
  destruct Hcase as [[Hb Hr]|Hu].
  - by rewrite !Hb, Hr.
  - rewrite Hu. cbn [negb orb]. repeat case_if; done.
Qed.

(** ** Lemmas: descriptors of the terminal *)

Lemma fd_bad_good fd size : 0 <= fd < FD_TABLE_SIZE → 0 < size → fd_bad fd true size = false.
Proof.
  intros Hfd Hs. unfold fd_bad.
  by rewrite (proj2 (Z.ltb_ge fd 0)), (proj2 (Z.leb_gt FD_TABLE_SIZE fd)), (proj2 (Z.eqb_neq size 0)) by lia.
Qed.

Lemma fd_write_device `{Allocator H, TtyDevice W} fd src tty m o r s t (h : H) (w : W) :
  0 <= fd < FD_TABLE_SIZE → arr_get t fd = MkFd true FD_TYPE_VFS_NODE (Some tty) o r true →
  nodes s !! tty = Some m → vn_type m = VFS_NODE_DEVICE → vn_write m = Some FN_TTY → 0 < Zlength src →
  fd_write fd true src s t h w = Some (s64 (dev_write src w).1, s, t, h, (dev_write src w).2).
Proof.
  intros Hfd Ho Hm Hmt Hmw Hs. unfold fd_write. rewrite fd_bad_good by done.
  rewrite Ho. cbn [used writable fd_kind negb orb object offset]. unfold vfs_write.
  rewrite (proj2 (Z.eqb_neq (Zlength src) 0)) by lia. cbn [negb orb]. rewrite Hm, Hmt, Hmw.
  change (negb (is_file_or_device VFS_NODE_DEVICE)) with false.
  destruct (dev_write src w) as [z w']. cbn [mbind option_bind fst snd].
  unfold type_of, node_field. by rewrite Hm, Hmt.
Qed.

Lemma fd_read_device `{TtyDevice W} fd size tty m o r s t (w : W) :
  0 <= fd < FD_TABLE_SIZE → arr_get t fd = MkFd true FD_TYPE_VFS_NODE (Some tty) o true r →
  nodes s !! tty = Some m → vn_type m = VFS_NODE_DEVICE → vn_read m = Some FN_TTY → 0 < size →
  fd_read fd true size s t w = (s64 (Zlength (dev_read size w).1), (dev_read size w).1, t, (dev_read size w).2).
Proof.
  intros Hfd Ho Hm Hmt Hmr Hs. unfold fd_read. rewrite fd_bad_good by done.
  rewrite Ho. cbn [used readable fd_kind negb orb object offset]. unfold vfs_read.
  rewrite (proj2 (Z.eqb_neq size 0)) by lia. cbn [negb orb]. rewrite Hm, Hmt, Hmr.
  change (negb (is_file_or_device VFS_NODE_DEVICE)) with false.
  destruct (dev_read size w) as [bytes w']. unfold type_of, node_field. by rewrite Hm, Hmt.
Qed.

(** ** Lemmas: fdcat *)

(** The chunks of 128 bytes a reader sends on. *)
Fixpoint send_chunks `{TtyDevice W} (fuel : nat) (l : list Z) (w : W) : W :=
  match fuel, l with
  | S fuel', _ :: _ => send_chunks fuel' (drop 128 l) (dev_write (take 128 l) w).2
  | _, _ => w
  end.

Section fdcat.
Context `{Allocator H, TtyDevice W}.
Context (s : fs) (t : fd_table) (h : H) (fd : Z) (i : nat) (n : vfs_node) (tty : nat) (m : vfs_node).
Context (Hlen : Zlength t = FD_TABLE_SIZE) (Hfd : 3 <= fd < FD_TABLE_SIZE).
Context (Hn : nodes s !! i = Some n) (Hty : vn_type n = VFS_NODE_FILE) (Hrd : vn_read n = Some FN_RAMFS).
Context (Hfile : file_ok n) (Hmax : vn_size n < 2 ^ 63).
Context (Hm : nodes s !! tty = Some m) (Hmt : vn_type m = VFS_NODE_DEVICE) (Hmw : vn_write m = Some FN_TTY).
Context (Hout : ∃ o r, arr_get t FD_STDOUT = MkFd true FD_TYPE_VFS_NODE (Some tty) o r true).

Let opened (off : Z) : fd_table := arr_set t fd (MkFd true FD_TYPE_VFS_NODE (Some i) off true true).

Lemma opened_get off : arr_get (opened off) fd = MkFd true FD_TYPE_VFS_NODE (Some i) off true true.
Proof. apply arr_get_set_eq. rewrite Hlen. unfold FD_TABLE_SIZE in *. lia. Qed.

Lemma fd_read_chunk off size w :
  0 <= off <= vn_size n → 0 < size < 2 ^ 63 →
  let bytes := take (Z.to_nat size) (drop (Z.to_nat off) (file_bytes n)) in
  fd_read fd true size s (opened off) w = (Zlength bytes, bytes, opened (off + Zlength bytes), w).
Proof.
  intros Ho Hs bytes. unfold fd_read, fd_bad. unfold FD_TABLE_SIZE in Hfd.
  rewrite (proj2 (Z.ltb_ge fd 0)), (proj2 (Z.leb_gt FD_TABLE_SIZE fd)), (proj2 (Z.eqb_neq size 0))
    by (unfold FD_TABLE_SIZE; lia).
  cbn [orb negb]. rewrite opened_get. cbn [used readable fd_kind object offset negb orb].
  rewrite (vfs_read_file i n) by (done || lia). fold bytes.
  unfold type_of, node_field. rewrite Hn, Hty, decide_True by done.
  assert (Hb : 0 <= Zlength bytes <= vn_size n - off).
  { pose proof (file_bytes_length n Hfile). unfold bytes, Zlength in *. rewrite length_take, length_drop. lia. }
  rewrite s64_small by lia. f_equal. f_equal. unfold fd_advance. rewrite opened_get.
  cbn [used object andb fd_kind offset readable writable]. rewrite bool_decide_true by done.
  unfold opened. rewrite arr_set_set. rewrite u64_small; [done|]. unfold is_u64. lia.
Qed.

Lemma fd_write_stdout off src w :
  0 < Zlength src →
  fd_write FD_STDOUT true src s (opened off) h w =
    Some (s64 (dev_write src w).1, s, opened off, h, (dev_write src w).2).
Proof.
  intros Hs. destruct Hout as (o & r & Ho).
  apply (fd_write_device _ _ tty m o r); [unfold FD_STDOUT, FD_TABLE_SIZE; lia| |done..].
  unfold opened. rewrite arr_get_set_ne by (unfold FD_STDOUT; lia). done.
Qed.

Lemma fdcat_loop_spec fuel off w :
  0 <= off <= vn_size n → vn_size n - off < Z.of_nat fuel →
  fdcat_loop fuel fd s (opened off) h w =
    Some ([], s, opened (vn_size n), h, send_chunks fuel (drop (Z.to_nat off) (file_bytes n)) w).
Proof.
  pose proof (file_bytes_length n Hfile) as Hfl.
  revert off w. induction fuel as [|fuel IH]; intros off w Ho Hf; [lia|]. cbn [fdcat_loop].
  rewrite fd_read_chunk by lia. change (Z.to_nat 128) with 128%nat.
  set (rest := drop (Z.to_nat off) (file_bytes n)).
  assert (Hrl : Zlength rest = vn_size n - off).
  { unfold rest, Zlength in *. rewrite length_drop. lia. }
  assert (Htl : Zlength (take 128 rest) = Z.min 128 (vn_size n - off)).
  { unfold Zlength in *. rewrite length_take. lia. }
  rewrite Htl, (proj2 (Z.ltb_ge _ 0)) by lia.
  destruct (Z.eqb_spec (Z.min 128 (vn_size n - off)) 0) as [Hz|Hnz].
  - assert (Hnil : rest = []) by (destruct rest; [done|unfold Zlength in Hrl; cbn in Hrl; lia]).
    rewrite Hnil. cbn. replace (off + Z.min 128 (vn_size n - off)) with (vn_size n) by lia. done.
  - rewrite (take_ge (take 128 rest)) by (unfold Zlength in Htl; lia).
    rewrite fd_write_stdout by lia. cbn [mbind option_bind]. rewrite IH by lia.
    assert (Hd : drop (Z.to_nat (off + Z.min 128 (vn_size n - off))) (file_bytes n) = drop 128 rest).
    { unfold rest. rewrite drop_drop. destruct (decide (128 <= vn_size n - off)).
      - f_equal. lia.
      - rewrite !drop_ge; [done|unfold Zlength in *; lia..]. }
    rewrite Hd. destruct rest as [|x r] eqn:Hr; [unfold Zlength in Hrl; cbn in Hrl; lia|].
    by cbn [send_chunks].
Qed.
End fdcat.

(** ** Lemmas: sequences of operations *)

Lemma ramfs_write_type `{Allocator H} n off b src h r n' h' :
  ramfs_write n off b src h = Some (r, n', h') → vn_type n' = vn_type n.
Proof.
  unfold ramfs_write. case_if; [by intros [= _ <- _]|].
  destruct (if vn_capacity n <? _ then _ else _) as [[[[[ptr bytes] cap]|] h1]|]; cbn; try done.
  - destruct (ramfs_memcpy bytes off src); cbn; [|done]. by intros [= _ <- _].
  - by intros [= _ <- _].
Qed.

Lemma vfs_write_types `{Allocator H, TtyDevice W} node off b src s h (w : W) r s' h' w' j :
  vfs_write node off b src s h w = Some (r, s', h', w') → type_of s' j = type_of s j.
Proof.
  unfold vfs_write. destruct node as [i|]; [|by intros [= _ <- _ _]].
  case_if; [by intros [= _ <- _ _]|]. destruct (nodes s !! i) as [n|] eqn:Hn; [|by intros [= _ <- _ _]].
  case_if; [by intros [= _ <- _ _]|]. destruct (vn_write n) as [[|]|]; [| |by intros [= _ <- _ _]].
  - destruct (ramfs_write n off b src h) as [[[r1 n1] h1]|] eqn:Hw; cbn; [|done].
    intros [= _ <- _ _]. unfold type_of. rewrite node_field_upd. case_decide as Hj; [|done]. subst j.
    unfold node_field. rewrite Hn. by eapply ramfs_write_type.
  - destruct (dev_write src w). by intros [= _ <- _ _].
Qed.

Lemma fd_ok_types s s' t :
  (∀ j, is_file_or_device (type_of s j) = true → is_file_or_device (type_of s' j) = true) →
  fd_ok s t → fd_ok s' t.
Proof.
  intros Hty (Hl & Hf & Hstd). split; [done|]. split; [|done]. eapply Forall_impl; [done|].
  intros e. unfold entry_ok. destruct (used e); [|done]. intros [|(? & node & ? & ?)]; [by left|].
  right. split; [done|]. exists node. split; [done|]. by apply Hty.
Qed.

(** The calls that touch the table, and changes of the file tree in between. *)
Inductive fd_step `{Allocator H, TtyDevice W} : fs * fd_table → fs * fd_table → Prop :=
  | fd_step_open path s t : fd_step (s, t) (s, (fd_open path s t).2)
  | fd_step_read fd b size s t (w : W) : fd_step (s, t) (s, (fd_read fd b size s t w).1.2)
  | fd_step_write fd b src s t (h : H) (w : W) r s' t' h' w' :
      fd_write fd b src s t h w = Some (r, s', t', h', w') → fd_step (s, t) (s', t')
  | fd_step_close fd s t : fd_step (s, t) (s, (fd_close fd t).2)
  | fd_step_fs s s' t :
      (∀ j, is_file_or_device (type_of s j) = true → is_file_or_device (type_of s' j) = true) →
      fd_step (s, t) (s', t).

Lemma fd_bad_range fd b size : fd_bad fd b size = false → 0 <= fd < FD_TABLE_SIZE.
Proof. unfold fd_bad. intros Hb. btests. lia. Qed.

Lemma fd_step_ok `{Allocator H, TtyDevice W} s t s' t' : fd_step (s, t) (s', t') → fd_ok s t → fd_ok s' t'.
Proof.
  intros Hst Hok. pose proof Hok as (Hl & _).
  inversion Hst as [path ? ?|fd b size ? ? w|fd b src ? ? h w r ? ? h' w' Hw|fd ? ?|? ? ? Hty]; subst.
  - destruct path as [path|]; [|done]. pose proof (fd_open_spec path s' t Hl) as Ho.
    destruct (fd_open (Some path) s' t) as [fd t1].
    destruct Ho as [(_ & -> & _)|(node & _ & Ht & Hr & _ & _ & ->)]; [done|]. cbn.
    apply fd_ok_set; [done|lia| |lia]. right. split; [done|]. by exists node.
  - unfold fd_read. destruct (fd_bad fd b size) eqn:Hb; [done|]. apply fd_bad_range in Hb.
    destruct (_ || _); [done|]. destruct (fd_kind (arr_get t fd)); try done.
    destruct (vfs_read _ _ _ _ _ _) as [bytes w']. cbn. destruct (object (arr_get t fd)); [|done].
    case_decide; [|done]. by apply fd_advance_ok.
  - unfold fd_write in Hw. destruct (fd_bad fd b (Zlength src)) eqn:Hb; [by injection Hw as _ <- <- _ _|].
    apply fd_bad_range in Hb. destruct (_ || _); [by injection Hw as _ <- <- _ _|].
    destruct (fd_kind (arr_get t fd)); [by injection Hw as _ <- <- _ _|by injection Hw as _ <- <- _ _|].
    destruct (vfs_write _ _ _ _ _ _ _) as [[[[z s1] h1] w1]|] eqn:Hv; [|done]. cbn in Hw.
    injection Hw as _ <- <- _ _. eapply (fd_ok_types s).
    { intros j. by rewrite (vfs_write_types _ _ _ _ _ _ _ _ _ _ _ j Hv). }
    destruct (object (arr_get t fd)); [|done]. case_decide; [|done]. by apply fd_advance_ok.
  - unfold fd_close. repeat case_if; try done. btests. cbn. unfold FD_STDIN, FD_STDOUT, FD_STDERR in *.
    apply fd_ok_set; [done|lia|done|lia].
  - by eapply fd_ok_types.
Qed.

Lemma fd_cleared t0 :
  Zlength t0 = FD_TABLE_SIZE → foldl (λ t i, fd_clear_entry i t) t0 (seqZ 0 FD_TABLE_SIZE) = replicate 32 cleared.
Proof.
  intros Hl. change (foldl _ t0 _) with (foldl (λ v k, arr_set v (0 + k) cleared) t0 (seqZ 0 (Z.of_nat 32))).
  destruct (arr_fill (λ _, cleared) 0 32 t0 ltac:(lia) ltac:(rewrite Hl; done)) as [Hlen Hget].
  unfold Zlength, FD_TABLE_SIZE in Hl. apply arr_ext.
  - rewrite Hlen, length_replicate. lia.
  - unfold Zlength. rewrite Hlen. intros i Hi. rewrite Hget by lia.
    rewrite (proj2 (Z.leb_le 0 i)), (proj2 (Z.ltb_lt i (0 + Z.of_nat 32))) by lia. cbn [andb].
    unfold arr_get. symmetry. apply list_lookup_total_correct, lookup_replicate_2. lia.
Qed.

(** The first three descriptors after [fd_init]. *)
Lemma fd_init_std s t0 :
  Zlength t0 = FD_TABLE_SIZE →
  let t := (fd_init s t0).1 in
  let at_ r w := match vfs_lookup s (s2z "/dev/tty0") with
                 | Some n => MkFd true FD_TYPE_VFS_NODE (Some n) 0 r w
                 | None => MkFd true FD_TYPE_CONSOLE None 0 false w
                 end in
  arr_get t FD_STDIN = at_ true false ∧ arr_get t FD_STDOUT = at_ false true ∧ arr_get t FD_STDERR = at_ false true.
Proof.
  intros Hl. cbv zeta. unfold fd_init. cbn [fst]. rewrite fd_cleared by done.
  destruct (vfs_lookup s (s2z "/dev/tty0")) as [n|]; done.
Qed.

Lemma fd_init_ok s t0 :
  Zlength t0 = FD_TABLE_SIZE →
  (∀ n, vfs_lookup s (s2z "/dev/tty0") = Some n → is_file_or_device (type_of s n) = true) →
  fd_ok s (fd_init s t0).1.
Proof.
  intros Hl Ht. unfold fd_init. cbn [fst]. rewrite fd_cleared by done.
  assert (Hrep : Forall (entry_ok s) (replicate 32 cleared)) by (by apply Forall_replicate).
  destruct (vfs_lookup s (s2z "/dev/tty0")) as [node|]; (split; [done|]; split).
  - specialize (Ht node eq_refl). unfold fd_set_vfs_node, arr_set.
    repeat (apply Forall_insert; [|right; split; [done|]; by exists node]). exact Hrep.
  - intros i Hi. assert (i = 0 ∨ i = 1 ∨ i = 2) as [->|[->| ->]] by lia; done.
  - unfold fd_set_console, arr_set. repeat (apply Forall_insert; [|by left]). exact Hrep.
  - intros i Hi. assert (i = 0 ∨ i = 1 ∨ i = 2) as [->|[->| ->]] by lia; done.
Qed.

(** ** Properties *)

(** Opening. [fd_open] returns -1 and leaves the table alone exactly when the
    path leads nowhere, to something that is neither file nor device, or no
    descriptor is free; otherwise it returns the lowest free descriptor from 3
    on, now open at offset 0 for reading and writing, and changes no other. *)
Theorem fd_open_lowest_free path s t :
  Zlength t = FD_TABLE_SIZE →
  let '(fd, t') := fd_open (Some path) s t in
  (fd = FD_INVALID ∧ t' = t ∧
   (vfs_lookup s path = None ∨
    (∃ node, vfs_lookup s path = Some node ∧ is_file_or_device (type_of s node) = false) ∨
    ∀ i, 3 <= i < FD_TABLE_SIZE → used (arr_get t i) = true)) ∨
  (∃ node, vfs_lookup s path = Some node ∧ is_file_or_device (type_of s node) = true ∧
     3 <= fd < FD_TABLE_SIZE ∧ used (arr_get t fd) = false ∧
     (∀ i, 3 <= i < fd → used (arr_get t i) = true) ∧
     t' = arr_set t fd (MkFd true FD_TYPE_VFS_NODE (Some node) 0 true true)).
Proof. exact (fd_open_spec path s t). Qed.

(** A root with one file. *)
Definition one_file_fs (n : vfs_node) : fs :=
  MkFs [sample_dir [] None (Some 1%nat) None; set_parent (Some 0%nat) n] (Some 0%nat) None 3.

Lemma fd_open_lowest_free_witness :
  let t := replicate 32 cleared in
  (fd_open (Some (s2z "/a")) (one_file_fs sample_file) t).1 = 3 ∧
  fd_open (Some (s2z "/b")) (one_file_fs sample_file) t = (FD_INVALID, t).
Proof.
  intros t. split.
  - pose proof (fd_open_lowest_free (s2z "/a") (one_file_fs sample_file) t eq_refl) as Ho.
    destruct (fd_open (Some (s2z "/a")) (one_file_fs sample_file) t) as [fd t'] eqn:He.
    injection He as <- _. reflexivity.
  - pose proof (fd_open_lowest_free (s2z "/b") (one_file_fs sample_file) t eq_refl) as Ho.
    destruct (fd_open (Some (s2z "/b")) (one_file_fs sample_file) t) as [fd t'].
    destruct Ho as [(-> & -> & _)|(node & Hn & _)]; [reflexivity|discriminate Hn].
Defined.

(** C29: the descriptor table over every sequence of opens, reads, writes, closes and
    changes of the file tree: it keeps its 32 entries, an entry in use is the
    console or denotes a file or device, an entry that is not in use is clear,
    and 0, 1 and 2 are always in use. *)
Theorem fd_table_invariant `{Allocator H, TtyDevice W} s0 t0 s t :
  Zlength t0 = FD_TABLE_SIZE →
  (∀ n, vfs_lookup s0 (s2z "/dev/tty0") = Some n → is_file_or_device (type_of s0 n) = true) →
  rtc fd_step (s0, (fd_init s0 t0).1) (s, t) → fd_ok s t.
Proof.
  intros Hl Ht Hr. pose proof (fd_init_ok s0 t0 Hl Ht) as Hi.
  remember (s0, (fd_init s0 t0).1) as x eqn:Hx. remember (s, t) as y eqn:Hy.
  assert (Hgen : fd_ok x.1 x.2) by (by subst x). clear Hi Hx.
  induction Hr as [x|x z y Hxz _ IH]; [by subst x|]. destruct x as [sx tx], z as [sz tz].
  apply IH; [done|]. by eapply fd_step_ok.
Qed.

#[local] Instance quiet_tty : TtyDevice (list Z) :=
  {| dev_read _ w := ([], w); dev_write src w := (Zlength src, w ++ src); con_put_char c w := w ++ [c] |}.

Lemma fd_table_invariant_witness :
  let s := one_file_fs sample_file in
  let t := (fd_init s (replicate 32 cleared)).1 in
  fd_ok s (fd_open (Some (s2z "/a")) s t).2.
Proof.
  intros s t. apply (@fd_table_invariant arena _ (list Z) _ s (replicate 32 cleared)).
  - reflexivity.
  - discriminate.
  - apply rtc_once. apply fd_step_open.
Defined.

(** Descriptors that are not open. Reading, writing and closing one returns -1 and
    changes nothing, for numbers outside the table and for free entries; a
    successful close makes its descriptor such a one; and 0, 1 and 2 cannot be
    closed at all. *)
Theorem fd_closed_is_error `{Allocator H, TtyDevice W} fd s t (h : H) (w : W) b size src :
  (¬ 0 <= fd < FD_TABLE_SIZE ∨ used (arr_get t fd) = false →
   fd_read fd b size s t w = (-1, [], t, w) ∧ fd_write fd b src s t h w = Some (-1, s, t, h, w) ∧
   fd_close fd t = (-1, t)) ∧
  (fd_ok s t → (fd_close fd t).1 = 0 → used (arr_get (fd_close fd t).2 fd) = false) ∧
  (0 <= fd < 3 → fd_close fd t = (-1, t)).
Proof.
  split; [apply fd_closed_calls|split].
  - intros (Hl & _) Hc. unfold fd_close in *. repeat case_if; try done. btests. cbn. unfold fd_clear_entry.
    rewrite arr_get_set_eq; [done|]. rewrite Hl. lia.
  - intros Hfd. unfold fd_close, FD_STDIN, FD_STDOUT, FD_STDERR.
    assert (fd = 0 ∨ fd = 1 ∨ fd = 2) as [->|[->| ->]] by lia; done.
Qed.

Lemma fd_closed_is_error_witness :
  let t := (fd_init (one_file_fs sample_file) (replicate 32 cleared)).1 in
  fd_close 5 t = (-1, t) ∧ fd_close 1 t = (-1, t).
Proof.
  intros t. destruct (fd_closed_is_error 5 (one_file_fs sample_file) t (MkArena 16 99 []) [] true 1 []) as (H5 & _).
  destruct (fd_closed_is_error 1 (one_file_fs sample_file) t (MkArena 16 99 []) [] true 1 []) as (_ & _ & H1).
  split; [apply H5; right; reflexivity|apply H1; lia].
Defined.

(** [fdcat] end to end. With standard output on the terminal device, for an
    existing well-formed file and a free descriptor, the command opens the file,
    sends exactly its bytes to the device, in order and 128 at a time, prints
    nothing else, closes its descriptor and leaves file system, heap and
    descriptor table as they were; it ends after at most one round per byte. *)
Theorem cmd_fdcat_sends_file `{Allocator H, TtyDevice W} fuel args path s t (h : H) (w : W) i n tty m :
  copy_first_arg args FD_CMD_PATH_MAX = (true, path) →
  vfs_lookup s path = Some i → nodes s !! i = Some n → vn_type n = VFS_NODE_FILE →
  vn_read n = Some FN_RAMFS → file_ok n → vn_size n < 2 ^ 63 →
  fd_ok s t → (∃ j, 3 <= j < FD_TABLE_SIZE ∧ used (arr_get t j) = false) →
  nodes s !! tty = Some m → vn_type m = VFS_NODE_DEVICE → vn_write m = Some FN_TTY →
  (∃ o r, arr_get t FD_STDOUT = MkFd true FD_TYPE_VFS_NODE (Some tty) o r true) →
  vn_size n < Z.of_nat fuel →
  cmd_fdcat fuel args s t h w = Some ([], s, t, h, send_chunks fuel (file_bytes n) w).
Proof.
  intros Ha Hlk Hn Hty Hrd Hf Hmax Hok (j & Hj & Hju) Hm Hmt Hmw Hout Hfuel. pose proof Hok as (Hl & _).
  unfold cmd_fdcat. rewrite Ha. cbn [negb]. pose proof (fd_open_spec path s t Hl) as Ho.
  destruct (fd_open (Some path) s t) as [fd t1].
  assert (Ht : type_of s i = VFS_NODE_FILE) by (unfold type_of, node_field; by rewrite Hn).
  destruct Ho as [(_ & _ & [Hx|[(k & Hx & Hk)|Hx]])|(node & Hnode & _ & Hfd & Hfree & _ & ->)].
  - congruence.
  - assert (k = i) as -> by congruence. by rewrite Ht in Hk.
  - rewrite Hx in Hju by done. done.
  - assert (node = i) as -> by congruence. rewrite (proj2 (Z.ltb_ge fd 0)) by lia.
    pose proof Hf as (Hs & _).
    rewrite (fdcat_loop_spec s t h fd i n tty m Hl Hfd Hn Hty Hrd Hf Hmax Hm Hmt Hmw Hout fuel 0) by lia.
    cbn [mbind option_bind]. change (Z.to_nat 0) with 0%nat. rewrite drop_0. do 4 f_equal.
    unfold fd_close, FD_STDIN, FD_STDOUT, FD_STDERR, fd_clear_entry. unfold FD_TABLE_SIZE in *.
    rewrite (proj2 (Z.ltb_ge fd 0)), (proj2 (Z.leb_gt 32 fd)) by lia.
    rewrite (proj2 (Z.eqb_neq fd 0)), (proj2 (Z.eqb_neq fd 1)), (proj2 (Z.eqb_neq fd 2)) by lia.
    cbn [orb]. rewrite arr_get_set_eq by (rewrite Hl; lia). cbn [used negb snd].
    rewrite arr_set_set. pose proof (fd_ok_entry s t fd Hok ltac:(unfold FD_TABLE_SIZE; lia)) as He.
    unfold entry_ok in He. rewrite Hfree in He. rewrite <- He. apply arr_set_same. rewrite Hl. lia.
Qed.

(** /a, a file with two bytes, and /dev/tty0. *)
Definition cat_file : vfs_node :=
  set_parent (Some 0%nat) (set_next (Some 2%nat) (set_data 64 [72; 105] 2 2 sample_file)).
Definition tty_node : vfs_node :=
  MkNode 4 (s2z "tty0") VFS_NODE_DEVICE (Some 2%nat) None None 0 [] 0 0 (Some FN_TTY) (Some FN_TTY).
Definition cat_fs : fs :=
  MkFs [sample_dir [] None (Some 1%nat) None; cat_file;
        sample_dir (s2z "dev") (Some 0%nat) (Some 3%nat) None; tty_node] (Some 0%nat) None 5.

Lemma cmd_fdcat_sends_file_witness :
  let t := (fd_init cat_fs (replicate 32 cleared)).1 in
  cmd_fdcat 3 (Some (s2z " /a")) cat_fs t (MkArena 16 99 []) [] =
    Some ([], cat_fs, t, MkArena 16 99 [], [72; 105]).
Proof.
  intros t. assert (Hok : fd_ok cat_fs t) by (apply fd_init_ok; [reflexivity|by intros n [= <-]]).
  change [72; 105] with (send_chunks 3 (file_bytes cat_file) []).
  apply (cmd_fdcat_sends_file 3 (Some (s2z " /a")) (s2z "/a") cat_fs t (MkArena 16 99 []) [] 1%nat cat_file
    3%nat tty_node); try reflexivity; try exact Hok.
  - apply (set_data_ok 64 [72; 105] 2 2); [lia|discriminate|reflexivity|].
    intros k Hk. apply byte_at_beyond. exact Hk.
  - exists 3. split; [unfold FD_TABLE_SIZE; lia|reflexivity].
  - exists 0, false. reflexivity.
Defined.
