(* ===== verification/Initramfs.v ===== *)
(** * Loading the initial files from a tar archive ([src/kernel/initramfs.c])

    The archive is the memory from [_binary_build_initramfs_tar_start] on:
    [mem off] is the byte at that offset, also behind the end of the archive,
    since the data of an entry is not checked against it. *)

From S2P Require Import Prelude CString Print Alloc Vfs Ramfs Files.

Definition TAR_BLOCK_SIZE : Z := 512.
Definition TAR_NAME_SIZE : Z := 100.
Definition TAR_PREFIX_SIZE : Z := 155.
Definition INITRAMFS_PATH_MAX : Z := 160.

(** [n] bytes of memory. *)
Definition bytes_at (mem : Z → Z) (off n : Z) : list Z := mem <$> seqZ off n.

Definition str_eq (a b : cstr) : bool := c_streq a b.
Definition str_len (s : cstr) : Z := u32 (c_strlen s).
Definition str_copy_limit (src : cstr) (dst_size : Z) : cstr := c_copy_limit src 0 dst_size.

(** The string in [dst] is a value; [None] is the result 0. *)
Definition append_char (dst : cstr) (dst_size c : Z) : option cstr :=
  if dst_size <=? Zlength dst + 1 then None else Some (dst ++ [c]).

Fixpoint append_field (dst : cstr) (dst_size : Z) (field : list Z) : option cstr :=
  match field with
  | [] => Some dst
  | c :: r => if c =? 0 then Some dst else dst ← append_char dst dst_size c; append_field dst dst_size r
  end.

Definition tar_block_is_zero (block : list Z) : bool := forallb (λ b, b =? 0) block.

(** The loop of [tar_parse_octal] with the value so far. *)
Fixpoint parse_octal (field : list Z) (value : Z) : Z :=
  match field with
  | [] => value
  | c :: r =>
      if (c =? 0) || (c =? CH_SPACE) then value
      else if (c <? 48) || (55 <? c) then parse_octal r value
      else parse_octal r (u64 (value * 8 + (c - 48)))
  end.

Definition tar_parse_octal (field : list Z) : Z := parse_octal field 0.

Definition align_tar_size (size : Z) : Z :=
  u64 (u64 (size + TAR_BLOCK_SIZE - 1) / TAR_BLOCK_SIZE * TAR_BLOCK_SIZE).

(** [header] are the 512 bytes of the block. *)
Definition tar_get_raw_path (header : list Z) (out_size : Z) : option cstr :=
  let name := take (Z.to_nat TAR_NAME_SIZE) header in
  let prefix := take (Z.to_nat TAR_PREFIX_SIZE) (drop (Z.to_nat 345) header) in
  out ← (match prefix with
         | c :: _ => if c =? 0 then Some []
                     else out ← append_field [] out_size prefix; append_char out out_size CH_SLASH
         | [] => Some []
         end);
  out ← append_field out out_size name;
  if 0 <? Zlength out then Some out else None.

(** [while (len > 0 && out[len - 1] == '/') ...] *)
Fixpoint strip_slashes (rev_out : cstr) : cstr :=
  match rev_out with
  | c :: r => if c =? CH_SLASH then strip_slashes r else rev_out
  | [] => []
  end.

Definition normalize_path (raw : cstr) (out_size : Z) : option cstr :=
  let p := c_skip (λ c, c =? CH_SLASH) raw in
  let p := match p with
           | a :: b :: r => if (a =? CH_DOT) && (b =? CH_SLASH) then r else p
           | _ => p
           end in
  if decide (p = [CH_DOT]) then None
  else
    let out := reverse (strip_slashes (reverse (str_copy_limit p out_size))) in
    match out with [] => None | _ => Some out end.

Definition find_child (s : fs) (parent : nat) (name : cstr) : option nat :=
  find_sibling (length (nodes s)) s (first_of s parent) name.

(** [path] is the part of the path from [start] to [end]. *)
Definition copy_component (path : cstr) (out_size : Z) : cstr := take (Z.to_nat (out_size - 1)) path.

(** The loader's counters beside the file system and the heap. *)
Record loader (H : Type) := MkLoader {
  ld_fs : fs;
  ld_heap : H;
  loaded_files : Z;
  loaded_dirs : Z;
  loaded_bytes : Z
}.
Arguments MkLoader {H}.
Arguments ld_fs {H}.
Arguments ld_heap {H}.
Arguments loaded_files {H}.
Arguments loaded_dirs {H}.
Arguments loaded_bytes {H}.

(** The loop of [ensure_dir_path]: [path] is what is left of it. *)
Fixpoint ensure_dir_loop `{Allocator H} (fuel : nat) (path : cstr) (current : nat) (x : loader H)
    : option nat * loader H :=
  match path with
  | [] => (Some current, x)
  | _ =>
      match fuel with
      | O => (None, x)
      | S fuel' =>
          match c_skip path_is_separator path with
          | [] => (Some current, x)
          | p =>
              let '(comp, rest) := word p in
              let name := copy_component comp VFS_NAME_MAX in
              let '(child, x) :=
                match find_child (ld_fs x) current name with
                | Some c => (Some c, x)
                | None =>
                    let '(c, s, h) := ramfs_create_dir (Some current) (Some name) (ld_fs x) (ld_heap x) in
                    (c, MkLoader s h (loaded_files x) (u32 (loaded_dirs x + 1)) (loaded_bytes x))
                end in
              match child with
              | None => (None, x)
              | Some c =>
                  if decide (type_of (ld_fs x) c ≠ VFS_NODE_DIR) then (None, x)
                  else ensure_dir_loop fuel' (drop 1 rest) c x
              end
          end
      end
  end.

Definition ensure_dir_path `{Allocator H} (path : cstr) (x : loader H) : option nat * loader H :=
  match ramfs_root (ld_fs x) with
  | None => (None, x)
  | Some root => ensure_dir_loop (length path) path root x
  end.

(** The part of the path before the last slash, if there is one, and after it. *)
Fixpoint split_last (path : cstr) : option cstr * cstr :=
  match path with
  | [] => (None, [])
  | c :: r =>
      match split_last r with
      | (Some d, b) => (Some (c :: d), b)
      | (None, b) => if c =? CH_SLASH then (Some [], b) else (None, c :: b)
      end
  end.

(** The parent and the base name. *)
Definition ensure_parent_dir_for_file `{Allocator H} (path : cstr) (basename_size : Z) (x : loader H)
    : option nat * cstr * loader H :=
  if str_len path =? 0 then (None, [], x)
  else match split_last path with
       | (None, _) => (ramfs_root (ld_fs x), str_copy_limit path basename_size, x)
       | (Some dir, base) =>
           let basename := copy_component base basename_size in
           let parent_path := copy_component dir INITRAMFS_PATH_MAX in
           let '(d, x) := ensure_dir_path parent_path x in (d, basename, x)
       end.

Definition load_dir_entry `{Allocator H} (path : cstr) (x : loader H) : loader H :=
  match path with [] => x | _ => (ensure_dir_path path x).2 end.

(** [data] are the [size] bytes of the entry. *)
Definition load_file_entry `{Allocator H} (path : cstr) (data : list Z) (x : loader H) : loader H :=
  match path with
  | [] => x
  | _ =>
      let '(parent, basename, x) := ensure_parent_dir_for_file path VFS_NAME_MAX x in
      match parent, basename with
      | Some d, _ :: _ =>
          match find_child (ld_fs x) d basename with
          | Some _ => x
          | None =>
              let '(r, s, h) := ramfs_create_file_from_buffer (Some d) (Some basename) (Some data)
                                  (ld_fs x) (ld_heap x) in
              match r with
              | Some _ => MkLoader s h (u32 (loaded_files x + 1)) (loaded_dirs x)
                            (u64 (loaded_bytes x + Zlength data))
              | None => MkLoader s h (loaded_files x) (loaded_dirs x) (loaded_bytes x)
              end
          end
      | _, _ => x
      end
  end.

(** One entry of the archive: how far to advance, and the effect. *)
Definition load_entry `{Allocator H} (mem : Z → Z) (offset : Z) (x : loader H) : Z * loader H :=
  let header := bytes_at mem offset TAR_BLOCK_SIZE in
  match tar_get_raw_path header INITRAMFS_PATH_MAX with
  | None => (TAR_BLOCK_SIZE, x)
  | Some raw_path =>
      let file_size := tar_parse_octal (take 12 (drop 124 header)) in
      let typeflag := default 0 (header !! 156%nat) in
      let x :=
        match normalize_path raw_path INITRAMFS_PATH_MAX with
        | None => x
        | Some path =>
            if typeflag =? 53 then load_dir_entry path x
            else if (typeflag =? 0) || (typeflag =? 48) then
              load_file_entry path (bytes_at mem (offset + TAR_BLOCK_SIZE) file_size) x
            else x
        end in
      (u64 (TAR_BLOCK_SIZE + align_tar_size file_size), x)
  end.

(** The loop over the archive; [None] when the fuel does not suffice. *)
Fixpoint load_loop `{Allocator H} (fuel : nat) (mem : Z → Z) (archive_bytes offset : Z) (x : loader H)
    : option (loader H) :=
  if u64 (offset + TAR_BLOCK_SIZE) <=? archive_bytes then
    match fuel with
    | O => None
    | S fuel' =>
        if tar_block_is_zero (bytes_at mem offset TAR_BLOCK_SIZE) then Some x
        else
          let '(step, x) := load_entry mem offset x in
          load_loop fuel' mem archive_bytes (u64 (offset + step)) x
    end
  else Some x.

Definition load_report {H} (x : loader H) : output :=
  color_line "initramfs loaded" COLOR_GREEN_ON_BLACK ++
  prints "initramfs files = " ++ print_dec64 (loaded_files x) ++
  prints ", dirs = " ++ print_dec64 (loaded_dirs x) ++
  prints ", bytes = " ++ print_dec64 (loaded_bytes x) ++ newline.

Definition initramfs_load `{Allocator H} (fuel : nat) (mem : Z → Z) (archive_bytes : Z) (s : fs) (h : H)
    : option (loader H * output) :=
  x ← load_loop fuel mem archive_bytes 0 (MkLoader s h 0 0 0);
  Some (x, load_report x).

Definition cmd_initramfsinfo {H} (archive_bytes : Z) (x : loader H) : output :=
  prints "initramfs archive bytes = " ++ print_dec64 archive_bytes ++ newline ++
  prints "loaded files = " ++ print_dec64 (loaded_files x) ++ newline ++
  prints "loaded dirs = " ++ print_dec64 (loaded_dirs x) ++ newline ++
  prints "loaded file bytes = " ++ print_dec64 (loaded_bytes x) ++ newline.

(** ** Lemmas: numbers in the header *)

Lemma parse_octal_range field v :
  0 <= v → (v + 1) * 8 ^ Zlength field <= 2 ^ 64 →
  v <= parse_octal field v < (v + 1) * 8 ^ Zlength field.
Proof.
  revert v. induction field as [|c field IH]; intros v Hv Hm; cbn [parse_octal].
  { unfold Zlength in *. cbn in *. lia. }
  assert (Hp : 8 ^ Zlength (c :: field) = 8 * 8 ^ Zlength field).
  { unfold Zlength. cbn [length]. rewrite Nat2Z.inj_succ, Z.pow_succ_r by lia. lia. }
  rewrite Hp in *. assert (1 <= 8 ^ Zlength field) by (apply Z.pow_le_mono_r with (b := 0); unfold Zlength; lia).
  case_if; btests; [nia|]. case_if; btests.
  - specialize (IH v Hv ltac:(nia)). nia.
  - rewrite u64_small by (unfold is_u64; nia).
    specialize (IH (v * 8 + (c - 48)) ltac:(lia) ltac:(nia)). nia.
Qed.

Lemma tar_size_range field : (length field <= 12)%nat → 0 <= tar_parse_octal field < 2 ^ 36.
Proof.
  intros Hl. unfold tar_parse_octal.
  assert (Hp : 8 ^ Zlength field <= 2 ^ 36).
  { change (2 ^ 36) with (8 ^ 12). apply Z.pow_le_mono_r; unfold Zlength; lia. }
  pose proof (parse_octal_range field 0 ltac:(lia) ltac:(lia)). lia.
Qed.

Lemma align_tar_size_range n : 0 <= n < 2 ^ 36 → n <= align_tar_size n < 2 ^ 37 ∧ align_tar_size n mod 512 = 0.
Proof.
  intros Hn. unfold align_tar_size, TAR_BLOCK_SIZE.
  rewrite (u64_small (n + 512 - 1)) by (unfold is_u64; lia).
  rewrite u64_small by (unfold is_u64; zlia).
  split; [zlia|]. apply Z.mod_mul. lia.
Qed.

Lemma load_entry_step `{Allocator H} mem off x :
  512 <= (load_entry mem off x).1 < 2 ^ 38.
Proof.
  unfold load_entry, TAR_BLOCK_SIZE. destruct (tar_get_raw_path _ _); cbn [fst]; [|lia].
  match goal with |- context [tar_parse_octal ?f] =>
    pose proof (tar_size_range f ltac:(rewrite length_take; lia)) as Hs end.
  destruct (align_tar_size_range _ Hs). rewrite u64_small by (unfold is_u64; lia). lia.
Qed.

(** The loop over the archive ends: every entry is at least one block. *)
Lemma load_loop_ends `{Allocator H} mem archive_bytes :
  0 <= archive_bytes < 2 ^ 63 → ∀ fuel off x, 0 <= off < 2 ^ 63 + 2 ^ 38 →
  archive_bytes - off < 512 * Z.of_nat fuel →
  ∃ x', load_loop fuel mem archive_bytes off x = Some x'.
Proof.
  intros Ha. induction fuel as [|fuel IH]; intros off x Ho Hf; cbn [load_loop]; unfold TAR_BLOCK_SIZE.
  all: rewrite u64_small by (unfold is_u64; lia).
  all: destruct (Z.leb_spec (off + 512) archive_bytes); [|by eexists].
  - lia.
  - case_if; [by eexists|]. pose proof (load_entry_step mem off x) as Hs.
    destruct (load_entry mem off x) as [step x']. cbn [fst] in Hs.
    rewrite u64_small by (unfold is_u64; lia). apply IH; lia.
Qed.

(** ** Lemmas: directories *)

(** The tree has only grown: what was there is there, under the same paths. *)
Record grown (s s' : fs) : Prop := {
  gr_ok : fs_ok s';
  gr_roots : vfs_root_node s' = vfs_root_node s ∧ ramfs_root_node s' = ramfs_root_node s;
  gr_length : (length (nodes s) <= length (nodes s'))%nat;
  gr_contents : ∀ i, (i < length (nodes s))%nat → content <$> nodes s' !! i = content <$> nodes s !! i;
  gr_resolve : ∀ d comps j, (d < length (nodes s))%nat →
    resolve s d comps = Some j → resolve s' d comps = Some j
}.

Lemma grown_refl s : fs_ok s → grown s s.
Proof. by constructor. Qed.

Lemma grown_trans s1 s2 s3 : grown s1 s2 → grown s2 s3 → grown s1 s3.
Proof.
  intros H1 H2. constructor.
  - apply H2.
  - destruct (gr_roots _ _ H1) as [<- <-]. apply H2.
  - pose proof (gr_length _ _ H1). pose proof (gr_length _ _ H2). lia.
  - intros i Hi. rewrite <- (gr_contents _ _ H1 i Hi). apply (gr_contents _ _ H2).
    pose proof (gr_length _ _ H1). lia.
  - intros d comps j Hd Hr. apply (gr_resolve _ _ H2); [pose proof (gr_length _ _ H1); lia|].
    by apply (gr_resolve _ _ H1).
Qed.

Lemma created_grown s s' p n : fs_ok s → created s s' p n → grown s s'.
Proof.
  intros Hok Hc. constructor.
  - apply Hc.
  - apply Hc.
  - rewrite (cr_length _ _ _ _ Hc). lia.
  - apply Hc.
  - intros d comps j Hd Hr. by eapply created_resolve.
Qed.

Lemma outcome_grown s s' p n r : fs_ok s → outcome s p n r s' → grown s s'.
Proof.
  intros Hok [[_ ->]|[[_ Hc]|[_ Hc]]]; [by apply grown_refl|by eapply created_grown..].
Qed.

Lemma grown_type s s' i : grown s s' → (i < length (nodes s))%nat → type_of s' i = type_of s i.
Proof.
  intros Hg Hi. pose proof (gr_contents _ _ Hg i Hi) as Hc. unfold type_of, node_field.
  destruct (nodes s' !! i) as [a|], (nodes s !! i) as [b|]; try done.
  apply (inj Some) in Hc. exact (f_equal vn_type Hc).
Qed.

Lemma grown_lookup s s' path j :
  fs_ok s → grown s s' → vfs_lookup s path = Some j → vfs_lookup s' path = Some j.
Proof.
  intros Hok Hg. rewrite !vfs_lookup_resolve by (done || apply Hg). destruct (gr_roots _ _ Hg) as [-> _].
  destruct (vfs_root_node s) as [r|] eqn:Hr; [|done]. destruct path as [|c p]; [done|].
  destruct (c =? CH_SLASH); [|done]. apply (gr_resolve _ _ Hg). apply (root_lt s); [done|by left].
Qed.

Lemma find_child_named s d name :
  fs_ok s → (d < length (nodes s))%nat → type_of s d = VFS_NODE_DIR →
  find_child s d name = child_named s d name.
Proof.
  intros Hok Hd Ht. rewrite <- find_child_ref by done. unfold vfs_find_child. by rewrite Ht.
Qed.

Definition short_names (path : cstr) : Prop :=
  Forall (λ c, Zlength c < VFS_NAME_MAX) (split_path [] path).

Lemma copy_component_short c : Zlength c < VFS_NAME_MAX → copy_component c VFS_NAME_MAX = c.
Proof. unfold copy_component, VFS_NAME_MAX, Zlength. intros. apply take_ge. lia. Qed.

Lemma word_rest p : (word p).2 = [] ∨ ∃ r, (word p).2 = CH_SLASH :: r.
Proof.
  induction p as [|c p IH]; [by left|]. cbn. destruct (path_is_separator c) eqn:Hc.
  - right. exists p. unfold path_is_separator in Hc. btests. by subst c.
  - by destruct (word p).
Qed.

(** The first component of a path. *)
Lemma split_first path c p :
  c_skip path_is_separator path = c :: p →
  ∃ w, (word (c :: p)).1 = c :: w ∧
    split_path [] path = (c :: w) :: split_path [] (drop 1 (word (c :: p)).2) ∧
    (length (drop 1 (word (c :: p)).2) < length path)%nat.
Proof.
  intros Hs. assert (Hc : path_is_separator c = false) by (by eapply c_skip_head).
  destruct (c_skip_app path_is_separator path) as (pre & Hpre & _). rewrite Hs in Hpre.
  rewrite <- split_path_skip, Hs, split_path_word. pose proof (word_length (c :: p)) as Hwl.
  pose proof (word_rest (c :: p)) as Hr. cbn [word] in *. rewrite Hc in *.
  destruct (word p) as [w rest]. cbn [fst snd app] in *. exists w. split; [done|].
  unfold flush. rewrite decide_False by done. cbn [app]. split.
  - f_equal. destruct Hr as [->|(r & ->)]; done.
  - rewrite Hpre, length_app, length_drop. cbn [length] in *. lia.
Qed.

(** One component: the directory is found or made. *)
Lemma ensure_step `{Allocator H} s h d name :
  fs_ok s → (d < length (nodes s))%nat → type_of s d = VFS_NODE_DIR → find_child s d name = None →
  Zlength name < VFS_NAME_MAX →
  let '(c, s', h') := ramfs_create_dir (Some d) (Some name) s h in
  grown s s' ∧ match c with
               | None => True
               | Some i => child_named s' d name = Some i ∧ (i < length (nodes s'))%nat ∧
                           type_of s' i = VFS_NODE_DIR
               end.
Proof.
  intros Hok Hd Ht Hno Hn. rewrite find_child_named in Hno by done.
  pose proof (create_dir_outcome s (Some d) (Some name) h Hok ltac:(by intros ? [= <-])) as Ho.
  destruct (ramfs_create_dir (Some d) (Some name) s h) as [[c s'] h']. destruct Ho as [_ Ho].
  split; [by eapply outcome_grown|]. destruct Ho as [[-> _]|[[-> _]|[-> Hc]]]; [done|done|].
  rewrite (created_child s s' (Some d) _ d name Hc Hd), Hno. cbn [new_node vn_name].
  rewrite copy_name_plain by done. rewrite decide_True by done. split; [done|].
  split; [rewrite (cr_length _ _ _ _ Hc); lia|].
  unfold type_of. by rewrite (created_new_field vn_type VFS_NODE_UNKNOWN _ _ _ _ (fun _ => eq_refl) Hc).
Qed.

Lemma ensure_dir_loop_spec `{Allocator H} fuel path d (x : loader H) :
  fs_ok (ld_fs x) → (d < length (nodes (ld_fs x)))%nat → type_of (ld_fs x) d = VFS_NODE_DIR →
  (length path <= fuel)%nat → short_names path →
  let '(r, x') := ensure_dir_loop fuel path d x in
  grown (ld_fs x) (ld_fs x') ∧ loaded_files x' = loaded_files x ∧
  match r with
  | None => True
  | Some i => resolve (ld_fs x') d (split_path [] path) = Some i ∧
              (i < length (nodes (ld_fs x')))%nat ∧ type_of (ld_fs x') i = VFS_NODE_DIR
  end.
Proof.
  revert path d x. induction fuel as [|fuel IH]; intros path d x Hok Hd Ht Hf Hsh.
  { destruct path; [|cbn in Hf; lia]. cbn. split; [by apply grown_refl|done]. }
  destruct path as [|a path]; [cbn; split; [by apply grown_refl|done]|]. cbn [ensure_dir_loop].
  destruct (c_skip path_is_separator (a :: path)) as [|c p] eqn:Hs.
  { split; [by apply grown_refl|]. split; [done|]. rewrite <- split_path_skip, Hs. done. }
  destruct (split_first (a :: path) c p Hs) as (w & Hw & Hsplit & Hlen).
  unfold short_names in Hsh. rewrite Hsplit in Hsh. apply Forall_cons in Hsh as [Hwl Hsh].
  destruct (word (c :: p)) as [comp rest]. cbn [fst snd] in *. subst comp.
  rewrite copy_component_short by done. rewrite Hsplit. set (name := c :: w) in *.
  cbn [length] in Hlen. assert (Hrest : (length (drop 1 rest) <= fuel)%nat) by (cbn in Hf; lia).
  (* the state after this component *)
  assert (Hstep : ∃ child x1, (match find_child (ld_fs x) d name with
      | Some c => (Some c, x)
      | None => let '(c, s, h) := ramfs_create_dir (Some d) (Some name) (ld_fs x) (ld_heap x) in
          (c, MkLoader s h (loaded_files x) (u32 (loaded_dirs x + 1)) (loaded_bytes x))
      end) = (child, x1) ∧ grown (ld_fs x) (ld_fs x1) ∧ loaded_files x1 = loaded_files x ∧
      ∀ i, child = Some i → child_named (ld_fs x1) d name = Some i ∧ (i < length (nodes (ld_fs x1)))%nat).
  { destruct (find_child (ld_fs x) d name) as [i|] eqn:Hfc.
    - do 2 eexists. split; [reflexivity|]. split; [by apply grown_refl|]. split; [done|].
      intros j [= <-]. rewrite find_child_named in Hfc by done. split; [done|].
      by apply child_named_in in Hfc as (_ & _ & ?).
    - pose proof (ensure_step (ld_fs x) (ld_heap x) d name Hok Hd Ht Hfc Hwl) as He.
      destruct (ramfs_create_dir (Some d) (Some name) (ld_fs x) (ld_heap x)) as [[ci s1] h1].
      do 2 eexists. split; [reflexivity|]. cbn. destruct He as [Hg He]. split; [done|]. split; [done|].
      intros i ->. by destruct He as (? & ? & _). }
  destruct Hstep as (child & x1 & -> & Hg1 & Hlf & Hch).
  destruct child as [i|]; [|done]. destruct (Hch i eq_refl) as [Hcn Hil].
  case_decide as Hty'; [done|].
  specialize (IH (drop 1 rest) i x1 (gr_ok _ _ Hg1) Hil Hty' Hrest Hsh).
  destruct (ensure_dir_loop fuel (drop 1 rest) i x1) as [r x'].
  destruct IH as (Hg2 & Hlf2 & Hr). split; [by eapply grown_trans|]. split; [congruence|].
  destruct r as [j|]; [|done]. destruct Hr as (Hres & Hjl & Hjt). split; [|done]. cbn [resolve].
  pose proof (gr_resolve _ _ Hg2 d [name] i) as Hk. cbn [resolve] in Hk.
  rewrite Hcn in Hk. specialize (Hk ltac:(pose proof (gr_length _ _ Hg1); lia) eq_refl).
  destruct (child_named (ld_fs x') d name) as [k|]; [|done]. cbn in Hk. injection Hk as ->. exact Hres.
Qed.

Lemma split_last_spec path :
  match split_last path with
  | (Some d, b) => path = d ++ CH_SLASH :: b ∧ Forall (λ c, c ≠ CH_SLASH) b
  | (None, b) => path = b ∧ Forall (λ c, c ≠ CH_SLASH) b
  end.
Proof.
  induction path as [|c path IH]; [done|]. cbn. destruct (split_last path) as [[d|] b].
  - destruct IH as [-> Hb]. done.
  - destruct IH as [-> Hb]. destruct (Z.eqb_spec c CH_SLASH) as [->|Hc]; [done|].
    split; [done|]. by constructor.
Qed.

Lemma short_names_app dir base :
  plain_name base → short_names (dir ++ CH_SLASH :: base) ↔ short_names dir.
Proof.
  intros Hp. unfold short_names. rewrite split_path_app by done. rewrite Forall_app.
  split; [by intros [? _]|]. intros Hd. split; [done|]. apply Forall_singleton, Hp.
Qed.

(** What [ensure_parent_dir_for_file] prepares. *)
Lemma ensure_parent_spec `{Allocator H} path dir base r (x : loader H) :
  fs_ok (ld_fs x) → ramfs_root_node (ld_fs x) = Some r →
  split_last path = (dir, base) → plain_name base → 0 < Zlength path < INITRAMFS_PATH_MAX → short_names path →
  let '(p, b, x') := ensure_parent_dir_for_file path VFS_NAME_MAX x in
  grown (ld_fs x) (ld_fs x') ∧ loaded_files x' = loaded_files x ∧ b = base ∧
  match p with
  | None => True
  | Some d => resolve (ld_fs x') r (split_path [] (default [] dir)) = Some d ∧
              (d < length (nodes (ld_fs x')))%nat ∧ type_of (ld_fs x') d = VFS_NODE_DIR
  end.
Proof.
  intros Hok Hroot Hsp Hpl Hlen Hsh. unfold ensure_parent_dir_for_file, str_len.
  destruct (ok_roots _ Hok r ltac:(by right)) as (Hrl & _ & Hrt).
  pose proof (split_last_spec path) as Hl. rewrite Hsp in *. unfold INITRAMFS_PATH_MAX in *.
  rewrite c_strlen_length, u32_small by (unfold is_u32; lia).
  rewrite (proj2 (Z.eqb_neq (Zlength path) 0)) by lia. destruct dir as [dir|].
  - destruct Hl as [Hp Hb]. rewrite copy_component_short by apply Hpl.
    assert (Hdl : Zlength dir < 159).
    { subst path. unfold Zlength in *. rewrite length_app in Hlen. cbn in Hlen. lia. }
    assert (Hcc : copy_component dir 160 = dir).
    { unfold copy_component, Zlength in *. apply take_ge. lia. }
    rewrite Hcc. unfold ensure_dir_path, ramfs_root. rewrite Hroot. rewrite Hp, short_names_app in Hsh by done.
    pose proof (ensure_dir_loop_spec (length dir) dir r x Hok Hrl Hrt ltac:(lia) Hsh) as He.
    destruct (ensure_dir_loop (length dir) dir r x) as [p x']. by destruct He as (? & ? & ?).
  - destruct Hl as [-> Hb]. split; [by apply grown_refl|]. split; [done|]. split.
    + apply c_copy_limit_bound; [unfold VFS_NAME_MAX; lia|apply Hpl].
    + unfold ramfs_root. rewrite Hroot. done.
Qed.

(** ** Properties *)

(** C33: loading ends. Whatever the archive contains, the loop over its blocks ends
    after at most one round per 512 bytes: every entry advances by at least one
    block, sizes have at most twelve octal digits, and nothing wraps around. *)
Theorem initramfs_load_ends `{Allocator H} mem archive_bytes s h fuel :
  0 <= archive_bytes < 2 ^ 63 → archive_bytes < 512 * Z.of_nat fuel →
  ∃ x, initramfs_load fuel mem archive_bytes s h = Some (x, load_report x).
Proof.
  intros Ha Hf. destruct (load_loop_ends mem archive_bytes Ha fuel 0 (MkLoader s h 0 0 0)) as [x Hx]; [lia..|].
  exists x. unfold initramfs_load. by rewrite Hx.
Qed.

Lemma initramfs_load_ends_witness :
  ∃ x, initramfs_load 3 (λ _, 0) 1024 sample_fs (MkArena 16 99 []) = Some (x, load_report x).
Proof. apply (initramfs_load_ends (λ _, 0) 1024 sample_fs (MkArena 16 99 []) 3); lia. Defined.

(** The components of a path, from its directory and its last one. *)
Lemma split_path_last path dir base :
  split_last path = (dir, base) → plain_name base →
  split_path [] (CH_SLASH :: path) = split_path [] (default [] dir) ++ [base].
Proof.
  intros Hsp Hpl. change (split_path [] (CH_SLASH :: path)) with (split_path [] path).
  pose proof (split_last_spec path) as Hl. rewrite Hsp in Hl. destruct dir as [dir|]; destruct Hl as [-> Hb].
  - by apply split_path_app.
  - rewrite split_path_plain by done. unfold flush. rewrite decide_False; [done|]. by destruct Hpl.
Qed.

(** C32: a loaded file is found under its path. Loading an entry for a path whose
    components fit the name buffer keeps the tree well formed and changes what no
    existing path leads to; and when the entry counts as loaded, looking up the
    path from the root leads to a file with exactly the entry's bytes, in
    directories made on the way as needed. *)
Theorem initramfs_file_found `{Allocator H} path dir base data r (x : loader H) :
  fs_ok (ld_fs x) → ramfs_root_node (ld_fs x) = Some r → vfs_root_node (ld_fs x) = Some r →
  split_last path = (dir, base) → plain_name base → Zlength path < INITRAMFS_PATH_MAX →
  short_names path → data ≠ [] →
  let x' := load_file_entry path data x in
  fs_ok (ld_fs x') ∧
  (∀ path0 j, vfs_lookup (ld_fs x) path0 = Some j → vfs_lookup (ld_fs x') path0 = Some j) ∧
  (loaded_files x' ≠ loaded_files x →
   ∃ i n, vfs_lookup (ld_fs x') (CH_SLASH :: path) = Some i ∧ nodes (ld_fs x') !! i = Some n ∧
     vn_type n = VFS_NODE_FILE ∧ file_bytes n = data).
Proof.
  intros Hok Hrr Hvr Hsp Hpl Hlen Hsh Hdata.
  assert (Hpos : 0 < Zlength path).
  { pose proof (split_last_spec path) as Hl. rewrite Hsp in Hl. destruct Hpl as (Hne & _).
    unfold Zlength. destruct path; [|cbn; lia]. by destruct dir as [[|]|]; destruct Hl as [Hl _]. }
  assert (Hgoal : ∀ x' : loader H, grown (ld_fs x) (ld_fs x') → loaded_files x' = loaded_files x →
    fs_ok (ld_fs x') ∧
    (∀ path0 j, vfs_lookup (ld_fs x) path0 = Some j → vfs_lookup (ld_fs x') path0 = Some j) ∧
    (loaded_files x' ≠ loaded_files x →
     ∃ i n, vfs_lookup (ld_fs x') (CH_SLASH :: path) = Some i ∧ nodes (ld_fs x') !! i = Some n ∧
       vn_type n = VFS_NODE_FILE ∧ file_bytes n = data)).
  { intros x' Hg Hlf. split; [apply Hg|]. split; [|done]. intros. by eapply grown_lookup. }
  intros x'. unfold x', load_file_entry. clear x'.
  pose proof (ensure_parent_spec path dir base r x Hok Hrr Hsp Hpl ltac:(lia) Hsh) as He.
  destruct path as [|c0 path0]; [unfold Zlength in Hpos; cbn in Hpos; lia|]. set (path := c0 :: path0) in *.
  destruct (ensure_parent_dir_for_file path VFS_NAME_MAX x) as [[p b] x1].
  destruct He as (Hg1 & Hlf1 & -> & Hp). destruct p as [d|]; [|by apply Hgoal].
  destruct base as [|b0 base']; [by destruct Hpl|]. set (base := b0 :: base') in *.
  destruct Hp as (Hres & Hd & Hdt). pose proof (gr_ok _ _ Hg1) as Hok1.
  destruct (find_child (ld_fs x1) d base) as [j|] eqn:Hfc; [by apply Hgoal|].
  rewrite find_child_named in Hfc by done.
  pose proof (create_file_outcome (ld_fs x1) (Some d) (Some base) (ld_heap x1) Hok1
    ltac:(by intros ? [= <-]) (Some data)) as Hout.
  destruct (ramfs_create_file_from_buffer _ _ _ _ _) as [[ri s2] h2].
  destruct Hout as (ptr & Hout & _). pose proof (outcome_grown _ _ _ _ _ Hok1 Hout) as Hg2.
  pose proof (grown_trans _ _ _ Hg1 Hg2) as Hg.
  destruct ri as [i|]; [|by apply Hgoal].
  split; [apply Hg|]. split; [intros path1 j Hl; exact (grown_lookup _ _ path1 j Hok Hg Hl)|]. intros _.
  destruct Hout as [[? _]|[[? _]|[[= ->] Hc]]]; [done..|]. cbn [default] in Hc.
  unfold file_node in Hc. rewrite decide_False in Hc by done. set (nn := set_data _ _ _ _ _) in Hc.
  assert (Hnm : vn_name nn = base) by (apply copy_name_plain, Hpl).
  exists (length (nodes (ld_fs x1))). pose proof (cr_new _ _ _ _ Hc) as Hn. cbn [ld_fs].
  destruct (nodes s2 !! length (nodes (ld_fs x1))) as [n|]; [|done]. apply (inj Some) in Hn. exists n.
  split; [|split; [done|split; [exact (f_equal vn_type Hn)|]]].
  - rewrite vfs_lookup_resolve by apply Hg. destruct (gr_roots _ _ Hg) as [-> _]. rewrite Hvr.
    change (CH_SLASH =? CH_SLASH) with true. cbv iota.
    rewrite (split_path_last path dir base), resolve_app by done.
    destruct (ok_roots _ Hok r ltac:(by right)) as (Hrl & _).
    rewrite (gr_resolve _ _ Hg2 r _ d) by (done || (pose proof (gr_length _ _ Hg1); lia)). cbn.
    rewrite (created_child _ s2 (Some d) nn d base Hc Hd), Hfc, decide_True by done. done.
  - assert (Hbytes : vn_bytes n = data) by exact (f_equal vn_bytes Hn).
    assert (Hsize : vn_size n = Zlength data) by exact (f_equal vn_size Hn).
    unfold file_bytes. rewrite Hbytes, Hsize. apply take_ge. unfold Zlength. lia.
Qed.

Lemma initramfs_file_found_witness :
  let x' := load_file_entry (s2z "dev/f") [65; 66] (MkLoader sample_fs (MkArena 16 1000 []) 0 0 0) in
  loaded_files x' = 1 ∧
  ∃ i n, vfs_lookup (ld_fs x') (s2z "/dev/f") = Some i ∧ nodes (ld_fs x') !! i = Some n ∧
    vn_type n = VFS_NODE_FILE ∧ file_bytes n = [65; 66].
Proof.
  assert (Hpl : plain_name (s2z "f")) by (split; [done|]; split; [done|]; by repeat constructor).
  assert (Hsh : short_names (s2z "dev/f")).
  { apply Forall_cons. split; [reflexivity|]. apply Forall_cons. split; [reflexivity|]. apply Forall_nil_2. }
  destruct (initramfs_file_found (s2z "dev/f") (Some (s2z "dev")) (s2z "f") [65; 66] 0
    (MkLoader sample_fs (MkArena 16 1000 []) 0 0 0) sample_fs_ok eq_refl eq_refl eq_refl Hpl eq_refl Hsh
    ltac:(discriminate)) as (_ & _ & Hfound).
  split; [reflexivity|]. apply Hfound. discriminate.
Defined.

(** ** Headers as [tar] writes them *)

(** [k] octal digits. *)
Fixpoint oct (k : nat) (n : Z) : list Z :=
  match k with O => [] | S k' => oct k' (n / 8) ++ [48 + n mod 8] end.

Definition zeros (n : nat) : list Z := replicate n 0.

(** The block of an entry: name, mode/uid/gid, size, time and checksum, type,
    the rest (with an empty prefix). *)
Definition tar_header (path : cstr) (size flag : Z) : list Z :=
  path ++ zeros (100 - length path) ++ zeros 24 ++ (oct 11 size ++ [0]) ++ zeros 20 ++ [flag] ++ zeros 355.

Lemma oct_length k n : length (oct k n) = k.
Proof. revert n. induction k as [|k IH]; intros n; cbn; [done|]. rewrite length_app, IH. cbn. lia. Qed.

Lemma oct_digits k n : Forall (λ c, 48 <= c <= 55) (oct k n).
Proof.
  revert n. induction k as [|k IH]; intros n; cbn; [done|]. apply Forall_app. split; [apply IH|].
  apply Forall_singleton. zlia.
Qed.

Lemma parse_octal_digits l v rest :
  Forall (λ c, 48 <= c <= 55) l → 0 <= v → (v + 1) * 8 ^ Zlength l <= 2 ^ 64 →
  parse_octal (l ++ 0 :: rest) v = foldl (λ a c, a * 8 + (c - 48)) v l.
Proof.
  intros Hl. revert v. induction Hl as [|c l Hc Hl IH]; intros v Hv Hm; [done|].
  cbn [app parse_octal foldl]. unfold CH_SPACE.
  rewrite (proj2 (Z.eqb_neq c 0)), (proj2 (Z.eqb_neq c 32)), (proj2 (Z.ltb_ge c 48)), (proj2 (Z.ltb_ge 55 c)) by lia.
  cbn [orb].
  assert (Hp : 8 ^ Zlength (c :: l) = 8 * 8 ^ Zlength l).
  { unfold Zlength. cbn [length]. rewrite Nat2Z.inj_succ, Z.pow_succ_r by lia. lia. }
  rewrite Hp in Hm. assert (1 <= 8 ^ Zlength l) by (apply Z.pow_le_mono_r with (b := 0); unfold Zlength; lia).
  rewrite u64_small by (unfold is_u64; nia). apply IH; nia.
Qed.

Lemma oct_value k n : 0 <= n < 8 ^ Z.of_nat k → foldl (λ a c, a * 8 + (c - 48)) 0 (oct k n) = n.
Proof.
  revert n. induction k as [|k IH]; intros n Hn; cbn [oct]; [cbn in Hn; cbn; lia|].
  rewrite Nat2Z.inj_succ, Z.pow_succ_r in Hn by lia.
  rewrite foldl_snoc, IH by (split; [zlia|apply Z.div_lt_upper_bound; lia]). zlia.
Qed.

Lemma append_field_path dst path n rest :
  Forall (λ c, c ≠ 0) path → Zlength dst + Zlength path < n →
  append_field dst n (path ++ 0 :: rest) = Some (dst ++ path).
Proof.
  intros Hp. revert dst. induction Hp as [|c path Hc _ IH]; intros dst Hn; cbn.
  { by rewrite app_nil_r. }
  rewrite (proj2 (Z.eqb_neq c 0)) by done. unfold append_char. unfold Zlength in *. cbn [length] in Hn.
  rewrite (proj2 (Z.leb_gt _ _)) by lia. cbn.
  rewrite IH by (rewrite length_app; cbn; lia). by rewrite <- app_assoc.
Qed.

Lemma append_field_full dst path n :
  Forall (λ c, c ≠ 0) path → Zlength dst + Zlength path < n →
  append_field dst n path = Some (dst ++ path).
Proof.
  intros Hp. revert dst. induction Hp as [|c path Hc _ IH]; intros dst Hn; cbn.
  { by rewrite app_nil_r. }
  rewrite (proj2 (Z.eqb_neq c 0)) by done. unfold append_char. unfold Zlength in *. cbn [length] in Hn.
  rewrite (proj2 (Z.leb_gt _ _)) by lia. cbn.
  rewrite IH by (rewrite length_app; cbn; lia). by rewrite <- app_assoc.
Qed.

(** The parts of a block by their offsets. *)
Lemma take_drop_middle (a b c : list Z) n m :
  n = length a → m = length b → take m (drop n (a ++ b ++ c)) = b.
Proof. intros -> ->. by rewrite drop_app_length, take_app_length. Qed.

(** The header parser inverts the writer: for an entry as tar writes it, with a
    name of at most 100 bytes and a size below [8^11], the parser gives back the
    name, the size and the type, and the block does not pass for an end mark. *)
Theorem tar_header_roundtrip path size flag :
  path ≠ [] → Forall (λ c, c ≠ 0) path → Zlength path <= 100 → 0 <= size < 8 ^ 11 →
  let header := tar_header path size flag in
  length header = 512%nat ∧ tar_block_is_zero header = false ∧
  tar_get_raw_path header INITRAMFS_PATH_MAX = Some path ∧
  tar_parse_octal (take 12 (drop 124 header)) = size ∧ header !! 156%nat = Some flag.
Proof.
  intros Hne Hp Hl Hs header. unfold Zlength in Hl.
  assert (Hname : take 100 header = path ++ zeros (100 - length path)).
  { unfold header, tar_header. rewrite app_assoc. apply take_app_length'.
    unfold zeros. rewrite length_app, length_replicate. lia. }
  split_and!.
  - unfold header, tar_header, zeros. rewrite !length_app, !length_replicate, oct_length. cbn [length]. lia.
  - destruct path as [|c path]; [done|]. unfold header, tar_header. cbn.
    apply Forall_cons in Hp as [Hc _]. by rewrite (proj2 (Z.eqb_neq c 0)).
  - unfold tar_get_raw_path, TAR_NAME_SIZE, TAR_PREFIX_SIZE, INITRAMFS_PATH_MAX.
    change (Z.to_nat 100) with 100%nat. rewrite Hname.
    assert (Hpre : ∃ r, take (Z.to_nat 155) (drop (Z.to_nat 345) header) = 0 :: r).
    { exists (zeros 154). unfold header, tar_header.
      replace (path ++ _) with
        ((path ++ zeros (100 - length path) ++ zeros 24 ++ (oct 11 size ++ [0]) ++ zeros 20 ++ [flag] ++ zeros 188) ++
         zeros 155 ++ zeros 12) by (by rewrite <- !app_assoc).
      apply take_drop_middle; [|done].
      unfold zeros. rewrite !length_app, !length_replicate, oct_length. cbn [length]. lia. }
    destruct Hpre as (r & ->). cbn [Z.eqb mbind option_bind].
    destruct (100 - length path)%nat as [|k].
    + cbn [zeros replicate]. rewrite app_nil_r, append_field_full by (done || (unfold Zlength; cbn; lia)).
      cbn. destruct path; done.
    + cbn [zeros replicate]. rewrite append_field_path by (done || (unfold Zlength; cbn; lia)).
      cbn. destruct path; done.
  - assert (Hsz : take 12 (drop 124 header) = oct 11 size ++ [0]).
    { unfold header, tar_header.
      replace (path ++ _) with ((path ++ zeros (100 - length path) ++ zeros 24) ++ (oct 11 size ++ [0]) ++
        zeros 20 ++ [flag] ++ zeros 355) by (by rewrite <- !app_assoc).
      apply take_drop_middle; [|by rewrite length_app, oct_length].
      unfold zeros. rewrite !length_app, !length_replicate. lia. }
    rewrite Hsz. unfold tar_parse_octal.
    rewrite parse_octal_digits by (apply oct_digits || lia || (unfold Zlength; rewrite oct_length; lia)).
    by apply oct_value.
  - unfold header, tar_header.
    replace (path ++ _) with ((path ++ zeros (100 - length path) ++ zeros 24 ++ (oct 11 size ++ [0]) ++ zeros 20) ++
      [flag] ++ zeros 355) by (by rewrite <- !app_assoc).
    rewrite lookup_app_r; unfold zeros; rewrite ?length_app, ?length_replicate, ?oct_length; cbn [length]; [|lia].
    replace (156 - _)%nat with 0%nat by lia. done.
Qed.

Lemma tar_header_roundtrip_witness :
  tar_get_raw_path (tar_header (s2z "etc/motd") 29 48) INITRAMFS_PATH_MAX = Some (s2z "etc/motd") ∧
  tar_parse_octal (take 12 (drop 124 (tar_header (s2z "etc/motd") 29 48))) = 29.
Proof.
  destruct (tar_header_roundtrip (s2z "etc/motd") 29 48) as (_ & _ & H1 & H2 & _);
    [discriminate|by repeat constructor|by vm_compute|lia|].
  split; [exact H1|exact H2].
Defined.
