(* ===== verification/Elf.v ===== *)
(** * The ELF loader ([src/kernel/elf.c], [src/include/elf.h])

    The file is the list of its bytes in a heap buffer. Every read of it goes
    through [rd] or [slice], which are [None] outside the buffer: a result [None]
    of an operation is a read out of bounds. *)

From S2P Require Import Prelude CString Bytes Print Alloc Vfs Ramfs Files.

Definition ELF_CLASS_64 : Z := 2.
Definition ELF_DATA_LSB : Z := 1.
Definition ELF_VERSION_CURRENT : Z := 1.
Definition ELF_TYPE_EXEC : Z := 2.
Definition ELF_TYPE_DYN : Z := 3.
Definition ELF_MACHINE_X86_64 : Z := 62.
Definition ELF_PT_NULL : Z := 0.
Definition ELF_PT_LOAD : Z := 1.
Definition ELF_PF_X : Z := 1.
Definition ELF_PF_W : Z := 2.
Definition ELF_PF_R : Z := 4.
Definition ELF_MAX_LOADED_SEGMENTS : Z := 8.
Definition ELF_CMD_PATH_MAX : Z := 128.

Definition sizeof_ehdr : Z := 64.
Definition sizeof_phdr : Z := 56.

(** An [n]-byte field at an offset of the file. *)
Definition rd (n : nat) (file : list Z) (off : Z) : option Z :=
  if (0 <=? off) && (off + Z.of_nat n <=? Zlength file) then Some (rd_le n (mem_of 0 file) off) else None.

(** The source of a [mem_copy] from the file. *)
Definition slice (file : list Z) (off size : Z) : option (list Z) :=
  if (0 <=? off) && (0 <=? size) && (off + size <=? Zlength file)
  then Some (take (Z.to_nat size) (drop (Z.to_nat off) file)) else None.

Record elf64_phdr := MkPhdr {
  p_type : Z; p_flags : Z; p_offset : Z; p_vaddr : Z; p_filesz : Z; p_memsz : Z
}.

Definition read_phdr (file : list Z) (off : Z) : option elf64_phdr :=
  ty ← rd 4 file off; fl ← rd 4 file (off + 4); o ← rd 8 file (off + 8); va ← rd 8 file (off + 16);
  fsz ← rd 8 file (off + 32); msz ← rd 8 file (off + 40);
  Some (MkPhdr ty fl o va fsz msz).

Record elf_loaded_segment := MkSegment {
  vaddr : Z; memsz : Z; filesz : Z; flags : Z; memory : Z; seg_bytes : list Z
}.

(** The first [segment_count] entries of the array; the others are clear. *)
Record elf_loaded_image := MkImage {
  valid : bool;
  entry : Z;
  segments : list elf_loaded_segment;
  total_memory : Z
}.

Definition segment_count (im : elf_loaded_image) : Z := Zlength (segments im).

Definition elf_clear_image : elf_loaded_image := MkImage false 0 [] 0.

Definition elf_range_ok (offset size file_size : Z) : bool :=
  if file_size <? offset then false
  else if file_size - offset <? size then false
  else true.

Definition elf_validate_header (file : list Z) : option bool :=
  let file_size := Zlength file in
  if file_size <? sizeof_ehdr then Some false
  else
    i0 ← rd 1 file 0; i1 ← rd 1 file 1; i2 ← rd 1 file 2; i3 ← rd 1 file 3;
    i4 ← rd 1 file 4; i5 ← rd 1 file 5; i6 ← rd 1 file 6;
    e_type ← rd 2 file 16; e_machine ← rd 2 file 18; e_version ← rd 4 file 20;
    e_phoff ← rd 8 file 32; e_phentsize ← rd 2 file 54; e_phnum ← rd 2 file 56;
    if negb (i0 =? 0x7F) || negb (i1 =? 69) || negb (i2 =? 76) || negb (i3 =? 70) then Some false
    else if negb (i4 =? ELF_CLASS_64) then Some false
    else if negb (i5 =? ELF_DATA_LSB) then Some false
    else if negb (i6 =? ELF_VERSION_CURRENT) then Some false
    else if negb (e_type =? ELF_TYPE_EXEC) && negb (e_type =? ELF_TYPE_DYN) then Some false
    else if negb (e_machine =? ELF_MACHINE_X86_64) then Some false
    else if negb (e_version =? ELF_VERSION_CURRENT) then Some false
    else if negb (e_phentsize =? sizeof_phdr) then Some false
    else if e_phnum =? 0 then Some false
    else
      let phdr_size := u64 (e_phentsize * e_phnum) in
      Some (elf_range_ok e_phoff phdr_size file_size).

Definition elf_type_name (type : Z) : cstr :=
  if type =? ELF_TYPE_EXEC then s2z "EXEC" else if type =? ELF_TYPE_DYN then s2z "DYN" else s2z "UNKNOWN".

Definition phdr_type_name (type : Z) : cstr :=
  if type =? ELF_PT_NULL then s2z "NULL" else if type =? ELF_PT_LOAD then s2z "LOAD" else s2z "OTHER".

Definition print_segment_flags (flags : Z) : output :=
  prints (if flags &? ELF_PF_R then "R" else "-") ++
  prints (if flags &? ELF_PF_W then "W" else "-") ++
  prints (if flags &? ELF_PF_X then "X" else "-").

(** The buffer and its contents; the terminal is passed through [vfs_read]. *)
Definition read_file_to_memory `{Allocator H, TtyDevice W} (path : option cstr) (s : fs) (h : H) (w : W)
    : option (Z * list Z) * H * W :=
  match path with
  | None => (None, h, w)
  | Some path =>
      match vfs_lookup s path with
      | None => (None, h, w)
      | Some node =>
          if decide (type_of s node ≠ VFS_NODE_FILE) then (None, h, w)
          else if size_of s node =? 0 then (None, h, w)
          else
            let '(buffer, h) := k_alloc (size_of s node) h in
            if buffer =? 0 then (None, h, w)
            else
              let '(bytes, w) := vfs_read (Some node) 0 true (size_of s node) s w in
              if negb (Zlength bytes =? size_of s node) then (None, k_free buffer h, w)
              else (Some (buffer, bytes), h, w)
      end
  end.

Definition phdr_address (e_phoff e_phentsize i : Z) : Z := u64 (e_phoff + i * e_phentsize).

Fixpoint summary_loop (n : nat) (i : Z) (file : list Z) (e_phoff e_phentsize : Z) : option output :=
  match n with
  | O => Some []
  | S n' =>
      ph ← read_phdr file (phdr_address e_phoff e_phentsize i);
      rest ← summary_loop n' (i + 1) file e_phoff e_phentsize;
      Some (prints "  phdr " ++ print_dec64 i ++ prints " type=" ++ print (phdr_type_name (p_type ph)) ++
            prints " flags=" ++ print_segment_flags (p_flags ph) ++ prints " off=" ++ print_hex64 (p_offset ph) ++
            prints " vaddr=" ++ print_hex64 (p_vaddr ph) ++ prints " filesz=" ++ print_dec64 (p_filesz ph) ++
            prints " memsz=" ++ print_dec64 (p_memsz ph) ++ newline ++ rest)
  end.

Definition print_elf_summary (file : list Z) : option output :=
  e_type ← rd 2 file 16; e_entry ← rd 8 file 24; e_phoff ← rd 8 file 32;
  e_phentsize ← rd 2 file 54; e_phnum ← rd 2 file 56;
  rest ← summary_loop (Z.to_nat e_phnum) 0 file e_phoff e_phentsize;
  Some (prints "ELF64 " ++ print (elf_type_name e_type) ++ prints " x86_64" ++ newline ++
        prints "entry = " ++ print_hex64 e_entry ++ newline ++
        prints "program headers = " ++ print_dec64 e_phnum ++ newline ++
        prints "file size = " ++ print_dec64 (Zlength file) ++ newline ++ rest).

(** The body of the loop of [elf_load_from_path]: the image with the segment
    (or unchanged when the header is skipped), or the failure. *)
Definition load_segment `{Allocator H} (file : list Z) (ph : elf64_phdr) (im : elf_loaded_image) (h : H)
    : option (option elf_loaded_image * H) :=
  if negb (p_type ph =? ELF_PT_LOAD) then Some (Some im, h)
  else if p_memsz ph =? 0 then Some (Some im, h)
  else if p_memsz ph <? p_filesz ph then Some (None, h)
  else if negb (elf_range_ok (p_offset ph) (p_filesz ph) (Zlength file)) then Some (None, h)
  else if ELF_MAX_LOADED_SEGMENTS <=? segment_count im then Some (None, h)
  else
    let '(memory, h) := k_alloc (p_memsz ph) h in
    if memory =? 0 then Some (None, h)
    else
      data ← (if 0 <? p_filesz ph then slice file (p_offset ph) (p_filesz ph) else Some []);
      let bytes := data ++ replicate (Z.to_nat (p_memsz ph - p_filesz ph)) 0 in
      let seg := MkSegment (p_vaddr ph) (p_memsz ph) (p_filesz ph) (p_flags ph) memory bytes in
      Some (Some (MkImage (valid im) (entry im) (segments im ++ [seg]) (u64 (total_memory im + p_memsz ph))), h).

Fixpoint load_loop `{Allocator H} (n : nat) (i : Z) (file : list Z) (e_phoff e_phentsize : Z)
    (im : elf_loaded_image) (h : H) : option (option elf_loaded_image * H) :=
  match n with
  | O => Some (Some im, h)
  | S n' =>
      ph ← read_phdr file (phdr_address e_phoff e_phentsize i);
      '(r, h) ← load_segment file ph im h;
      match r with
      | None => Some (None, h)
      | Some im => load_loop n' (i + 1) file e_phoff e_phentsize im h
      end
  end.

(** [elf_load_from_path] once the file is in memory: the result, the image and
    the heap. *)
Definition elf_load_file `{Allocator H} (buffer : Z) (file : list Z) (h : H)
    : option (Z * elf_loaded_image * H) :=
  ok ← elf_validate_header file;
  if negb ok then Some (-1, elf_clear_image, k_free buffer h)
  else
    e_entry ← rd 8 file 24; e_phoff ← rd 8 file 32; e_phentsize ← rd 2 file 54; e_phnum ← rd 2 file 56;
    '(r, h) ← load_loop (Z.to_nat e_phnum) 0 file e_phoff e_phentsize (MkImage false e_entry [] 0) h;
    match r with
    | None => Some (-1, elf_clear_image, k_free buffer h)
    | Some im => Some (0, MkImage true (entry im) (segments im) (total_memory im), k_free buffer h)
    end.

Definition elf_load_from_path `{Allocator H, TtyDevice W} (path : option cstr) (s : fs) (h : H) (w : W)
    : option (Z * elf_loaded_image * H * W) :=
  let '(file, h, w) := read_file_to_memory path s h w in
  match file with
  | None => Some (-1, elf_clear_image, h, w)
  | Some (buffer, bytes) =>
      '(r, im, h) ← elf_load_file buffer bytes h; Some (r, im, h, w)
  end.

(** This file's copy of the function. *)
Definition copy_first_arg (args : option cstr) (out_size : Z) : bool * cstr := c_copy_first_arg args out_size.

(** The commands; [last_loaded_image] is the static they share. *)
Definition cmd_elfinfo `{Allocator H, TtyDevice W} (args : option cstr) (s : fs) (h : H) (w : W)
    : option (output * H * W) :=
  let '(found, path) := copy_first_arg args ELF_CMD_PATH_MAX in
  if negb found then Some (prints "usage: elfinfo <path>" ++ newline, h, w)
  else
    let '(file, h, w) := read_file_to_memory (Some path) s h w in
    match file with
    | None => Some (prints "elfinfo: cannot read file: " ++ print path ++ newline, h, w)
    | Some (buffer, bytes) =>
        ok ← elf_validate_header bytes;
        if negb ok then
          Some (prints "elfinfo: invalid or unsupported ELF: " ++ print path ++ newline, k_free buffer h, w)
        else o ← print_elf_summary bytes; Some (o, k_free buffer h, w)
    end.

Definition print_segment (i : Z) (seg : elf_loaded_segment) : output :=
  prints "  segment " ++ print_dec64 i ++ prints " vaddr=" ++ print_hex64 (vaddr seg) ++
  prints " mem=" ++ print_hex64 (memory seg) ++ prints " filesz=" ++ print_dec64 (filesz seg) ++
  prints " memsz=" ++ print_dec64 (memsz seg) ++ prints " flags=" ++ print_segment_flags (flags seg) ++ newline.

Definition cmd_elfload `{Allocator H, TtyDevice W} (args : option cstr) (last : elf_loaded_image)
    (s : fs) (h : H) (w : W) : option (output * elf_loaded_image * H * W) :=
  let '(found, path) := copy_first_arg args ELF_CMD_PATH_MAX in
  if negb found then Some (prints "usage: elfload <path>" ++ newline, last, h, w)
  else
    '(r, im, h, w) ← elf_load_from_path (Some path) s h w;
    if negb (r =? 0) then Some (prints "elfload: failed: " ++ print path ++ newline, im, h, w)
    else
      Some (prints "ELF loaded: " ++ print path ++ newline ++
            prints "entry = " ++ print_hex64 (entry im) ++ newline ++
            prints "loaded segments = " ++ print_dec64 (segment_count im) ++ newline ++
            prints "loaded memory = " ++ print_dec64 (total_memory im) ++ prints " bytes" ++ newline ++
            concat (zip_with print_segment (seqZ 0 (segment_count im)) (segments im)), im, h, w).

Definition cmd_elflast (last : elf_loaded_image) : output :=
  if negb (valid last) then prints "no ELF image loaded" ++ newline
  else
    prints "last ELF image:" ++ newline ++
    prints "entry = " ++ print_hex64 (entry last) ++ newline ++
    prints "segments = " ++ print_dec64 (segment_count last) ++ newline ++
    prints "total memory = " ++ print_dec64 (total_memory last) ++ newline.

(** ** Lemmas *)

Section Loader.
Context (file : list Z) (Hu8 : Forall is_u8 file) (Hlen : Zlength file < 2 ^ 63).

Lemma rd_in n off :
  0 <= off → off + Z.of_nat n <= Zlength file →
  ∃ v, rd n file off = Some v ∧ 0 <= v < 256 ^ Z.of_nat n.
Proof.
  intros Ho Hr. unfold rd. rewrite (proj2 (Z.leb_le 0 off)), (proj2 (Z.leb_le _ (Zlength file))) by lia.
  cbn [andb]. eexists. split; [reflexivity|]. apply rd_le_range, mem_of_ok, Hu8.
Qed.

(** What a valid header guarantees. *)
Record header_ok (e_entry e_phoff e_phnum : Z) : Prop := {
  hd_size : 64 <= Zlength file;
  hd_entry : rd 8 file 24 = Some e_entry;
  hd_phoff : rd 8 file 32 = Some e_phoff;
  hd_entsize : rd 2 file 54 = Some 56;
  hd_phnum : rd 2 file 56 = Some e_phnum;
  hd_range : 0 <= e_phoff ∧ 0 < e_phnum ∧ e_phoff + 56 * e_phnum <= Zlength file
}.

Lemma elf_range_ok_spec offset size n :
  elf_range_ok offset size n = true ↔ offset <= n ∧ offset + size <= n.
Proof.
  unfold elf_range_ok. destruct (Z.ltb_spec n offset); [split; [done|lia]|].
  destruct (Z.ltb_spec (n - offset) size); split; try done; lia.
Qed.

Lemma validate_spec :
  ∃ ok, elf_validate_header file = Some ok ∧
    (ok = true → ∃ e_entry e_phoff e_phnum, header_ok e_entry e_phoff e_phnum).
Proof.
  unfold elf_validate_header, sizeof_ehdr. destruct (Z.ltb_spec (Zlength file) 64) as [|Hs]; [by exists false|].
  destruct (rd_in 1 0) as (i0 & -> & _); [lia..|]. destruct (rd_in 1 1) as (i1 & -> & _); [lia..|].
  destruct (rd_in 1 2) as (i2 & -> & _); [lia..|]. destruct (rd_in 1 3) as (i3 & -> & _); [lia..|].
  destruct (rd_in 1 4) as (i4 & -> & _); [lia..|]. destruct (rd_in 1 5) as (i5 & -> & _); [lia..|].
  destruct (rd_in 1 6) as (i6 & -> & _); [lia..|]. destruct (rd_in 2 16) as (ty & -> & _); [lia..|].
  destruct (rd_in 2 18) as (ma & -> & _); [lia..|]. destruct (rd_in 4 20) as (ve & -> & _); [lia..|].
  destruct (rd_in 8 32) as (po & Hpo & Hpor); [lia..|]. destruct (rd_in 2 54) as (es & Hes & Hesr); [lia..|].
  destruct (rd_in 2 56) as (pn & Hpn & Hpnr); [lia..|]. destruct (rd_in 8 24) as (en & Hen & _); [lia..|].
  rewrite Hpo, Hes, Hpn. cbn [mbind option_bind].
  repeat (case_if; [by exists false|]). eexists. split; [reflexivity|]. intros Hr%elf_range_ok_spec.
  btests. unfold sizeof_phdr in *. subst es. change (256 ^ Z.of_nat 2) with 65536 in *.
  rewrite u64_small in Hr by (unfold is_u64; lia).
  exists en, po, pn. constructor; try done; lia.
Qed.

Lemma read_phdr_in off :
  0 <= off → off + 56 <= Zlength file →
  ∃ ph, read_phdr file off = Some ph ∧ 0 <= p_offset ph < 2 ^ 64 ∧ 0 <= p_filesz ph < 2 ^ 64 ∧
        0 <= p_memsz ph < 2 ^ 64 ∧ 0 <= p_vaddr ph < 2 ^ 64.
Proof.
  intros Ho Hr. unfold read_phdr.
  destruct (rd_in 4 off) as (ty & -> & _); [lia..|]. destruct (rd_in 4 (off + 4)) as (fl & -> & _); [lia..|].
  destruct (rd_in 8 (off + 8)) as (o & -> & Hor); [lia..|]. destruct (rd_in 8 (off + 16)) as (va & -> & Hva); [lia..|].
  destruct (rd_in 8 (off + 32)) as (fs & -> & Hfs); [lia..|]. destruct (rd_in 8 (off + 40)) as (ms & -> & Hms); [lia..|].
  change (256 ^ Z.of_nat 8) with (2 ^ 64) in *. cbn. by eexists.
Qed.

(** A header that makes a segment, and the segment made from it. *)
Definition loadable (ph : elf64_phdr) : Prop := p_type ph = ELF_PT_LOAD ∧ p_memsz ph ≠ 0.

#[local] Instance loadable_dec ph : Decision (loadable ph).
Proof. unfold loadable. apply _. Defined.

Definition loaded_from (ph : elf64_phdr) (seg : elf_loaded_segment) : Prop :=
  vaddr seg = p_vaddr ph ∧ memsz seg = p_memsz ph ∧ filesz seg = p_filesz ph ∧ flags seg = p_flags ph ∧
  memory seg ≠ 0 ∧ p_filesz ph <= p_memsz ph ∧ p_offset ph + p_filesz ph <= Zlength file ∧
  seg_bytes seg = take (Z.to_nat (p_filesz ph)) (drop (Z.to_nat (p_offset ph)) file) ++
                  replicate (Z.to_nat (p_memsz ph - p_filesz ph)) 0.

Definition memsz_sum (l : list elf64_phdr) : Z := foldl (λ a ph, u64 (a + p_memsz ph)) 0 l.

Lemma load_segment_spec `{Allocator H} ph im h :
  0 <= p_offset ph → 0 <= p_filesz ph → 0 <= p_memsz ph →
  ∃ r h', load_segment file ph im h = Some (r, h') ∧
    match r with
    | None => True
    | Some im' =>
        valid im' = valid im ∧ entry im' = entry im ∧
        if decide (loadable ph) then
          ∃ seg, segments im' = segments im ++ [seg] ∧ loaded_from ph seg ∧
            segment_count im < ELF_MAX_LOADED_SEGMENTS ∧
            total_memory im' = u64 (total_memory im + p_memsz ph)
        else im' = im
    end.
Proof.
  intros Ho Hf Hm. unfold load_segment.
  destruct (Z.eqb_spec (p_type ph) ELF_PT_LOAD) as [Hty|Hty]; cbn [negb].
  2:{ do 2 eexists. split; [reflexivity|]. split; [done|]. split; [done|].
      rewrite decide_False; [done|]. unfold loadable. tauto. }
  destruct (Z.eqb_spec (p_memsz ph) 0) as [Hz|Hz].
  { do 2 eexists. split; [reflexivity|]. split; [done|]. split; [done|].
      rewrite decide_False; [done|]. unfold loadable. tauto. }
  destruct (Z.ltb_spec (p_memsz ph) (p_filesz ph)); [by do 2 eexists|].
  destruct (elf_range_ok _ _ _) eqn:Hr; cbn [negb]; [|by do 2 eexists]. apply elf_range_ok_spec in Hr.
  destruct (Z.leb_spec ELF_MAX_LOADED_SEGMENTS (segment_count im)); [by do 2 eexists|].
  destruct (k_alloc (p_memsz ph) h) as [p h']. destruct (Z.eqb_spec p 0); [by do 2 eexists|].
  assert (Hs : (if 0 <? p_filesz ph then slice file (p_offset ph) (p_filesz ph) else Some []) =
    Some (take (Z.to_nat (p_filesz ph)) (drop (Z.to_nat (p_offset ph)) file))).
  { destruct (Z.ltb_spec 0 (p_filesz ph)).
    - unfold slice. rewrite (proj2 (Z.leb_le 0 (p_offset ph))), (proj2 (Z.leb_le 0 (p_filesz ph))) by lia.
      by rewrite (proj2 (Z.leb_le (p_offset ph + _) _)) by lia.
    - by replace (Z.to_nat (p_filesz ph)) with 0%nat by lia. }
  rewrite Hs. cbn [mbind option_bind]. do 2 eexists. split; [reflexivity|].
  split; [done|]. split; [done|]. rewrite decide_True by done. eexists. split; [reflexivity|].
  split; [|done]. unfold loaded_from. cbn. split_and!; (done || lia).
Qed.

Lemma load_loop_spec `{Allocator H} e_phoff e_phnum n i im h :
  0 <= e_phoff → e_phoff + 56 * e_phnum <= Zlength file → 0 <= i → i + Z.of_nat n = e_phnum →
  ∃ r h' l, load_loop n i file e_phoff 56 im h = Some (r, h') ∧
    mapM (λ k, read_phdr file (e_phoff + k * 56)) (seqZ i (Z.of_nat n)) = Some l ∧
    match r with
    | None => True
    | Some im' =>
        valid im' = valid im ∧ entry im' = entry im ∧
        ∃ segs, segments im' = segments im ++ segs ∧ Forall2 loaded_from (filter loadable l) segs ∧
          (segment_count im <= 8 → segment_count im' <= 8) ∧
          total_memory im' = foldl (λ a ph, u64 (a + p_memsz ph)) (total_memory im) (filter loadable l)
    end.
Proof.
  intros Hpo Hr. revert i im h. induction n as [|n IH]; intros i im h Hi Hn.
  { exists (Some im), h, []. cbn. split; [done|]. split; [done|]. split; [done|]. split; [done|].
    exists []. rewrite app_nil_r. done. }
  cbn [load_loop]. unfold phdr_address. rewrite u64_small by (unfold is_u64; lia).
  destruct (read_phdr_in (e_phoff + i * 56)) as (ph & Hph & H1 & H2 & H3 & _); [lia..|].
  rewrite Hph. cbn [mbind option_bind].
  destruct (load_segment_spec ph im h) as (r1 & h1 & -> & Hseg); [lia..|]. cbn [mbind option_bind].
  rewrite seqZ_cons by lia. replace (Z.pred (Z.of_nat (S n))) with (Z.of_nat n) by lia.
  replace (Z.succ i) with (i + 1) by lia. cbn [mapM]. rewrite Hph. cbn [mbind option_bind].
  destruct r1 as [im1|].
  - destruct (IH (i + 1) im1 h1 ltac:(lia) ltac:(lia)) as (r & h' & l & Hl & Hm & Hres).
    exists r, h', (ph :: l). rewrite Hm. split; [done|]. split; [done|]. destruct r as [im'|]; [|done].
    destruct Hres as (Hv & He & segs & Hsg & Hf2 & Hc & Ht). destruct Hseg as (Hv1 & He1 & Hseg).
    split; [congruence|]. split; [congruence|]. rewrite filter_cons.
    destruct (decide (loadable ph)) as [Hld|Hld].
    + destruct Hseg as (seg & Hs1 & Hlf & Hlt & Htot). exists (seg :: segs).
      split; [rewrite Hsg, Hs1, <- app_assoc; done|]. split; [by constructor|]. split.
      * intros _. apply Hc. unfold segment_count, Zlength in *. rewrite Hs1, length_app. cbn.
        unfold ELF_MAX_LOADED_SEGMENTS in Hlt. lia.
      * cbn. by rewrite <- Htot.
    + subst im1. by exists segs.
  - assert (Hrest : ∃ l, mapM (λ k, read_phdr file (e_phoff + k * 56)) (seqZ (i + 1) (Z.of_nat n)) = Some l).
    { destruct (IH (i + 1) im h ltac:(lia) ltac:(lia)) as (_ & _ & l & _ & Hm & _). by exists l. }
    destruct Hrest as [l Hm]. exists None, h1, (ph :: l). rewrite Hm. done.
Qed.
End Loader.

(** ** Properties *)


(** An image with one LOAD header: four bytes of the file at 0x400000, in eight
    bytes of memory. *)
Definition sample_ehdr (phnum : Z) : list Z :=
  [0x7F; 69; 76; 70; 2; 1; 1; 0] ++ replicate 8 0 ++ le_list 2 2 ++ le_list 2 62 ++ le_list 4 1 ++
  le_list 8 0x400000 ++ le_list 8 64 ++ le_list 8 0 ++ le_list 4 0 ++ le_list 2 64 ++ le_list 2 56 ++
  le_list 2 phnum ++ le_list 2 0 ++ le_list 2 0 ++ le_list 2 0.
Definition sample_phdr (offset filesz memsz : Z) : list Z :=
  le_list 4 1 ++ le_list 4 5 ++ le_list 8 offset ++ le_list 8 0x400000 ++ le_list 8 0x400000 ++
  le_list 8 filesz ++ le_list 8 memsz ++ le_list 8 4096.
Definition sample_elf : list Z := sample_ehdr 1 ++ sample_phdr 120 4 8 ++ [1; 2; 3; 4].


(** A load that fails at its second segment gives back the file's buffer, but
    not the memory of the first segment, which no image refers to any more. *)
Theorem elf_load_failure_leaks :
  let file := sample_ehdr 2 ++ sample_phdr 0 4 8 ++ sample_phdr 0 9 8 in
  (λ x, (x.1, live x.2)) <$> elf_load_file 16 file (MkArena 1000 9000 [(16, 176)]) =
    Some (-1, elf_clear_image, [(1000, 8)]).
Proof. vm_compute. reflexivity. Qed.
