(* ===== verification/Process.v ===== *)
(** * Processes ([src/kernel/process.c], [src/include/process.h])

    The process list only grows at its tail: a [process_t*] is a position in
    it. A block under [process_lock] is one step; [process_wait] gives up the
    processor between its rounds, so a round is a step and what the other tasks
    do in between is any sequence of steps. *)

From S2P Require Import Prelude CString Print Alloc Task.

Definition PROCESS_NAME_MAX : Z := 128.
Definition PROCESS_WAIT_OK : Z := 0.
Definition PROCESS_WAIT_NO_PROCESS : Z := -1.
Definition PROCESS_WAIT_LOAD_FAILED : Z := -2.

(** [sizeof(process_t)]. *)
Definition sizeof_process : Z := 168.

Inductive process_state :=
  | PROCESS_STATE_UNUSED | PROCESS_STATE_RUNNING | PROCESS_STATE_ZOMBIE | PROCESS_STATE_REAPED.

#[global] Instance process_state_eq_dec : EqDecision process_state.
Proof. solve_decision. Defined.

Record process := MkProcess {
  pid : Z;
  parent_pid : Z;
  proc_name : cstr;
  proc_state : process_state;
  exit_code : Z;
  load_status : Z;
  task_id : Z
}.

Record proctab := MkProctab {
  procs : list process;
  next_pid : Z;
  total_process_count : Z
}.

Definition upd_proc (i : nat) (f : process → process) (x : proctab) : proctab :=
  MkProctab (alter f i (procs x)) (next_pid x) (total_process_count x).

(** [None] is a null path. *)
Definition process_copy_name (path : option cstr) : cstr :=
  match path with Some path => c_copy_limit path 0 PROCESS_NAME_MAX | None => [] end.

(** The walk over the linked list: the first position with the property. *)
Fixpoint find_pos (p : process → bool) (l : list process) (i : nat) : option nat :=
  match l with
  | [] => None
  | x :: r => if p x then Some i else find_pos p r (S i)
  end.

Definition process_find_by_pid_locked (n : Z) (x : proctab) : option nat :=
  find_pos (λ p, pid p =? n) (procs x) 0.

Definition process_find_by_task_locked (tid : Z) (x : proctab) : option nat :=
  if tid =? 0 then None
  else find_pos (λ p, (task_id p =? tid) && bool_decide (proc_state p = PROCESS_STATE_RUNNING)) (procs x) 0.

(** [proc->load_status = ...; proc->exit_code = ...; proc->state = ZOMBIE] *)
Definition finished (status code : Z) (p : process) : process :=
  MkProcess (pid p) (parent_pid p) (proc_name p) PROCESS_STATE_ZOMBIE code status (task_id p).

Definition process_finish (proc : option nat) (status code : Z) (x : proctab) : proctab :=
  match proc with
  | None => x
  | Some i => upd_proc i (finished status code) x
  end.

(** The entry of the process's task after [user_mode_run_path] has returned. *)
Definition process_task_entry (proc : option nat) (status code : Z) (x : proctab) : proctab :=
  match proc with
  | None => x
  | Some _ => process_finish proc status code x
  end.

Definition process_init : proctab * output :=
  (MkProctab [] 1 0, color_line "Process table initialized" COLOR_GREEN_ON_BLACK).

Definition process_current_pid (s : sched) (x : proctab) : Z :=
  let tid := task_current_id s in
  if tid =? 0 then 0
  else match process_find_by_task_locked tid x with
       | Some i => match procs x !! i with Some p => pid p | None => 0 end
       | None => 0
       end.

Definition set_task_id (tid : Z) (p : process) : process :=
  MkProcess (pid p) (parent_pid p) (proc_name p) (proc_state p) (exit_code p) (load_status p) tid.

(** [process_create]: the pid (0 on failure), the table, the scheduler, the heap
    and what is printed; [ent] is the address of [process_task_entry]. *)
Definition process_create `{Allocator H} (ent : Z) (path : option cstr) (x : proctab) (s : sched) (h : H)
    : Z * proctab * sched * H * output :=
  match path with
  | None | Some [] => (0, x, s, h, [])
  | Some _ =>
      let '(proc, h) := k_alloc sizeof_process h in
      if proc =? 0 then
        (0, x, s, h, color_line "process_create failed: no memory" COLOR_RED_ON_BLACK)
      else
        let p := MkProcess (next_pid x) (process_current_pid s x) (process_copy_name path)
                           PROCESS_STATE_RUNNING 0 0 0 in
        let i := length (procs x) in
        let x := MkProctab (procs x ++ [p]) (u32 (next_pid x + 1)) (u32 (total_process_count x + 1)) in
        let '(tid, s, h, o) := task_create (Some (s2z "user-elf")) ent proc s h in
        if tid =? 0 then (0, process_finish (Some i) (-1) 0 x, s, h, o)
        else (pid p, upd_proc i (set_task_id tid) x, s, h, o)
  end.

Definition process_exit (code : Z) (s : sched) (x : proctab) : proctab :=
  let tid := task_current_id s in
  if tid =? 0 then x
  else process_finish (process_find_by_task_locked tid x) 0 code x.

(** [proc->state == PROCESS_STATE_ZOMBIE || proc->state == PROCESS_STATE_REAPED] *)
Definition has_ended (p : process) : bool :=
  bool_decide (proc_state p = PROCESS_STATE_ZOMBIE) || bool_decide (proc_state p = PROCESS_STATE_REAPED).

Definition reaped (p : process) : process :=
  MkProcess (pid p) (parent_pid p) (proc_name p) PROCESS_STATE_REAPED (exit_code p) (load_status p) (task_id p).

(** One round of the loop of [process_wait]: the return value and the exit code
    stored, or [None] when the process is running and the processor is given up. *)
Definition process_wait (n : Z) (x : proctab) : option (Z * Z) * proctab :=
  match process_find_by_pid_locked n x with
  | None => (Some (PROCESS_WAIT_NO_PROCESS, 0), x)
  | Some i =>
      match procs x !! i with
      | None => (Some (PROCESS_WAIT_NO_PROCESS, 0), x)
      | Some p =>
          if has_ended p then
            (Some (if load_status p =? 0 then PROCESS_WAIT_OK else PROCESS_WAIT_LOAD_FAILED, exit_code p),
             upd_proc i reaped x)
          else (None, x)
      end
  end.

Definition process_state_name (st : process_state) : cstr :=
  match st with
  | PROCESS_STATE_RUNNING => s2z "running"
  | PROCESS_STATE_ZOMBIE => s2z "zombie"
  | PROCESS_STATE_REAPED => s2z "reaped"
  | PROCESS_STATE_UNUSED => s2z "unused"
  end.

Definition print_process (p : process) : output :=
  prints "  pid=" ++ print_dec64 (pid p) ++ prints " ppid=" ++ print_dec64 (parent_pid p) ++
  prints " task=" ++ print_dec64 (task_id p) ++ prints " state=" ++ print (process_state_name (proc_state p)) ++
  (if has_ended p then
     if negb (load_status p =? 0) then prints " load=failed"
     else prints " exit=" ++ print_dec64 (exit_code p)
   else []) ++
  prints " " ++ print (proc_name p) ++ newline.

Definition cmd_ps (x : proctab) : output :=
  prints "processes:" ++ newline ++ concat (print_process <$> procs x) ++
  prints "process count = " ++ print_dec64 (total_process_count x) ++ newline.

Definition is_digit (c : Z) : bool := (48 <=? c) && (c <=? 57).

(** The digits at the head of the string, accumulated in a [u32]. *)
Fixpoint parse_digits (args : cstr) (value : Z) : Z :=
  match args with
  | c :: r => if is_digit c then parse_digits r (u32 (value * 10 + (c - 48))) else value
  | [] => value
  end.

Definition parse_pid (args : option cstr) : option Z :=
  match args with
  | None => None
  | Some args =>
      match c_skip c_is_space args with
      | [] => None
      | c :: r => if is_digit c then Some (parse_digits (c :: r) 0) else None
      end
  end.

Definition wait_report (n result code : Z) : output :=
  if result =? PROCESS_WAIT_NO_PROCESS then prints "wait: no such pid " ++ print_dec64 n ++ newline
  else if result =? PROCESS_WAIT_LOAD_FAILED then
    prints "wait: pid " ++ print_dec64 n ++ prints " failed to load" ++ newline
  else prints "wait: pid " ++ print_dec64 n ++ prints " exit code = " ++ print_dec64 code ++ newline.

(** One round of the command; [None] when it gives up the processor. *)
Definition cmd_wait (args : option cstr) (x : proctab) : option output * proctab :=
  match parse_pid args with
  | None => (Some (prints "usage: wait <pid>" ++ newline), x)
  | Some n =>
      let '(r, x) := process_wait n x in
      ((λ '(result, code), wait_report n result code) <$> r, x)
  end.

(** ** The system of processes

    The table, the scheduler with where the processor is, and, for the
    specification, the last exit status reported for each process. *)

Record world := MkWorld {
  tab : proctab;
  sch : sched * context;
  reported : gmap nat (Z * Z)
}.

Definition proc_boot : world := MkWorld process_init.1 (task_init, InSched) ∅.

(** A failed creation that has already listed the process reports it as failed
    to load. [step_proc_finish] is the end of a process's task, or kernel code
    that ends it: any process, at any time. *)
Inductive proc_step `{Allocator H} : world → world → Prop :=
  | step_proc_create ent path x s c rep (h : H) n x' s' h' o :
      process_create ent path x s h = (n, x', s', h', o) →
      proc_step (MkWorld x (s, c) rep)
        (MkWorld x' (s', c)
           (match procs x' !! length (procs x) with
            | Some p => if has_ended p then <[length (procs x) := (-1, 0)]> rep else rep
            | None => rep
            end))
  | step_proc_finish i status code x sc rep :
      (i < length (procs x))%nat →
      proc_step (MkWorld x sc rep)
        (MkWorld (process_task_entry (Some i) status code x) sc (<[i := (status, code)]> rep))
  | step_proc_exit code x s c rep i :
      process_find_by_task_locked (task_current_id s) x = Some i →
      proc_step (MkWorld x (s, c) rep)
        (MkWorld (process_exit code s x) (s, c) (<[i := (0, code)]> rep))
  | step_proc_wait n x sc rep : proc_step (MkWorld x sc rep) (MkWorld (process_wait n x).2 sc rep)
  | step_proc_sched x sc sc' rep :
      sched_step sc sc' → proc_step (MkWorld x sc rep) (MkWorld x sc' rep).

(** A process is running as long as nothing was reported for it, and keeps the
    last report. *)
Definition proc_ok (r : option (Z * Z)) (p : process) : Prop :=
  match r with
  | None => proc_state p = PROCESS_STATE_RUNNING
  | Some (status, code) => has_ended p = true ∧ load_status p = status ∧ exit_code p = code
  end.

(** The tasks of the running processes are distinct, as long as task ids do not
    wrap around. *)
Definition owners_ok (x : proctab) (s : sched) : Prop :=
  Zlength (tasks s) < 2 ^ 32 - 1 →
  (∀ i p, procs x !! i = Some p → proc_state p = PROCESS_STATE_RUNNING → 0 < task_id p <= Zlength (tasks s)) ∧
  ∀ i j p q, procs x !! i = Some p → procs x !! j = Some q → (i < j)%nat →
    proc_state p = PROCESS_STATE_RUNNING → proc_state q = PROCESS_STATE_RUNNING → task_id p < task_id q.

Record world_ok (w : world) : Prop := {
  wo_sched : sched_inv (sch w);
  wo_next : next_pid (tab w) = u32 (Zlength (procs (tab w)) + 1);
  wo_count : total_process_count (tab w) = u32 (Zlength (procs (tab w)));
  wo_pid : ∀ i p, procs (tab w) !! i = Some p → pid p = u32 (Z.of_nat i + 1);
  wo_proc : ∀ i p, procs (tab w) !! i = Some p → proc_ok (reported w !! i) p;
  wo_dom : ∀ i, is_Some (reported w !! i) → (i < length (procs (tab w)))%nat;
  wo_owners : owners_ok (tab w) (sch w).1
}.

(** ** Lemmas *)

Lemma find_pos_spec p l i :
  match find_pos p l i with
  | Some k => ∃ j y, k = (i + j)%nat ∧ l !! j = Some y ∧ p y = true ∧
                ∀ j' z, (j' < j)%nat → l !! j' = Some z → p z = false
  | None => ∀ j y, l !! j = Some y → p y = false
  end.
Proof.
  revert i. induction l as [|y l IH]; intros i; cbn; [done|].
  destruct (p y) eqn:Hy.
  { exists 0%nat, y. split; [lia|]. split; [done|]. split; [done|]. intros; lia. }
  specialize (IH (S i)). destruct (find_pos p l (S i)) as [k|].
  - destruct IH as (j & z & -> & Hj & Hz & Hb). exists (S j), z. split; [lia|]. split; [done|]. split; [done|].
    intros [|j'] u Hj' Hu; [cbn in Hu; congruence|]. apply (Hb j' u); [lia|done].
  - intros [|j] z Hz; [cbn in Hz; congruence|]. by apply (IH j z).
Qed.

(** The first match is the only one. *)
Lemma find_pos_unique p l i y :
  l !! i = Some y → p y = true → (∀ j z, l !! j = Some z → p z = true → j = i) →
  find_pos p l 0 = Some i.
Proof.
  intros Hi Hy Hu. pose proof (find_pos_spec p l 0) as Hf. destruct (find_pos p l 0) as [k|].
  - destruct Hf as (j & z & -> & Hj & Hz & _). f_equal. cbn. by apply (Hu j z).
  - rewrite (Hf i y Hi) in Hy. done.
Qed.

Lemma find_pos_lookup p l k : find_pos p l 0 = Some k → ∃ y, l !! k = Some y ∧ p y = true.
Proof.
  intros Hf. pose proof (find_pos_spec p l 0) as Hs. rewrite Hf in Hs.
  destruct Hs as (j & y & -> & Hj & Hy & _). by exists y.
Qed.

Lemma lookup_upd_proc i f x j :
  procs (upd_proc i f x) !! j = (if decide (j = i) then f <$> procs x !! j else procs x !! j).
Proof.
  unfold upd_proc. cbn. case_decide as Hj; [subst; by rewrite list_lookup_alter_eq|].
  by rewrite list_lookup_alter_ne.
Qed.

Lemma length_upd_proc i f x : length (procs (upd_proc i f x)) = length (procs x).
Proof. unfold upd_proc. cbn. apply length_alter. Qed.

(** A change of one process that keeps its pid and its task and does not set it
    running. *)
Lemma upd_world_ok i f x sc rep rep' :
  world_ok (MkWorld x sc rep) →
  (∀ p, pid (f p) = pid p ∧ task_id (f p) = task_id p ∧
        (proc_state (f p) = PROCESS_STATE_RUNNING → proc_state p = PROCESS_STATE_RUNNING)) →
  (∀ p, procs x !! i = Some p → proc_ok (rep' !! i) (f p)) →
  (∀ j, j ≠ i → rep' !! j = rep !! j) → (i < length (procs x))%nat →
  world_ok (MkWorld (upd_proc i f x) sc rep').
Proof.
  intros [Hs Hn Hc Hp Hr Hd Ho] Hf Hok Hrep Hi. cbn in *.
  assert (Hback : ∀ j q, procs (upd_proc i f x) !! j = Some q → ∃ p, procs x !! j = Some p ∧
            pid q = pid p ∧ task_id q = task_id p ∧
            (proc_state q = PROCESS_STATE_RUNNING → proc_state p = PROCESS_STATE_RUNNING)).
  { intros j q. rewrite lookup_upd_proc. case_decide; [|intros ->; by exists q].
    intros (p & -> & ->)%fmap_Some. exists p. destruct (Hf p) as (? & ? & ?). done. }
  split; cbn; try done.
  - rewrite Hn. unfold Zlength. by rewrite length_alter.
  - rewrite Hc. unfold Zlength. by rewrite length_alter.
  - intros j q (p & Hj & -> & _)%Hback. by apply Hp.
  - intros j q Hq. pose proof (lookup_upd_proc i f x j) as Hl. cbn in Hl. rewrite Hl in Hq. clear Hl.
    case_decide as Hji; [subst j|rewrite Hrep by done; by apply Hr].
    apply fmap_Some in Hq as (p & Hpi & ->). by apply Hok.
  - intros j Hj. rewrite length_alter. destruct (decide (j = i)) as [->|Hji]; [done|].
    rewrite Hrep in Hj by done. by apply Hd.
  - intros Hlen. destruct (Ho Hlen) as [H1 H2]. split.
    + intros j q (p & Hj & _ & -> & Hrun)%Hback Hq. by apply (H1 j p Hj), Hrun.
    + intros j k q r (p & Hj & _ & -> & Hp1)%Hback (p' & Hk & _ & -> & Hp2)%Hback Hjk Hq1 Hq2.
      apply (H2 j k p p'); auto.
Qed.

Lemma finish_world_ok i status code x sc rep :
  world_ok (MkWorld x sc rep) → (i < length (procs x))%nat →
  world_ok (MkWorld (process_finish (Some i) status code x) sc (<[i := (status, code)]> rep)).
Proof.
  intros Hw Hi. apply (upd_world_ok _ _ _ _ rep); [done|done| |intros j Hj; by rewrite lookup_insert_ne|done].
  intros p _. by rewrite lookup_insert_eq.
Qed.

(** The scheduler's steps keep the tasks. *)
Lemma sched_step_grows `{Allocator H} a b : sched_step a b → (length (tasks a.1) <= length (tasks b.1))%nat.
Proof.
  assert (Hu : ∀ i f s, length (tasks (upd i f s)) = length (tasks s)) by (intros; apply length_alter).
  assert (Hw : ∀ now s, length (tasks (task_wakeup_sleeping_locked now s)) = length (tasks s))
    by (intros; apply length_fmap).
  assert (Hpk : ∀ now s, length (tasks (task_pick_next_locked now s).2) = length (tasks s)).
  { intros now s. destruct (pick_cases now s) as [(i & s1 & -> & _ & -> & _)|[-> | ->]]; [apply Hw..|done]. }
  assert (He : ∀ now r s, length (tasks (task_run_once_enter now r s).2) = length (tasks s)).
  { intros now r s. unfold task_run_once_enter. specialize (Hpk now s).
    destruct (task_pick_next_locked now s) as [[i|] s1]; [|done]. cbn in *. by rewrite length_alter. }
  assert (Hy : ∀ r s, length (tasks (task_yield r s).2) = length (tasks s)).
  { intros r s. unfold task_yield. destruct (current_task s); [|done]. cbn. by rewrite !length_alter. }
  intros Hst. destruct Hst as [a b Hst|s|p s c|p n s c].
  - destruct Hst as [now r s s' y Hst|now r s s' Hst|r s s' y Hst|now n r s s' y Hst|r s s' y Hst|r s s' y Hst
                    |nm e a s h s' h' i o c Hst|now s c].
    + specialize (He now r s). rewrite Hst in He. cbn in *. lia.
    + specialize (He now r s). rewrite Hst in He. cbn in *. lia.
    + specialize (Hy r s). rewrite Hst in Hy. cbn in *. lia.
    + unfold task_sleep_ticks in Hst. destruct (current_task s) as [i|]; [|done]. case_if.
      * specialize (Hy r s). rewrite Hst in Hy. cbn in *. lia.
      * injection Hst as _ <-. cbn. by rewrite !length_alter.
    + unfold task_exit in Hst. destruct (current_task s) as [i|]; [|done]. injection Hst as _ <-.
      cbn. by rewrite !length_alter.
    + unfold task_block_switch in Hst. destruct (current_task s) as [i|]; [|done]. injection Hst as _ <-.
      cbn. by rewrite !length_alter.
    + apply task_create_cases in Hst as [->|(t & _ & _ & Ht & _)]; [done|].
      cbn. rewrite Ht, length_app. lia.
    + cbn. by rewrite length_fmap.
  - destruct (task_current s); cbn; [by rewrite length_alter|done].
  - destruct p; cbn; [by rewrite length_alter|done].
  - destruct p; cbn; [by rewrite length_alter|done].
Qed.

Lemma owners_grow x s s' :
  (length (tasks s) <= length (tasks s'))%nat → owners_ok x s → owners_ok x s'.
Proof.
  unfold owners_ok, Zlength. intros Hl Ho Hb. destruct (Ho ltac:(lia)) as [H1 H2]. split; [|done].
  intros i p Hi Hr. specialize (H1 i p Hi Hr). lia.
Qed.

Lemma task_create_id `{Allocator H} nm e a s h i s' h' o :
  task_create nm e a s h = (i, s', h', o) → i ≠ 0 →
  i = next_task_id s ∧ length (tasks s') = S (length (tasks s)).
Proof.
  unfold task_create. case_if; [by intros [= <- <- <- <-]|].
  destruct (k_alloc sizeof_task h) as [p h1]. case_if; [by intros [= <- <- <- <-]|].
  destruct (task_strdup_limited nm h1) as [[nm'|] h2]; [|by intros [= <- <- <- <-]].
  destruct (k_alloc TASK_STACK_SIZE h2) as [stk h3]. case_if; [by intros [= <- <- <- <-]|].
  intros [= <- <- <- <-] _. cbn. rewrite length_app. cbn. split; [done|lia].
Qed.

Lemma alter_last (f : process → process) l p : alter f (length l) (l ++ [p]) = l ++ [f p].
Proof. rewrite <- (Nat.add_0_r (length l)). by rewrite alter_app_r. Qed.

(** The outcomes of a creation. *)
Lemma process_create_cases `{Allocator H} ent path x s (h : H) n x' s' h' o :
  process_create ent path x s h = (n, x', s', h', o) →
  x' = x ∧ s' = s ∧ n = 0 ∨
  ∃ q, procs x' = procs x ++ [q] ∧ next_pid x' = u32 (next_pid x + 1) ∧
    total_process_count x' = u32 (total_process_count x + 1) ∧ pid q = next_pid x ∧
    parent_pid q = process_current_pid s x ∧ proc_name q = process_copy_name path ∧
    (∀ c, sched_step (s, c) (s', c)) ∧
    (n = 0 ∧ has_ended q = true ∧ load_status q = -1 ∧ exit_code q = 0 ∨
     n = pid q ∧ proc_state q = PROCESS_STATE_RUNNING ∧ task_id q ≠ 0 ∧ task_id q = next_task_id s ∧
     length (tasks s') = S (length (tasks s))).
Proof.
  unfold process_create. destruct path as [[|ch path]|]; [intros [= <- <- <- <- <-]; by left| |intros [= <- <- <- <- <-]; by left].
  destruct (k_alloc sizeof_process h) as [proc h1]. case_if; [intros [= <- <- <- <- <-]; by left|].
  destruct (task_create _ ent proc s h1) as [[[tid s1] h2] o1] eqn:Ht.
  assert (Hst : ∀ c, sched_step (s, c) (s1, c)) by (intros c; by eapply step_core, step_create).
  case_if; intros [= <- <- <- <- <-]; right; btests.
  - eexists. cbn. rewrite alter_last. do 7 (split; [done|]). by left.
  - eexists. cbn. rewrite alter_last. do 7 (split; [done|]). right.
    destruct (task_create_id _ _ _ _ _ _ _ _ _ Ht) as [? ?]; [done|]. done.
Qed.

Lemma ended_not_running p : has_ended p = true → proc_state p ≠ PROCESS_STATE_RUNNING.
Proof. unfold has_ended. by destruct (proc_state p). Qed.

Lemma running_not_ended p : proc_state p = PROCESS_STATE_RUNNING → has_ended p = false.
Proof. unfold has_ended. by intros ->. Qed.

Lemma lookup_snoc_cases {A} (l : list A) q i y :
  (l ++ [q]) !! i = Some y → l !! i = Some y ∨ i = length l ∧ y = q.
Proof.
  intros [?|[Hi Hy]]%lookup_app_Some; [by left|]. right.
  apply list_lookup_singleton_Some in Hy as [? ->]. split; [lia|done].
Qed.

Lemma u32_succ n : u32 (u32 n + 1) = u32 (n + 1).
Proof. unfold u32. by rewrite Z.add_mod_idemp_l. Qed.

(** A listed process: reported as failed when its task could not be created,
    and otherwise running on a task of its own. *)
Lemma create_world_ok `{Allocator H} x s c rep ent path (h : H) n x' s' h' o :
  world_ok (MkWorld x (s, c) rep) → process_create ent path x s h = (n, x', s', h', o) →
  world_ok (MkWorld x' (s', c)
    (match procs x' !! length (procs x) with
     | Some p => if has_ended p then <[length (procs x) := (-1, 0)]> rep else rep
     | None => rep
     end)).
Proof.
  intros Hw Hcr. destruct (process_create_cases _ _ _ _ _ _ _ _ _ _ Hcr)
    as [(-> & -> & _)|(q & Hx & Hn & Ht & Hpid & _ & _ & Hst & Hq)].
  { by rewrite lookup_ge_None_2. }
  destruct Hw as [Hs Hnx Hc Hp Hr Hd Ho]. cbn in *.
  pose proof (sched_step_inv _ _ (Hst c) Hs) as Hs'.
  pose proof (owners_grow x _ _ (sched_step_grows _ _ (Hst c)) Ho) as Ho'. cbn in Ho'.
  rewrite Hx, (list_lookup_middle _ [] q) by done.
  assert (Hlen : Zlength (procs x ++ [q]) = Zlength (procs x) + 1).
  { unfold Zlength. rewrite length_app. cbn. lia. }
  assert (Hnew : rep !! length (procs x) = None).
  { destruct (rep !! length (procs x)) eqn:He; [|done]. specialize (Hd (length (procs x))).
    rewrite He in Hd. specialize (Hd (mk_is_Some _ _ eq_refl)). lia. }
  set (rep' := if has_ended q then _ else _).
  assert (Hrep : ∀ j, (j < length (procs x))%nat → rep' !! j = rep !! j).
  { intros j Hj. unfold rep'. case_if; [|done]. rewrite lookup_insert_ne by lia. done. }
  split; cbn; rewrite ?Hx, ?Hlen; [done| | | | | |].
  - by rewrite Hn, Hnx, u32_succ.
  - by rewrite Ht, Hc, u32_succ.
  - intros i p [Hi|[-> ->]]%lookup_snoc_cases; [by apply Hp|]. rewrite Hpid, Hnx. done.
  - intros i p [Hi|[-> ->]]%lookup_snoc_cases.
    + rewrite Hrep by (by eapply lookup_lt_Some). by apply Hr.
    + unfold rep'. destruct Hq as [(_ & He & ? & ?)|(_ & Hrun & _)].
      * rewrite He, lookup_insert_eq. done.
      * rewrite running_not_ended by done. by rewrite Hnew.
  - intros i Hi. rewrite length_app. cbn. unfold rep' in Hi. case_if.
    + destruct (decide (i = length (procs x))); [lia|]. rewrite lookup_insert_ne in Hi by done.
      apply Hd in Hi. lia.
    + apply Hd in Hi. lia.
  - intros Hb. destruct (Ho' Hb) as [H1 H2]. destruct Hs as [_ [Hid _]].
    assert (Hown : proc_state q = PROCESS_STATE_RUNNING →
              task_id q = Zlength (tasks s) + 1 ∧ Zlength (tasks s') = Zlength (tasks s) + 1).
    { intros Hrun. destruct Hq as [(_ & He & _)|(_ & _ & _ & Htid & Hl)].
      { by apply ended_not_running in He. }
      unfold Zlength in *. rewrite Hl in *. split; [|lia]. rewrite Htid, Hid.
      apply u32_small. unfold is_u32. lia. }
    assert (Hs0 : Zlength (tasks s) < 2 ^ 32 - 1).
    { pose proof (sched_step_grows _ _ (Hst c)). cbn in *. unfold Zlength in *. lia. }
    destruct (Ho Hs0) as [H1s _]. rewrite Hx. split.
    + intros i p [Hi|[-> ->]]%lookup_snoc_cases Hrun; [by apply (H1 i)|].
      destruct (Hown Hrun). unfold Zlength in *. lia.
    + intros i j p r [Hi|[-> ->]]%lookup_snoc_cases [Hj|[-> ->]]%lookup_snoc_cases Hij Hp1 Hp2.
      * by apply (H2 i j).
      * destruct (Hown Hp2) as [-> _]. specialize (H1s i p Hi Hp1). lia.
      * apply lookup_lt_Some in Hj. lia.
      * lia.
Qed.

Lemma proc_step_ok `{Allocator H} w w' : proc_step w w' → world_ok w → world_ok w'.
Proof.
  intros Hst Hw. destruct Hst as [ent path x s c rep h n x' s' h' o Hc|i st code x sc rep Hi
                                 |code x s c rep i Hf|n x sc rep|x sc sc' rep Hsc].
  - by eapply create_world_ok.
  - by apply finish_world_ok.
  - unfold process_exit. unfold process_find_by_task_locked in Hf |- *. case_if; [done|]. rewrite Hf.
    apply find_pos_lookup in Hf as (p & Hp & _). apply finish_world_ok; [done|]. by eapply lookup_lt_Some.
  - unfold process_wait. destruct (process_find_by_pid_locked n x) as [i|]; [|done].
    destruct (procs x !! i) as [p|] eqn:Hi; [|done]. destruct (has_ended p) eqn:He; [|done].
    apply (upd_world_ok _ _ _ _ rep); [done| | |done|by eapply lookup_lt_Some].
    + intros q. done.
    + intros q Hq. assert (q = p) as -> by congruence. pose proof (wo_proc _ Hw i p Hi) as Hok. cbn in Hok.
      destruct (rep !! i) as [[st code]|]; [|apply running_not_ended in Hok; congruence].
      destruct Hok as (_ & ? & ?). done.
  - destruct Hw as [Hs Hn Hc Hp Hr Hd Ho]. split; cbn in *; try done.
    + by eapply sched_step_inv.
    + eapply owners_grow; [|done]. by apply sched_step_grows.
Qed.

Lemma world_reach `{Allocator H} w w' : rtc proc_step w w' → world_ok w → world_ok w'.
Proof. induction 1 as [|? ? ? Hst _ IH]; [done|]. intros Hw. by eapply IH, proc_step_ok. Qed.

Lemma boot_ok : world_ok proc_boot.
Proof.
  split; cbn; [|done|done|done|done| |].
  - split; [split; [done|by intros i]|]. split; [done|]. by intros i t.
  - intros i [? Hi]. by rewrite lookup_empty in Hi.
  - intros _. split; [by intros|by intros].
Qed.

Lemma process_wait_length n x : length (procs (process_wait n x).2) = length (procs x).
Proof.
  unfold process_wait. destruct (process_find_by_pid_locked n x) as [i|]; [|done].
  destruct (procs x !! i); [|done]. case_if; [|done]. apply length_upd_proc.
Qed.

(** The process list grows. *)
Lemma proc_step_grows `{Allocator H} w w' :
  proc_step w w' → (length (procs (tab w)) <= length (procs (tab w')))%nat.
Proof.
  intros Hst. destruct Hst as [ent path x s c rep h n x' s' h' o Hc|i st code x sc rep Hi
                              |code x s c rep i Hf|n x sc rep|x sc sc' rep Hsc]; cbn.
  - destruct (process_create_cases _ _ _ _ _ _ _ _ _ _ Hc) as [(-> & _)|(q & -> & _)]; [done|].
    rewrite length_app. lia.
  - by rewrite length_alter.
  - unfold process_exit. unfold process_find_by_task_locked in Hf |- *. case_if; [done|]. rewrite Hf.
    cbn. by rewrite length_alter.
  - by rewrite process_wait_length.
  - done.
Qed.

Lemma proc_steps_grow `{Allocator H} w w' :
  rtc proc_step w w' → (length (procs (tab w)) <= length (procs (tab w')))%nat.
Proof. induction 1 as [|? ? ? Hst _ IH]; [done|]. apply proc_step_grows in Hst. lia. Qed.

Lemma pid_of_pos w i p :
  world_ok w → Zlength (procs (tab w)) < 2 ^ 32 - 1 → procs (tab w) !! i = Some p → pid p = Z.of_nat i + 1.
Proof.
  intros Hw Hl Hi. rewrite (wo_pid _ Hw i p Hi). apply lookup_lt_Some in Hi. unfold Zlength in Hl.
  apply u32_small. unfold is_u32. lia.
Qed.

Lemma find_by_pid w n :
  world_ok w → Zlength (procs (tab w)) < 2 ^ 32 - 1 →
  process_find_by_pid_locked n (tab w) =
    if (0 <? n) && (n <=? Zlength (procs (tab w))) then Some (Z.to_nat (n - 1)) else None.
Proof.
  intros Hw Hl. case_if; btests.
  - destruct (lookup_lt_is_Some_2 (procs (tab w)) (Z.to_nat (n - 1))) as [p Hp]; [unfold Zlength in *; lia|].
    eapply find_pos_unique; [exact Hp| |].
    + apply Z.eqb_eq. rewrite (pid_of_pos w _ p Hw Hl Hp). lia.
    + cbn. intros j z Hj Hz. btests. rewrite (pid_of_pos w j z Hw Hl Hj) in Hz. lia.
  - unfold process_find_by_pid_locked. pose proof (find_pos_spec (λ p, pid p =? n) (procs (tab w)) 0) as Hf.
    destruct (find_pos _ _ _) as [k|]; [|done]. destruct Hf as (j & y & -> & Hj & Hy & _). btests.
    rewrite (pid_of_pos w j y Hw Hl Hj) in Hy. apply lookup_lt_Some in Hj. unfold Zlength in *.
    apply andb_false_iff in Heqb as [?|?]; btests; lia.
Qed.

(** What one round answers. *)
Lemma wait_round w i :
  world_ok w → Zlength (procs (tab w)) < 2 ^ 32 - 1 → (i < length (procs (tab w)))%nat →
  match reported w !! i with
  | None => process_wait (Z.of_nat i + 1) (tab w) = (None, tab w)
  | Some (status, code) => ∃ x', process_wait (Z.of_nat i + 1) (tab w) =
      (Some (if status =? 0 then PROCESS_WAIT_OK else PROCESS_WAIT_LOAD_FAILED, code), x') ∧
      length (procs x') = length (procs (tab w)) ∧
      (process_wait (Z.of_nat i + 1) x').1 = (process_wait (Z.of_nat i + 1) (tab w)).1
  end.
Proof.
  intros Hw Hl Hi. destruct (lookup_lt_is_Some_2 _ _ Hi) as [p Hp].
  pose proof (wo_proc _ Hw i p Hp) as Hok. unfold process_wait.
  rewrite (find_by_pid w) by done. unfold Zlength.
  rewrite (proj2 (Z.ltb_lt 0 _)), (proj2 (Z.leb_le (Z.of_nat i + 1) _)) by lia. cbn [andb].
  replace (Z.to_nat (Z.of_nat i + 1 - 1)) with i by lia. rewrite Hp.
  destruct (reported w !! i) as [[st code]|] eqn:Hrep.
  - destruct Hok as (-> & <- & <-). eexists. split; [done|]. split; [apply length_upd_proc|].
    assert (Hw' : world_ok (MkWorld (upd_proc i reaped (tab w)) (sch w) (reported w))).
    { apply (upd_world_ok _ _ _ _ (reported w)); [by destruct w|done| |done|done].
      intros q Hq. assert (q = p) as -> by congruence. rewrite Hrep. done. }
    pose proof (find_by_pid _ (Z.of_nat i + 1) Hw') as Hf. cbn [tab] in Hf. unfold Zlength in *.
    rewrite length_upd_proc in Hf. rewrite Hf by done.
    rewrite (proj2 (Z.ltb_lt 0 _)), (proj2 (Z.leb_le (Z.of_nat i + 1) _)) by lia. cbn [andb].
    replace (Z.to_nat (Z.of_nat i + 1 - 1)) with i by lia. cbn. by rewrite list_lookup_alter_eq, Hp.
  - cbn in Hok. by rewrite (running_not_ended p).
Qed.

(** A call of [process_wait]: rounds, and between two of them whatever the other
    tasks do. *)
Inductive process_waits `{Allocator H} (n : Z) : world → Z * Z → world → Prop :=
  | waits_now w r x' :
      process_wait n (tab w) = (Some r, x') → process_waits n w r (MkWorld x' (sch w) (reported w))
  | waits_more w w1 r w' :
      (process_wait n (tab w)).1 = None → rtc proc_step w w1 → process_waits n w1 r w' →
      process_waits n w r w'.

(** ** Properties *)

(** C18: over every interleaving of creations, ends of programs, waits and the
    scheduler's own steps: the counters count the list, a process is running
    exactly as long as no exit status was reported for it and keeps the last one
    reported, also when its task could not be created, pids are the positions in
    the list, so that a pid finds its process and no other as long as fewer than
    [2^32 - 1] processes were created, and the running processes have distinct
    tasks. *)
Theorem process_table_invariant `{Allocator H} w :
  rtc proc_step proc_boot w →
  world_ok w ∧
  (Zlength (procs (tab w)) < 2 ^ 32 - 1 →
   ∀ i p, procs (tab w) !! i = Some p →
     pid p = Z.of_nat i + 1 ∧ process_find_by_pid_locked (pid p) (tab w) = Some i).
Proof.
  intros Hr. pose proof (world_reach _ _ Hr boot_ok) as Hw. split; [done|]. intros Hl i p Hi.
  pose proof (pid_of_pos w i p Hw Hl Hi) as Hp. split; [done|]. rewrite (find_by_pid w) by done.
  apply lookup_lt_Some in Hi. unfold Zlength in *.
  rewrite (proj2 (Z.ltb_lt 0 _)), (proj2 (Z.leb_le (pid p) _)) by lia. cbn. f_equal. lia.
Qed.

(** A program is started; its task is entered; it ends with exit code 7. *)
Definition sample_created : Z * proctab * sched * arena * output :=
  process_create 5 (Some (s2z "/bin/init")) process_init.1 task_init (MkArena 16 100000 []).
Definition sample_started : world :=
  let '(_, x, s, _, _) := sample_created in MkWorld x ((task_run_once_enter 0 7 s).2, InTask) ∅.
Definition sample_ended : world :=
  MkWorld (process_task_entry (Some 0%nat) 0 7 (tab sample_started)) (sch sample_started) (<[0%nat := (0, 7)]> ∅).

Lemma sample_started_reach : rtc (@proc_step arena _) proc_boot sample_started.
Proof.
  eapply (rtc_l _ _ (MkWorld (tab sample_started) (sample_created.1.1.2, InSched) ∅)).
  { pose (c := sample_created).
    exact (step_proc_create 5 (Some (s2z "/bin/init")) process_init.1 task_init InSched ∅ (MkArena 16 100000 [])
             c.1.1.1.1 c.1.1.1.2 c.1.1.2 c.1.2 c.2 eq_refl). }
  eapply rtc_once, step_proc_sched, step_core, (step_enter 0 7). reflexivity.
Qed.

Lemma sample_ended_step : proc_step (H:=arena) sample_started sample_ended.
Proof. apply (step_proc_finish 0 0 7). by vm_compute; lia. Qed.

Lemma process_table_invariant_witness :
  rtc (@proc_step arena _) proc_boot sample_ended ∧ procs (tab sample_ended) ≠ [] ∧
  process_find_by_pid_locked 1 (tab sample_ended) = Some 0%nat ∧ world_ok sample_ended.
Proof.
  assert (Hr : rtc (@proc_step arena _) proc_boot sample_ended).
  { eapply rtc_r; [apply sample_started_reach|apply sample_ended_step]. }
  split; [exact Hr|]. split; [done|]. destruct (process_table_invariant _ Hr) as [Hw Hp].
  split; [|exact Hw]. exact (proj2 (Hp ltac:(by vm_compute) 0%nat _ eq_refl)).
Defined.

(** The pid a program sees. When a process that has not ended is the one the
    current task runs, [process_current_pid] is its pid and no other; without
    such a process it is 0. *)
Theorem process_current_pid_own `{Allocator H} w :
  rtc proc_step proc_boot w →
  Zlength (tasks (sch w).1) < 2 ^ 32 - 1 →
  (∀ i p, procs (tab w) !! i = Some p → reported w !! i = None → task_id p = task_current_id (sch w).1 →
     process_current_pid (sch w).1 (tab w) = pid p) ∧
  ((∀ i p, procs (tab w) !! i = Some p → task_id p = task_current_id (sch w).1 → is_Some (reported w !! i)) →
   process_current_pid (sch w).1 (tab w) = 0).
Proof.
  intros Hr Hl. pose proof (world_reach _ _ Hr boot_ok) as Hw. destruct (wo_owners _ Hw Hl) as [H1 H2].
  assert (Hrun : ∀ j q, procs (tab w) !! j = Some q → proc_state q = PROCESS_STATE_RUNNING ↔ reported w !! j = None).
  { intros j q Hj. pose proof (wo_proc _ Hw j q Hj) as Hok. destruct (reported w !! j) as [[st code]|].
    - destruct Hok as [He _]. apply ended_not_running in He. split; [done|by intros].
    - by split. }
  unfold process_current_pid, process_find_by_task_locked. split.
  - intros i p Hi Hrep Ht. apply (Hrun i p Hi) in Hrep as Hst.
    pose proof (H1 i p Hi Hst) as Hpos. rewrite <- Ht. rewrite (proj2 (Z.eqb_neq (task_id p) 0)) by lia.
    rewrite (find_pos_unique _ _ i p Hi); [by rewrite Hi| |].
    + rewrite Z.eqb_refl. by rewrite bool_decide_true.
    + intros j z Hj [Htz Hz]%andb_prop. btests. apply bool_decide_eq_true in Hz.
      destruct (Nat.lt_trichotomy i j) as [Hij|[?|Hij]]; [|done|].
      * specialize (H2 i j p z Hi Hj Hij Hst Hz). lia.
      * specialize (H2 j i z p Hj Hi Hij Hz Hst). lia.
  - intros Hno. case_if; [done|].
    match goal with |- context [find_pos ?P ?L 0] => destruct (find_pos P L 0) as [k|] eqn:Hf end; [|done].
    exfalso. apply find_pos_lookup in Hf as (q & Hq & [Hz Hst]%andb_prop). btests.
    apply bool_decide_eq_true in Hst. apply (Hrun k q Hq) in Hst. destruct (Hno k q Hq Hz). congruence.
Qed.

Lemma process_current_pid_own_witness :
  task_current_id (sch sample_started).1 = 1 ∧ process_current_pid (sch sample_started).1 (tab sample_started) = 1.
Proof.
  split; [reflexivity|].
  exact (proj1 (process_current_pid_own _ sample_started_reach ltac:(by vm_compute)) 0%nat _ eq_refl eq_refl eq_refl).
Defined.

(** C12: waiting delivers the exit status. A wait for a pid that was never given
    out reports that at once; a wait for process [i] returns only with a status
    reported for it, the one recorded when it returns, whatever the other tasks
    did in between; and from every state it does return once the process has
    ended, at the latest in the round after the report. Waiting again gives the
    same answer. *)
Theorem process_wait_correct `{Allocator H} w n :
  rtc proc_step proc_boot w → Zlength (procs (tab w)) < 2 ^ 32 - 1 →
  (n < 1 ∨ Zlength (procs (tab w)) < n →
     process_wait n (tab w) = (Some (PROCESS_WAIT_NO_PROCESS, 0), tab w)) ∧
  ∀ i, n = Z.of_nat i + 1 → (i < length (procs (tab w)))%nat →
    (∀ r w', process_waits n w r w' → Zlength (procs (tab w')) < 2 ^ 32 - 1 →
       ∃ status, reported w' !! i = Some (status, r.2) ∧
         r.1 = (if status =? 0 then PROCESS_WAIT_OK else PROCESS_WAIT_LOAD_FAILED) ∧
         (process_wait n (tab w')).1 = Some r) ∧
    (∀ w1, rtc proc_step w w1 → Zlength (procs (tab w1)) < 2 ^ 32 - 1 → is_Some (reported w1 !! i) →
       ∃ r w', process_waits n w r w').
Proof.
  intros Hr Hl. pose proof (world_reach _ _ Hr boot_ok) as Hw. split.
  { intros Hn. unfold process_wait. rewrite (find_by_pid w) by done.
    case_if; [|done]. btests. lia. }
  intros i -> Hi. split.
  - intros r w' Hwait. clear Hr Hl. induction Hwait as [w r x' Hround|w w1 r w' Hround Hsteps Hwait IH]; intros Hl'.
    + cbn in *. assert (Hl : Zlength (procs (tab w)) < 2 ^ 32 - 1).
      { pose proof (process_wait_length (Z.of_nat i + 1) (tab w)) as Hx. rewrite Hround in Hx. cbn in Hx.
        unfold Zlength in *. lia. }
      pose proof (wait_round w i Hw Hl Hi) as Hrd. destruct (reported w !! i) as [[st code]|] eqn:Hrep.
      * destruct Hrd as (x1 & Hrd & _ & Hagain). rewrite Hround in Hrd. injection Hrd as -> <-.
        exists st. rewrite Hagain, Hround. done.
      * rewrite Hround in Hrd. done.
    + apply IH; [by eapply world_reach| |done]. apply proc_steps_grow in Hsteps. lia.
  - intros w1 Hs1 Hl1 Hrep.
    assert (Hnow : ∀ v, world_ok v → Zlength (procs (tab v)) < 2 ^ 32 - 1 → (i < length (procs (tab v)))%nat →
              is_Some (reported v !! i) → ∃ r w', process_waits (Z.of_nat i + 1) v r w').
    { intros v Hv Hlv Hiv [[st code] Hst]. pose proof (wait_round v i Hv Hlv Hiv) as Hrd. rewrite Hst in Hrd.
      destruct Hrd as (x' & Hrd & _). eexists _, _. by eapply waits_now. }
    destruct (reported w !! i) as [rc|] eqn:Hrw; [by apply Hnow|].
    pose proof (wait_round w i Hw Hl Hi) as Hrd. rewrite Hrw in Hrd.
    destruct (Hnow w1) as (r & w' & Hr'); [by eapply world_reach|done|apply proc_steps_grow in Hs1; lia|done|].
    exists r, w'. eapply waits_more; [by rewrite Hrd|done|done].
Qed.

Lemma process_wait_correct_witness :
  (process_wait 1 (tab sample_started)).1 = None ∧
  (∃ r w', process_waits (H:=arena) 1 sample_started r w') ∧
  process_wait 2 (tab sample_started) = (Some (PROCESS_WAIT_NO_PROCESS, 0), tab sample_started).
Proof.
  destruct (process_wait_correct sample_started 1 sample_started_reach ltac:(by vm_compute)) as [_ Hw].
  destruct (process_wait_correct sample_started 2 sample_started_reach ltac:(by vm_compute)) as [Hn _].
  split; [reflexivity|]. split; [|apply Hn; right; by vm_compute].
  apply (proj2 (Hw 0%nat eq_refl ltac:(vm_compute; lia)) sample_ended);
    [apply rtc_once, sample_ended_step|by vm_compute|by eexists].
Defined.
