(* ===== verification/Syscall.v ===== *)
(** * System calls ([src/kernel/syscall.c], [src/include/syscall.h])

    The dispatcher over the state its handlers work on: the memory the user's
    pointers point into, the file system and the descriptor table, the heap, the
    terminal, the process table and the scheduler. A handler is a value of an
    enumeration in place of the C function pointer. *)

From S2P Require Import Prelude CString Bytes Print Alloc Task Process Console Tty Vfs Ramfs Files Fd.

Definition SYS_READ : Z := 0.
Definition SYS_WRITE : Z := 1.
Definition SYS_GETPID : Z := 39.
Definition SYS_EXIT : Z := 60.
Definition SYSCALL_ERR_INVAL : Z := u64 (-1).
Definition SYSCALL_ERR_BADFD : Z := u64 (-2).
Definition SYSCALL_ERR_FAULT : Z := u64 (-3).
Definition SYSCALL_TABLE_SIZE : Z := 16.

Inductive syscall_handler := sys_read_h | sys_write_h | sys_getpid_h | sys_exit_h.

Record syscall_entry := MkEntry { number : Z; sys_name : cstr; handler : option syscall_handler }.

(** The first [syscall_count] entries of the table, and the other statics. *)
Record syscalls := MkSyscalls {
  syscall_table : list syscall_entry;
  syscall_initialized : bool;
  user_exit_requested : bool;
  user_exit_code : Z
}.

Definition syscall_count (y : syscalls) : Z := Zlength (syscall_table y).

Record kernel (H W : Type) := MkKernel {
  k_mem : mem;
  k_fs : fs;
  k_fds : fd_table;
  k_heap : H;
  k_tty : W;
  k_procs : proctab;
  k_sched : sched;
  k_sys : syscalls
}.
Arguments MkKernel {H W}.
Arguments k_mem {H W}.
Arguments k_fs {H W}.
Arguments k_fds {H W}.
Arguments k_heap {H W}.
Arguments k_tty {H W}.
Arguments k_procs {H W}.
Arguments k_sched {H W}.
Arguments k_sys {H W}.

(** [size] bytes of memory from [a] on, and bytes stored from [a] on. *)
Definition load_bytes (m : mem) (a size : Z) : list Z := m <$> seqZ a size.
Definition store_bytes (m : mem) (a : Z) (l : list Z) : mem :=
  λ x, match l !! Z.to_nat (x - a) with Some b => if a <=? x then b else m x | None => m x end.

Section Calls.
Context `{Allocator H, TtyDevice W}.
Implicit Types k : kernel H W.

Definition sys_read (arg0 arg1 arg2 : Z) k : option (Z * kernel H W) :=
  let fd := s32 arg0 in
  if (arg1 =? 0) || (arg2 =? 0) then Some (SYSCALL_ERR_FAULT, k)
  else
    let '(result, bytes, t, w) := fd_read fd true arg2 (k_fs k) (k_fds k) (k_tty k) in
    let k := MkKernel (store_bytes (k_mem k) arg1 bytes) (k_fs k) t (k_heap k) w (k_procs k) (k_sched k) (k_sys k) in
    if result <? 0 then Some (SYSCALL_ERR_BADFD, k) else Some (u64 result, k).

(** [None] is a copy outside a file's buffer. *)
Definition sys_write (arg0 arg1 arg2 : Z) k : option (Z * kernel H W) :=
  let fd := s32 arg0 in
  if (arg1 =? 0) || (arg2 =? 0) then Some (SYSCALL_ERR_FAULT, k)
  else
    '(result, s, t, h, w) ← fd_write fd true (load_bytes (k_mem k) arg1 arg2) (k_fs k) (k_fds k) (k_heap k) (k_tty k);
    let k := MkKernel (k_mem k) s t h w (k_procs k) (k_sched k) (k_sys k) in
    if result <? 0 then Some (SYSCALL_ERR_BADFD, k) else Some (u64 result, k).

Definition sys_getpid k : option (Z * kernel H W) := Some (process_current_pid (k_sched k) (k_procs k), k).

Definition sys_exit (arg0 : Z) k : option (Z * kernel H W) :=
  let y := k_sys k in
  Some (arg0, MkKernel (k_mem k) (k_fs k) (k_fds k) (k_heap k) (k_tty k) (k_procs k) (k_sched k)
                (MkSyscalls (syscall_table y) (syscall_initialized y) true arg0)).

Definition call_handler (f : syscall_handler) (arg0 arg1 arg2 : Z) k : option (Z * kernel H W) :=
  match f with
  | sys_read_h => sys_read arg0 arg1 arg2 k
  | sys_write_h => sys_write arg0 arg1 arg2 k
  | sys_getpid_h => sys_getpid k
  | sys_exit_h => sys_exit arg0 k
  end.

Definition syscall_register (n : Z) (nm : cstr) (f : option syscall_handler) (y : syscalls) : syscalls :=
  if SYSCALL_TABLE_SIZE <=? syscall_count y then y
  else MkSyscalls (syscall_table y ++ [MkEntry n nm f]) (syscall_initialized y)
         (user_exit_requested y) (user_exit_code y).

Definition syscall_init (y : syscalls) : syscalls * output :=
  let y := MkSyscalls [] (syscall_initialized y) false 0 in
  let y := syscall_register SYS_READ (s2z "read") (Some sys_read_h) y in
  let y := syscall_register SYS_WRITE (s2z "write") (Some sys_write_h) y in
  let y := syscall_register SYS_GETPID (s2z "getpid") (Some sys_getpid_h) y in
  let y := syscall_register SYS_EXIT (s2z "exit") (Some sys_exit_h) y in
  (MkSyscalls (syscall_table y) true (user_exit_requested y) (user_exit_code y),
   color_line "Syscall dispatch table initialized" COLOR_GREEN_ON_BLACK).

(** The loop over the table. *)
Fixpoint dispatch_loop (entries : list syscall_entry) (n arg0 arg1 arg2 : Z) k : option (Z * kernel H W) :=
  match entries with
  | [] => Some (SYSCALL_ERR_INVAL, k)
  | e :: rest =>
      if number e =? n then
        match handler e with
        | None => Some (SYSCALL_ERR_INVAL, k)
        | Some f => call_handler f arg0 arg1 arg2 k
        end
      else dispatch_loop rest n arg0 arg1 arg2 k
  end.

(** The three arguments the handlers do not discard. *)
Definition syscall_dispatch (n arg0 arg1 arg2 : Z) k : option (Z * kernel H W) :=
  if negb (syscall_initialized (k_sys k)) then Some (SYSCALL_ERR_INVAL, k)
  else dispatch_loop (syscall_table (k_sys k)) n arg0 arg1 arg2 k.

Definition print_syscall_result (value : Z) : output :=
  if value =? SYSCALL_ERR_INVAL then prints "ERR_INVAL"
  else if value =? SYSCALL_ERR_BADFD then prints "ERR_BADFD"
  else if value =? SYSCALL_ERR_FAULT then prints "ERR_FAULT"
  else print_dec64 value.

Definition print_entry (e : syscall_entry) : output :=
  prints "  " ++ print_dec64 (number e) ++ prints " " ++ print (sys_name e) ++ newline.

Definition cmd_syscallinfo (y : syscalls) : output :=
  prints "syscall initialized = " ++ print_dec64 (b2z (syscall_initialized y)) ++ newline ++
  prints "syscall count = " ++ print_dec64 (syscall_count y) ++ newline ++
  prints "user exit requested = " ++ print_dec64 (b2z (user_exit_requested y)) ++ newline ++
  prints "user exit code = " ++ print_dec64 (user_exit_code y) ++ newline ++
  concat (print_entry <$> syscall_table y).

(** [message] is the address of the literal. *)
Definition cmd_syscalltest (message : Z) k : option (output * kernel H W) :=
  '(written, k) ← syscall_dispatch SYS_WRITE FD_STDOUT message 24 k;
  '(n, k) ← syscall_dispatch SYS_GETPID 0 0 0 k;
  '(bad, k) ← syscall_dispatch 999 0 0 0 k;
  Some (prints "SYS_write returned " ++ print_syscall_result written ++ newline ++
        prints "SYS_getpid returned " ++ print_syscall_result n ++ newline ++
        prints "SYS_999 returned " ++ print_syscall_result bad ++ newline, k).

(** [src/kernel/syscall_cpu.c] *)
Definition cmd_syscallentrytest (message : Z) k : option (output * kernel H W) :=
  '(written, k) ← syscall_dispatch SYS_WRITE 1 message 36 k;
  Some (prints "dispatch returned " ++ print_dec64 written ++ newline ++
        prints "actual syscall instruction test is deferred to Phase 10" ++ newline, k).

End Calls.

(** ** The terminal as the device

    The console the bytes are shown on, and the keys that will be pressed: a
    read blocks until the next one is there. *)

Record terminal := MkTerminal { term_console : console; term_keys : nat → Z; term_next : nat }.

Definition term_show (src : list Z) (w : terminal) : terminal :=
  MkTerminal (foldl (λ c x, console_put_char x c) (term_console w) src) (term_keys w) (term_next w).

#[global] Instance console_terminal : TtyDevice terminal := {|
  dev_read size w :=
    if tty_vfs_read_wants 1 size
    then ((tty_vfs_read_result (term_keys w (term_next w))).1, MkTerminal (term_console w) (term_keys w) (S (term_next w)))
    else ([], w);
  dev_write src w :=
    let '(n, c) := tty_vfs_write 1 (Zlength src) src (term_console w) in
    (n, MkTerminal c (term_keys w) (term_next w));
  con_put_char x w := MkTerminal (console_put_char x (term_console w)) (term_keys w) (term_next w)
|}.

(** ** Lemmas *)

(** What [syscall_init] leaves, and no call changes. *)
Definition syscalls_ready (y : syscalls) : Prop :=
  syscall_initialized y = true ∧
  syscall_table y = [MkEntry SYS_READ (s2z "read") (Some sys_read_h);
                     MkEntry SYS_WRITE (s2z "write") (Some sys_write_h);
                     MkEntry SYS_GETPID (s2z "getpid") (Some sys_getpid_h);
                     MkEntry SYS_EXIT (s2z "exit") (Some sys_exit_h)].

(** The system calls by number. *)
Definition syscall_spec `{Allocator H, TtyDevice W} (n arg0 arg1 arg2 : Z) (k : kernel H W)
    : option (Z * kernel H W) :=
  if n =? 0 then sys_read arg0 arg1 arg2 k
  else if n =? 1 then sys_write arg0 arg1 arg2 k
  else if n =? 39 then sys_getpid k
  else if n =? 60 then sys_exit arg0 k
  else Some (SYSCALL_ERR_INVAL, k).

Lemma dispatch_ready `{Allocator H, TtyDevice W} n a b c (k : kernel H W) :
  syscalls_ready (k_sys k) → syscall_dispatch n a b c k = syscall_spec n a b c k.
Proof.
  intros [Hi Ht]. unfold syscall_dispatch, syscall_spec. rewrite Hi, Ht. cbn [negb dispatch_loop number handler call_handler].
  unfold SYS_READ, SYS_WRITE, SYS_GETPID, SYS_EXIT. rewrite !(Z.eqb_sym _ n). done.
Qed.

(** A call keeps the table, and only [exit] the rest of the dispatcher's state. *)
Lemma spec_keeps `{Allocator H, TtyDevice W} n a b c (k k' : kernel H W) r :
  syscall_spec n a b c k = Some (r, k') →
  syscall_table (k_sys k') = syscall_table (k_sys k) ∧
  syscall_initialized (k_sys k') = syscall_initialized (k_sys k) ∧
  k_procs k' = k_procs k ∧ k_sched k' = k_sched k ∧ (n ≠ 60 → k_sys k' = k_sys k).
Proof.
  unfold syscall_spec, sys_read, sys_write, sys_getpid, sys_exit.
  repeat case_if; btests;
    repeat match goal with
    | |- context [fd_read ?a ?b ?c ?d ?e ?f] => destruct (fd_read a b c d e f) as [[[? ?] ?] ?]
    | |- context [fd_write ?a ?b ?c ?d ?e ?f ?g] => destruct (fd_write a b c d e f g) as [[[[[? ?] ?] ?] ?]|]
    end; cbn; intros Heq; simplify_eq; repeat case_if; simplify_eq; cbn; (split_and!; done || (intros; lia)).
Qed.

(** Signed counts do not collide with the error codes. *)
Lemma s64_range x : - 2 ^ 63 <= s64 x < 2 ^ 63.
Proof. unfold s64, to_signed. pose proof (Z.mod_pos_bound x (2 ^ 64)). case_if; btests; lia. Qed.

Lemma error_codes r :
  r < 2 ^ 63 → r < SYSCALL_ERR_FAULT < SYSCALL_ERR_BADFD ∧ SYSCALL_ERR_BADFD < SYSCALL_ERR_INVAL.
Proof.
  change SYSCALL_ERR_FAULT with (2 ^ 64 - 3). change SYSCALL_ERR_BADFD with (2 ^ 64 - 2).
  change SYSCALL_ERR_INVAL with (2 ^ 64 - 1). lia.
Qed.

Lemma fd_read_result_range `{TtyDevice W} fd b size s t (w : W) : - 2 ^ 63 <= (fd_read fd b size s t w).1.1.1 < 2 ^ 63.
Proof.
  unfold fd_read. repeat case_if; cbn; try lia. destruct (fd_kind _); cbn; try lia.
  destruct (vfs_read _ _ _ _ _ _). cbn. apply s64_range.
Qed.

Lemma fd_write_result_range `{Allocator H, TtyDevice W} fd b src s t (h : H) (w : W) r s' t' h' w' :
  fd_write fd b src s t h w = Some (r, s', t', h', w') → - 2 ^ 63 <= r < 2 ^ 63.
Proof.
  unfold fd_write. case_if; [intros [= <- <- <- <- <-]; lia|]. case_if; [intros [= <- <- <- <- <-]; lia|].
  destruct (fd_kind _).
  - intros [= <- <- <- <- <-]. lia.
  - intros [= <- <- <- <- <-]. apply s64_range.
  - destruct (vfs_write _ _ _ _ _ _ _) as [[[[n s1] h1] w1]|]; [|done]. cbn.
    intros [= <- <- <- <- <-]. apply s64_range.
Qed.

Lemma load_bytes_length m a n : 0 <= n → Zlength (load_bytes m a n) = n.
Proof. intros Hn. unfold load_bytes, Zlength. rewrite length_fmap, length_seqZ. lia. Qed.

Lemma store_bytes_nil m a : store_bytes m a [] = m.
Proof. reflexivity. Qed.

Lemma store_bytes_in m a l i b : l !! i = Some b → store_bytes m a l (a + Z.of_nat i) = b.
Proof.
  intros Hi. unfold store_bytes. replace (Z.to_nat (a + Z.of_nat i - a)) with i by lia. rewrite Hi.
  by rewrite (proj2 (Z.leb_le a _)) by lia.
Qed.

Lemma store_bytes_out m a l x : x < a ∨ a + Zlength l <= x → store_bytes m a l x = m x.
Proof.
  intros Hx. unfold store_bytes. destruct (l !! Z.to_nat (x - a)) eqn:Hl; [|done].
  apply lookup_lt_Some in Hl. unfold Zlength in Hx. destruct (Z.leb_spec a x); [lia|done].
Qed.

(** A descriptor that is open on the terminal, for reading or for writing. *)
Definition tty_fd (rd wr : bool) (fd : Z) (s : fs) (t : fd_table) : Prop :=
  ∃ tty m o, 0 <= fd < FD_TABLE_SIZE ∧ arr_get t fd = MkFd true FD_TYPE_VFS_NODE (Some tty) o rd wr ∧
    nodes s !! tty = Some m ∧ vn_type m = VFS_NODE_DEVICE ∧
    vn_read m = Some FN_TTY ∧ vn_write m = Some FN_TTY.

Lemma s32_fd fd : 0 <= fd < FD_TABLE_SIZE → s32 fd = fd.
Proof. unfold FD_TABLE_SIZE. intros Hfd. apply (to_signed_small 32); lia. Qed.

Definition with_tty {H W} (w : W) (k : kernel H W) : kernel H W :=
  MkKernel (k_mem k) (k_fs k) (k_fds k) (k_heap k) w (k_procs k) (k_sched k) (k_sys k).
Definition with_mem {H W} (m : mem) (k : kernel H W) : kernel H W :=
  MkKernel m (k_fs k) (k_fds k) (k_heap k) (k_tty k) (k_procs k) (k_sched k) (k_sys k).

Lemma sys_write_terminal `{Allocator H} fd rd a n (k : kernel H terminal) :
  tty_fd rd true fd (k_fs k) (k_fds k) → a ≠ 0 → 0 < n < 2 ^ 63 →
  sys_write fd a n k = Some (n, with_tty (term_show (load_bytes (k_mem k) a n) (k_tty k)) k).
Proof.
  intros (tty & m & o & Hfd & Hg & Hm & Hmt & _ & Hmw) Ha Hn. unfold sys_write.
  rewrite (proj2 (Z.eqb_neq a 0)), (proj2 (Z.eqb_neq n 0)) by lia. cbn [orb].
  pose proof (load_bytes_length (k_mem k) a n ltac:(lia)) as Hl.
  rewrite s32_fd, (fd_write_device _ _ tty m o rd) by (done || lia).
  assert (Hd : dev_write (load_bytes (k_mem k) a n) (k_tty k) = (n, term_show (load_bytes (k_mem k) a n) (k_tty k))).
  { cbn [dev_write console_terminal]. unfold tty_vfs_write. rewrite Hl, (proj2 (Z.eqb_neq n 0)) by lia. cbn [orb Z.eqb].
    unfold Zlength in Hl. rewrite take_ge by lia. done. }
  rewrite Hd. cbn [fst snd mbind option_bind]. rewrite s64_small, (proj2 (Z.ltb_ge n 0)) by lia.
  rewrite u64_small by (unfold is_u64; lia). done.
Qed.

(** The next key, as two bytes. *)
Definition key_bytes (key : Z) : list Z := [u8 key; u8 (Z.shiftr key 8)].

Definition next_key (w : terminal) : Z := term_keys w (term_next w).
Definition key_taken (w : terminal) : terminal := MkTerminal (term_console w) (term_keys w) (S (term_next w)).

Lemma sys_read_terminal `{Allocator H} fd wr a n (k : kernel H terminal) :
  tty_fd true wr fd (k_fs k) (k_fds k) → a ≠ 0 → 2 <= n < 2 ^ 63 →
  sys_read fd a n k =
    Some (2, with_mem (store_bytes (k_mem k) a (key_bytes (next_key (k_tty k)))) (with_tty (key_taken (k_tty k)) k)).
Proof.
  intros (tty & nd & o & Hf & Hg & Hnd & Hmt & Hmr & _) Ha Hn. unfold sys_read.
  rewrite (proj2 (Z.eqb_neq a 0)), (proj2 (Z.eqb_neq n 0)) by lia. cbn [orb].
  rewrite s32_fd, (fd_read_device _ _ tty nd o wr) by (done || lia).
  assert (Hd : dev_read n (k_tty k) = (key_bytes (next_key (k_tty k)), key_taken (k_tty k))).
  { cbn [dev_read console_terminal]. unfold tty_vfs_read_wants, sizeof_tty_key.
    by rewrite (proj2 (Z.ltb_ge n 2)) by lia. }
  rewrite Hd. cbn [fst snd]. change (s64 (Zlength (key_bytes (next_key (k_tty k))))) with 2. done.
Qed.

Lemma stored_key m a key :
  store_bytes m a (key_bytes key) a = u8 key ∧ store_bytes m a (key_bytes key) (a + 1) = u8 (key / 256) ∧
  ∀ x, x ≠ a → x ≠ a + 1 → store_bytes m a (key_bytes key) x = m x.
Proof.
  split; [|split].
  - rewrite <- (Z.add_0_r a) at 2. by apply (store_bytes_in _ _ _ 0).
  - rewrite (store_bytes_in _ _ _ 1 (u8 (Z.shiftr key 8))) by done. by rewrite Z.shiftr_div_pow2.
  - intros x H1 H2. apply store_bytes_out. unfold Zlength, key_bytes. cbn. lia.
Qed.

(** ** Properties *)

(** C21: the dispatch table implements the calls by number. After [syscall_init],
    whatever was there before, a call with any number and arguments does what
    the handler of that number does, numbers without a handler get [ERR_INVAL]
    and change nothing, and every call leaves the table as it is, so this holds
    for the next call too; before [syscall_init] every call is [ERR_INVAL]. *)
Theorem syscall_dispatch_by_number `{Allocator H, TtyDevice W} n a b c (k : kernel H W) :
  (∀ y, syscalls_ready (syscall_init y).1) ∧
  (syscalls_ready (k_sys k) →
   syscall_dispatch n a b c k = syscall_spec n a b c k ∧
   ∀ r k', syscall_dispatch n a b c k = Some (r, k') → syscalls_ready (k_sys k') ∧
     k_procs k' = k_procs k ∧ k_sched k' = k_sched k) ∧
  (syscall_initialized (k_sys k) = false → syscall_dispatch n a b c k = Some (SYSCALL_ERR_INVAL, k)).
Proof.
  split; [|split].
  - intros y. by destruct y.
  - intros Hr. rewrite dispatch_ready by done. split; [done|]. intros r k' Hk.
    destruct (spec_keeps _ _ _ _ _ _ _ Hk) as (Ht & Hi & Hp & Hs & _). destruct Hr as [Hi0 Ht0].
    split; [|done]. split; congruence.
  - intros Hi. unfold syscall_dispatch. by rewrite Hi.
Qed.

(** A kernel with one device, [/dev/tty0], as descriptors 0, 1 and 2. *)
Definition tty_node (nm : string) (ty : vfs_node_type) (fn : option vfs_fn) (parent first : option nat) : vfs_node :=
  MkNode 0 (s2z nm) ty parent first None 0 [] 0 0 fn fn.
Definition tty_fs : fs :=
  MkFs [tty_node "" VFS_NODE_DIR None None (Some 1%nat); tty_node "dev" VFS_NODE_DIR None (Some 0%nat) (Some 2%nat);
        tty_node "tty0" VFS_NODE_DEVICE (Some FN_TTY) (Some 1%nat) None] (Some 0%nat) (Some 0%nat) 4.
Definition sample_kernel (m : mem) : kernel arena terminal :=
  MkKernel m tty_fs (fd_init tty_fs (replicate 32 cleared)).1 (MkArena 16 100000 [])
    (MkTerminal sample_console (λ i, 97 + Z.of_nat i) 0) (Process.tab sample_started) (Process.sch sample_started).1
    (syscall_init (MkSyscalls [] false false 0)).1.

Lemma syscall_dispatch_by_number_witness :
  syscalls_ready (k_sys (sample_kernel (λ _, 0))) ∧
  syscall_dispatch 39 0 0 0 (sample_kernel (λ _, 0)) = Some (1, sample_kernel (λ _, 0)) ∧
  syscall_dispatch 7 0 0 0 (sample_kernel (λ _, 0)) = Some (SYSCALL_ERR_INVAL, sample_kernel (λ _, 0)).
Proof.
  assert (Hr : syscalls_ready (k_sys (sample_kernel (λ _, 0)))) by done. split; [exact Hr|].
  split.
  - exact (proj1 (proj1 (proj2 (syscall_dispatch_by_number 39 0 0 0 (sample_kernel (λ _, 0)))) Hr)).
  - exact (proj1 (proj1 (proj2 (syscall_dispatch_by_number 7 0 0 0 (sample_kernel (λ _, 0)))) Hr)).
Defined.

(** C35: the error codes of read and write. A null buffer or a size of 0 is
    [ERR_FAULT], a descriptor that is not open (its low 32 bits, as a signed
    number, outside the table or a free entry) is [ERR_BADFD], and then nothing
    has changed; every other answer is [ERR_BADFD] or a count below [2^63], which
    no error code can be mistaken for. *)
Theorem syscall_errors `{Allocator H, TtyDevice W} call a b c (k : kernel H W) :
  call = sys_read ∨ call = sys_write →
  (b = 0 ∨ c = 0 → call a b c k = Some (SYSCALL_ERR_FAULT, k)) ∧
  (b ≠ 0 → c ≠ 0 → ¬ 0 <= s32 a < FD_TABLE_SIZE ∨ used (arr_get (k_fds k) (s32 a)) = false →
   call a b c k = Some (SYSCALL_ERR_BADFD, k)) ∧
  ∀ r k', call a b c k = Some (r, k') →
    r = SYSCALL_ERR_FAULT ∨ r = SYSCALL_ERR_BADFD ∨
    0 <= r < 2 ^ 63 ∧ r < SYSCALL_ERR_FAULT < SYSCALL_ERR_BADFD ∧ SYSCALL_ERR_BADFD < SYSCALL_ERR_INVAL.
Proof.
  intros Hc. split; [|split].
  - intros Hz. assert (Ht : (b =? 0) || (c =? 0) = true) by (apply orb_true_iff; rewrite !Z.eqb_eq; done).
    destruct Hc as [-> | ->]; [unfold sys_read|unfold sys_write]; by rewrite Ht.
  - intros Hb Hs Hfd.
    destruct (fd_closed_calls (s32 a) (k_fs k) (k_fds k) (k_heap k) (k_tty k) true c
                (load_bytes (k_mem k) b c) Hfd) as (Hr & Hw & _).
    destruct Hc as [-> | ->]; [unfold sys_read; rewrite Hr|unfold sys_write; rewrite Hw];
      rewrite (proj2 (Z.eqb_neq b 0)), (proj2 (Z.eqb_neq c 0)) by done; by destruct k.
  - intros r k'. destruct Hc as [-> | ->]; [unfold sys_read|unfold sys_write].
    + case_if; [intros [= <- <-]; by left|].
      pose proof (fd_read_result_range (s32 a) true c (k_fs k) (k_fds k) (k_tty k)) as Hr.
      destruct (fd_read _ _ _ _ _ _) as [[[x bytes] t] w]. cbn in Hr.
      case_if; btests; intros [= <- <-]; right; [by left|right].
      rewrite u64_small by (unfold is_u64; lia). split; [lia|]. apply error_codes. lia.
    + case_if; [intros [= <- <-]; by left|].
      destruct (fd_write _ _ _ _ _ _ _) as [[[[[x s] t] h] w]|] eqn:Hw; [|done]. cbn.
      apply fd_write_result_range in Hw.
      case_if; btests; intros [= <- <-]; right; [by left|right].
      rewrite u64_small by (unfold is_u64; lia). split; [lia|]. apply error_codes. lia.
Qed.

Lemma syscall_errors_witness :
  sys_read 0 0 5 (sample_kernel (λ _, 0)) = Some (SYSCALL_ERR_FAULT, sample_kernel (λ _, 0)) ∧
  sys_write (2 ^ 32 - 1) 4096 5 (sample_kernel (λ _, 0)) = Some (SYSCALL_ERR_BADFD, sample_kernel (λ _, 0)).
Proof.
  split.
  - exact (proj1 (syscall_errors sys_read 0 0 5 (sample_kernel (λ _, 0)) (or_introl eq_refl)) (or_introl eq_refl)).
  - apply (proj1 (proj2 (syscall_errors sys_write (2 ^ 32 - 1) 4096 5 (sample_kernel (λ _, 0)) (or_intror eq_refl))));
      [done|done|]. left. vm_compute. intros [Hx _]. by apply Hx.
Defined.

(** System calls on the terminal. Writing [n] bytes of memory to a descriptor
    of the terminal puts exactly those bytes on the console, in order, and
    returns [n]; reading from one with room for a key waits for the next key and
    stores its two bytes at the buffer, returns 2 and leaves all other memory
    alone; nothing else of the kernel's state changes. *)
Theorem syscall_terminal `{Allocator H} fd rd wr a n (k : kernel H terminal) :
  syscalls_ready (k_sys k) → tty_fd rd wr fd (k_fs k) (k_fds k) → a ≠ 0 → 0 < n < 2 ^ 63 →
  (wr = true →
   syscall_dispatch SYS_WRITE fd a n k =
     Some (n, with_tty (term_show (load_bytes (k_mem k) a n) (k_tty k)) k)) ∧
  (rd = true → 2 <= n →
   ∃ m, syscall_dispatch SYS_READ fd a n k =
          Some (2, with_mem m (with_tty (MkTerminal (term_console (k_tty k)) (term_keys (k_tty k))
                                           (S (term_next (k_tty k)))) k)) ∧
     m a = u8 (term_keys (k_tty k) (term_next (k_tty k))) ∧
     m (a + 1) = u8 (term_keys (k_tty k) (term_next (k_tty k)) / 256) ∧
     ∀ x, x ≠ a → x ≠ a + 1 → m x = k_mem k x).
Proof.
  intros Hr Hfd Ha Hn. rewrite !dispatch_ready by done. split.
  - intros ->. by apply sys_write_terminal with rd.
  - intros -> Hsz. eexists. split; [apply (sys_read_terminal fd wr); [done|done|lia]|]. apply stored_key.
Qed.

Lemma syscall_terminal_witness :
  let k := sample_kernel (λ x, x mod 256) in
  (∃ m, syscall_dispatch SYS_READ 0 4096 2 k =
     Some (2, with_mem m (with_tty (MkTerminal sample_console (term_keys (k_tty k)) 1) k)) ∧ m 4096 = 97) ∧
  syscall_dispatch SYS_WRITE 1 65 3 k = Some (3, with_tty (term_show [65; 66; 67] (k_tty k)) k).
Proof.
  intros k. assert (Hr : syscalls_ready (k_sys k)) by done.
  assert (Hl : load_bytes (k_mem k) 65 3 = [65; 66; 67]) by reflexivity.
  assert (Hc : term_console (k_tty k) = sample_console) by reflexivity.
  assert (Hkey : u8 (term_keys (k_tty k) (term_next (k_tty k))) = 97) by reflexivity.
  assert (Hnx : term_next (k_tty k) = 0%nat) by reflexivity.
  assert (H0 : tty_fd true false 0 (k_fs k) (k_fds k)).
  { exists 2%nat, (tty_node "tty0" VFS_NODE_DEVICE (Some FN_TTY) (Some 1%nat) None), 0. by repeat split. }
  assert (H1 : tty_fd false true 1 (k_fs k) (k_fds k)).
  { exists 2%nat, (tty_node "tty0" VFS_NODE_DEVICE (Some FN_TTY) (Some 1%nat) None), 0. by repeat split. }
  split.
  - destruct (proj2 (syscall_terminal 0 true false 4096 2 k Hr H0 ltac:(lia) ltac:(lia)) eq_refl ltac:(lia))
      as (m & Hm & Hk & _). exists m. rewrite Hkey in Hk. rewrite Hc, Hnx in Hm. split; [exact Hm|exact Hk].
  - pose proof (proj1 (syscall_terminal 1 false true 65 3 k Hr H1 ltac:(lia) ltac:(lia)) eq_refl) as Hw.
    rewrite Hl in Hw. exact Hw.
Defined.
