(* ===== verification/Keyboard.v ===== *)
(** * The PS/2 keyboard ([src/kernel/keyboard.c], [src/include/tty.h])

    One interrupt is one call of [keyboard_on_irq] with the bytes the two ports
    deliver; the keys go to the terminal's ring ([Tty]). *)

From S2P Require Import Prelude CString Task Wait Tty.

Definition TTY_KEY_BACKSPACE : Z := 0x0008.
Definition TTY_KEY_TAB : Z := 0x0009.
Definition TTY_KEY_ENTER : Z := 0x000A.
Definition TTY_KEY_ESC : Z := 0x001B.
Definition TTY_KEY_LEFT : Z := 0x0101.
Definition TTY_KEY_RIGHT : Z := 0x0102.
Definition TTY_KEY_HOME : Z := 0x0103.
Definition TTY_KEY_END : Z := 0x0104.
Definition TTY_KEY_UP : Z := 0x0105.
Definition TTY_KEY_DOWN : Z := 0x0106.
Definition TTY_KEY_PAGE_UP : Z := 0x0107.
Definition TTY_KEY_PAGE_DOWN : Z := 0x0108.

Definition KEY_RELEASED_MASK : Z := 0x80.
Definition EXTENDED_SCANCODE_PREFIX : Z := 0xE0.

(** An array of 128 characters: the runs of designated initialisers, each from
    its first index; the other entries are 0. *)
Definition char_table (runs : list (Z * cstr)) : list Z :=
  foldl (λ t '(i, r), take (Z.to_nat i) t ++ r ++ drop (Z.to_nat i + length r) t) (replicate 128 0) runs.

Definition keypad : list (Z * cstr) := [(0x37, s2z "*"); (0x39, s2z " "); (0x47, s2z "789-456+1230.")].

(** The double quote and the backslash are written as numbers. *)
Definition scancode_ascii : list Z := char_table
  ([(0x01, [27]); (0x02, s2z "1234567890-="); (0x0E, [CH_BS]); (0x0F, [CH_TAB]);
    (0x10, s2z "qwertyuiop[]"); (0x1C, [CH_LF]); (0x1E, s2z "asdfghjkl;'`"); (0x2B, [92]);
    (0x2C, s2z "zxcvbnm,./")] ++ keypad).

Definition scancode_ascii_shift : list Z := char_table
  ([(0x01, [27]); (0x02, s2z "!@#$%^&*()_+"); (0x0E, [CH_BS]); (0x0F, [CH_TAB]);
    (0x10, s2z "QWERTYUIOP{}"); (0x1C, [CH_LF]); (0x1E, s2z "ASDFGHJKL:" ++ [34] ++ s2z "~"); (0x2B, s2z "|");
    (0x2C, s2z "ZXCVBNM<>?")] ++ keypad).

Record keyboard := MkKeyboard { shift_pressed : bool; extended_scancode : bool }.

Definition scancode_to_char (scancode : Z) (kb : keyboard) : Z :=
  if 128 <=? scancode then 0
  else if shift_pressed kb then arr_get scancode_ascii_shift scancode
  else arr_get scancode_ascii scancode.

(** The key pushed, if any. *)
Definition handle_extended_scancode (scancode : Z) : option Z :=
  if scancode &? KEY_RELEASED_MASK then None
  else if scancode =? 0x47 then Some TTY_KEY_HOME
  else if scancode =? 0x48 then Some TTY_KEY_UP
  else if scancode =? 0x49 then Some TTY_KEY_PAGE_UP
  else if scancode =? 0x4B then Some TTY_KEY_LEFT
  else if scancode =? 0x4D then Some TTY_KEY_RIGHT
  else if scancode =? 0x4F then Some TTY_KEY_END
  else if scancode =? 0x50 then Some TTY_KEY_DOWN
  else if scancode =? 0x51 then Some TTY_KEY_PAGE_DOWN
  else None.

(** The part of [keyboard_on_irq] after the data port was read: the key pushed,
    if any, and the modifiers. *)
Definition on_scancode (scancode : Z) (kb : keyboard) : option Z * keyboard :=
  if scancode =? EXTENDED_SCANCODE_PREFIX then (None, MkKeyboard (shift_pressed kb) true)
  else if extended_scancode kb then
    (handle_extended_scancode scancode, MkKeyboard (shift_pressed kb) false)
  else if (scancode =? 0x2A) || (scancode =? 0x36) then (None, MkKeyboard true (extended_scancode kb))
  else if (scancode =? 0xAA) || (scancode =? 0xB6) then (None, MkKeyboard false (extended_scancode kb))
  else if scancode &? KEY_RELEASED_MASK then (None, kb)
  else
    let c := scancode_to_char scancode kb in
    if c =? 0 then (None, kb)
    else if c =? CH_BS then (Some TTY_KEY_BACKSPACE, kb)
    else if c =? CH_TAB then (Some TTY_KEY_TAB, kb)
    else if c =? CH_LF then (Some TTY_KEY_ENTER, kb)
    else if c =? 27 then (Some TTY_KEY_ESC, kb)
    else (Some (u8 c), kb).

Definition keyboard_on_irq (status data : Z) (kb : keyboard) (t : tty) (s : sched) : keyboard * tty * sched :=
  if Z.land status 1 =? 0 then (kb, t, s)
  else
    match on_scancode data kb with
    | (None, kb) => (kb, t, s)
    | (Some key, kb) => let '(_, t, s) := tty_push_key key t s in (kb, t, s)
    end.

(** A sequence of interrupts, each with a byte ready. *)
Fixpoint keyboard_irqs (codes : list Z) (kb : keyboard) (t : tty) (s : sched) : keyboard * tty * sched :=
  match codes with
  | [] => (kb, t, s)
  | c :: r => let '(kb, t, s) := keyboard_on_irq 1 c kb t s in keyboard_irqs r kb t s
  end.

(** ** What the keyboard sends

    The scan codes of a typed key: with shift held down where the key needs it,
    and the releases. *)

Definition find_code (table : list Z) (c : Z) : option Z :=
  fst <$> find (λ '(_, x), x =? c) (zip (seqZ 0 128) table).

Definition press (code : Z) : list Z := [code; Z.lor code KEY_RELEASED_MASK].

Definition type_char (c : Z) : option (list Z) :=
  match find_code scancode_ascii c with
  | Some code => Some (press code)
  | None => code ← find_code scancode_ascii_shift c; Some ([0x2A] ++ press code ++ [0xAA])
  end.

Fixpoint type_text (text : list Z) : option (list Z) :=
  match text with
  | [] => Some []
  | c :: r => a ← type_char c; b ← type_text r; Some (a ++ b)
  end.

(** The arrows and the other keys with a prefix, by the name of the key sent. *)
Definition extended_keys : list (Z * Z) :=
  [(0x47, TTY_KEY_HOME); (0x48, TTY_KEY_UP); (0x49, TTY_KEY_PAGE_UP); (0x4B, TTY_KEY_LEFT);
   (0x4D, TTY_KEY_RIGHT); (0x4F, TTY_KEY_END); (0x50, TTY_KEY_DOWN); (0x51, TTY_KEY_PAGE_DOWN)].

(** Characters with a key of their own, enter, tab, backspace and escape
    included. *)
Definition typable (c : Z) : bool :=
  ((32 <=? c) && (c <=? 126)) || (c =? CH_BS) || (c =? CH_TAB) || (c =? CH_LF) || (c =? 27).

(** ** Lemmas *)

(** The keys a sequence of bytes produces, and the modifiers after it. *)
Fixpoint decode (codes : list Z) (kb : keyboard) : list Z * keyboard :=
  match codes with
  | [] => ([], kb)
  | c :: r =>
      let '(k, kb) := on_scancode c kb in
      let '(ks, kb) := decode r kb in
      (match k with Some k => k :: ks | None => ks end, kb)
  end.

Lemma decode_app a b kb :
  decode (a ++ b) kb = ((decode a kb).1 ++ (decode b (decode a kb).2).1, (decode b (decode a kb).2).2).
Proof.
  revert kb. induction a as [|c a IH]; intros kb; cbn; [by destruct (decode b kb)|].
  destruct (on_scancode c kb) as [k kb1]. rewrite IH. destruct (decode a kb1) as [ks kb2]. cbn.
  destruct (decode b kb2) as [ks' kb3]. by destruct k.
Qed.

(** Interrupts push what the bytes decode to, as long as there is room. *)
Lemma keyboard_irqs_push codes kb t s :
  tty_wf t → (length (tty_keys t) + length (decode codes kb).1 <= 255)%nat →
  let '(kb', t', _) := keyboard_irqs codes kb t s in
  tty_wf t' ∧ kb' = (decode codes kb).2 ∧ tty_keys t' = tty_keys t ++ (decode codes kb).1 ∧
  tty_dropped t' = tty_dropped t.
Proof.
  revert kb t s. induction codes as [|c r IH]; intros kb t s Hwf Hroom; cbn [keyboard_irqs decode] in *.
  { cbn. by rewrite app_nil_r. }
  unfold keyboard_on_irq. change (Z.land 1 1 =? 0) with false. cbn iota.
  destruct (on_scancode c kb) as [[k|] kb1].
  - pose proof (tty_push_spec k t s Hwf) as Hp. destruct (tty_push_key k t s) as [[x t1] s1].
    destruct (decode r kb1) as [ks kb2] eqn:Hd. cbn in Hroom.
    rewrite (proj2 (Nat.eqb_neq _ _)) in Hp by lia. destruct Hp as (Hwf1 & _ & Hk1 & Hdr & _).
    specialize (IH kb1 t1 s1 Hwf1). rewrite Hd, Hk1 in IH. cbn in IH. rewrite length_app in IH. cbn in IH.
    specialize (IH ltac:(lia)). destruct (keyboard_irqs r kb1 t1 s1) as [[kb' t'] s'].
    destruct IH as (? & -> & -> & ->). split; [done|]. split; [done|]. split; [|done].
    cbn. by rewrite <- app_assoc.
  - destruct (decode r kb1) as [ks kb2] eqn:Hd. specialize (IH kb1 t s Hwf). rewrite Hd in IH. by apply IH.
Qed.

(** Every typable character decodes to itself: checked for each of them. *)
Definition type_ok (c : Z) : bool :=
  match type_char c with
  | Some codes => bool_decide ((decode codes (MkKeyboard false false)).1 = [c]) &&
                  negb (shift_pressed (decode codes (MkKeyboard false false)).2) &&
                  negb (extended_scancode (decode codes (MkKeyboard false false)).2)
  | None => false
  end.

Lemma type_all : forallb (λ c, negb (typable c) || type_ok c) (seqZ 0 128) = true.
Proof. vm_compute. reflexivity. Qed.

Lemma type_char_decodes c :
  typable c = true → ∃ codes, type_char c = Some codes ∧ decode codes (MkKeyboard false false) = ([c], MkKeyboard false false).
Proof.
  intros Hc. pose proof type_all as Ha. rewrite forallb_forall in Ha.
  assert (Hin : In c (seqZ 0 128)).
  { apply list_elem_of_In, elem_of_seqZ. unfold typable, CH_BS, CH_TAB, CH_LF in Hc.
    rewrite !orb_true_iff, andb_true_iff, !Z.leb_le, !Z.eqb_eq in Hc. lia. }
  specialize (Ha c Hin). rewrite Hc in Ha. cbn in Ha. unfold type_ok in Ha.
  destruct (type_char c) as [codes|]; [|done]. exists codes. split; [done|].
  destruct (decode codes (MkKeyboard false false)) as [ks [sh ex]]. cbn in Ha.
  apply andb_true_iff in Ha as [[Hk Hs]%andb_true_iff He]. apply bool_decide_eq_true in Hk. subst ks.
  destruct sh, ex; done.
Qed.

(** ** Properties *)


