(* ===== verification/Rtc.v ===== *)
(** * The real-time clock ([src/kernel/rtc.c], [src/include/rtc.h])

    The clock's registers change on their own: [hw i r] is what register [r]
    delivers at the [i]-th access since the call began. *)

From S2P Require Import Prelude CString Print.

Definition CMOS_REG_SECOND : Z := 0x00.
Definition CMOS_REG_MINUTE : Z := 0x02.
Definition CMOS_REG_HOUR : Z := 0x04.
Definition CMOS_REG_DAY : Z := 0x07.
Definition CMOS_REG_MONTH : Z := 0x08.
Definition CMOS_REG_YEAR : Z := 0x09.
Definition CMOS_REG_STATUS_A : Z := 0x0A.
Definition CMOS_REG_STATUS_B : Z := 0x0B.
Definition CMOS_NMI_DISABLE : Z := 0x80.

(** The clock: its registers at each access, by their number without the
    NMI-disable bit. *)
Definition clock := nat → Z → Z.

(** Selecting a register and reading the data port; the bit that disables the
    NMI is not part of the register's number. *)
Definition cmos_read (hw : clock) (i : nat) (reg : Z) : Z :=
  hw i (Z.land (Z.lor CMOS_NMI_DISABLE reg) 0x7F).

Definition rtc_update_in_progress (hw : clock) (i : nat) : bool := cmos_read hw i CMOS_REG_STATUS_A &? 0x80.

Definition bcd_to_bin (value : Z) : Z := u8 (Z.land value 0x0F + Z.shiftr value 4 * 10).

Definition print_2digits (value : Z) : output :=
  print_char (48 + (value / 10) mod 10) ++ print_char (48 + value mod 10).

Definition print_4digits (value : Z) : output :=
  print_char (48 + (value / 1000) mod 10) ++ print_char (48 + (value / 100) mod 10) ++
  print_char (48 + (value / 10) mod 10) ++ print_char (48 + value mod 10).

Record rtc_time := MkTime { year : Z; month : Z; day : Z; hour : Z; minute : Z; second : Z }.

(** The waiting loop: how many accesses it makes; at most 100000. *)
Fixpoint wait_ready (hw : clock) (fuel i : nat) : nat :=
  match fuel with
  | O => i
  | S fuel' => if negb (rtc_update_in_progress hw i) then S i else wait_ready hw fuel' (S i)
  end.

(** The conversions, from the raw register values and status register B. *)
Definition decode_hour (status_b hour : Z) : Z :=
  let hour := if negb (status_b &? 0x04) then bcd_to_bin (Z.land hour 0x7F) else hour in
  if negb (status_b &? 0x02) then
    let pm := Z.land hour 0x80 in
    let hour := Z.land hour 0x7F in
    let hour := if negb (pm =? 0) && (hour <? 12) then u8 (hour + 12) else hour in
    if (pm =? 0) && (hour =? 12) then 0 else hour
  else hour.

Definition decode_field (status_b value : Z) : Z :=
  if negb (status_b &? 0x04) then bcd_to_bin value else value.

Definition rtc_read_time (hw : clock) : rtc_time :=
  let i := wait_ready hw (Z.to_nat 100000) 0 in
  let second := cmos_read hw i CMOS_REG_SECOND in
  let minute := cmos_read hw (i + 1) CMOS_REG_MINUTE in
  let hour := cmos_read hw (i + 2) CMOS_REG_HOUR in
  let day := cmos_read hw (i + 3) CMOS_REG_DAY in
  let month := cmos_read hw (i + 4) CMOS_REG_MONTH in
  let year := cmos_read hw (i + 5) CMOS_REG_YEAR in
  let status_b := cmos_read hw (i + 6) CMOS_REG_STATUS_B in
  MkTime (2000 + decode_field status_b year) (decode_field status_b month) (decode_field status_b day)
    (decode_hour status_b hour) (decode_field status_b minute) (decode_field status_b second).

(** [None] is a null pointer. *)
Definition rtc_print_time (t : option rtc_time) : output :=
  match t with
  | None => prints "(null rtc time)" ++ newline
  | Some t =>
      print_4digits (year t) ++ prints "-" ++ print_2digits (month t) ++ prints "-" ++ print_2digits (day t) ++
      prints " " ++
      print_2digits (hour t) ++ prints ":" ++ print_2digits (minute t) ++ prints ":" ++ print_2digits (second t)
  end.

Definition cmd_date (hw : clock) : output := rtc_print_time (Some (rtc_read_time hw)) ++ newline.

Definition cmd_rtctest (hw : clock) : output :=
  let now := rtc_read_time hw in
  color_line "[RTC test]" COLOR_YELLOW_ON_BLACK ++
  prints "current RTC time = " ++ rtc_print_time (Some now) ++ newline ++
  (if (1 <=? month now) && (month now <=? 12) && (1 <=? day now) && (day now <=? 31) &&
      (hour now <=? 23) && (minute now <=? 59) && (second now <=? 59)
   then color_line "RTC OK" COLOR_GREEN_ON_BLACK
   else color_line "RTC value looks invalid" COLOR_RED_ON_BLACK).

(** ** What the clock stores

    A time in the four formats that status register B selects: bit 2 for binary
    and bit 1 for 24 hours; in 12-hour mode bit 7 of the hour means PM. *)

Definition to_bcd (v : Z) : Z := v / 10 * 16 + v mod 10.

Definition encode_field (binary : bool) (v : Z) : Z := if binary then v else to_bcd v.

Definition encode_hour (binary h24 : bool) (h : Z) : Z :=
  if h24 then encode_field binary h
  else
    let h12 := if h mod 12 =? 0 then 12 else h mod 12 in
    encode_field binary h12 + (if 12 <=? h then 128 else 0).

Definition valid_time (t : rtc_time) : Prop :=
  2000 <= year t < 2100 ∧ 1 <= month t <= 12 ∧ 1 <= day t <= 31 ∧
  0 <= hour t < 24 ∧ 0 <= minute t < 60 ∧ 0 <= second t < 60.

Definition reg_value (binary h24 : bool) (t : rtc_time) (r : Z) : Z :=
  if r =? CMOS_REG_SECOND then encode_field binary (second t)
  else if r =? CMOS_REG_MINUTE then encode_field binary (minute t)
  else if r =? CMOS_REG_HOUR then encode_hour binary h24 (hour t)
  else if r =? CMOS_REG_DAY then encode_field binary (day t)
  else if r =? CMOS_REG_MONTH then encode_field binary (month t)
  else if r =? CMOS_REG_YEAR then encode_field binary (year t - 2000)
  else if r =? CMOS_REG_STATUS_B then (if binary then 4 else 0) + (if h24 then 2 else 0)
  else 0.

(** The clock is updating for [n] polls, and shows [t] after that. *)
Definition clock_shows (binary h24 : bool) (t : rtc_time) (n : nat) (hw : clock) : Prop :=
  (∀ i, (i < n)%nat → rtc_update_in_progress hw i = true) ∧ rtc_update_in_progress hw n = false ∧
  ∀ i r, (n < i)%nat → r ∈ [0; 2; 4; 7; 8; 9; 11] → hw i r = reg_value binary h24 t r.

(** ** Lemmas *)

Lemma field_roundtrip (binary h24 : bool) v :
  0 <= v < 100 → decode_field ((if binary then 4 else 0) + (if h24 then 2 else 0)) (encode_field binary v) = v.
Proof.
  intros Hv.
  assert (Hall : forallb (λ v, (bcd_to_bin (to_bcd v) =? v)) (seqZ 0 100) = true) by (vm_compute; reflexivity).
  rewrite forallb_forall in Hall. destruct binary, h24; cbn; try done;
    apply Z.eqb_eq, Hall, list_elem_of_In, elem_of_seqZ; lia.
Qed.

(** All formats but BCD with 12 hours. *)
Lemma hour_roundtrip (binary h24 : bool) v :
  0 <= v < 24 → binary || h24 = true →
  decode_hour ((if binary then 4 else 0) + (if h24 then 2 else 0)) (encode_hour binary h24 v) = v.
Proof.
  intros Hv Hm.
  assert (Hall : forallb (λ v, (decode_hour 6 (encode_hour true true v) =? v) &&
            (decode_hour 4 (encode_hour true false v) =? v) && (decode_hour 2 (encode_hour false true v) =? v))
            (seqZ 0 24) = true) by (vm_compute; reflexivity).
  rewrite forallb_forall in Hall. specialize (Hall v ltac:(apply list_elem_of_In, elem_of_seqZ; lia)).
  btests. destruct binary, h24; cbn; try done; by apply Z.eqb_eq.
Qed.

(** In BCD with 12 hours the conversion drops the PM bit before it is tested. *)
Lemma hour_bcd12 v : 0 <= v < 24 → decode_hour 0 (encode_hour false false v) = v mod 12.
Proof.
  intros Hv.
  assert (Hall : forallb (λ v, decode_hour 0 (encode_hour false false v) =? v mod 12) (seqZ 0 24) = true)
    by (vm_compute; reflexivity).
  rewrite forallb_forall in Hall. apply Z.eqb_eq, Hall, list_elem_of_In, elem_of_seqZ. lia.
Qed.

Lemma wait_ready_ends hw n fuel i :
  (i <= n < i + fuel)%nat → (∀ j, (j < n)%nat → rtc_update_in_progress hw j = true) →
  rtc_update_in_progress hw n = false → wait_ready hw fuel i = S n.
Proof.
  intros Hn Hb Hr. revert i Hn. induction fuel as [|fuel IH]; intros i Hn; [lia|]. cbn [wait_ready].
  destruct (decide (i = n)) as [->|]; [by rewrite Hr|]. rewrite Hb by lia. cbn. apply IH. lia.
Qed.

(** ** Properties *)

(** C40: the time read is the time the clock shows: when an update lasts for fewer
    than 100000 polls and the registers then hold a valid time in any of
    the formats but BCD with 12 hours, [rtc_read_time] returns that time. In BCD
    with 12 hours every field but the hour is right and the hour is read modulo
    12: the afternoon is lost. *)
Theorem rtc_reads_clock binary h24 t n hw :
  valid_time t → (n < Z.to_nat 100000)%nat → clock_shows binary h24 t n hw →
  rtc_read_time hw =
    if binary || h24 then t
    else MkTime (year t) (month t) (day t) (hour t mod 12) (minute t) (second t).
Proof.
  intros (Hy & Hmo & Hd & Hh & Hmi & Hs) Hn (Hb & Hr & Hreg). unfold rtc_read_time, cmos_read.
  rewrite (wait_ready_ends hw n) by (done || lia).
  rewrite !Hreg by (lia || set_solver).
  change (reg_value binary h24 t (Z.land (Z.lor CMOS_NMI_DISABLE CMOS_REG_YEAR) 0x7F)) with (encode_field binary (year t - 2000)).
  change (reg_value binary h24 t (Z.land (Z.lor CMOS_NMI_DISABLE CMOS_REG_MONTH) 0x7F)) with (encode_field binary (month t)).
  change (reg_value binary h24 t (Z.land (Z.lor CMOS_NMI_DISABLE CMOS_REG_DAY) 0x7F)) with (encode_field binary (day t)).
  change (reg_value binary h24 t (Z.land (Z.lor CMOS_NMI_DISABLE CMOS_REG_HOUR) 0x7F)) with (encode_hour binary h24 (hour t)).
  change (reg_value binary h24 t (Z.land (Z.lor CMOS_NMI_DISABLE CMOS_REG_MINUTE) 0x7F)) with (encode_field binary (minute t)).
  change (reg_value binary h24 t (Z.land (Z.lor CMOS_NMI_DISABLE CMOS_REG_SECOND) 0x7F)) with (encode_field binary (second t)).
  change (reg_value binary h24 t (Z.land (Z.lor CMOS_NMI_DISABLE CMOS_REG_STATUS_B) 0x7F)) with ((if binary then 4 else 0) + (if h24 then 2 else 0)).
  rewrite !field_roundtrip by lia. destruct t as [y mo d h mi s]. cbn [year month day hour minute second] in *.
  replace (2000 + (y - 2000)) with y by lia. destruct (binary || h24) eqn:Hm.
  - by rewrite hour_roundtrip.
  - destruct binary, h24; try done. cbn [Z.add]. by rewrite hour_bcd12.
Qed.

(** The clock updates for three polls and then shows 2024-12-31 15:04:05 in BCD
    with 24 hours. *)
Definition sample_time : rtc_time := MkTime 2024 12 31 15 4 5.
Definition sample_clock : clock := λ i r,
  if r =? CMOS_REG_STATUS_A then (if (i <? 3)%nat then 0x80 else 0) else reg_value false true sample_time r.

Lemma rtc_reads_clock_witness : rtc_read_time sample_clock = sample_time.
Proof.
  apply (rtc_reads_clock false true sample_time 3 sample_clock).
  - unfold valid_time, sample_time. cbn. lia.
  - lia.
  - split; [|split; [reflexivity|]].
    + intros i Hi. assert (i = 0 ∨ i = 1 ∨ i = 2)%nat as [->|[->| ->]] by lia; reflexivity.
    + intros i r _ Hr. unfold sample_clock. destruct (Z.eqb_spec r CMOS_REG_STATUS_A) as [->|]; [|done].
      vm_compute in Hr. set_solver.
Defined.
