(* ===== verification/Device.v ===== *)
(** * The device registry ([src/kernel/device.c], [src/include/device.h])

    A list that only grows: a [device_t*] is a position in it. *)

From S2P Require Import Prelude CString Print Alloc.

Inductive device_type :=
  | DEVICE_TYPE_UNKNOWN | DEVICE_TYPE_DISPLAY | DEVICE_TYPE_INPUT | DEVICE_TYPE_TIMER
  | DEVICE_TYPE_TTY | DEVICE_TYPE_STORAGE | DEVICE_TYPE_NETWORK | DEVICE_TYPE_VIRTUAL.

Inductive device_state :=
  | DEVICE_STATE_UNKNOWN | DEVICE_STATE_REGISTERED | DEVICE_STATE_READY | DEVICE_STATE_FAILED.

(** [sizeof(device_t)]. *)
Definition sizeof_device : Z := 40.

Record device := MkDevice {
  dev_id : Z; dev_name : cstr; dev_driver : cstr; dev_type : device_type; dev_state : device_state
}.

Record devices := MkDevices {
  device_list : list device;
  next_device_id : Z;
  registered_device_count : Z;
  device_initialized : bool
}.

Definition dev_strlen (s : cstr) : Z := c_strlen s.
Definition dev_streq (a b : cstr) : bool := c_streq a b.
Definition dev_strdup `{Allocator H} (s : option cstr) (h : H) : option cstr * H := k_strdup s h.

Definition device_type_name (ty : device_type) : cstr :=
  match ty with
  | DEVICE_TYPE_DISPLAY => s2z "display"
  | DEVICE_TYPE_INPUT => s2z "input"
  | DEVICE_TYPE_TIMER => s2z "timer"
  | DEVICE_TYPE_TTY => s2z "tty"
  | DEVICE_TYPE_STORAGE => s2z "storage"
  | DEVICE_TYPE_NETWORK => s2z "network"
  | DEVICE_TYPE_VIRTUAL => s2z "virtual"
  | DEVICE_TYPE_UNKNOWN => s2z "unknown"
  end.

Definition device_state_name (st : device_state) : cstr :=
  match st with
  | DEVICE_STATE_REGISTERED => s2z "registered"
  | DEVICE_STATE_READY => s2z "ready"
  | DEVICE_STATE_FAILED => s2z "failed"
  | DEVICE_STATE_UNKNOWN => s2z "unknown"
  end.

Definition device_init : devices * output :=
  (MkDevices [] 1 0 true, color_line "Device registry initialized" COLOR_GREEN_ON_BLACK).

(** The walk along [next]. *)
Fixpoint find_from (l : list device) (i : nat) (name : cstr) : option nat :=
  match l with
  | [] => None
  | d :: r => if dev_streq (dev_name d) name then Some i else find_from r (S i) name
  end.

Definition device_find (name : cstr) (x : devices) : option nat := find_from (device_list x) 0 name.

(** The new device's position, the registry, the heap and what is printed. *)
Definition device_register `{Allocator H} (name : option cstr) (ty : device_type) (st : device_state)
    (driver : option cstr) (x : devices) (h : H) : option nat * devices * H * output :=
  if negb (device_initialized x) then (None, x, h, [])
  else match name, driver with
       | Some nm, Some _ =>
           match device_find nm x with
           | Some _ =>
               (None, x, h, prints_color "device_register duplicate ignored: " COLOR_RED_ON_BLACK ++ print nm ++ newline)
           | None =>
               let '(dev, h) := k_alloc sizeof_device h in
               if dev =? 0 then
                 (None, x, h, color_line "device_register failed: no memory" COLOR_RED_ON_BLACK)
               else
                 let '(dname, h) := dev_strdup name h in
                 let '(ddriver, h) := dev_strdup driver h in
                 match dname, ddriver with
                 | Some dname, Some ddriver =>
                     let d := MkDevice (next_device_id x) dname ddriver ty st in
                     (Some (length (device_list x)),
                      MkDevices (device_list x ++ [d]) (u32 (next_device_id x + 1))
                        (u32 (registered_device_count x + 1)) (device_initialized x), h, [])
                 | _, _ =>
                     (None, x, h, color_line "device_register failed: string alloc failed" COLOR_RED_ON_BLACK)
                 end
           end
       | _, _ => (None, x, h, [])
       end.

Definition device_count (x : devices) : Z := registered_device_count x.

Definition print_device (d : device) : output :=
  prints "  #" ++ print_dec64 (dev_id d) ++ prints " " ++ print (dev_name d) ++
  (if dev_strlen (dev_name d) <? 10
   then print (replicate (Z.to_nat (10 - dev_strlen (dev_name d))) CH_SPACE) else prints " ") ++
  prints " type=" ++ print (device_type_name (dev_type d)) ++
  prints " state=" ++ print (device_state_name (dev_state d)) ++
  prints " driver=" ++ print (dev_driver d) ++ newline.

Definition device_print_all (x : devices) : output :=
  prints "devices:" ++ newline ++ concat (print_device <$> device_list x) ++
  prints "device count = " ++ print_dec64 (registered_device_count x) ++ newline.

Definition cmd_devices (x : devices) : output := device_print_all x.

Definition cmd_devcount (x : devices) : output :=
  prints "device count = " ++ print_dec64 (device_count x) ++ newline.

(** ** Lemmas *)

Lemma find_from_spec l i name :
  match find_from l i name with
  | Some k => ∃ j d, k = (i + j)%nat ∧ l !! j = Some d ∧ dev_name d = name
  | None => name ∉ (dev_name <$> l)
  end.
Proof.
  revert i. induction l as [|d l IH]; intros i; cbn [find_from fmap list_fmap]; [apply not_elem_of_nil|].
  unfold dev_streq. rewrite c_streq_decide. case_bool_decide as Hd.
  - exists 0%nat, d. split; [lia|]. done.
  - specialize (IH (S i)). destruct (find_from l (S i) name) as [k|].
    + destruct IH as (j & e & -> & Hj & He). exists (S j), e. split; [lia|]. done.
    + apply not_elem_of_cons. split; [congruence|done].
Qed.

(** Positions, names and counters agree. *)
Definition devices_ok (x : devices) : Prop :=
  NoDup (dev_name <$> device_list x) ∧
  next_device_id x = u32 (Zlength (device_list x) + 1) ∧
  registered_device_count x = u32 (Zlength (device_list x)) ∧
  ∀ i d, device_list x !! i = Some d → dev_id d = u32 (Z.of_nat i + 1).

Lemma device_register_cases `{Allocator H} name ty st driver x h r x' h' o :
  device_register name ty st driver x h = (r, x', h', o) →
  r = None ∧ x' = x ∨
  ∃ nm dr, name = Some nm ∧ driver = Some dr ∧ nm ∉ (dev_name <$> device_list x) ∧
    r = Some (length (device_list x)) ∧
    x' = MkDevices (device_list x ++ [MkDevice (next_device_id x) nm dr ty st]) (u32 (next_device_id x + 1))
           (u32 (registered_device_count x + 1)) (device_initialized x).
Proof.
  unfold device_register. case_if; [intros [= <- <- _ _]; by left|].
  destruct name as [nm|]; [|intros [= <- <- _ _]; by left].
  destruct driver as [dr|]; [|intros [= <- <- _ _]; by left].
  pose proof (find_from_spec (device_list x) 0 nm) as Hf. unfold device_find.
  destruct (find_from _ 0 nm) as [k|]; [intros [= <- <- _ _]; by left|].
  destruct (k_alloc sizeof_device h) as [p h1]. case_if; [intros [= <- <- _ _]; by left|].
  unfold dev_strdup. destruct (k_strdup (Some nm) h1) as [[n1|] h2] eqn:H1;
    destruct (k_strdup (Some dr) h2) as [[d1|] h3] eqn:H2; try (intros [= <- <- _ _]; by left).
  apply k_strdup_copy in H1, H2. subst n1 d1. intros [= <- <- _ _]. right. by exists nm, dr.
Qed.

Lemma device_register_ok `{Allocator H} name ty st driver x h :
  devices_ok x → devices_ok (device_register name ty st driver x h).1.1.2.
Proof.
  destruct (device_register name ty st driver x h) as [[[r x'] h'] o] eqn:Hr.
  intros (Hnd & Hn & Hc & Hid). cbn.
  destruct (device_register_cases _ _ _ _ _ _ _ _ _ _ Hr) as [[_ ->]|(nm & dr & _ & _ & Hnew & _ & ->)]; [done|].
  unfold devices_ok. cbn [device_list next_device_id registered_device_count].
  assert (Hl : ∀ d, Zlength (device_list x ++ [d]) = Zlength (device_list x) + 1).
  { intros d. unfold Zlength. rewrite length_app. cbn. lia. }
  split; [|split; [|split]].
  - rewrite fmap_app. apply NoDup_app. split; [done|]. split; [|apply NoDup_singleton].
    intros n Hin ->%list_elem_of_singleton. done.
  - rewrite Hn, Hl. unfold u32. rewrite Z.add_mod_idemp_l by lia. done.
  - rewrite Hc, Hl. unfold u32. rewrite Z.add_mod_idemp_l by lia. done.
  - intros i d [Hi|[Hi Hd]]%lookup_app_Some; [by apply Hid|].
    apply list_lookup_singleton_Some in Hd as [Hz <-]. cbn. rewrite Hn. f_equal. unfold Zlength. lia.
Qed.

(** ** Properties *)

(** The registry is a map from names to devices. From [device_init], over every
    sequence of registrations, names are distinct, a device's id is one more
    than its position (until ids wrap after [2^32] devices) and the counter
    counts them; [device_find] finds a device exactly under its name; and a
    registration either adds one device under a name that was free, with the
    arguments it was given, or changes nothing. *)
Theorem device_registry_is_map `{Allocator H} x :
  rtc (λ x x', ∃ name ty st driver h, x' = (device_register (H:=H) name ty st driver x h).1.1.2)
    device_init.1 x →
  devices_ok x ∧
  (∀ i d, device_list x !! i = Some d → device_find (dev_name d) x = Some i) ∧
  (∀ name, device_find name x = None ↔ name ∉ (dev_name <$> device_list x)) ∧
  ∀ name ty st driver h, 
    let '(r, x', _, _) := device_register (H:=H) (Some name) ty st (Some driver) x h in
    r = None ∧ x' = x ∨
    device_find name x = None ∧
    ∃ i d, r = Some i ∧ device_list x' = device_list x ++ [d] ∧ device_find name x' = Some i ∧
      dev_name d = name ∧ dev_driver d = driver ∧ dev_type d = ty ∧ dev_state d = st.
Proof.
  intros Hr. assert (Hok : devices_ok x).
  { assert (Hinit : devices_ok device_init.1) by (split; [constructor|]; split; [done|]; split; [done|by intros i d]).
    revert Hinit. induction Hr as [|y z w (name & ty & st & dr & h & ->) _ IH]; [done|].
    intros Hy. by apply IH, device_register_ok. }
  assert (Hfind : ∀ y, devices_ok y → ∀ i d, device_list y !! i = Some d → device_find (dev_name d) y = Some i).
  { intros y (Hnd & _) i d Hi. pose proof (find_from_spec (device_list y) 0 (dev_name d)) as Hf.
    unfold device_find. destruct (find_from _ 0 _) as [k|].
    - destruct Hf as (j & e & -> & Hj & He). f_equal. cbn.
      apply (NoDup_lookup (dev_name <$> device_list y) j i (dev_name d)); [done|..];
        rewrite list_lookup_fmap; [by rewrite Hj; cbn; rewrite He|by rewrite Hi].
    - exfalso. apply Hf. apply list_elem_of_fmap. exists d. split; [done|]. by eapply list_elem_of_lookup_2. }
  split; [done|]. split; [by apply Hfind|]. split.
  - intros name. pose proof (find_from_spec (device_list x) 0 name) as Hf. unfold device_find.
    destruct (find_from _ 0 _) as [k|]; [|done]. split; [done|]. intros Hno. exfalso. apply Hno.
    destruct Hf as (j & d & _ & Hj & <-). apply list_elem_of_fmap. exists d. split; [done|]. by eapply list_elem_of_lookup_2.
  - intros name ty st driver h. pose proof (device_register_ok (Some name) ty st (Some driver) x h Hok) as Hok'.
    destruct (device_register (Some name) ty st (Some driver) x h) as [[[r x'] h'] o] eqn:Hreg.
    destruct (device_register_cases _ _ _ _ _ _ _ _ _ _ Hreg)
      as [[-> ->]|(nm & dr & [= <-] & [= <-] & Hnew & -> & ->)]; [by left|]. right.
    split.
    + pose proof (find_from_spec (device_list x) 0 name) as Hf. unfold device_find.
      destruct (find_from _ 0 _) as [k|]; [|done]. destruct Hf as (j & d & _ & Hj & <-). exfalso. apply Hnew.
      apply list_elem_of_fmap. exists d. split; [done|]. by eapply list_elem_of_lookup_2.
    + eexists _, _. split; [done|]. split; [done|]. split; [|done].
      apply (Hfind _ Hok' _ (MkDevice (next_device_id x) name driver ty st)). cbn.
      by rewrite lookup_app_r, Nat.sub_diag by done.
Qed.

Lemma device_registry_is_map_witness :
  let x1 := (device_register (Some (s2z "kbd0")) DEVICE_TYPE_INPUT DEVICE_STATE_READY (Some (s2z "ps2"))
               device_init.1 (MkArena 16 100000 [])).1.1.2 in
  let x2 := (device_register (Some (s2z "rtc0")) DEVICE_TYPE_TIMER DEVICE_STATE_READY (Some (s2z "cmos"))
               x1 (MkArena 16 100000 [])).1.1.2 in
  device_count x2 = 2 ∧ device_find (s2z "rtc0") x2 = Some 1%nat ∧ devices_ok x2.
Proof.
  intros x1 x2.
  assert (Hr : rtc (λ x x', ∃ name ty st driver h, x' = (device_register (H:=arena) name ty st driver x h).1.1.2)
                 device_init.1 x2).
  { eapply (rtc_l _ _ x1); [by eexists _, _, _, _, _|]. apply rtc_once. by eexists _, _, _, _, _. }
  split; [reflexivity|]. destruct (device_registry_is_map x2 Hr) as (Hok & Hf & _).
  split; [|exact Hok]. exact (Hf 1%nat _ eq_refl).
Defined.
