(* ===== verification/Command.v ===== *)
(** * The command registry ([src/kernel/command.c], [src/include/command.h])

    A handler acts on the state of the kernel, of any type [S], and prints; the
    registry is a list that only grows. *)

From S2P Require Import Prelude Utils CString Print Alloc Pmm.

(** [sizeof(command_t)]. *)
Definition sizeof_command : Z := 32.

Section Registry.
Context {S : Type}.

Definition command_handler : Type := cstr → S → S * output.

Record command := MkCommand { cmd_name : cstr; cmd_description : cstr; cmd_handler : command_handler }.

Record commands := MkCommands { command_list : list command; command_count : Z }.

Definition command_strlen (s : cstr) : Z := c_strlen s.
Definition command_streq (a b : cstr) : bool := c_streq a b.
Definition command_strdup `{Allocator H} (s : option cstr) (h : H) : option cstr * H := k_strdup s h.

Definition command_skip_spaces (s : cstr) : cstr := c_skip (λ c, c =? CH_SPACE) s.

(** The arguments when the line's first word is the name; [None] is the result 0. *)
Fixpoint command_token_matches (p n : cstr) {struct n} : option cstr :=
  match n with
  | [] => match p with
          | [] => Some (command_skip_spaces p)
          | c :: _ => if negb (c =? CH_SPACE) then None else Some (command_skip_spaces p)
          end
  | x :: n' => match p with
               | c :: p' => if negb (c =? x) then None else command_token_matches p' n'
               | [] => None
               end
  end.

(** The walks along [next]. *)
Fixpoint command_find_by_name (l : list command) (name : cstr) : option command :=
  match l with
  | [] => None
  | c :: r => if command_streq (cmd_name c) name then Some c else command_find_by_name r name
  end.

Definition command_init : commands * output :=
  (MkCommands [] 0, color_line "Command registry initialized" COLOR_GREEN_ON_BLACK).

Definition command_register `{Allocator H} (name description : option cstr) (handler : option command_handler)
    (x : commands) (h : H) : Z * commands * H * output :=
  match name, description, handler with
  | Some nm, Some _, Some f =>
      match command_find_by_name (command_list x) nm with
      | Some _ =>
          (0, x, h, prints_color "command_register duplicate ignored: " COLOR_RED_ON_BLACK ++ print nm ++ newline)
      | None =>
          let '(p, h) := k_alloc sizeof_command h in
          if p =? 0 then (0, x, h, color_line "command_register failed: no memory" COLOR_RED_ON_BLACK)
          else
            let '(cname, h) := command_strdup name h in
            let '(cdesc, h) := command_strdup description h in
            match cname, cdesc with
            | Some cname, Some cdesc =>
                (1, MkCommands (command_list x ++ [MkCommand cname cdesc f]) (u32 (command_count x + 1)), h, [])
            | _, _ => (0, x, h, color_line "command_register failed: string alloc failed" COLOR_RED_ON_BLACK)
            end
      end
  | _, _, _ => (0, x, h, [])
  end.

Definition print_command (c : command) : output :=
  prints "  " ++ print (cmd_name c) ++
  (if command_strlen (cmd_name c) <? 9
   then print (replicate (Z.to_nat (9 - command_strlen (cmd_name c))) CH_SPACE) else prints " ") ++
  prints "- " ++ print (cmd_description c) ++ newline.

Definition command_print_help (x : commands) : output :=
  prints "commands:" ++ newline ++ concat (print_command <$> command_list x).

(** The loop of [command_execute] over the list. *)
Fixpoint execute_loop (l : list command) (line : cstr) (s : S) : option (S * output) :=
  match l with
  | [] => None
  | c :: r =>
      match command_token_matches line (cmd_name c) with
      | Some args => Some (cmd_handler c args s)
      | None => execute_loop r line s
      end
  end.

(** [None] as line is a null pointer. *)
Definition command_execute (line : option cstr) (x : commands) (s : S) : Z * S * output :=
  match line with
  | None => (0, s, [])
  | Some line =>
      let line := command_skip_spaces line in
      match line with
      | [] => (1, s, [])
      | _ =>
          match execute_loop (command_list x) line s with
          | Some (s, o) => (1, s, o)
          | None => (0, s, prints "unknown command: " ++ print line ++ newline ++ prints "type 'help'" ++ newline)
          end
      end
  end.

Definition cmd_help (x : commands) : output := command_print_help x.
Definition cmd_ticks (ticks : Z) : output := prints "ticks = " ++ print_dec64 ticks ++ newline.
Definition cmd_mem (p : pmm) : output :=
  prints "free frames = " ++ print_dec64 (pmm_free_frame_count p) ++ newline ++
  prints "free bytes  = " ++ print_dec64 (u64 (pmm_free_frame_count p * PAGE_SIZE)) ++ newline.
Definition cmd_echo (args : cstr) : output := print args ++ newline.
Definition cmd_cmds (x : commands) : output :=
  prints "registered commands = " ++ print_dec64 (command_count x) ++ newline.

(** ** What a command line means *)

(** The first word of a line and what follows it after the spaces. *)
Fixpoint first_word (line : cstr) : cstr :=
  match line with
  | [] => []
  | c :: r => if c =? CH_SPACE then [] else c :: first_word r
  end.

Definition arguments (line : cstr) : cstr := command_skip_spaces (drop (length (first_word line)) line).

(** No command has a space in its name. *)
Definition names_plain (x : commands) : Prop :=
  Forall (λ c, CH_SPACE ∉ cmd_name c) (command_list x).

(** ** Lemmas *)

Lemma token_matches_word line name :
  CH_SPACE ∉ name →
  command_token_matches line name =
    if decide (first_word line = name) then Some (arguments line) else None.
Proof.
  unfold arguments. revert line. induction name as [|x n IH]; intros line Hn.
  - destruct line as [|c r]; [done|]. cbn [command_token_matches first_word].
    destruct (Z.eqb_spec c CH_SPACE); cbn [negb]; [by rewrite decide_True by done|by rewrite decide_False by done].
  - apply not_elem_of_cons in Hn as [Hx Hn]. destruct line as [|c r]; [done|].
    cbn [command_token_matches first_word]. destruct (Z.eqb_spec c x) as [->|Hc]; cbn [negb].
    + destruct (Z.eqb_spec x CH_SPACE) as [->|]; [done|]. cbn [length drop]. rewrite (IH r Hn).
      repeat case_decide; congruence.
    + rewrite decide_False; [done|]. case_if; [done|]. congruence.
Qed.

Lemma execute_loop_find l line s :
  Forall (λ c, CH_SPACE ∉ cmd_name c) l →
  execute_loop l line s =
    (λ c, cmd_handler c (arguments line) s) <$> command_find_by_name l (first_word line).
Proof.
  induction 1 as [|c l Hc _ IH]; [done|]. cbn [execute_loop command_find_by_name].
  rewrite token_matches_word by done. unfold command_streq. rewrite c_streq_decide.
  case_decide as Hd; [by rewrite bool_decide_true by done|]. rewrite bool_decide_false by congruence. apply IH.
Qed.

Lemma find_by_name_spec l name :
  match command_find_by_name l name with
  | Some c => c ∈ l ∧ cmd_name c = name
  | None => name ∉ (cmd_name <$> l)
  end.
Proof.
  induction l as [|c l IH]; cbn [command_find_by_name fmap list_fmap]; [apply not_elem_of_nil|].
  unfold command_streq. rewrite c_streq_decide. case_bool_decide as Hc; [by split; [left|]|].
  destruct (command_find_by_name l name); [by destruct IH; split; [right|]|].
  apply not_elem_of_cons. split; [congruence|done].
Qed.

(** Names are distinct and the counter counts. *)
Definition commands_ok (x : commands) : Prop :=
  NoDup (cmd_name <$> command_list x) ∧ command_count x = u32 (Zlength (command_list x)) ∧ names_plain x.

Lemma command_register_cases `{Allocator H} name desc f x h r x' h' o :
  command_register name desc f x h = (r, x', h', o) →
  r = 0 ∧ x' = x ∨
  ∃ nm d g, name = Some nm ∧ desc = Some d ∧ f = Some g ∧ nm ∉ (cmd_name <$> command_list x) ∧ r = 1 ∧
    x' = MkCommands (command_list x ++ [MkCommand nm d g]) (u32 (command_count x + 1)).
Proof.
  unfold command_register.
  destruct name as [nm|]; [|intros [= <- <- _ _]; by left].
  destruct desc as [d|]; [|intros [= <- <- _ _]; by left].
  destruct f as [f|]; [|intros [= <- <- _ _]; by left].
  pose proof (find_by_name_spec (command_list x) nm) as Hf.
  destruct (command_find_by_name _ nm) as [c|]; [intros [= <- <- _ _]; by left|].
  destruct (k_alloc sizeof_command h) as [p h1]. case_if; [intros [= <- <- _ _]; by left|].
  unfold command_strdup. destruct (k_strdup (Some nm) h1) as [[n1|] h2] eqn:H1;
    destruct (k_strdup (Some d) h2) as [[d1|] h3] eqn:H2; try (intros [= <- <- _ _]; by left).
  apply k_strdup_copy in H1, H2. subst n1 d1. intros [= <- <- _ _]. right. by exists nm, d, f.
Qed.

(** One registration, of a name without a space. *)
Definition register_step `{Allocator H} (x x' : commands) : Prop :=
  ∃ name desc f (h : H), CH_SPACE ∉ name ∧ x' = (command_register (Some name) desc f x h).1.1.2.

Lemma register_step_ok `{Allocator H} x x' : register_step x x' → commands_ok x → commands_ok x'.
Proof.
  intros (name & desc & f & h & Hsp & ->) (Hnd & Hc & Hp).
  destruct (command_register (Some name) desc f x h) as [[[r x'] h'] o] eqn:Hr. cbn.
  destruct (command_register_cases _ _ _ _ _ _ _ _ _ Hr)
    as [[_ ->]|(nm & d & g & [= <-] & -> & -> & Hnew & _ & ->)]; [done|].
  split; [|split]; cbn [command_list command_count].
  - rewrite fmap_app. apply NoDup_app. split; [done|]. split; [|apply NoDup_singleton].
    intros n Hin ->%list_elem_of_singleton. done.
  - rewrite Hc. unfold Zlength, u32. rewrite Z.add_mod_idemp_l, length_app by lia. f_equal. cbn. lia.
  - apply Forall_app. split; [done|]. by constructor.
Qed.

(** A line in a registry whose names are distinct and have no spaces. *)
Lemma execute_by_name (x : commands) line (s : S) :
  commands_ok x →
  let l := command_skip_spaces line in
  match l with
  | [] => command_execute (Some line) x s = (1, s, [])
  | _ =>
      (∀ c, c ∈ command_list x → cmd_name c = first_word l →
         command_execute (Some line) x s =
           (1, (cmd_handler c (arguments l) s).1, (cmd_handler c (arguments l) s).2)) ∧
      (first_word l ∉ (cmd_name <$> command_list x) →
         command_execute (Some line) x s =
           (0, s, prints "unknown command: " ++ print l ++ newline ++ prints "type 'help'" ++ newline))
  end.
Proof.
  intros (Hnd & _ & Hp). cbv zeta. unfold command_execute.
  destruct (command_skip_spaces line) as [|c0 r] eqn:Hl; [done|].
  rewrite execute_loop_find by done. pose proof (find_by_name_spec (command_list x) (first_word (c0 :: r))) as Hf.
  split.
  - intros c Hc Hn. destruct (command_find_by_name _ _) as [c'|].
    + destruct Hf as [Hc' Hn']. assert (c' = c) as ->.
      { apply list_elem_of_lookup in Hc as [i Hi], Hc' as [j Hj].
        assert (i = j) as ->; [|congruence].
        apply (NoDup_lookup (cmd_name <$> command_list x) i j (cmd_name c)); [done|..];
          rewrite list_lookup_fmap; [by rewrite Hi|rewrite Hj; cbn; congruence]. }
      cbn [fmap option_fmap option_map]. by destruct (cmd_handler c (arguments (c0 :: r)) s).
    + exfalso. apply Hf. rewrite <- Hn. by apply list_elem_of_fmap_2.
  - intros Hno. destruct (command_find_by_name _ _) as [c'|]; [|done].
    destruct Hf as [Hc' Hn']. exfalso. apply Hno. rewrite <- Hn'. by apply list_elem_of_fmap_2.
Qed.

End Registry.
Arguments command_handler : clear implicits.
Arguments command : clear implicits.
Arguments commands : clear implicits.

(** ** Properties *)

(** A command line runs the command its first word names. In every registry
    built by registrations (names without spaces), names are distinct; a blank
    line does nothing; otherwise the line's first word decides: if a command has
    that name, exactly its handler runs, once, on the rest of the line without
    the leading spaces, and if none has, nothing runs and the line is reported
    as unknown. *)
Theorem command_execute_first_word {S} `{Allocator H} (x : commands S) line (s : S) :
  rtc (register_step (H:=H)) command_init.1 x →
  NoDup (cmd_name <$> command_list x) ∧
  let l := command_skip_spaces line in
  match l with
  | [] => command_execute (Some line) x s = (1, s, [])
  | _ =>
      (∀ c, c ∈ command_list x → cmd_name c = first_word l →
         command_execute (Some line) x s =
           (1, (cmd_handler c (arguments l) s).1, (cmd_handler c (arguments l) s).2)) ∧
      (first_word l ∉ (cmd_name <$> command_list x) →
         command_execute (Some line) x s =
           (0, s, prints "unknown command: " ++ print l ++ newline ++ prints "type 'help'" ++ newline))
  end.
Proof.
  intros Hr. assert (Hok : commands_ok x).
  { assert (Hinit : commands_ok (command_init (S:=S)).1) by (split; [constructor|]; split; [done|constructor]).
    revert Hinit. induction Hr as [|y z w Hyz _ IH]; [done|]. intros Hy. by eapply IH, register_step_ok. }
  split; [apply Hok|]. by apply execute_by_name.
Qed.

Lemma command_execute_first_word_witness :
  let x := (command_register (Some (s2z "echo")) (Some (s2z "print arguments"))
              (Some (λ args (s : Z), (s + 1, cmd_echo args))) command_init.1 (MkArena 16 100000 [])).1.1.2 in
  command_execute (Some (s2z "  echo  hi")) x 0 = (1, 1, print (s2z "hi") ++ newline) ∧
  command_execute (Some (s2z "echoes")) x 0 =
    (0, 0, prints "unknown command: " ++ print (s2z "echoes") ++ newline ++ prints "type 'help'" ++ newline).
Proof.
  intros x. assert (Hr : rtc (register_step (H:=arena)) command_init.1 x).
  { apply rtc_once. eexists _, _, _, _. split; [|reflexivity]. by apply (bool_decide_unpack _). }
  split.
  - exact (proj1 (proj2 (command_execute_first_word x (s2z "  echo  hi") 0 Hr)) _ (list_elem_of_here _ _) eq_refl).
  - apply (proj2 (proj2 (command_execute_first_word x (s2z "echoes") 0 Hr))).
    by apply (bool_decide_unpack _).
Defined.
