(* ===== verification/Output.v ===== *)
(** * Where text goes: console, serial port and kernel log
      ([src/kernel/print.c], [src/kernel/serial.c])

    [Print] gives the characters the code prints; here they are sent to the
    three sinks. The UART is polled: [uart_ready i] is what the [i]-th read of
    its status register shows. *)

From S2P Require Import Prelude CString Print Klog Console Alloc Device.

Definition SERIAL_COM1_PORT : Z := 0x3F8.
Definition SERIAL_DATA_PORT (base : Z) : Z := base + 0.
Definition SERIAL_INTERRUPT_ENABLE (base : Z) : Z := base + 1.
Definition SERIAL_FIFO_CONTROL (base : Z) : Z := base + 2.
Definition SERIAL_LINE_CONTROL (base : Z) : Z := base + 3.
Definition SERIAL_MODEM_CONTROL (base : Z) : Z := base + 4.

(** The static, how often the status was polled, and the port writes so far. *)
Record serial := MkSerial {
  serial_initialized : bool;
  serial_polls : nat;
  serial_writes : list (Z * Z)
}.

Definition outb (port value : Z) (s : serial) : serial :=
  MkSerial (serial_initialized s) (serial_polls s) (serial_writes s ++ [(port, value)]).

Section Serial.
Context (uart_ready : nat → bool).

Definition serial_transmit_empty (s : serial) : bool * serial :=
  (uart_ready (serial_polls s),
   MkSerial (serial_initialized s) (S (serial_polls s)) (serial_writes s)).

(** The loop of [serial_write_raw_char]. *)
Fixpoint raw_loop (fuel : nat) (c : Z) (s : serial) : serial :=
  match fuel with
  | O => s
  | S fuel' =>
      let '(ready, s) := serial_transmit_empty s in
      if ready : bool then outb (SERIAL_DATA_PORT SERIAL_COM1_PORT) (u8 c) s else raw_loop fuel' c s
  end.

Definition serial_write_raw_char (c : Z) (s : serial) : serial := raw_loop (Z.to_nat 100000) c s.

Definition serial_write_char (c : Z) (s : serial) : serial :=
  if negb (serial_initialized s) then s
  else
    let s := if c =? CH_LF then serial_write_raw_char CH_CR s else s in
    serial_write_raw_char c s.

Definition serial_init (s : serial) : serial * output :=
  let s := outb (SERIAL_INTERRUPT_ENABLE SERIAL_COM1_PORT) 0x00 s in
  let s := outb (SERIAL_LINE_CONTROL SERIAL_COM1_PORT) 0x80 s in
  let s := outb (SERIAL_DATA_PORT SERIAL_COM1_PORT) 0x03 s in
  let s := outb (SERIAL_INTERRUPT_ENABLE SERIAL_COM1_PORT) 0x00 s in
  let s := outb (SERIAL_LINE_CONTROL SERIAL_COM1_PORT) 0x03 s in
  let s := outb (SERIAL_FIFO_CONTROL SERIAL_COM1_PORT) 0xC7 s in
  let s := outb (SERIAL_MODEM_CONTROL SERIAL_COM1_PORT) 0x0B s in
  (MkSerial true (serial_polls s) (serial_writes s), prints "Serial COM1 initialized" ++ newline).

Definition serial_register_device `{Allocator H} (s : serial) (x : devices) (h : H)
    : option nat * devices * H * output :=
  if serial_initialized s
  then device_register (Some (s2z "serial0")) DEVICE_TYPE_TTY DEVICE_STATE_READY (Some (s2z "uart-16550")) x h
  else device_register (Some (s2z "serial0")) DEVICE_TYPE_TTY DEVICE_STATE_FAILED (Some (s2z "uart-16550")) x h.

(** ** The sinks *)

Record sinks := MkSinks { out_console : console; out_serial : serial; out_klog : klog }.

(** [print_char] of [print.c]. *)
Definition emit_char (c : Z) (k : sinks) : sinks :=
  MkSinks (console_put_char c (out_console k)) (serial_write_char c (out_serial k)) (klog_write_char c (out_klog k)).

Definition on_console (f : console → console) (k : sinks) : sinks :=
  MkSinks (f (out_console k)) (out_serial k) (out_klog k).

(** A glyph, with the colour of its [print_color] around it. *)
Definition emit_glyph (g : glyph) (k : sinks) : sinks :=
  match g with
  | (None, c) => emit_char c k
  | (Some color, c) =>
      let old_color := console_get_color (out_console k) in
      on_console (console_set_color old_color) (emit_char c (on_console (console_set_color color) k))
  end.

Definition emit (o : output) (k : sinks) : sinks := foldl (λ k g, emit_glyph g k) k o.

End Serial.

(** The console's part of it. *)
Definition show_glyph (g : glyph) (c : console) : console :=
  match g with
  | (None, x) => console_put_char x c
  | (Some color, x) =>
      console_set_color (console_get_color c) (console_put_char x (console_set_color color c))
  end.

Definition show (o : output) (c : console) : console := foldl (λ c g, show_glyph g c) c o.

(** ** Lemmas *)

(** Drawing does not change the colour. *)
Lemma color_lines sb c : current_color (with_lines sb c) = current_color c.
Proof. reflexivity. Qed.
Lemma color_pos l k c : current_color (with_pos l k c) = current_color c.
Proof. reflexivity. Qed.
Lemma color_top t c : current_color (with_top t c) = current_color c.
Proof. reflexivity. Qed.
Lemma color_screen v p c : current_color (with_screen v p c) = current_color c.
Proof. reflexivity. Qed.
Lemma color_cell l k x c : current_color (set_cell l k x c) = current_color c.
Proof. reflexivity. Qed.

Lemma render_color c : current_color (render_viewport c) = current_color c.
Proof.
  unfold render_viewport, hardware_cursor_set.
  repeat (rewrite ?color_screen, ?color_top; case_match); by rewrite ?color_screen, ?color_top.
Qed.

Lemma clear_line_color l c : current_color (clear_scrollback_line l c) = current_color c.
Proof.
  unfold clear_scrollback_line. generalize (seqZ 0 CONSOLE_WIDTH) as cols. intros cols. revert c.
  induction cols as [|x cols IH]; intros c; [done|]. cbn [foldl]. by rewrite IH, color_cell.
Qed.

Lemma next_line_color c : current_color (move_to_next_line c) = current_color c.
Proof.
  unfold move_to_next_line. cbv zeta. case_match; rewrite ?color_top, clear_line_color; by rewrite color_pos.
Qed.

Lemma put_glyph_color x c : current_color (put_glyph x c) = current_color c.
Proof.
  unfold put_glyph. cbv zeta.
  destruct (x =? CH_LF); [by rewrite render_color, next_line_color, color_top|].
  destruct (x =? CH_CR); [by rewrite render_color, color_pos, color_top|].
  destruct (x =? CH_BS); rewrite render_color.
  - case_match; [by rewrite color_cell, color_pos, color_top|by rewrite color_top].
  - repeat (case_match || rewrite next_line_color || rewrite color_pos || rewrite color_cell || rewrite color_top); done.
Qed.

Lemma put_char_color x c : current_color (console_put_char x c) = current_color c.
Proof.
  unfold console_put_char. destruct (x =? CH_TAB); [|apply put_glyph_color]. cbv zeta.
  change (seqZ 0 4) with [0; 1; 2; 3]. cbn [foldl]. by rewrite !put_glyph_color.
Qed.

Lemma set_color_id c : console_set_color (console_get_color c) c = c.
Proof. by destruct c. Qed.

(** Colouring character by character is [print_color]: one colour around the
    whole string. *)
Lemma show_print_color s color c :
  show (print_color s color) c =
  console_set_color (console_get_color c) (foldl (λ c x, console_put_char x c) (console_set_color color c) s).
Proof.
  revert c. induction s as [|x s IH]; intros c; [by destruct c|].
  unfold show, print_color in *. cbn [fmap list_fmap foldl show_glyph]. rewrite IH. clear IH.
  set (c1 := console_put_char x (console_set_color color c)).
  assert (Hc : console_set_color color (console_set_color (console_get_color c) c1) = c1).
  { assert (Hcol : current_color c1 = color) by (unfold c1; by rewrite put_char_color).
    destruct c1. cbn in *. by subst. }
  rewrite Hc. done.
Qed.

Lemma show_print s c : show (print s) c = foldl (λ c x, console_put_char x c) c s.
Proof. revert c. induction s as [|x s IH]; intros c; [done|]. apply IH. Qed.

Lemma show_app a b c : show (a ++ b) c = show b (show a c).
Proof. apply foldl_app. Qed.

(** What the terminal at the other end of the line gets. *)
Definition crlf (l : list Z) : list Z := concat ((λ c, if c =? CH_LF then [CH_CR; c] else [c]) <$> l).

(** The UART is ready again within the polls of one character. *)
Definition uart_live (uart_ready : nat → bool) : Prop :=
  ∀ i, ∃ k, (k < Z.to_nat 100000)%nat ∧ uart_ready (i + k)%nat = true.

Lemma raw_loop_sends uart k fuel c s :
  (k < fuel)%nat → uart (serial_polls s + k)%nat = true →
  ∃ n, raw_loop uart fuel c s =
    MkSerial (serial_initialized s) n (serial_writes s ++ [(SERIAL_COM1_PORT, u8 c)]).
Proof.
  revert k s. induction fuel as [|fuel IH]; intros k s Hk Hr; [lia|]. cbn [raw_loop serial_transmit_empty].
  destruct (uart (serial_polls s)) eqn:Hp; [by eexists|].
  destruct k as [|k]; [rewrite Nat.add_0_r in Hr; congruence|].
  apply (IH k (MkSerial (serial_initialized s) (S (serial_polls s)) (serial_writes s))); [lia|].
  cbn. by rewrite Nat.add_succ_r in Hr.
Qed.

Lemma raw_char_sends uart c s :
  uart_live uart →
  ∃ n, serial_write_raw_char uart c s =
    MkSerial (serial_initialized s) n (serial_writes s ++ [(SERIAL_COM1_PORT, u8 c)]).
Proof. intros Hu. destruct (Hu (serial_polls s)) as (k & Hk & Hr). by apply (raw_loop_sends _ k). Qed.

Lemma write_char_sends uart c s :
  uart_live uart → serial_initialized s = true →
  ∃ n, serial_write_char uart c s =
    MkSerial true n (serial_writes s ++ ((λ x, (SERIAL_COM1_PORT, u8 x)) <$> crlf [c])).
Proof.
  intros Hu Hi. unfold serial_write_char, crlf. rewrite Hi. cbn [negb fmap list_fmap concat app].
  destruct (c =? CH_LF).
  - destruct (raw_char_sends uart CH_CR s Hu) as (n1 & ->).
    destruct (raw_char_sends uart c (MkSerial (serial_initialized s) n1
                (serial_writes s ++ [(SERIAL_COM1_PORT, u8 CH_CR)])) Hu) as (n2 & ->).
    exists n2. cbn. by rewrite Hi, <- app_assoc.
  - destruct (raw_char_sends uart c s Hu) as (n1 & ->). exists n1. by rewrite Hi.
Qed.

(** ** Properties *)

(** Printed text reaches all three sinks. Whatever is printed, coloured or not:
    the console shows it character by character, with each [print_color] as one
    change of colour around its string that is undone at the end; the kernel log
    gets exactly the text; and, once the serial port is initialised and its UART
    becomes ready within 100000 polls, the line gets exactly the text, with a
    carriage return before every line feed; before that the port is not
    touched. *)
Theorem output_reaches_sinks uart o k :
  out_console (emit uart o k) = show o (out_console k) ∧
  (∀ s color, show (print_color s color) (out_console k) =
     console_set_color (console_get_color (out_console k))
       (foldl (λ c x, console_put_char x c) (console_set_color color (out_console k)) s)) ∧
  out_klog (emit uart o k) = foldl (λ l c, klog_write_char c l) (out_klog k) (text o) ∧
  (serial_initialized (out_serial k) = false → out_serial (emit uart o k) = out_serial k) ∧
  (uart_live uart → serial_initialized (out_serial k) = true →
   serial_writes (out_serial (emit uart o k)) =
     serial_writes (out_serial k) ++ ((λ x, (SERIAL_COM1_PORT, u8 x)) <$> crlf (text o))).
Proof.
  split; [|split; [intros; apply show_print_color|split; [|split]]].
  - revert k. induction o as [|[[col|] c] o IH]; intros k; [done|apply IH..].
  - revert k. induction o as [|[[col|] c] o IH]; intros k; [done|apply IH..].
  - intros Hs. revert k Hs. induction o as [|g o IH]; intros k Hs; [done|]. unfold emit in *. cbn [foldl].
    assert (Hg : out_serial (emit_glyph uart g k) = out_serial k).
    { destruct g as [[col|] c]; cbn; unfold serial_write_char; by rewrite Hs. }
    rewrite IH; rewrite Hg; done.
  - intros Hu Hs. revert k Hs. induction o as [|g o IH]; intros k Hs; [by rewrite app_nil_r|].
    unfold emit in *. cbn [foldl].
    assert (Hg : ∃ n, out_serial (emit_glyph uart g k) =
              MkSerial true n (serial_writes (out_serial k) ++ ((λ x, (SERIAL_COM1_PORT, u8 x)) <$> crlf [g.2]))).
    { destruct g as [[col|] c]; cbn [emit_glyph emit_char on_console out_serial snd]; by apply write_char_sends. }
    destruct Hg as (n & Hg). rewrite IH by (by rewrite Hg). rewrite Hg. cbn [serial_writes text].
    rewrite <- app_assoc, <- fmap_app. do 2 f_equal. unfold crlf, text. cbn [fmap list_fmap concat].
    by rewrite app_nil_r.
Qed.

Lemma output_reaches_sinks_witness :
  let k := MkSinks sample_console (MkSerial true 0 []) (klog_init klog_boot) in
  serial_writes (out_serial (emit (λ i, Nat.even i) (prints "ok" ++ newline) k)) =
    [(SERIAL_COM1_PORT, 111); (SERIAL_COM1_PORT, 107); (SERIAL_COM1_PORT, 13); (SERIAL_COM1_PORT, 10)].
Proof.
  intros k. refine (proj2 (proj2 (proj2 (proj2 (output_reaches_sinks (λ i, Nat.even i) (prints "ok" ++ newline) k)))) _ eq_refl).
  intros i. destruct (Nat.even i) eqn:He.
  - exists 0%nat. split; [lia|]. by rewrite Nat.add_0_r.
  - exists 1%nat. split; [lia|]. by rewrite Nat.even_add, He.
Defined.
