(* ===== verification/Shell.v ===== *)
(** * The shell: line editor, history and completion ([src/kernel/shell.c])

    The state is the shell's statics together with what it works on: the
    output sinks and the file tree. [line] is [line_buffer] up to
    [line_length]; the characters that are entered are printable, so that this
    is also the C string in it. The commands are those of a registry
    ([Command]) whose handlers act on this state. *)

From S2P Require Import Prelude CString Print Klog Console Alloc Device Output Task Tty Keyboard Vfs Command.

Definition SHELL_LINE_MAX : Z := 64.
Definition SHELL_HISTORY_SIZE : Z := 16.
Definition SHELL_HISTORY_LINE_MAX : Z := SHELL_LINE_MAX.
Definition SHELL_PROMPT : string := "my-os> ".

Record shell := MkShell {
  sh_out : sinks;
  sh_fs : fs;
  line : cstr;
  prompt_row : Z;
  prompt_col : Z;
  last_rendered_length : Z;
  history : list cstr;
  history_count : Z;
  history_next : Z;
  history_view : Z;
  history_draft : cstr;
  history_draft_valid : bool
}.

Definition line_length (s : shell) : Z := Zlength (line s).

Definition shell_completion_commands : list cstr := s2z <$>
  ["help"; "clear"; "ticks"; "mem"; "echo"; "pmmtest"; "vmmtest"; "heaptest"; "pf"; "cmds"; "devices"; "devcount";
   "dmesg"; "dmesgclear"; "dmesginfo"; "panic"; "asserttest"; "wqtest"; "wqstats"; "wqrun"; "delaytest";
   "timerstats"; "date"; "rtctest"; "tasks"; "taskdemo"; "sleepdemo"; "yield"; "taskstats"; "ls"; "cat"; "fsinfo";
   "fdinfo"; "fdcat"; "fdwrite"; "history"; "syscalltest"; "syscallentrytest"; "syscallcpuinfo"; "gdtinfo";
   "ring3test"; "ring3info"; "syscallinfo"; "mouseinfo"; "initramfsinfo"; "elflast"; "elfload"; "elfinfo";
   "initrun"; "exec"; "ps"; "wait"]%string.

(** ** Updates of the statics *)

Definition with_out (k : sinks) (s : shell) : shell :=
  MkShell k (sh_fs s) (line s) (prompt_row s) (prompt_col s) (last_rendered_length s) (history s)
    (history_count s) (history_next s) (history_view s) (history_draft s) (history_draft_valid s).
Definition with_line (l : cstr) (s : shell) : shell :=
  MkShell (sh_out s) (sh_fs s) l (prompt_row s) (prompt_col s) (last_rendered_length s) (history s)
    (history_count s) (history_next s) (history_view s) (history_draft s) (history_draft_valid s).
Definition with_rendered (n : Z) (s : shell) : shell :=
  MkShell (sh_out s) (sh_fs s) (line s) (prompt_row s) (prompt_col s) n (history s)
    (history_count s) (history_next s) (history_view s) (history_draft s) (history_draft_valid s).
Definition with_prompt (row col : Z) (s : shell) : shell :=
  MkShell (sh_out s) (sh_fs s) (line s) row col (last_rendered_length s) (history s)
    (history_count s) (history_next s) (history_view s) (history_draft s) (history_draft_valid s).
Definition with_history (h : list cstr) (count next : Z) (s : shell) : shell :=
  MkShell (sh_out s) (sh_fs s) (line s) (prompt_row s) (prompt_col s) (last_rendered_length s) h
    count next (history_view s) (history_draft s) (history_draft_valid s).
Definition with_view (v : Z) (d : cstr) (valid : bool) (s : shell) : shell :=
  MkShell (sh_out s) (sh_fs s) (line s) (prompt_row s) (prompt_col s) (last_rendered_length s) (history s)
    (history_count s) (history_next s) v d valid.

(** ** Strings *)

Definition shell_strlen (s : cstr) : Z := u32 (c_strlen s).
Definition shell_is_space (c : Z) : bool := c_is_space c.
Definition shell_streq (a b : cstr) : bool := c_streq a b.
Definition shell_starts_with (s prefix : cstr) : bool := c_starts_with s prefix.
Definition shell_copy_line (src : cstr) (dst_size : Z) : cstr := c_copy_limit src 0 dst_size.

(** [len] characters of [src], which has at least as many. *)
Definition shell_copy_substr (src : cstr) (len dst_size : Z) : cstr :=
  take (Z.to_nat (Z.min len (dst_size - 1))) src.

(** The string in [dst] is a value; [None] is the result 0. *)
Definition shell_append_char (dst : cstr) (dst_size c : Z) : option cstr :=
  if dst_size <=? Zlength dst + 1 then None else Some (dst ++ [c]).

Fixpoint shell_append_string (dst : cstr) (dst_size : Z) (src : cstr) : option cstr :=
  match src with
  | [] => Some dst
  | c :: r => dst ← shell_append_char dst dst_size c; shell_append_string dst dst_size r
  end.

Definition shell_line_is_blank (s : cstr) : bool := forallb shell_is_space s.

Fixpoint shell_reduce_to_common_prefix (base other : cstr) : cstr :=
  match base, other with
  | a :: base', b :: other' => if a =? b then a :: shell_reduce_to_common_prefix base' other' else []
  | _, _ => []
  end.

(** ** History *)

Definition history_physical_index (logical_index : Z) (s : shell) : Z :=
  if history_count s <? SHELL_HISTORY_SIZE then logical_index
  else u32 (history_next s + logical_index) mod SHELL_HISTORY_SIZE.

Definition history_get (logical_index : Z) (s : shell) : option cstr :=
  if history_count s <=? logical_index then None
  else Some (arr_get (history s) (history_physical_index logical_index s)).

Definition history_latest (s : shell) : option cstr :=
  if history_count s =? 0 then None else history_get (history_count s - 1) s.

Definition history_add (l : cstr) (s : shell) : shell :=
  if shell_line_is_blank l then s
  else if match history_latest s with Some latest => shell_streq latest l | None => false end then s
  else
    with_history (arr_set (history s) (history_next s) (shell_copy_line l SHELL_HISTORY_LINE_MAX))
      (if history_count s <? SHELL_HISTORY_SIZE then history_count s + 1 else history_count s)
      ((history_next s + 1) mod SHELL_HISTORY_SIZE) s.

Definition history_reset_view (s : shell) : shell := with_view (-1) [] false s.

(** ** Editing *)

Section Shell.
Context (uart_ready : nat → bool) (cmds : commands shell).

Definition sh_print (o : output) (s : shell) : shell := with_out (emit uart_ready o (sh_out s)) s.
Definition sh_console (f : console → console) (s : shell) : shell := with_out (on_console f (sh_out s)) s.

Definition shell_draw_prompt (s : shell) : shell := sh_print (prints_color SHELL_PROMPT COLOR_GREEN_ON_BLACK) s.

Definition put_chars (l : cstr) (c : console) : console := foldl (λ c x, console_put_char x c) c l.

Definition shell_redraw_line (s : shell) : shell :=
  let old_len := last_rendered_length s in
  let s := sh_console (console_set_cursor (prompt_row s) (prompt_col s)) s in
  let s := sh_console (put_chars (line s)) s in
  let s := if line_length s <? old_len
           then sh_console (put_chars (replicate (Z.to_nat (old_len - line_length s)) CH_SPACE)) s else s in
  let s := with_rendered (line_length s) s in
  sh_console (console_set_cursor (prompt_row s) (u32 (prompt_col s + line_length s))) s.

Definition shell_replace_line (text : cstr) (s : shell) : shell :=
  shell_redraw_line (with_line (shell_copy_line text SHELL_LINE_MAX) s).

(** [console_get_cursor(&prompt_row, &prompt_col)] *)
Definition save_prompt (s : shell) : shell :=
  let '(row, col) := console_get_cursor (out_console (sh_out s)) in with_prompt row col s.

Definition shell_print_prompt (s : shell) : shell :=
  let s := save_prompt (shell_draw_prompt s) in
  history_reset_view (with_rendered 0 (with_line [] s)).

(** The string at [history_view]. *)
Definition show_view (s : shell) : shell :=
  match history_get (u32 (history_view s)) s with Some l => shell_replace_line l s | None => s end.

Definition shell_history_up (s : shell) : shell :=
  if history_count s =? 0 then s
  else
    let s := if history_view s <? 0
             then with_view (s32 (history_count s - 1)) (shell_copy_line (line s) SHELL_HISTORY_LINE_MAX) true s
             else if 0 <? history_view s
             then with_view (history_view s - 1) (history_draft s) (history_draft_valid s) s
             else s in
    show_view s.

Definition shell_history_down (s : shell) : shell :=
  if history_view s <? 0 then s
  else if u32 (history_view s + 1) <? history_count s
  then show_view (with_view (history_view s + 1) (history_draft s) (history_draft_valid s) s)
  else
    let s := with_view (-1) (history_draft s) (history_draft_valid s) s in
    let s := shell_replace_line (if history_draft_valid s then history_draft s else []) s in
    with_view (history_view s) (history_draft s) false s.

(** ** Completion of commands *)

(** The loop over the candidates: how many match, the last match, and the
    common prefix of the matches once there is one. *)
Definition collect {A} (name : A → cstr) (prefix : cstr) (acc : Z * option A * option cstr) (x : A)
    : Z * option A * option cstr :=
  let '(count, last_match, common) := acc in
  if shell_starts_with (name x) prefix then
    (u32 (count + 1), Some x,
     Some (match common with
           | None => shell_copy_line (name x) SHELL_LINE_MAX
           | Some c => shell_reduce_to_common_prefix c (name x)
           end))
  else acc.

Definition collect_matches {A} (name : A → cstr) (prefix : cstr) (l : list A) : Z * option A * option cstr :=
  foldl (collect name prefix) (0, None, None) l.

Definition shell_apply_command_completion (command : cstr) (s : shell) : shell :=
  let completed := shell_copy_line command SHELL_LINE_MAX in
  let len := shell_strlen completed in
  let completed := if len + 1 <? SHELL_LINE_MAX then completed ++ [CH_SPACE] else completed in
  shell_replace_line completed s.

(** The end of both listings: the prompt and the line again. *)
Definition draw_again (s : shell) : shell :=
  let s := save_prompt (shell_draw_prompt s) in
  with_rendered (line_length s) (sh_print (print (line s)) s).

Definition shell_print_command_matches (prefix : cstr) (s : shell) : shell :=
  let s := sh_print newline s in
  let s := foldl (λ s c, if shell_starts_with c prefix
                         then sh_print (prints "  " ++ print c ++ newline) s else s) s shell_completion_commands in
  draw_again s.

Definition shell_complete_command (s : shell) : bool * shell :=
  if existsb shell_is_space (line s) then (false, s)
  else
    let prefix := shell_copy_line (line s) SHELL_LINE_MAX in
    let '(count, last_match, common) := collect_matches (λ c, c) prefix shell_completion_commands in
    if count =? 0 then (false, s)
    else
      let s := history_reset_view s in
      match (if count =? 1 then last_match else None), common with
      | Some m, _ => (true, shell_apply_command_completion m s)
      | None, Some common =>
          if shell_strlen prefix <? shell_strlen common
          then (true, shell_print_command_matches common (shell_replace_line common s))
          else (true, shell_print_command_matches prefix s)
      | None, None => (true, shell_print_command_matches prefix s)
      end.

(** ** Completion of paths *)

Definition shell_is_path_command (command : cstr) : bool :=
  shell_streq command (s2z "ls") || shell_streq command (s2z "cat") || shell_streq command (s2z "fdcat") ||
  shell_streq command (s2z "elfinfo") || shell_streq command (s2z "elfload") ||
  shell_streq command (s2z "initrun") || shell_streq command (s2z "exec").

Definition shell_extract_command (out_size : Z) (s : shell) : option cstr :=
  match c_skip shell_is_space (line s) with
  | [] => None
  | w => let out := c_copy_word w 0 out_size in if 0 <? Zlength out then Some out else None
  end.

(** The index behind the command and the spaces that follow it. *)
Definition shell_find_path_token_start (s : shell) : option Z :=
  match c_skip (λ c, negb (shell_is_space c)) (c_skip shell_is_space (line s)) with
  | [] => None
  | r => Some (line_length s - Zlength (c_skip shell_is_space r))
  end.

(** The loop that finds the last slash: the greatest index of one, 0 without. *)
Fixpoint last_slash_from (token : cstr) (i last : Z) : Z :=
  match token with
  | [] => last
  | c :: r => last_slash_from r (i + 1) (if c =? CH_SLASH then i else last)
  end.

(** The parent's path and the prefix of the name. *)
Definition shell_make_path_context (token_start parent_size prefix_size : Z) (s : shell) : option (cstr * cstr) :=
  if line_length s <? token_start then None
  else
    let token := drop (Z.to_nat token_start) (line s) in
    let token_len := line_length s - token_start in
    match token with
    | [] => Some (shell_copy_line [CH_SLASH] parent_size, [])
    | c :: rest =>
        if negb (c =? CH_SLASH) then None
        else
          let last_slash := last_slash_from token 0 0 in
          if last_slash =? 0 then
            Some (shell_copy_line [CH_SLASH] parent_size,
                  if 1 <? token_len then shell_copy_substr rest (token_len - 1) prefix_size else [])
          else
            Some (shell_copy_substr token last_slash parent_size,
                  if last_slash + 1 <? token_len
                  then shell_copy_substr (drop (Z.to_nat (last_slash + 1)) token) (token_len - last_slash - 1) prefix_size
                  else [])
    end.

Definition shell_build_child_path (parent_path child_name : cstr) (out_size : Z) : option cstr :=
  out ← (if shell_streq parent_path [CH_SLASH] then shell_append_char [] out_size CH_SLASH
         else out ← shell_append_string [] out_size parent_path; shell_append_char out out_size CH_SLASH);
  shell_append_string out out_size child_name.

(** [node] decides what follows the path; [None] is a null node. *)
Definition shell_replace_path_token (token_start : Z) (completed_path : cstr) (node : option nat) (s : shell) : shell :=
  match new_line ← shell_append_string [] SHELL_LINE_MAX (take (Z.to_nat token_start) (line s));
        shell_append_string new_line SHELL_LINE_MAX completed_path with
  | None => s
  | Some new_line =>
      let new_line :=
        match node with
        | None => new_line
        | Some n =>
            default new_line
              (shell_append_char new_line SHELL_LINE_MAX
                 (if decide (type_of (sh_fs s) n = VFS_NODE_DIR) then CH_SLASH else CH_SPACE))
        end in
      shell_replace_line new_line s
  end.

(** The children of a directory, along the sibling links. *)
Fixpoint siblings_from (fuel : nat) (f : fs) (child : option nat) : list nat :=
  match fuel, child with
  | S fuel', Some i => i :: siblings_from fuel' f (next_of f i)
  | _, _ => []
  end.

Definition children (f : fs) (dir : nat) : list nat := siblings_from (length (nodes f)) f (first_of f dir).

Definition print_path_match (f : fs) (parent_path : cstr) (child : nat) : output :=
  prints "  " ++
  (match parent_path with
   | _ :: _ => if negb (shell_streq parent_path [CH_SLASH]) then print parent_path ++ prints "/" else prints "/"
   | [] => prints "/"
   end) ++
  print (name_of f child) ++ (if decide (type_of f child = VFS_NODE_DIR) then prints "/" else []) ++ newline.

Definition shell_print_path_matches (parent_path prefix : cstr) (s : shell) : shell :=
  match vfs_lookup (sh_fs s) parent_path with
  | None => s
  | Some parent =>
      if decide (type_of (sh_fs s) parent ≠ VFS_NODE_DIR) then s
      else
        let s := sh_print newline s in
        let s := foldl (λ s c, if shell_starts_with (name_of (sh_fs s) c) prefix
                               then sh_print (print_path_match (sh_fs s) parent_path c) s else s)
                   s (children (sh_fs s) parent) in
        draw_again s
  end.

Definition shell_complete_path (s : shell) : bool * shell :=
  match shell_extract_command SHELL_LINE_MAX s with
  | None => (false, s)
  | Some command =>
      if negb (shell_is_path_command command) then (false, s)
      else match shell_find_path_token_start s with
           | None => (false, s)
           | Some token_start =>
               match shell_make_path_context token_start SHELL_LINE_MAX SHELL_LINE_MAX s with
               | None => (false, s)
               | Some (parent_path, prefix) =>
                   match vfs_lookup (sh_fs s) parent_path with
                   | None => (true, s)
                   | Some parent =>
                       if decide (type_of (sh_fs s) parent ≠ VFS_NODE_DIR) then (true, s)
                       else
                         let '(count, last_match, common) :=
                           collect_matches (name_of (sh_fs s)) prefix (children (sh_fs s) parent) in
                         if count =? 0 then (true, s)
                         else
                           let s := history_reset_view s in
                           match (if count =? 1 then last_match else None), common with
                           | Some m, _ =>
                               (true, match shell_build_child_path parent_path (name_of (sh_fs s) m) SHELL_LINE_MAX with
                                      | Some p => shell_replace_path_token token_start p (Some m) s
                                      | None => s
                                      end)
                           | None, Some common =>
                               if shell_strlen prefix <? shell_strlen common then
                                 (true, match shell_build_child_path parent_path common SHELL_LINE_MAX with
                                        | Some p => shell_print_path_matches parent_path common
                                                      (shell_replace_path_token token_start p None s)
                                        | None => s
                                        end)
                               else (true, shell_print_path_matches parent_path prefix s)
                           | None, None => (true, shell_print_path_matches parent_path prefix s)
                           end
                   end
               end
           end
  end.

Definition shell_complete_tab (s : shell) : shell :=
  let '(done, s) := shell_complete_path s in
  if done : bool then s else (shell_complete_command s).2.

(** ** Keys *)

Definition shell_backspace (s : shell) : shell :=
  if line_length s =? 0 then s
  else shell_redraw_line (with_line (take (length (line s) - 1) (line s)) s).

(** [command_execute(line_buffer)]: the handler acts on this state. *)
Definition run_command (s : shell) : shell :=
  let '(_, s, o) := command_execute (Some (line s)) cmds s in sh_print o s.

Definition shell_on_char (c : Z) (s : shell) : shell :=
  let s := if negb (c =? CH_LF) then history_reset_view s else s in
  if c =? CH_LF then
    let s := sh_console (console_put_char CH_LF) s in
    let s := history_add (line s) s in
    let s := run_command s in
    shell_print_prompt s
  else if c =? CH_BS then shell_backspace s
  else if SHELL_LINE_MAX <=? line_length s + 1 then s
  else shell_redraw_line (with_line (line s ++ [c]) s).

Definition shell_on_key (key : Z) (s : shell) : shell :=
  if key =? TTY_KEY_UP then shell_history_up s
  else if key =? TTY_KEY_DOWN then shell_history_down s
  else if key =? TTY_KEY_PAGE_UP then sh_console console_scroll_page_up s
  else if key =? TTY_KEY_PAGE_DOWN then sh_console console_scroll_page_down s
  else if key =? TTY_KEY_BACKSPACE then shell_backspace s
  else if key =? TTY_KEY_ENTER then shell_on_char CH_LF s
  else if key =? TTY_KEY_TAB then shell_complete_tab s
  else if (0x20 <=? key) && (key <=? 0x7E) then shell_on_char key s
  else s.

(** The shell's task: the keys it reads, one after the other. *)
Definition shell_task (keys : list Z) (s : shell) : shell := foldl (λ s key, shell_on_key key s) s keys.

Definition print_history_line (s : shell) (i : Z) : output :=
  print_dec64 (u32 (i + 1)) ++ prints "  " ++ print (default [] (history_get i s)) ++ newline.

Definition cmd_history (s : shell) : output :=
  if history_count s =? 0 then prints "history is empty" ++ newline
  else concat (print_history_line s <$> seqZ 0 (history_count s)).

Definition shell_init (s : shell) : shell :=
  let s := with_rendered 0 (with_line [] s) in
  let s := history_reset_view (with_history (history s) 0 0 s) in
  let s := with_history (replicate (Z.to_nat SHELL_HISTORY_SIZE) []) (history_count s) (history_next s) s in
  let s := sh_print (color_line "[Shell]" COLOR_YELLOW_ON_BLACK ++
                     prints "Type 'help' to list commands." ++ newline) s in
  shell_print_prompt s.

Definition shell_start_task `{Allocator H} (shell_task_entry : Z) (s : sched) (h : H) : sched * H * output :=
  let '(id, s, h, o) := task_create (Some (s2z "shell")) shell_task_entry 0 s h in
  (s, h, o ++ if id =? 0 then color_line "failed to create shell task" COLOR_RED_ON_BLACK else []).

End Shell.
