(* ===== verification/ShellProps.v ===== *)
(** * The shell refines a line editor with history and completion

    The editor keeps the line, every line that was ever accepted, where in the
    visible part of them the user is, and the draft to come back to. It knows
    nothing of the screen, of rings and of buffers. *)

From S2P Require Import Prelude CString Print Klog Console Alloc Device Output Task Tty Keyboard Vfs Command Shell.

(** ** The editor *)

Definition HISTORY_N : nat := 16.

(** A line is accepted unless it is blank or repeats the last one. *)
Definition log_add (l : cstr) (log : list cstr) : list cstr :=
  if shell_line_is_blank l then log
  else if decide (last log = Some l) then log
  else log ++ [l].

Definition visible (log : list cstr) : list cstr := last_n HISTORY_N log.

Definition with_prefix {A} (name : A → cstr) (p : cstr) (l : list A) : list A :=
  filter (λ x, p `prefix_of` name x) l.

Definition lcp (ms : list cstr) : cstr :=
  match ms with [] => [] | m :: r => foldl shell_reduce_to_common_prefix m r end.

(** What the tab key makes of the line, [None] when nothing matches: one match
    is completed, several are completed as far as they agree. *)
Definition complete_command (l : cstr) : option cstr :=
  if existsb shell_is_space l then None
  else match with_prefix (λ c, c) l shell_completion_commands with
       | [] => None
       | [m] => Some (m ++ [CH_SPACE])
       | ms => Some (lcp ms)
       end.

(** The pieces of a line whose command takes a path: where the path starts, its
    directory and the beginning of the name. *)
Definition path_pieces (l : cstr) : option (Z * cstr * cstr) :=
  match c_skip c_is_space l with
  | [] => None
  | w =>
      let command := c_copy_word w 0 SHELL_LINE_MAX in
      let rest := drop (length command) w in
      if negb (shell_is_path_command command) then None
      else match rest with
           | [] => None
           | _ =>
               let token := c_skip c_is_space rest in
               let start := Zlength l - Zlength token in
               match token with
               | [] => Some (start, [CH_SLASH], [])
               | c :: r =>
                   if negb (c =? CH_SLASH) then None
                   else let k := Z.to_nat (last_slash_from token 0 0) in
                        Some (start, if decide (k = 0%nat) then [CH_SLASH] else take k token, drop (S k) token)
               end
           end
  end.

Definition child_path (dir name : cstr) : cstr :=
  (if decide (dir = [CH_SLASH]) then [CH_SLASH] else dir ++ [CH_SLASH]) ++ name.

(** A line too long for the buffer is not completed, and the character that
    follows a complete path is left out if there is no room for it. *)
Definition fit (l : cstr) (follow : cstr) (old : cstr) : cstr :=
  if decide (Zlength l < SHELL_LINE_MAX) then
    if decide (Zlength (l ++ follow) < SHELL_LINE_MAX) then l ++ follow else l
  else old.

Definition complete_path (f : fs) (l : cstr) : option (option cstr) :=
  match path_pieces l with
  | None => None
  | Some (start, dir, p) =>
      Some
        match vfs_lookup f dir with
        | None => None
        | Some d =>
            if decide (type_of f d ≠ VFS_NODE_DIR) then None
            else
              let before := take (Z.to_nat start) l in
              match with_prefix (name_of f) p (children f d) with
              | [] => None
              | [m] => Some (fit (before ++ child_path dir (name_of f m))
                                 [if decide (type_of f m = VFS_NODE_DIR) then CH_SLASH else CH_SPACE] l)
              | ms => let common := lcp (name_of f <$> ms) in
                      Some (if decide (common = p) then l else fit (before ++ child_path dir common) [] l)
              end
        end
  end.

Definition complete (f : fs) (l : cstr) : option cstr :=
  match complete_path f l with Some r => r | None => complete_command l end.

Record editor := MkEditor {
  ed_line : cstr;
  ed_log : list cstr;
  ed_view : option nat;
  ed_draft : cstr
}.

Definition ed_show (i : nat) (e : editor) : editor :=
  MkEditor (default [] (visible (ed_log e) !! i)) (ed_log e) (Some i) (ed_draft e).

Definition edit (f : fs) (key : Z) (e : editor) : editor :=
  let n := length (visible (ed_log e)) in
  if key =? TTY_KEY_UP then
    match ed_view e with
    | None => if decide (n = 0%nat) then e
              else ed_show (n - 1) (MkEditor (ed_line e) (ed_log e) None (ed_line e))
    | Some i => ed_show (i - 1) e
    end
  else if key =? TTY_KEY_DOWN then
    match ed_view e with
    | None => e
    | Some i => if decide (S i < n)%nat then ed_show (S i) e
                else MkEditor (ed_draft e) (ed_log e) None (ed_draft e)
    end
  else if key =? TTY_KEY_BACKSPACE then
    MkEditor (take (length (ed_line e) - 1) (ed_line e)) (ed_log e) (ed_view e) (ed_draft e)
  else if key =? TTY_KEY_ENTER then MkEditor [] (log_add (ed_line e) (ed_log e)) None (ed_draft e)
  else if key =? TTY_KEY_TAB then
    match complete f (ed_line e) with
    | Some l => MkEditor l (ed_log e) None (ed_draft e)
    | None => e
    end
  else if (0x20 <=? key) && (key <=? 0x7E) then
    MkEditor (if decide (Zlength (ed_line e) + 1 < SHELL_LINE_MAX) then ed_line e ++ [key] else ed_line e)
      (ed_log e) None (ed_draft e)
  else e.

(** ** The statics that are not about the screen *)

Record core := MkCore {
  c_fs : fs; c_line : cstr; c_hist : list cstr; c_count : Z; c_next : Z;
  c_view : Z; c_draft : cstr; c_valid : bool
}.

Definition core_of (s : shell) : core :=
  MkCore (sh_fs s) (line s) (history s) (history_count s) (history_next s)
    (history_view s) (history_draft s) (history_draft_valid s).

Definition set_line (l : cstr) (c : core) : core :=
  MkCore (c_fs c) l (c_hist c) (c_count c) (c_next c) (c_view c) (c_draft c) (c_valid c).
Definition set_view (v : Z) (d : cstr) (b : bool) (c : core) : core :=
  MkCore (c_fs c) (c_line c) (c_hist c) (c_count c) (c_next c) v d b.

(** The ring holds the visible part of the accepted lines. *)
Record hist_ok (h : list cstr) (count next : Z) (log : list cstr) : Prop := {
  ho_len : Zlength h = 16;
  ho_count : count = Z.min 16 (Zlength log);
  ho_next : next = Zlength log mod 16;
  ho_read : ring_read h (if count <? 16 then 0 else next) (Z.to_nat count) = visible log;
  ho_short : Forall (λ l, Zlength l < SHELL_LINE_MAX) log
}.

Record ed_ok (c : core) (e : editor) : Prop := {
  eo_line : c_line c = ed_line e;
  eo_short : Zlength (c_line c) < SHELL_LINE_MAX;
  eo_hist : hist_ok (c_hist c) (c_count c) (c_next c) (ed_log e);
  eo_view : match ed_view e with
            | None => c_view c = -1
            | Some i => c_view c = Z.of_nat i ∧ (i < length (visible (ed_log e)))%nat ∧
                        c_valid c = true ∧ c_draft c = ed_draft e ∧ Zlength (ed_draft e) < SHELL_LINE_MAX
            end
}.

(** Names on disk are shorter than the line, and there are fewer than [2^32]
    of them. *)
Definition fs_fits (f : fs) : Prop :=
  Zlength (nodes f) < 2 ^ 32 ∧ ∀ i, Zlength (name_of f i) < SHELL_LINE_MAX.

(** ** Lemmas: history *)

Lemma last_last_n {A} n (l : list A) : (0 < n)%nat → last (last_n n l) = last l.
Proof.
  intros Hn. unfold last_n. destruct l as [|x l] using rev_ind; [by rewrite drop_nil|].
  rewrite drop_app_le by (rewrite length_app; cbn; lia). by rewrite !last_snoc.
Qed.

Lemma visible_length log : Zlength (visible log) = Z.min 16 (Zlength log).
Proof. unfold visible, last_n, HISTORY_N, Zlength. rewrite length_drop. lia. Qed.

Lemma hist_get h count next log i :
  hist_ok h count next log → 0 <= i < count →
  visible log !! Z.to_nat i = Some (arr_get h (if count <? 16 then i else u32 (next + i) mod 16)).
Proof.
  intros [Hl Hc Hn Hr _] Hi. rewrite <- Hr. unfold ring_read.
  rewrite list_lookup_fmap, lookup_seq_lt by lia. cbn [fmap option_fmap option_map]. f_equal. f_equal.
  unfold ring_idx. rewrite Hl. pose proof (Z.mod_pos_bound (Zlength log) 16 ltac:(lia)).
  case_if; btests.
  - rewrite Z.mod_small by lia. lia.
  - rewrite u32_small by (unfold is_u32; lia). f_equal. lia.
Qed.

Lemma history_get_visible s log i :
  hist_ok (history s) (history_count s) (history_next s) log → 0 <= i →
  history_get i s = visible log !! Z.to_nat i.
Proof.
  intros Hh Hi. unfold history_get. pose proof (visible_length log) as Hv. pose proof (ho_count _ _ _ _ Hh) as Hc.
  case_if; btests.
  - symmetry. apply lookup_ge_None. unfold Zlength in *. lia.
  - rewrite (hist_get _ _ _ _ i Hh) by lia. done.
Qed.

Lemma history_latest_last s log :
  hist_ok (history s) (history_count s) (history_next s) log → history_latest s = last log.
Proof.
  intros Hh. unfold history_latest. pose proof (ho_count _ _ _ _ Hh) as Hc. pose proof (visible_length log) as Hv.
  case_if; btests.
  - assert (log = []) as ->; [|done]. apply nil_length_inv. unfold Zlength in *. lia.
  - rewrite (history_get_visible s log) by (done || (unfold Zlength in *; lia)). rewrite <- (last_last_n HISTORY_N) by (unfold HISTORY_N; lia).
    rewrite last_lookup. fold (visible log). f_equal. unfold Zlength in *. lia.
Qed.

Lemma log_push h count next log l :
  hist_ok h count next log → Zlength l < SHELL_LINE_MAX →
  hist_ok (arr_set h next l) (if count <? 16 then count + 1 else count) ((next + 1) mod 16) (log ++ [l]).
Proof.
  intros [Hl Hc Hn Hr Hs] Hlen. pose proof (Z.mod_pos_bound (Zlength log) 16 ltac:(lia)) as Hnext.
  assert (Hlog : Zlength (log ++ [l]) = Zlength log + 1) by (unfold Zlength; rewrite length_app; cbn; lia).
  split; rewrite ?Hlog.
  - unfold Zlength in *. by rewrite arr_set_length.
  - case_if; btests; lia.
  - rewrite Hn, Z.add_mod_idemp_l by lia. done.
  - unfold visible in *. rewrite last_n_snoc. change (HISTORY_N =? 0)%nat with false. cbn iota.
    destruct (Z.ltb_spec count 16) as [Hlt|Hge].
    + assert (Hsmall : Zlength log < 16) by lia.
      rewrite (proj2 (Nat.ltb_lt _ _)) by (unfold Zlength, HISTORY_N in *; lia).
      rewrite Hn, Z.mod_small in * by (unfold Zlength in *; lia).
      assert (Hall : last_n HISTORY_N log = log).
      { unfold last_n. replace (length log - HISTORY_N)%nat with 0%nat; [apply drop_0|]. unfold Zlength, HISTORY_N in *. lia. }
      rewrite Hall in Hr.
      assert (Hx : ring_read (arr_set h (Zlength log) l) 0 (Z.to_nat (count + 1)) = log ++ [l]).
      { replace (Z.to_nat (count + 1)) with (S (Z.to_nat count)) by lia.
        replace (Zlength log) with (ring_idx h 0 (Z.to_nat count)).
        - rewrite ring_read_push by (unfold Zlength in *; lia). by rewrite Hr.
        - unfold ring_idx. rewrite Hl, Z.mod_small by lia. lia. }
      destruct (Z.ltb_spec (count + 1) 16); [done|].
      replace (Zlength log) with 15 in * by lia. done.
    + rewrite (proj2 (Nat.ltb_ge _ _)) by (unfold Zlength, HISTORY_N in *; lia).
      rewrite (proj2 (Z.ltb_ge count 16)) by lia. assert (count = 16) as -> by lia.
      rewrite <- Hr. change (Z.to_nat 16) with 16%nat. unfold Zlength in Hl.
      replace 16%nat with (length h) by lia. replace 16 with (Zlength h) by (unfold Zlength; lia).
      apply ring_read_overwrite. unfold Zlength. lia.
  - apply Forall_app. split; [done|]. by constructor.
Qed.

Lemma copy_short l : Zlength l < SHELL_LINE_MAX → shell_copy_line l SHELL_LINE_MAX = l.
Proof. intros Hl. by apply (c_copy_limit_bound l SHELL_LINE_MAX). Qed.

(** Adding a line to the ring accepts it. *)
Lemma history_add_log l s log :
  hist_ok (history s) (history_count s) (history_next s) log → Zlength l < SHELL_LINE_MAX →
  let s' := history_add l s in
  hist_ok (history s') (history_count s') (history_next s') (log_add l log) ∧
  sh_fs s' = sh_fs s ∧ line s' = line s.
Proof.
  intros Hh Hl. unfold history_add, log_add. rewrite (history_latest_last s log Hh).
  destruct (shell_line_is_blank l); [done|].
  assert (Hd : match last log with Some latest => shell_streq latest l | None => false end =
               bool_decide (last log = Some l)).
  { destruct (last log) as [x|]; [|by rewrite bool_decide_false by done]. unfold shell_streq. rewrite c_streq_decide.
    apply bool_decide_ext. split; congruence. }
  rewrite Hd. case_bool_decide as Hlast; [by rewrite decide_True by done|].
  rewrite decide_False by done. split; [|done]. cbn [history history_count history_next with_history].
  change SHELL_HISTORY_LINE_MAX with SHELL_LINE_MAX. rewrite copy_short by done.
  change SHELL_HISTORY_SIZE with 16. by apply log_push.
Qed.

(** ** Lemmas: completion *)

Lemma prefix_cons_iff {A} (x y : A) l k : x :: l `prefix_of` y :: k ↔ x = y ∧ l `prefix_of` k.
Proof.
  split; [intros Hp; split; [by eapply prefix_cons_inv_1|by eapply prefix_cons_inv_2]|].
  intros [-> Hp]. by apply prefix_cons.
Qed.

Lemma reduce_prefix a b q :
  q `prefix_of` shell_reduce_to_common_prefix a b ↔ q `prefix_of` a ∧ q `prefix_of` b.
Proof.
  revert b q. induction a as [|x a IH]; intros b q; cbn [shell_reduce_to_common_prefix].
  - split; [intros ->%prefix_nil_inv; split; apply prefix_nil|by intros [? _]].
  - destruct b as [|y b].
    { split; [intros ->%prefix_nil_inv; split; apply prefix_nil|by intros [_ ?]]. }
    destruct q as [|z q]; [split; [split|]; intros; apply prefix_nil|].
    destruct (Z.eqb_spec x y) as [->|Hne]; rewrite !prefix_cons_iff.
    + rewrite IH. tauto.
    + split; [by intros ?%prefix_nil_inv|]. intros [[-> _] [-> _]]. done.
Qed.

(** The common prefix is the longest one. *)
Lemma lcp_spec ms q : ms ≠ [] → q `prefix_of` lcp ms ↔ Forall (λ m, q `prefix_of` m) ms.
Proof.
  destruct ms as [|m r]; [done|]. intros _. cbn [lcp]. revert m. induction r as [|x r IH]; intros m; cbn [foldl].
  - rewrite Forall_singleton. done.
  - rewrite IH, !Forall_cons, reduce_prefix. tauto.
Qed.

Lemma lcp_snoc ms m : lcp (ms ++ [m]) = match ms with [] => m | _ => shell_reduce_to_common_prefix (lcp ms) m end.
Proof. destruct ms as [|x ms]; [done|]. cbn [app lcp]. by rewrite foldl_app. Qed.

Lemma starts_with_decide s p : shell_starts_with s p = bool_decide (p `prefix_of` s).
Proof. apply eq_true_iff_eq. unfold shell_starts_with. by rewrite c_starts_with_prefix, bool_decide_eq_true. Qed.

(** The loop over the candidates counts the matches and finds their common
    prefix. *)
Lemma collect_matches_spec {A} (name : A → cstr) p l :
  Zlength l < 2 ^ 32 → (∀ x, x ∈ l → Zlength (name x) < SHELL_LINE_MAX) →
  let ms := with_prefix name p l in
  collect_matches name p l =
    (Zlength ms, last ms, match ms with [] => None | _ => Some (lcp (name <$> ms)) end).
Proof.
  intros Hl Hs. cbv zeta. unfold collect_matches. induction l as [|x l IH] using rev_ind; [done|].
  assert (Hl' : Zlength l < 2 ^ 32 - 1) by (unfold Zlength in *; rewrite length_app in Hl; cbn in Hl; lia).
  specialize (IH ltac:(lia) ltac:(intros; apply Hs, elem_of_app; by left)). rewrite foldl_app, IH. clear IH.
  specialize (Hs x ltac:(apply elem_of_app; right; left)). cbn [foldl]. unfold collect.
  unfold with_prefix. rewrite filter_app. fold (with_prefix name p l). rewrite starts_with_decide.
  assert (Hms : Zlength (with_prefix name p l) <= Zlength l).
  { unfold with_prefix, Zlength. pose proof (length_filter (λ x, p `prefix_of` name x) l). lia. }
  case_bool_decide as Hx.
  - rewrite filter_cons_True, filter_nil by done. rewrite fmap_app. cbn [fmap list_fmap]. rewrite lcp_snoc, last_snoc.
    f_equal; [f_equal|].
    + unfold Zlength in *. rewrite length_app. cbn. rewrite u32_small by (unfold is_u32; lia). lia.
    + destruct (with_prefix name p l) as [|y ms]; cbn [fmap list_fmap app]; [|done]. by rewrite copy_short by done.
  - rewrite filter_cons_False, filter_nil by done. by rewrite app_nil_r.
Qed.

(** ** Lemmas: the screen does not matter *)

Lemma core_console f s : core_of (sh_console f s) = core_of s.
Proof. reflexivity. Qed.
Lemma core_print u o s : core_of (sh_print u o s) = core_of s.
Proof. reflexivity. Qed.
Lemma core_rendered n s : core_of (with_rendered n s) = core_of s.
Proof. reflexivity. Qed.
Lemma core_save s : core_of (save_prompt s) = core_of s.
Proof. unfold save_prompt. by destruct (console_get_cursor _). Qed.
Lemma core_line l s : core_of (with_line l s) = set_line l (core_of s).
Proof. reflexivity. Qed.
Lemma core_view v d b s : core_of (with_view v d b s) = set_view v d b (core_of s).
Proof. reflexivity. Qed.
Lemma core_prompt u s : core_of (shell_draw_prompt u s) = core_of s.
Proof. reflexivity. Qed.

Lemma core_redraw s : core_of (shell_redraw_line s) = core_of s.
Proof. unfold shell_redraw_line. cbv zeta. rewrite core_console, core_rendered. case_match; by rewrite !core_console. Qed.

Lemma core_replace t s : core_of (shell_replace_line t s) = set_line (shell_copy_line t SHELL_LINE_MAX) (core_of s).
Proof. unfold shell_replace_line. by rewrite core_redraw, core_line. Qed.

Lemma core_again u s : core_of (draw_again u s) = core_of s.
Proof. unfold draw_again. cbv zeta. by rewrite core_rendered, core_print, core_save, core_prompt. Qed.

Lemma core_fold {A} (f : shell → A → shell) l s :
  (∀ s x, core_of (f s x) = core_of s) → core_of (foldl f s l) = core_of s.
Proof. intros Hf. revert s. induction l as [|x l IH]; intros s; [done|]. cbn [foldl]. by rewrite IH. Qed.

Lemma core_command_matches u p s : core_of (shell_print_command_matches u p s) = core_of s.
Proof.
  unfold shell_print_command_matches. cbv zeta. rewrite core_again, core_fold; [apply core_print|].
  intros s' c. case_match; [apply core_print|done].
Qed.

Lemma core_path_matches u d p s : core_of (shell_print_path_matches u d p s) = core_of s.
Proof.
  unfold shell_print_path_matches. destruct (vfs_lookup (sh_fs s) d) as [n|]; [|done]. case_decide; [done|].
  cbv zeta. rewrite core_again, core_fold; [apply core_print|]. intros s' c. case_match; [apply core_print|done].
Qed.

(** ** Lemmas: the two completions *)

Lemma commands_short : Forall (λ c, Zlength c < 63) shell_completion_commands.
Proof. apply (bool_decide_unpack _). by vm_compute. Qed.

Lemma with_prefix_elem {A} (name : A → cstr) p l x : x ∈ with_prefix name p l ↔ p `prefix_of` name x ∧ x ∈ l.
Proof. unfold with_prefix. by rewrite list_elem_of_filter. Qed.

Lemma prefix_lcp {A} (name : A → cstr) p l :
  with_prefix name p l ≠ [] → p `prefix_of` lcp (name <$> with_prefix name p l).
Proof.
  intros Hne. apply lcp_spec; [by destruct (with_prefix name p l)|]. rewrite Forall_fmap, Forall_forall.
  intros x [Hx _]%with_prefix_elem. done.
Qed.

Lemma lcp_short {A} (name : A → cstr) l n :
  (∀ x, x ∈ l → Zlength (name x) < n) → l ≠ [] → Zlength (lcp (name <$> l)) < n.
Proof.
  intros Hs Hne. destruct l as [|x l]; [done|]. specialize (Hs x ltac:(left)).
  assert (Hp : lcp (name <$> x :: l) `prefix_of` name x).
  { assert (Hn : name <$> x :: l ≠ []) by (rewrite fmap_cons; discriminate).
    pose proof (proj1 (lcp_spec (name <$> x :: l) _ Hn) (reflexivity _)) as Hf.
    by apply Forall_cons in Hf as [? _]. }
  apply prefix_length in Hp. unfold Zlength in *. lia.
Qed.

Lemma shell_strlen_short l : Zlength l < SHELL_LINE_MAX → shell_strlen l = Zlength l.
Proof.
  intros Hl. unfold shell_strlen. rewrite c_strlen_length. apply u32_small. unfold is_u32, SHELL_LINE_MAX, Zlength in *. lia.
Qed.

(** Several matches: the code extends the line when the common prefix is longer. *)
Lemma longer_differs p q :
  Zlength p < SHELL_LINE_MAX → Zlength q < SHELL_LINE_MAX → p `prefix_of` q →
  (shell_strlen p <? shell_strlen q) = bool_decide (q ≠ p).
Proof.
  intros Hp Hq Hpq. rewrite !shell_strlen_short by done. apply eq_true_iff_eq.
  rewrite Z.ltb_lt, bool_decide_eq_true. destruct Hpq as [k ->]. unfold Zlength in *. rewrite length_app.
  destruct k as [|x k]; cbn; [rewrite app_nil_r; split; [lia|done]|]. split; [|lia]. intros _ Hk.
  apply (f_equal length) in Hk. rewrite length_app in Hk. cbn in Hk. lia.
Qed.

Lemma set_line_id s : set_line (line s) (core_of s) = core_of s.
Proof. reflexivity. Qed.

Lemma core_complete_command u s :
  Zlength (line s) < SHELL_LINE_MAX →
  match complete_command (line s) with
  | Some l => core_of (shell_complete_command u s).2 = set_line l (set_view (-1) [] false (core_of s)) ∧
              Zlength l < SHELL_LINE_MAX
  | None => (shell_complete_command u s).2 = s
  end.
Proof.
  intros Hl. unfold shell_complete_command, complete_command. destruct (existsb shell_is_space (line s)); [done|].
  cbv zeta. rewrite copy_short by done. pose proof commands_short as Hshort. rewrite Forall_forall in Hshort.
  assert (Hsh : ∀ c, c ∈ with_prefix (λ c, c) (line s) shell_completion_commands → Zlength c < 63).
  { intros c [_ Hc]%with_prefix_elem. by apply Hshort. }
  rewrite collect_matches_spec; [|by vm_compute|intros c Hc; specialize (Hshort c Hc); unfold SHELL_LINE_MAX; lia].
  pose proof (prefix_lcp (λ c, c) (line s) shell_completion_commands) as Hp.
  destruct (with_prefix _ (line s) shell_completion_commands) as [|m [|m2 r]]; [done| |].
  - cbn [last]. change (Zlength [m]) with 1. cbn iota. specialize (Hsh m ltac:(left)).
    cbn [Z.eqb Pos.eqb snd]. unfold shell_apply_command_completion. cbv zeta.
    assert (Hlm : Zlength (m ++ [CH_SPACE]) < SHELL_LINE_MAX).
    { unfold SHELL_LINE_MAX, Zlength in *. rewrite length_app. cbn. lia. }
    rewrite (copy_short m), shell_strlen_short by (unfold SHELL_LINE_MAX; lia).
    rewrite (proj2 (Z.ltb_lt (Zlength m + 1) _)) by (unfold SHELL_LINE_MAX; lia).
    rewrite core_replace, copy_short by done. done.
  - set (ms := m :: m2 :: r) in *. assert (Hcnt : 2 <= Zlength ms) by (unfold ms, Zlength; cbn; lia).
    rewrite (proj2 (Z.eqb_neq (Zlength ms) 0)), (proj2 (Z.eqb_neq (Zlength ms) 1)) by lia.
    rewrite list_fmap_id in *. specialize (Hp ltac:(done)).
    assert (Hls : Zlength (lcp ms) < SHELL_LINE_MAX).
    { pose proof (lcp_short (λ c, c) ms 63 Hsh ltac:(done)) as Hx. rewrite list_fmap_id in Hx. unfold SHELL_LINE_MAX. lia. }
    rewrite longer_differs by done. unfold ms at 1. cbn iota.
    case_bool_decide as Hd; cbn [snd]; rewrite core_command_matches.
    + rewrite core_replace, copy_short by done. done.
    + split; [|done]. fold ms in Hd. rewrite Hd. done.
Qed.

Lemma append_string_spec dst n src :
  Zlength dst < n →
  shell_append_string dst n src = if decide (Zlength (dst ++ src) < n) then Some (dst ++ src) else None.
Proof.
  revert dst. induction src as [|c src IH]; intros dst Hd; cbn [shell_append_string].
  - rewrite app_nil_r, decide_True by done. done.
  - unfold shell_append_char. assert (Hlen : Zlength (dst ++ [c]) = Zlength dst + 1) by (unfold Zlength; rewrite length_app; cbn; lia).
    case_if; btests; cbn [mbind option_bind].
    + rewrite decide_False; [reflexivity|]. unfold Zlength in *. rewrite length_app. cbn. lia.
    + rewrite IH by lia. rewrite <- app_assoc. reflexivity.
Qed.

Lemma build_child_path_spec d name :
  shell_build_child_path d name SHELL_LINE_MAX =
    if decide (Zlength (child_path d name) < SHELL_LINE_MAX) then Some (child_path d name) else None.
Proof.
  unfold shell_build_child_path, child_path, shell_streq. rewrite c_streq_decide.
  destruct (decide (d = [CH_SLASH])) as [Hd|Hd]; [rewrite bool_decide_true by done|rewrite bool_decide_false by done].
  - cbn [mbind option_bind]. change (shell_append_char [] SHELL_LINE_MAX CH_SLASH) with (Some [CH_SLASH]).
    cbn [mbind option_bind]. rewrite append_string_spec by by vm_compute. done.
  - rewrite append_string_spec by by vm_compute. cbn [app]. case_decide as H1; cbn [mbind option_bind].
    + unfold shell_append_char. case_if; btests; cbn [mbind option_bind].
      * rewrite decide_False; [done|]. unfold Zlength in *. rewrite !length_app. cbn. lia.
      * rewrite append_string_spec; [done|]. unfold Zlength in *. rewrite length_app. cbn. lia.
    + rewrite decide_False; [done|]. unfold Zlength in *. rewrite !length_app. cbn. lia.
Qed.

Definition follow_char (f : fs) (node : option nat) : cstr :=
  match node with
  | None => []
  | Some n => [if decide (type_of f n = VFS_NODE_DIR) then CH_SLASH else CH_SPACE]
  end.

Lemma replace_path_token_spec start p node s :
  Zlength (line s) < SHELL_LINE_MAX →
  core_of (shell_replace_path_token start p node s) =
    set_line (fit (take (Z.to_nat start) (line s) ++ p) (follow_char (sh_fs s) node) (line s)) (core_of s).
Proof.
  intros Hl. unfold shell_replace_path_token, fit.
  assert (Ht : Zlength (take (Z.to_nat start) (line s)) < SHELL_LINE_MAX).
  { unfold Zlength in *. rewrite length_take. lia. }
  rewrite append_string_spec by by vm_compute. cbn [app]. rewrite decide_True by done. cbn [mbind option_bind].
  rewrite append_string_spec by done. set (l := take _ _ ++ p). case_decide as H1; [|done].
  rewrite core_replace. f_equal. destruct node as [n|]; cbn [follow_char]; [|rewrite app_nil_r, decide_True by done; by apply copy_short].
  unfold shell_append_char. set (c := if decide _ then _ else _).
  assert (Hlen : Zlength (l ++ [c]) = Zlength l + 1) by (unfold Zlength; rewrite length_app; cbn; lia).
  case_if; btests; cbn [default].
  - rewrite decide_False by lia. by apply copy_short.
  - rewrite decide_True by lia. apply copy_short. lia.
Qed.

Lemma last_slash_bound t i last :
  last <= i → last <= last_slash_from t i last ∧
  (last_slash_from t i last = last ∨ i <= last_slash_from t i last < i + Zlength t).
Proof.
  revert i last. induction t as [|c t IH]; intros i last Hi; cbn [last_slash_from]; [split; [lia|by left]|].
  assert (Hz : Zlength (c :: t) = Zlength t + 1) by (unfold Zlength; cbn; lia). rewrite Hz.
  assert (Hn : 0 <= Zlength t) by (unfold Zlength; lia).
  destruct (c =? CH_SLASH).
  - destruct (IH (i + 1) i ltac:(lia)) as [H1 [H2|H2]]; (split; [lia|]); right; lia.
  - destruct (IH (i + 1) last ltac:(lia)) as [H1 [H2|H2]]; (split; [lia|]); [by left|right; lia].
Qed.

Lemma skip_word w r :
  Forall (λ c, c_is_space c = false) w → match r with [] => True | c :: _ => c_is_space c = true end →
  c_skip (λ c, negb (shell_is_space c)) (w ++ r) = r.
Proof.
  intros Hw Hr. induction Hw as [|c w Hc _ IH]; cbn [app c_skip].
  - destruct r as [|c r]; [done|]. cbn [c_skip]. unfold shell_is_space. by rewrite Hr.
  - unfold shell_is_space in *. by rewrite Hc.
Qed.

Lemma drop_suffix {A} (a t : list A) : drop (Z.to_nat (Zlength (a ++ t) - Zlength t)) (a ++ t) = t.
Proof.
  unfold Zlength. rewrite length_app. replace (Z.to_nat _) with (length a) by lia. by rewrite drop_app_length.
Qed.

(** The code's parsing of the line. *)
Definition code_pieces (s : shell) : option (Z * cstr * cstr) :=
  command ← shell_extract_command SHELL_LINE_MAX s;
  if negb (shell_is_path_command command) then None
  else start ← shell_find_path_token_start s;
       '(d, p) ← shell_make_path_context start SHELL_LINE_MAX SHELL_LINE_MAX s; Some (start, d, p).

Lemma path_context_spec s a token :
  line s = a ++ token → Zlength (line s) < SHELL_LINE_MAX →
  shell_make_path_context (Zlength (line s) - Zlength token) SHELL_LINE_MAX SHELL_LINE_MAX s =
    match token with
    | [] => Some ([CH_SLASH], [])
    | c :: r => if negb (c =? CH_SLASH) then None
                else let k := Z.to_nat (last_slash_from token 0 0) in
                     Some (if decide (k = 0%nat) then [CH_SLASH] else take k token, drop (S k) token)
    end.
Proof.
  intros Ha Hl. unfold shell_make_path_context, line_length. cbv zeta.
  assert (Ht : 0 <= Zlength token <= Zlength (line s)) by (rewrite Ha; unfold Zlength; rewrite length_app; lia).
  rewrite (proj2 (Z.ltb_ge _ _)) by lia.
  assert (Hd : drop (Z.to_nat (Zlength (line s) - Zlength token)) (line s) = token) by (rewrite Ha; apply drop_suffix).
  rewrite Hd. replace (Zlength (line s) - (Zlength (line s) - Zlength token)) with (Zlength token) by lia.
  destruct token as [|c r]; [done|]. destruct (c =? CH_SLASH); cbn [negb]; [|done].
  pose proof (last_slash_bound (c :: r) 0 0 ltac:(lia)) as [Hlo Hhi].
  set (k := last_slash_from (c :: r) 0 0) in *. set (n := Zlength (c :: r)) in *.
  assert (Hn : Z.of_nat (length (c :: r)) = n) by reflexivity. unfold SHELL_LINE_MAX in *.
  destruct (Z.eqb_spec k 0) as [Hk|Hk].
  - rewrite Hk. rewrite decide_True by done. cbn [Z.to_nat drop]. change (shell_copy_line [CH_SLASH] 64) with [CH_SLASH].
    f_equal. f_equal. rewrite drop_0. case_if; btests.
    + unfold shell_copy_substr. apply take_ge. cbn in Hn. lia.
    + destruct r; [done|]. cbn in Hn. lia.
  - rewrite decide_False by lia. unfold shell_copy_substr. f_equal. f_equal; [f_equal; lia|].
    replace (Z.to_nat (k + 1)) with (S (Z.to_nat k)) by lia. case_if; btests.
    + apply take_ge. rewrite length_drop. lia.
    + rewrite drop_ge; [done|]. lia.
Qed.

Lemma code_pieces_spec s : Zlength (line s) < SHELL_LINE_MAX → code_pieces s = path_pieces (line s).
Proof.
  intros Hl. unfold code_pieces, path_pieces, shell_extract_command, shell_find_path_token_start.
  change (c_skip shell_is_space (line s)) with (c_skip c_is_space (line s)).
  destruct (c_skip_app c_is_space (line s)) as (pre & Hpre & _).
  destruct (c_skip c_is_space (line s)) as [|c0 w] eqn:Hw; [done|].
  pose proof (c_skip_head _ _ _ _ Hw) as Hc0.
  destruct (c_copy_word_spec (c0 :: w) 0 SHELL_LINE_MAX) as (rest & Hrest & Hns & Hlen & Hend); [done..|].
  set (command := c_copy_word (c0 :: w) 0 SHELL_LINE_MAX) in *. unfold SHELL_LINE_MAX in Hlen, Hend.
  assert (Hlw : Zlength (c0 :: w) <= 63).
  { unfold SHELL_LINE_MAX, Zlength in *. rewrite Hpre, length_app in Hl. lia. }
  assert (Hr : match rest with [] => True | c :: _ => c_is_space c = true end).
  { destruct (Z_lt_le_dec (Zlength command) (64 - 1 - 0)) as [Hx|Hx]; [by apply Hend|].
    destruct rest as [|x rest]; [done|]. exfalso. rewrite Hrest in Hlw. unfold Zlength in *. rewrite length_app in Hlw.
    cbn [length] in Hlw. lia. }
  assert (Hcne : (0 <? Zlength command) = true).
  { unfold command. cbn [c_copy_word]. rewrite Hc0. change (SHELL_LINE_MAX <=? 0 + 1) with false. cbn iota.
    apply Z.ltb_lt. unfold Zlength. cbn [length]. lia. }
  rewrite Hcne. cbn [mbind option_bind]. destruct (negb (shell_is_path_command command)); [done|].
  rewrite Hrest at 1. rewrite skip_word by done.
  assert (Hdrop : drop (length command) (c0 :: w) = rest) by (rewrite Hrest; apply drop_app_length).
  rewrite Hdrop. destruct rest as [|x rest]; [done|]. cbn [mbind option_bind].
  destruct (c_skip_app c_is_space (x :: rest)) as (sp & Hsp & _). unfold line_length.
  change (c_skip shell_is_space (x :: rest)) with (c_skip c_is_space (x :: rest)).
  set (token := c_skip c_is_space (x :: rest)) in *.
  rewrite (path_context_spec s (pre ++ command ++ sp)); [|rewrite Hpre, Hrest, Hsp at 1; by rewrite <- !app_assoc|done].
  destruct token as [|c r]; [done|]. by destruct (negb (c =? CH_SLASH)).
Qed.

Lemma siblings_length fuel f c : (length (siblings_from fuel f c) <= fuel)%nat.
Proof.
  revert c. induction fuel as [|fuel IH]; intros c; cbn [siblings_from length]; [done|].
  destruct c as [c|]; cbn [length]; [|lia]. specialize (IH (next_of f c)). lia.
Qed.

Lemma fit_short l fo old : Zlength old < SHELL_LINE_MAX → Zlength (fit l fo old) < SHELL_LINE_MAX.
Proof. intros Ho. unfold fit. by repeat case_decide. Qed.

Lemma fit_build b d name fo old :
  Zlength (child_path d name) < SHELL_LINE_MAX ∨ fit (b ++ child_path d name) fo old = old.
Proof.
  destruct (decide (Zlength (child_path d name) < SHELL_LINE_MAX)) as [|Hn]; [by left|right].
  unfold fit. rewrite decide_False; [done|]. unfold Zlength in *. rewrite length_app. lia.
Qed.

(** The completion of the one match, and of the common prefix. *)
Lemma complete_with start d name node s :
  Zlength (line s) < SHELL_LINE_MAX →
  core_of (match shell_build_child_path d name SHELL_LINE_MAX with
           | Some p => shell_replace_path_token start p node s
           | None => s
           end) =
    set_line (fit (take (Z.to_nat start) (line s) ++ child_path d name) (follow_char (sh_fs s) node) (line s)) (core_of s).
Proof.
  intros Hl. rewrite build_child_path_spec. case_decide as Hs; [by apply replace_path_token_spec|].
  destruct (fit_build (take (Z.to_nat start) (line s)) d name (follow_char (sh_fs s) node) (line s)) as [|Hf]; [done|].
  by rewrite Hf, set_line_id.
Qed.

Lemma core_complete_path u s :
  Zlength (line s) < SHELL_LINE_MAX → fs_fits (sh_fs s) →
  match complete_path (sh_fs s) (line s) with
  | None => shell_complete_path u s = (false, s)
  | Some None => shell_complete_path u s = (true, s)
  | Some (Some l) =>
      (shell_complete_path u s).1 = true ∧
      core_of (shell_complete_path u s).2 = set_line l (set_view (-1) [] false (core_of s)) ∧
      Zlength l < SHELL_LINE_MAX
  end.
Proof.
  intros Hl [Hnodes Hnames]. unfold complete_path. rewrite <- code_pieces_spec by done.
  unfold code_pieces, shell_complete_path.
  destruct (shell_extract_command SHELL_LINE_MAX s) as [command|]; [|done]. cbn [mbind option_bind].
  destruct (negb (shell_is_path_command command)); [done|].
  destruct (shell_find_path_token_start s) as [start|]; [|done]. cbn [mbind option_bind].
  destruct (shell_make_path_context start SHELL_LINE_MAX SHELL_LINE_MAX s) as [[d p]|] eqn:Hctx; [|done].
  cbn [mbind option_bind]. destruct (vfs_lookup (sh_fs s) d) as [dir|]; [|done]. case_decide; [done|].
  rewrite collect_matches_spec; [| |intros; apply Hnames].
  2:{ unfold children. pose proof (siblings_length (length (nodes (sh_fs s))) (sh_fs s) (first_of (sh_fs s) dir)).
      unfold Zlength in *. lia. }
  pose proof (prefix_lcp (name_of (sh_fs s)) p (children (sh_fs s) dir)) as Hp.
  assert (Hps : Zlength p < SHELL_LINE_MAX).
  { unfold shell_make_path_context in Hctx. repeat case_match; simplify_eq; try by vm_compute.
    all: unfold shell_copy_substr, SHELL_LINE_MAX, Zlength; rewrite length_take; lia. }
  set (r := history_reset_view s).
  assert (Hr : core_of r = set_view (-1) [] false (core_of s)) by done.
  destruct (with_prefix (name_of (sh_fs s)) p (children (sh_fs s) dir)) as [|m [|m2 ms]] eqn:Hms; [done| |].
  - cbn [last]. change (Zlength [m]) with 1. cbn [Z.eqb Pos.eqb fst snd]. split; [done|].
    split; [|by apply fit_short]. rewrite <- Hr. exact (complete_with start d (name_of (sh_fs s) m) (Some m) r Hl).
  - set (l := m :: m2 :: ms) in *. assert (Hcnt : 2 <= Zlength l) by (unfold l, Zlength; cbn; lia).
    rewrite (proj2 (Z.eqb_neq (Zlength l) 0)), (proj2 (Z.eqb_neq (Zlength l) 1)) by lia.
    specialize (Hp ltac:(done)). set (common := lcp (name_of (sh_fs s) <$> l)) in *.
    assert (Hcs : Zlength common < SHELL_LINE_MAX) by (apply lcp_short; [intros; apply Hnames|done]).
    rewrite longer_differs by done. cbv beta iota zeta delta [l]. fold l.
    case_bool_decide as Hd; cbn [fst snd].
    + rewrite (decide_False (P := common = p)) by done. split; [done|]. split; [|by apply fit_short]. rewrite <- Hr.
      pose proof (complete_with start d common None r Hl) as Hw. cbn [follow_char] in Hw. etrans; [|exact Hw].
      destruct (shell_build_child_path d common SHELL_LINE_MAX); [apply core_path_matches|done].
    + rewrite (decide_True (P := common = p)) by done. split; [done|]. split; [|done].
      rewrite core_path_matches. by rewrite Hr.
Qed.

Lemma core_tab u s :
  Zlength (line s) < SHELL_LINE_MAX → fs_fits (sh_fs s) →
  match complete (sh_fs s) (line s) with
  | Some l => core_of (shell_complete_tab u s) = set_line l (set_view (-1) [] false (core_of s)) ∧
              Zlength l < SHELL_LINE_MAX
  | None => core_of (shell_complete_tab u s) = core_of s
  end.
Proof.
  intros Hl Hf. pose proof (core_complete_path u s Hl Hf) as Hp. pose proof (core_complete_command u s Hl) as Hc.
  unfold shell_complete_tab, complete. destruct (complete_path (sh_fs s) (line s)) as [[l|]|].
  - destruct (shell_complete_path u s) as [b s']. cbn in Hp. destruct Hp as (-> & ? & ?). done.
  - by rewrite Hp.
  - rewrite Hp. destruct (complete_command (line s)) as [l|]; [done|]. by rewrite Hc.
Qed.

(** ** One key *)

(** Commands cannot touch the statics of the shell's history, and leave names
    short enough on disk. *)
Definition handlers_keep (cmds : commands shell) : Prop :=
  Forall (λ c, ∀ args s, let s' := (cmd_handler c args s).1 in
    history s' = history s ∧ history_count s' = history_count s ∧ history_next s' = history_next s ∧
    (fs_fits (sh_fs s) → fs_fits (sh_fs s'))) (command_list cmds).

Lemma execute_loop_in (l : list (command shell)) line s r :
  execute_loop l line s = Some r → ∃ c args, c ∈ l ∧ r = cmd_handler c args s.
Proof.
  induction l as [|c l IH]; cbn [execute_loop]; [done|]. destruct (command_token_matches line (cmd_name c)) as [args|].
  - intros [= <-]. exists c, args. by split; [left|].
  - intros (c' & args & Hc & ->)%IH. exists c', args. by split; [right|].
Qed.

Lemma run_command_keeps u cmds s :
  handlers_keep cmds →
  let s' := run_command u cmds s in
  history s' = history s ∧ history_count s' = history_count s ∧ history_next s' = history_next s ∧
  (fs_fits (sh_fs s) → fs_fits (sh_fs s')).
Proof.
  intros Hk. unfold run_command, command_execute.
  destruct (command_skip_spaces (line s)) as [|c0 l]; [done|].
  destruct (execute_loop (command_list cmds) (c0 :: l) s) as [[s' o]|] eqn:He; [|done].
  apply execute_loop_in in He as (c & args & Hc & He). pose proof (proj1 (Forall_forall _ _) Hk c Hc args s) as Hh.
  rewrite <- He in Hh. exact Hh.
Qed.

Lemma core_print_prompt u s : core_of (shell_print_prompt u s) = set_view (-1) [] false (set_line [] (core_of s)).
Proof.
  unfold shell_print_prompt, history_reset_view. cbv zeta.
  by rewrite core_view, core_rendered, core_line, core_save, core_prompt.
Qed.

Lemma visible_short log i l :
  Forall (λ l, Zlength l < SHELL_LINE_MAX) log → visible log !! i = Some l → Zlength l < SHELL_LINE_MAX.
Proof.
  intros Hf Hl. unfold visible, last_n in Hl. rewrite lookup_drop in Hl. by eapply (Forall_lookup_1 _ _ _ _ Hf).
Qed.

(** Showing the entry at the view. *)
Lemma core_show_view s log i :
  hist_ok (c_hist (core_of s)) (c_count (core_of s)) (c_next (core_of s)) log →
  c_view (core_of s) = Z.of_nat i → (i < length (visible log))%nat →
  ∃ l, visible log !! i = Some l ∧ Zlength l < SHELL_LINE_MAX ∧ core_of (show_view s) = set_line l (core_of s).
Proof.
  intros Hh Hv Hi. destruct (lookup_lt_is_Some_2 _ _ Hi) as [l Hl]. exists l.
  pose proof (visible_short _ _ _ (ho_short _ _ _ _ Hh) Hl) as Hs. split; [done|]. split; [done|].
  pose proof (visible_length log) as Hlen. unfold show_view. cbn in Hh, Hv. rewrite Hv.
  rewrite u32_small by (unfold is_u32, Zlength in *; lia).
  rewrite (history_get_visible s log) by (done || lia). rewrite Nat2Z.id, Hl, core_replace. by rewrite copy_short by done.
Qed.

Ltac ed_cbn := cbn [c_fs c_line c_hist c_count c_next c_view c_draft c_valid core_of set_line set_view
                    ed_line ed_log ed_view ed_draft] in *.

Lemma step_up s e : ed_ok (core_of s) e → ed_ok (core_of (shell_history_up s)) (edit (sh_fs s) TTY_KEY_UP e).
Proof.
  intros [Hl Hs Hh Hv]. pose proof (visible_length (ed_log e)) as Hlen. pose proof (ho_count _ _ _ _ Hh) as Hc.
  unfold edit, shell_history_up. change (TTY_KEY_UP =? TTY_KEY_UP) with true. ed_cbn.
  cbn iota. destruct (Z.eqb_spec (history_count s) 0) as [H0'|Hn0].
  { assert (Hn : length (visible (ed_log e)) = 0%nat) by (unfold Zlength in *; lia).
    destruct (ed_view e) as [i|] eqn:He; [lia|]. rewrite decide_True by done. split; [done..|]. by rewrite He. }
  destruct (ed_view e) as [i|] eqn:He.
  - destruct Hv as (Hv & Hi & Hvalid & Hd & Hds). rewrite (proj2 (Z.ltb_ge (history_view s) 0)) by lia.
    set (s1 := if 0 <? history_view s then _ else s).
    assert (Hs1 : core_of s1 = set_view (Z.of_nat (i - 1)) (history_draft s) (history_draft_valid s) (core_of s)).
    { subst s1. destruct (Z.ltb_spec 0 (history_view s)); rewrite ?core_view; unfold set_view, core_of; cbn; (f_equal; [|done..]). all: lia. }
    destruct (core_show_view s1 (ed_log e) (i - 1)) as (l & Hlk & Hls & Hcore).
    { by rewrite Hs1. } { by rewrite Hs1. } { lia. }
    rewrite Hcore, Hs1. unfold ed_show. rewrite Hlk. cbn [default]. split; ed_cbn; [done..|]. split; [done|]. split; [lia|done].
  - rewrite Hv. change (-1 <? 0) with true. cbn iota. rewrite decide_False by (unfold Zlength in *; lia).
    set (s1 := with_view _ _ _ _). set (n := length (visible (ed_log e))) in *.
    assert (Hs1 : core_of s1 = set_view (Z.of_nat (n - 1)) (line s) true (core_of s)).
    { subst s1. rewrite core_view. change SHELL_HISTORY_LINE_MAX with SHELL_LINE_MAX. rewrite copy_short by done.
      unfold s32. rewrite to_signed_small by (unfold Zlength in *; lia). f_equal. unfold Zlength in *; lia. }
    destruct (core_show_view s1 (ed_log e) (n - 1)) as (l & Hlk & Hls & Hcore).
    { by rewrite Hs1. } { by rewrite Hs1. } { unfold Zlength in *; lia. }
    rewrite Hcore, Hs1. unfold ed_show. cbn [ed_log ed_draft]. rewrite Hlk. cbn [default]. split; ed_cbn; [done..|].
    split; [done|]. split; [unfold Zlength in *; lia|]. by rewrite <- Hl.
Qed.

Lemma step_down s e : ed_ok (core_of s) e → ed_ok (core_of (shell_history_down s)) (edit (sh_fs s) TTY_KEY_DOWN e).
Proof.
  intros [Hl Hs Hh Hv]. pose proof (visible_length (ed_log e)) as Hlen. pose proof (ho_count _ _ _ _ Hh) as Hc.
  unfold edit, shell_history_down. change (TTY_KEY_DOWN =? TTY_KEY_UP) with false. change (TTY_KEY_DOWN =? TTY_KEY_DOWN) with true.
  ed_cbn. cbn iota.
  destruct (ed_view e) as [i|] eqn:He.
  2:{ rewrite Hv. change (-1 <? 0) with true. cbn iota. split; [done..|]. by rewrite He. }
  destruct Hv as (Hv & Hi & Hvalid & Hd & Hds). rewrite (proj2 (Z.ltb_ge (history_view s) 0)) by lia.
  rewrite u32_small by (unfold is_u32, Zlength in *; lia). set (n := length (visible (ed_log e))) in *.
  case_decide as Hn.
  - rewrite (proj2 (Z.ltb_lt _ _)) by (unfold Zlength in *; lia). set (s1 := with_view _ _ _ _).
    assert (Hs1 : core_of s1 = set_view (Z.of_nat (S i)) (history_draft s) (history_draft_valid s) (core_of s)).
    { subst s1. rewrite core_view. f_equal. lia. }
    destruct (core_show_view s1 (ed_log e) (S i)) as (l & Hlk & Hls & Hcore).
    { by rewrite Hs1. } { by rewrite Hs1. } { done. }
    rewrite Hcore, Hs1. unfold ed_show. rewrite Hlk. cbn [default]. split; ed_cbn; done.
  - rewrite (proj2 (Z.ltb_ge _ _)) by (unfold Zlength in *; lia). cbv zeta.
    rewrite core_view, core_replace, core_view. cbn [history_draft_valid history_draft with_view]. rewrite Hvalid, Hd. cbn iota.
    rewrite copy_short by done. split; ed_cbn; [done..|].
    exact (f_equal c_view (core_replace (ed_draft e) (with_view (-1) (ed_draft e) true s))).
Qed.

Lemma step_backspace s e :
  ed_ok (core_of s) e → ed_ok (core_of (shell_backspace s)) (edit (sh_fs s) TTY_KEY_BACKSPACE e).
Proof.
  intros [Hl Hs Hh Hv]. ed_cbn.
  change (edit (sh_fs s) TTY_KEY_BACKSPACE e) with
    (MkEditor (take (length (ed_line e) - 1) (ed_line e)) (ed_log e) (ed_view e) (ed_draft e)).
  assert (Hcore : core_of (shell_backspace s) = set_line (take (length (line s) - 1) (line s)) (core_of s)).
  { unfold shell_backspace, line_length. destruct (Z.eqb_spec (Zlength (line s)) 0) as [H0'|_].
    - assert (Hn : line s = []) by (apply nil_length_inv; unfold Zlength in *; lia). unfold set_line, core_of. ed_cbn.
      by rewrite Hn.
    - by rewrite core_redraw, core_line. }
  rewrite Hcore. split; ed_cbn; [by rewrite Hl| |done..]. unfold Zlength in *. rewrite length_take. lia.
Qed.

(** A printable character, on either layer. *)
Lemma edit_char f c e :
  0x20 <= c <= 0x7E →
  edit f c e = MkEditor (if decide (Zlength (ed_line e) + 1 < SHELL_LINE_MAX) then ed_line e ++ [c] else ed_line e)
                 (ed_log e) None (ed_draft e).
Proof.
  intros Hc. unfold edit, TTY_KEY_UP, TTY_KEY_DOWN, TTY_KEY_BACKSPACE, TTY_KEY_ENTER, TTY_KEY_TAB.
  rewrite !(proj2 (Z.eqb_neq c _)) by lia. by rewrite !(proj2 (Z.leb_le _ _)) by lia.
Qed.

Lemma step_char u cmds c s e :
  0x20 <= c <= 0x7E → ed_ok (core_of s) e →
  ed_ok (core_of (shell_on_char u cmds c s)) (edit (sh_fs s) c e) ∧ sh_fs (shell_on_char u cmds c s) = sh_fs s.
Proof.
  intros Hc [Hl Hs Hh Hv]. rewrite edit_char by done. ed_cbn. unfold shell_on_char, CH_LF, CH_BS.
  rewrite !(proj2 (Z.eqb_neq c _)) by lia. cbn [negb]. cbv zeta.
  change (line_length (history_reset_view s)) with (Zlength (line s)). rewrite <- Hl.
  destruct (Z.leb_spec SHELL_LINE_MAX (Zlength (line s) + 1)).
  - rewrite decide_False by lia. split; [|done]. by split.
  - rewrite decide_True by lia. change (line (history_reset_view s)) with (line s).
    pose proof (core_redraw (with_line (line s ++ [c]) (history_reset_view s))) as Hr. rewrite core_line in Hr.
    split; [|exact (f_equal c_fs Hr)]. rewrite Hr. split; ed_cbn; [done| |done..].
    unfold Zlength in *. rewrite length_app. cbn. lia.
Qed.

Lemma step_enter u cmds s e :
  handlers_keep cmds → fs_fits (sh_fs s) → ed_ok (core_of s) e →
  let s' := shell_on_char u cmds CH_LF s in
  ed_ok (core_of s') (edit (sh_fs s) TTY_KEY_ENTER e) ∧ fs_fits (sh_fs s').
Proof.
  intros Hk Hf [Hl Hs Hh Hv]. ed_cbn.
  change (edit (sh_fs s) TTY_KEY_ENTER e) with (MkEditor [] (log_add (ed_line e) (ed_log e)) None (ed_draft e)).
  unfold shell_on_char. rewrite Z.eqb_refl. cbn [negb]. cbv zeta.
  set (s0 := sh_console (console_put_char CH_LF) s).
  destruct (history_add_log (line s0) s0 (ed_log e) Hh Hs) as (Hlog & Hfs & _).
  destruct (run_command_keeps u cmds (history_add (line s0) s0) Hk) as (Hh1 & Hh2 & Hh3 & Hf').
  pose proof (core_print_prompt u (run_command u cmds (history_add (line s0) s0))) as Hp. rewrite Hp. split.
  - split; ed_cbn; [done..| |done]. by rewrite Hh1, Hh2, Hh3, <- Hl.
  - apply (f_equal c_fs) in Hp. ed_cbn. rewrite Hp. apply Hf'. by rewrite Hfs.
Qed.

Lemma step_tab u s e :
  fs_fits (sh_fs s) → ed_ok (core_of s) e →
  ed_ok (core_of (shell_complete_tab u s)) (edit (sh_fs s) TTY_KEY_TAB e) ∧ sh_fs (shell_complete_tab u s) = sh_fs s.
Proof.
  intros Hf [Hl Hs Hh Hv]. pose proof (core_tab u s Hs Hf) as Ht. ed_cbn.
  change (edit (sh_fs s) TTY_KEY_TAB e) with
    (match complete (sh_fs s) (ed_line e) with Some l => MkEditor l (ed_log e) None (ed_draft e) | None => e end).
  rewrite <- Hl. destruct (complete (sh_fs s) (line s)) as [l|].
  - destruct Ht as [Ht Hlen]. split; [|exact (f_equal c_fs Ht)]. rewrite Ht. by split.
  - split; [|exact (f_equal c_fs Ht)]. rewrite Ht. by split.
Qed.

Lemma fs_history_up s : sh_fs (shell_history_up s) = sh_fs s.
Proof.
  assert (Hsv : ∀ s, sh_fs (show_view s) = sh_fs s).
  { intros s'. unfold show_view. case_match; [|done]. exact (f_equal c_fs (core_replace _ s')). }
  unfold shell_history_up. case_match; [done|]. rewrite Hsv. by repeat case_match.
Qed.

Lemma fs_history_down s : sh_fs (shell_history_down s) = sh_fs s.
Proof.
  unfold shell_history_down. case_match; [done|]. case_match.
  - unfold show_view. case_match; [|done]. exact (f_equal c_fs (core_replace _ _)).
  - exact (f_equal c_fs (core_replace _ (with_view (-1) (history_draft s) (history_draft_valid s) s))).
Qed.

(** Any key. *)
Lemma step_key u cmds key s e :
  handlers_keep cmds → fs_fits (sh_fs s) → ed_ok (core_of s) e →
  ed_ok (core_of (shell_on_key u cmds key s)) (edit (sh_fs s) key e) ∧ fs_fits (sh_fs (shell_on_key u cmds key s)).
Proof.
  intros Hk Hf He. unfold shell_on_key.
  destruct (Z.eqb_spec key TTY_KEY_UP) as [->|Hup]; [split; [by apply step_up|by rewrite fs_history_up]|].
  destruct (Z.eqb_spec key TTY_KEY_DOWN) as [->|Hdn]; [split; [by apply step_down|by rewrite fs_history_down]|].
  destruct (Z.eqb_spec key TTY_KEY_PAGE_UP) as [->|Hpu]; [done|].
  destruct (Z.eqb_spec key TTY_KEY_PAGE_DOWN) as [->|Hpd]; [done|].
  destruct (Z.eqb_spec key TTY_KEY_BACKSPACE) as [->|Hbs].
  { split; [by apply step_backspace|]. unfold shell_backspace. case_match; [done|].
    pose proof (f_equal c_fs (core_redraw (with_line (take (length (line s) - 1) (line s)) s))) as Hr. ed_cbn. by rewrite Hr. }
  destruct (Z.eqb_spec key TTY_KEY_ENTER) as [->|Hen]; [by apply step_enter|].
  destruct (Z.eqb_spec key TTY_KEY_TAB) as [->|Htab].
  { destruct (step_tab u s e Hf He) as [? ->]. done. }
  destruct ((0x20 <=? key) && (key <=? 0x7E)) eqn:Hpr.
  - apply andb_true_iff in Hpr as [?%Z.leb_le ?%Z.leb_le].
    destruct (step_char u cmds key s e ltac:(lia) He) as [? ->]. done.
  - unfold edit. rewrite !(proj2 (Z.eqb_neq key _)) by done. by rewrite Hpr.
Qed.

(** ** Sequences of keys *)

(** The editor driven by the same keys; completion looks at the tree the
    commands have left. *)
Fixpoint edits (u : nat → bool) (cmds : commands shell) (keys : list Z) (s : shell) (e : editor) : editor :=
  match keys with
  | [] => e
  | key :: r => edits u cmds r (shell_on_key u cmds key s) (edit (sh_fs s) key e)
  end.

Definition ed_init : editor := MkEditor [] [] None [].

Lemma task_edits u cmds keys s e :
  handlers_keep cmds → fs_fits (sh_fs s) → ed_ok (core_of s) e →
  ed_ok (core_of (shell_task u cmds keys s)) (edits u cmds keys s e) ∧ fs_fits (sh_fs (shell_task u cmds keys s)).
Proof.
  intros Hk. unfold shell_task. revert s e. induction keys as [|key r IH]; intros s e Hf He; [done|]. cbn [foldl edits].
  destruct (step_key u cmds key s e Hk Hf He) as [He' Hf']. by apply IH.
Qed.

Lemma shell_init_ok u s : ed_ok (core_of (shell_init u s)) ed_init ∧ sh_fs (shell_init u s) = sh_fs s.
Proof.
  unfold shell_init. cbv zeta. set (s1 := sh_print _ _ _). pose proof (core_print_prompt u s1) as Hp.
  split; [|exact (f_equal c_fs Hp)]. rewrite Hp. split; ed_cbn; [done..| |done]. by split.
Qed.

Lemma edit_up_times f k e :
  let n := length (visible (ed_log e)) in
  ed_view e = None → (0 < n)%nat →
  Nat.iter (S k) (edit f TTY_KEY_UP) e =
    ed_show (n - S k) (MkEditor (ed_line e) (ed_log e) None (ed_line e)).
Proof.
  intros n Hv Hn. induction k as [|k IH].
  - change (edit f TTY_KEY_UP e = ed_show (n - 1) (MkEditor (ed_line e) (ed_log e) None (ed_line e))).
    unfold edit. rewrite Z.eqb_refl, Hv. by rewrite decide_False by (subst n; lia).
  - rewrite Nat.iter_succ, IH. unfold edit. rewrite Z.eqb_refl. unfold ed_show. ed_cbn. replace (n - S k - 1)%nat with (n - S (S k))%nat by lia. done.
Qed.

Lemma edit_down_times f k i e :
  let n := length (visible (ed_log e)) in
  ed_view e = Some i → (i + k < n)%nat → ed_line e = default [] (visible (ed_log e) !! i) →
  Nat.iter k (edit f TTY_KEY_DOWN) e = ed_show (i + k) e.
Proof.
  intros n Hv Hk Hl. induction k as [|k IH].
  - change (e = ed_show (i + 0) e). rewrite Nat.add_0_r. unfold ed_show. rewrite <- Hl, <- Hv. by destruct e.
  - rewrite Nat.iter_succ, IH by lia. unfold edit. change (TTY_KEY_DOWN =? TTY_KEY_UP) with false.
    rewrite Z.eqb_refl. unfold ed_show. ed_cbn.
    rewrite decide_True by (subst n; lia). by rewrite Nat.add_succ_r.
Qed.

Lemma edit_up_down f k e :
  let n := length (visible (ed_log e)) in
  ed_view e = None → (0 < n)%nat → (S k <= n)%nat →
  ed_line (Nat.iter (S k) (edit f TTY_KEY_DOWN) (Nat.iter (S k) (edit f TTY_KEY_UP) e)) = ed_line e.
Proof.
  intros n Hv Hn Hk. rewrite edit_up_times by done. rewrite Nat.iter_succ.
  rewrite (edit_down_times f k (n - S k)) by (done || (unfold ed_show; ed_cbn; subst n; lia)).
  unfold edit. change (TTY_KEY_DOWN =? TTY_KEY_UP) with false. rewrite Z.eqb_refl.
  unfold ed_show. cbn [ed_view ed_log]. by rewrite decide_False by (subst n; lia).
Qed.

(** The keys up and down do not look at the tree. *)
Lemma edits_iter u cmds f key k s e :
  (key = TTY_KEY_UP ∨ key = TTY_KEY_DOWN) →
  edits u cmds (replicate k key) s e = Nat.iter k (edit f key) e.
Proof.
  intros Hkey. revert s e. induction k as [|k IH]; intros s e; [done|]. cbn [replicate edits]. rewrite IH.
  rewrite Nat.iter_succ_r. f_equal. by destruct Hkey as [-> | ->].
Qed.

(** If commands only print, the tree stays and the editor runs on its own. *)
Definition handlers_print (cmds : commands shell) : Prop :=
  Forall (λ c, ∀ args s, (cmd_handler c args s).1 = s) (command_list cmds).

Lemma fs_enter_quiet u cmds s : handlers_print cmds → sh_fs (shell_on_char u cmds CH_LF s) = sh_fs s.
Proof.
  intros Hq. unfold shell_on_char. rewrite Z.eqb_refl. cbn [negb]. cbv zeta. set (s0 := sh_console (console_put_char CH_LF) s).
  set (s1 := run_command u _ _). transitivity (sh_fs s1); [exact (f_equal c_fs (core_print_prompt u s1))|].
  assert (Hh : sh_fs (history_add (line s0) s0) = sh_fs s) by (unfold history_add; by repeat case_match).
  rewrite <- Hh. unfold s1, run_command, command_execute.
  destruct (command_skip_spaces _) as [|c0 l]; [done|].
  destruct (execute_loop _ _ _) as [[s' o]|] eqn:He; [|done].
  apply execute_loop_in in He as (c & args & Hc & He). pose proof (proj1 (Forall_forall _ _) Hq c Hc args (history_add (line s0) s0)) as Hs'.
  rewrite <- He in Hs'. cbn in Hs'. by subst s'.
Qed.

Lemma print_keep cmds : handlers_print cmds → handlers_keep cmds.
Proof. intros Hq. apply (Forall_impl _ _ _ Hq). intros c Hc args s. by rewrite Hc. Qed.

Lemma edits_quiet u cmds keys s e :
  handlers_print cmds → fs_fits (sh_fs s) → ed_ok (core_of s) e →
  edits u cmds keys s e = foldl (λ e key, edit (sh_fs s) key e) e keys.
Proof.
  intros Hq. revert s e. induction keys as [|key r IH]; intros s e Hf He; [done|]. cbn [edits foldl].
  destruct (step_key u cmds key s e (print_keep _ Hq) Hf He) as [He' Hf']. rewrite IH by done.
  assert (Hfs : sh_fs (shell_on_key u cmds key s) = sh_fs s); [|by rewrite Hfs].
  clear - He Hf Hq. unfold shell_on_key.
  case_match; [apply fs_history_up|]. case_match; [apply fs_history_down|]. case_match; [done|]. case_match; [done|].
  case_match; [unfold shell_backspace; case_match; [done|exact (f_equal c_fs (core_redraw _))]|].
  case_match; [by apply fs_enter_quiet|]. case_match; [by destruct (step_tab u s e Hf He)|].
  case_match eqn:Hpr; [|done]. apply andb_true_iff in Hpr as [?%Z.leb_le ?%Z.leb_le].
  by destruct (step_char u cmds key s e ltac:(lia) He).
Qed.

Lemma fs_fits_nodes f :
  Zlength (nodes f) < 2 ^ 32 → Forall (λ n, Zlength (vn_name n) < SHELL_LINE_MAX) (nodes f) → fs_fits f.
Proof.
  intros Hn Hf. split; [done|]. intros i. unfold name_of, node_field.
  destruct (nodes f !! i) as [n|] eqn:Hi; [|done]. by apply (Forall_lookup_1 _ _ _ _ Hf Hi).
Qed.

Lemma reached_ok u cmds keys s :
  handlers_keep cmds → fs_fits (sh_fs s) →
  let s1 := shell_task u cmds keys (shell_init u s) in
  ed_ok (core_of s1) (edits u cmds keys (shell_init u s) ed_init) ∧ fs_fits (sh_fs s1).
Proof.
  intros Hk Hf. destruct (shell_init_ok u s) as [Hi Hfs]. apply task_edits; [done| |done]. by rewrite Hfs.
Qed.

Lemma path_pieces_no_space l :
  Zlength l < SHELL_LINE_MAX → existsb shell_is_space l = false → path_pieces l = None.
Proof.
  intros Hl Hsp. unfold path_pieces.
  assert (Hns : Forall (λ c, c_is_space c = false) l).
  { apply Forall_forall. intros c Hc. apply not_true_iff_false. intros Ht.
    assert (existsb shell_is_space l = true); [|congruence]. apply existsb_exists. exists c. by rewrite <- list_elem_of_In. }
  destruct l as [|c0 l]; [done|]. assert (Hskip : c_skip c_is_space (c0 :: l) = c0 :: l).
  { apply Forall_cons in Hns as [Hc0 _]. cbn [c_skip]. by rewrite Hc0. }
  rewrite Hskip. destruct (c_copy_word_spec (c0 :: l) 0 SHELL_LINE_MAX) as (rest & Hrest & Hns' & Hlen & Hend); [done..|].
  set (command := c_copy_word (c0 :: l) 0 SHELL_LINE_MAX) in *.
  destruct (negb (shell_is_path_command command)); [done|].
  assert (drop (length command) (c0 :: l) = rest) as -> by (rewrite Hrest; apply drop_app_length).
  destruct rest as [|x rest]; [done|]. exfalso. rewrite Hrest in Hns, Hl. apply Forall_app in Hns as [_ Hx].
  apply Forall_cons in Hx as [Hx _]. rewrite Hx in Hend. unfold SHELL_LINE_MAX, Zlength in *. rewrite length_app in Hl.
  cbn [length] in Hl. apply diff_false_true, Hend. lia.
Qed.

(** ** Properties *)

(** C10: the shell refines the editor. From [shell_init], whatever keys are
    read: the line is the editor's line and fits the buffer, and the history
    that can be recalled is the last 16 accepted lines, in order. Commands run
    in between, on the condition that they leave the history alone and names
    short. *)
Theorem shell_refines_editor u cmds keys s :
  handlers_keep cmds → fs_fits (sh_fs s) →
  let s0 := shell_init u s in
  let s' := shell_task u cmds keys s0 in
  let e := edits u cmds keys s0 ed_init in
  line s' = ed_line e ∧ Zlength (line s') < SHELL_LINE_MAX ∧
  history_count s' = Z.min SHELL_HISTORY_SIZE (Zlength (ed_log e)) ∧
  ∀ i, 0 <= i → history_get i s' = visible (ed_log e) !! Z.to_nat i.
Proof.
  intros Hk Hf. destruct (reached_ok u cmds keys s Hk Hf) as [[Hl Hs Hh _] _]. cbv zeta.
  split; [done|]. split; [done|]. split; [apply (ho_count _ _ _ _ Hh)|]. intros i. by apply history_get_visible.
Qed.

(** A shell with one command on a tree with [/dev]. *)
Definition sample_shell : shell :=
  MkShell (MkSinks sample_console (MkSerial false 0 []) (klog_init klog_boot)) sample_fs [] 0 0 0 [] 0 0 0 [] false.

Definition sample_keys : list Z :=
  s2z "a" ++ [TTY_KEY_ENTER] ++ s2z "echo x" ++ [TTY_KEY_ENTER; TTY_KEY_ENTER] ++ s2z "ls /d" ++ [TTY_KEY_TAB].

Definition sample_cmds : commands shell :=
  MkCommands [MkCommand (s2z "echo") (s2z "print arguments") (λ args s, (s, cmd_echo args))] 1.

Lemma sample_print : handlers_print sample_cmds.
Proof. by repeat constructor. Qed.
Lemma sample_keep : handlers_keep sample_cmds.
Proof. apply print_keep, sample_print. Qed.
Lemma sample_fits : fs_fits (sh_fs sample_shell).
Proof. apply fs_fits_nodes; [by vm_compute|]. apply (bool_decide_unpack _). by vm_compute. Qed.

Lemma sample_line keys :
  edits (λ _, true) sample_cmds keys (shell_init (λ _, true) sample_shell) ed_init =
    foldl (λ e key, edit sample_fs key e) ed_init keys.
Proof.
  destruct (shell_init_ok (λ _, true) sample_shell) as [Hi Hfs].
  rewrite edits_quiet; [by rewrite Hfs|apply sample_print|rewrite Hfs; apply sample_fits|done].
Qed.

Lemma shell_refines_editor_witness :
  let s' := shell_task (λ _, true) sample_cmds sample_keys (shell_init (λ _, true) sample_shell) in
  line s' = s2z "ls /dev/" ∧ history_get 1 s' = Some (s2z "echo x") ∧ history_get 2 s' = None.
Proof.
  destruct (shell_refines_editor (λ _, true) sample_cmds sample_keys sample_shell sample_keep sample_fits)
    as (Hl & _ & _ & Hh).
  intros s'. unfold s'. rewrite Hl, !Hh, sample_line by lia. clear. by vm_compute.
Defined.

(** Up and down are inverse. At the prompt, [k] times up shows the
    [k]-th latest line of the history, and as many times down then brings back
    the line that was being typed, for every [k] up to the number of lines. *)
Theorem history_up_down u cmds keys s k :
  handlers_keep cmds → fs_fits (sh_fs s) →
  let s1 := shell_task u cmds keys (shell_init u s) in
  history_view s1 = -1 → 1 <= k <= history_count s1 →
  let up := shell_task u cmds (replicate (Z.to_nat k) TTY_KEY_UP) s1 in
  let down := shell_task u cmds (replicate (Z.to_nat k) TTY_KEY_DOWN) up in
  history_get (history_count s1 - k) s1 = Some (line up) ∧ line down = line s1.
Proof.
  intros Hk Hf. destruct (reached_ok u cmds keys s Hk Hf) as [He Hf1]. cbv zeta.
  set (s1 := shell_task u cmds keys (shell_init u s)) in *. set (e := edits _ _ _ _ _) in *. intros Hv Hn.
  destruct (task_edits u cmds (replicate (Z.to_nat k) TTY_KEY_UP) s1 e Hk Hf1 He) as [Hup Hf2].
  destruct (task_edits u cmds (replicate (Z.to_nat k) TTY_KEY_DOWN) _ _ Hk Hf2 Hup) as [Hdn _].
  rewrite (edits_iter u cmds sample_fs TTY_KEY_DOWN) in Hdn by (by right).
  rewrite (edits_iter u cmds sample_fs TTY_KEY_UP) in Hup, Hdn by (by left).
  pose proof (ho_count _ _ _ _ (eo_hist _ _ He)) as Hc. pose proof (visible_length (ed_log e)) as Hlen. ed_cbn.
  assert (He0 : ed_view e = None).
  { pose proof (eo_view _ _ He) as Hev. destruct (ed_view e); [|done]. ed_cbn. lia. }
  replace (Z.to_nat k) with (S (Z.to_nat k - 1)) in * by lia.
  pose proof (eo_line _ _ Hup) as Hl1. pose proof (eo_line _ _ Hdn) as Hl2. pose proof (eo_line _ _ He) as Hl0.
  rewrite edit_up_down in Hl2 by (done || (unfold Zlength in *; lia)). split; [|exact (eq_trans Hl2 (eq_sym Hl0))].
  rewrite edit_up_times in Hl1 by (done || (unfold Zlength in *; lia)). ed_cbn. unfold ed_show in Hl1. ed_cbn.
  rewrite Hl1, (history_get_visible s1 (ed_log e)) by (apply He || lia).
  replace (Z.to_nat (history_count s1 - k)) with (length (visible (ed_log e)) - S (Z.to_nat k - 1))%nat
    by (unfold Zlength in *; lia).
  destruct (visible (ed_log e) !! _) eqn:Hlk; [done|]. apply lookup_ge_None in Hlk. unfold Zlength in *. lia.
Qed.

Lemma history_up_down_witness :
  let s1 := shell_task (λ _, true) sample_cmds (sample_keys ++ s2z "0") (shell_init (λ _, true) sample_shell) in
  let up := shell_task (λ _, true) sample_cmds (replicate (Z.to_nat 2) TTY_KEY_UP) s1 in
  let down := shell_task (λ _, true) sample_cmds (replicate (Z.to_nat 2) TTY_KEY_DOWN) up in
  history_get (history_count s1 - 2) s1 = Some (line up) ∧ line down = line s1.
Proof.
  destruct (reached_ok (λ _, true) sample_cmds (sample_keys ++ s2z "0") sample_shell sample_keep sample_fits)
    as [He _]. rewrite sample_line in He.
  apply (history_up_down (λ _, true) sample_cmds (sample_keys ++ s2z "0") sample_shell 2 sample_keep sample_fits).
  - exact (eo_view _ _ He).
  - pose proof (ho_count _ _ _ _ (eo_hist _ _ He)) as Hc. ed_cbn. rewrite Hc. vm_compute. split; discriminate.
Defined.

(** The tab key completes commands. On a line that fits and has no
    space: if no command starts with it, it stays; if one does, it becomes that
    command and a space; if several do, it becomes the longest string with
    which all of them start, which extends it. *)
Theorem tab_completes_command u s :
  Zlength (line s) < SHELL_LINE_MAX → fs_fits (sh_fs s) → existsb shell_is_space (line s) = false →
  let l := line (shell_complete_tab u s) in
  match with_prefix (λ c, c) (line s) shell_completion_commands with
  | [] => l = line s
  | [m] => l = m ++ [CH_SPACE]
  | ms => line s `prefix_of` l ∧ ∀ q, q `prefix_of` l ↔ Forall (λ m, q `prefix_of` m) ms
  end.
Proof.
  intros Hl Hf Hsp. pose proof (core_tab u s Hl Hf) as Ht. pose proof (prefix_lcp (λ c, c) (line s) shell_completion_commands) as Hp.
  unfold complete, complete_path, complete_command in Ht. rewrite path_pieces_no_space, Hsp in Ht by done. cbv zeta.
  rewrite list_fmap_id in Hp.
  destruct (with_prefix (λ c, c) (line s) shell_completion_commands) as [|m [|m2 ms]] eqn:Hms.
  - exact (f_equal c_line Ht).
  - exact (f_equal c_line (proj1 Ht)).
  - assert (Hline : line (shell_complete_tab u s) = lcp (m :: m2 :: ms)) by exact (f_equal c_line (proj1 Ht)).
    rewrite Hline. split; [by apply Hp|]. intros q. by apply lcp_spec.
Qed.

Lemma tab_completes_command_witness :
  let s := with_line (s2z "sy") sample_shell in
  line (shell_complete_tab (λ _, true) s) = s2z "syscall".
Proof.
  intros s. pose proof (tab_completes_command (λ _, true) s eq_refl sample_fits eq_refl) as Ht.
  assert (Hm : with_prefix (λ c, c) (line s) shell_completion_commands =
               s2z <$> ["syscalltest"; "syscallentrytest"; "syscallcpuinfo"; "syscallinfo"]%string) by (by vm_compute).
  rewrite Hm in Ht. cbn [fmap list_fmap] in Ht. destruct Ht as [_ Hq].
  assert (Hlcp : ∀ q, q `prefix_of` line (shell_complete_tab (λ _, true) s) ↔ q `prefix_of` s2z "syscall").
  { intros q. rewrite Hq, <- lcp_spec by done. by vm_compute. }
  apply (anti_symm prefix); apply Hlcp; reflexivity.
Defined.
