(* ===== verification/Gdt.v ===== *)
(** * Segment descriptors, task state and the system call registers
    ([src/arch/x86_64/gdt.c], [src/arch/x86_64/gdt_load.asm],
    [src/kernel/syscall_cpu.c], [src/include/msr.h])

    The tables are the C structures, laid out in memory as the packed records
    are; what the processor does with a selector is stated on those bytes. The
    addresses the linker gives are arguments. *)

From S2P Require Import Prelude Bytes CString Print.

Definition GDT_KERNEL_STACK_SIZE : Z := 16384.
Definition GDT_KERNEL_CODE_SELECTOR : Z := 0x08.
Definition GDT_KERNEL_DATA_SELECTOR : Z := 0x10.
Definition GDT_USER_DATA_SELECTOR : Z := 0x23.
Definition GDT_USER_CODE_SELECTOR : Z := 0x2B.
Definition GDT_TSS_SELECTOR : Z := 0x30.

Record gdt_entry := MkGdtEntry {
  limit_low : Z; base_low : Z; base_mid : Z; access : Z; granularity : Z; base_high : Z
}.

Record gdt_tss_entry := MkGdtTss {
  t_limit_low : Z; t_base_low : Z; t_base_mid1 : Z; t_access : Z; t_granularity : Z; t_base_mid2 : Z;
  t_base_high : Z; t_reserved : Z
}.

Record gdt_table := MkGdtTable {
  null_entry : gdt_entry; kernel_code : gdt_entry; kernel_data : gdt_entry; sysret_reserved : gdt_entry;
  user_data : gdt_entry; user_code : gdt_entry; tss_entry : gdt_tss_entry
}.

Record gdt_descriptor := MkGdtDescriptor { gd_limit : Z; gd_base : Z }.

Record tss64 := MkTss64 {
  reserved0 : Z; rsp0 : Z; rsp1 : Z; rsp2 : Z; reserved1 : Z;
  ist1 : Z; ist2 : Z; ist3 : Z; ist4 : Z; ist5 : Z; ist6 : Z; ist7 : Z;
  reserved2 : Z; reserved3 : Z; iomap_base : Z
}.

(** ** The layout in memory *)

Definition entry_bytes (e : gdt_entry) : list Z :=
  le_list 2 (limit_low e) ++ le_list 2 (base_low e) ++ [base_mid e; access e; granularity e; base_high e].

Definition tss_entry_bytes (e : gdt_tss_entry) : list Z :=
  le_list 2 (t_limit_low e) ++ le_list 2 (t_base_low e) ++ [t_base_mid1 e; t_access e; t_granularity e; t_base_mid2 e] ++
  le_list 4 (t_base_high e) ++ le_list 4 (t_reserved e).

Definition table_bytes (t : gdt_table) : list Z :=
  entry_bytes (null_entry t) ++ entry_bytes (kernel_code t) ++ entry_bytes (kernel_data t) ++
  entry_bytes (sysret_reserved t) ++ entry_bytes (user_data t) ++ entry_bytes (user_code t) ++
  tss_entry_bytes (tss_entry t).

Definition tss_bytes (t : tss64) : list Z :=
  le_list 4 (reserved0 t) ++
  concat (le_list 8 <$> [rsp0 t; rsp1 t; rsp2 t; reserved1 t; ist1 t; ist2 t; ist3 t; ist4 t; ist5 t; ist6 t; ist7 t;
                         reserved2 t]) ++
  le_list 2 (reserved3 t) ++ le_list 2 (iomap_base t).

(** [sizeof] of the packed structures. *)
Definition sizeof_gdt : Z := 64.
Definition sizeof_tss64 : Z := 104.

(** ** Filling in the tables *)

(** [mem_zero] of the structures. *)
Definition zero_entry : gdt_entry := MkGdtEntry 0 0 0 0 0 0.
Definition zero_gdt : gdt_table :=
  MkGdtTable zero_entry zero_entry zero_entry zero_entry zero_entry zero_entry (MkGdtTss 0 0 0 0 0 0 0 0).
Definition zero_tss : tss64 := MkTss64 0 0 0 0 0 0 0 0 0 0 0 0 0 0 0.

Definition gdt_set_entry (base limit acc flags : Z) : gdt_entry :=
  MkGdtEntry (u16 (Z.land limit 0xFFFF)) (u16 (Z.land base 0xFFFF)) (u8 (Z.land (Z.shiftr base 16) 0xFF)) acc
    (u8 (Z.lor (Z.land (Z.shiftr limit 16) 0x0F) (Z.land flags 0xF0))) (u8 (Z.land (Z.shiftr base 24) 0xFF)).

Definition gdt_set_tss (base limit : Z) : gdt_tss_entry :=
  MkGdtTss (u16 (Z.land limit 0xFFFF)) (u16 (Z.land base 0xFFFF)) (u8 (Z.land (Z.shiftr base 16) 0xFF)) 0x89
    (u8 (Z.land (Z.shiftr limit 16) 0x0F)) (u8 (Z.land (Z.shiftr base 24) 0xFF))
    (u32 (Z.land (Z.shiftr base 32) 0xFFFFFFFF)) 0.

(** The statics, and the registers [gdt_load] and [tss_load] set. *)
Record segments := MkSegments {
  gdt : gdt_table;
  gdt_desc : gdt_descriptor;
  tss : tss64;
  r_gdtr : gdt_descriptor;
  r_cs : Z; r_ds : Z; r_es : Z; r_ss : Z; r_fs : Z; r_gs : Z;
  r_tr : Z
}.

Definition gdt_load (d : gdt_descriptor) (s : segments) : segments :=
  MkSegments (gdt s) (gdt_desc s) (tss s) d 0x08 0x10 0x10 0x10 0x10 0x10 (r_tr s).
Definition tss_load (selector : Z) (s : segments) : segments :=
  MkSegments (gdt s) (gdt_desc s) (tss s) (r_gdtr s) (r_cs s) (r_ds s) (r_es s) (r_ss s) (r_fs s) (r_gs s) selector.

Section Segments.
Context (addr_gdt addr_tss addr_kernel_stack : Z).

Definition gdt_kernel_stack_top : Z := addr_kernel_stack + GDT_KERNEL_STACK_SIZE.

Definition gdt_init (s : segments) : segments * output :=
  let t := MkGdtTable (null_entry zero_gdt)
             (gdt_set_entry 0 0xFFFFF 0x9A 0xA0)
             (gdt_set_entry 0 0xFFFFF 0x92 0xC0)
             (gdt_set_entry 0 0 0x00 0x00)
             (gdt_set_entry 0 0xFFFFF 0xF2 0xC0)
             (gdt_set_entry 0 0xFFFFF 0xFA 0xA0)
             (gdt_set_tss addr_tss (sizeof_tss64 - 1)) in
  let z := zero_tss in
  let k := MkTss64 (reserved0 z) gdt_kernel_stack_top (rsp1 z) (rsp2 z) (reserved1 z) (ist1 z) (ist2 z) (ist3 z)
             (ist4 z) (ist5 z) (ist6 z) (ist7 z) (reserved2 z) (reserved3 z) (u16 sizeof_tss64) in
  let d := MkGdtDescriptor (u16 (sizeof_gdt - 1)) addr_gdt in
  let s := MkSegments t d k (r_gdtr s) (r_cs s) (r_ds s) (r_es s) (r_ss s) (r_fs s) (r_gs s) (r_tr s) in
  (tss_load GDT_TSS_SELECTOR (gdt_load d s), color_line "GDT/TSS initialized" COLOR_GREEN_ON_BLACK).

Definition gdt_tss_rsp0 (s : segments) : Z := rsp0 (tss s).

Definition cmd_gdtinfo (s : segments) : output :=
  prints "GDT base = " ++ print_hex64 (gd_base (gdt_desc s)) ++ newline ++
  prints "GDT limit = " ++ print_dec64 (gd_limit (gdt_desc s)) ++ newline ++
  prints "kernel CS = " ++ print_hex64 GDT_KERNEL_CODE_SELECTOR ++ newline ++
  prints "kernel DS = " ++ print_hex64 GDT_KERNEL_DATA_SELECTOR ++ newline ++
  prints "user CS = " ++ print_hex64 GDT_USER_CODE_SELECTOR ++ newline ++
  prints "user DS = " ++ print_hex64 GDT_USER_DATA_SELECTOR ++ newline ++
  prints "TSS selector = " ++ print_hex64 GDT_TSS_SELECTOR ++ newline ++
  prints "TSS rsp0 = " ++ print_hex64 (rsp0 (tss s)) ++ newline ++
  prints "kernel stack top = " ++ print_hex64 gdt_kernel_stack_top ++ newline ++
  prints "sizeof(gdt) = " ++ print_dec64 sizeof_gdt ++ newline.

End Segments.

(** ** Model-specific registers *)

Definition MSR_IA32_EFER : Z := 0xC0000080.
Definition MSR_IA32_STAR : Z := 0xC0000081.
Definition MSR_IA32_LSTAR : Z := 0xC0000082.
Definition MSR_IA32_FMASK : Z := 0xC0000084.
Definition IA32_EFER_SCE : Z := 1.
Definition RFLAGS_IF : Z := 0x200.
Definition SYSCALL_KERNEL_CS : Z := 0x08.
Definition SYSCALL_USER_STAR_CS_BASE : Z := 0x18.

(** The registers as the two halves the instructions move. *)
Definition msrs := Z → Z * Z.

Definition rdmsr (msr : Z) (r : msrs) : Z := let '(lo, hi) := r msr in Z.lor (u64 (Z.shiftl hi 32)) lo.
Definition wrmsr (msr value : Z) (r : msrs) : msrs :=
  λ m, if m =? msr then (u32 (Z.land value 0xFFFFFFFF), u32 (Z.shiftr value 32)) else r m.

Record syscall_cpu := MkSyscallCpu {
  cpu_syscall_enabled : Z;
  saved_efer_before : Z; saved_efer_after : Z; saved_star : Z; saved_lstar : Z; saved_fmask : Z
}.

Definition syscall_cpu_init (syscall_entry : Z) (r : msrs) : syscall_cpu * msrs * output :=
  let before := rdmsr MSR_IA32_EFER r in
  let lstar := syscall_entry in
  let star := Z.lor (u64 (Z.shiftl SYSCALL_USER_STAR_CS_BASE 48)) (u64 (Z.shiftl SYSCALL_KERNEL_CS 32)) in
  let fmask := RFLAGS_IF in
  let r := wrmsr MSR_IA32_STAR star r in
  let r := wrmsr MSR_IA32_LSTAR lstar r in
  let r := wrmsr MSR_IA32_FMASK fmask r in
  let r := wrmsr MSR_IA32_EFER (Z.lor before IA32_EFER_SCE) r in
  let after := rdmsr MSR_IA32_EFER r in
  (MkSyscallCpu (if after &? IA32_EFER_SCE then 1 else 0) before after star lstar fmask, r,
   color_line "Syscall CPU entry configured" COLOR_GREEN_ON_BLACK).

Definition print_bool (value : Z) : output := if negb (value =? 0) then prints "yes" else prints "no".

Definition cmd_syscallcpuinfo (syscall_entry : Z) (c : syscall_cpu) : output :=
  prints "syscall CPU enabled = " ++ print_bool (cpu_syscall_enabled c) ++ newline ++
  prints "syscall_entry = " ++ print_hex64 syscall_entry ++ newline ++
  prints "IA32_EFER before = " ++ print_hex64 (saved_efer_before c) ++ newline ++
  prints "IA32_EFER after  = " ++ print_hex64 (saved_efer_after c) ++ newline ++
  prints "IA32_STAR  = " ++ print_hex64 (saved_star c) ++ newline ++
  prints "IA32_LSTAR = " ++ print_hex64 (saved_lstar c) ++ newline ++
  prints "IA32_FMASK = " ++ print_hex64 (saved_fmask c) ++ newline.

(** ** What the processor makes of the tables

    A descriptor as the architecture decodes its bytes. *)

Definition le_at (l : list Z) (off : Z) (n : nat) : Z := rd_le n (arr_get l) off.

Definition seg_base (l : list Z) (off : Z) : Z :=
  le_at l (off + 2) 2 + 2 ^ 16 * arr_get l (off + 4) + 2 ^ 24 * arr_get l (off + 7).
Definition seg_limit (l : list Z) (off : Z) : Z := le_at l off 2 + 2 ^ 16 * Z.land (arr_get l (off + 6)) 0x0F.
Definition seg_access (l : list Z) (off : Z) : Z := arr_get l (off + 5).
Definition seg_flags (l : list Z) (off : Z) : Z := Z.land (arr_get l (off + 6)) 0xF0.

(** A system descriptor is 16 bytes long; its base has 64 bits. *)
Definition sys_base (l : list Z) (off : Z) : Z := seg_base l off + 2 ^ 32 * le_at l (off + 8) 4.

Inductive segkind := SegCode64 (dpl : Z) | SegData (dpl : Z) | SegTss64 | SegAbsent | SegOther.

Definition seg_kind (l : list Z) (off : Z) : segkind :=
  let a := seg_access l off in
  let dpl := Z.land (Z.shiftr a 5) 3 in
  if negb (Z.testbit a 7) then SegAbsent
  else if Z.testbit a 4 then
    if Z.testbit a 3 then
      if Z.testbit (seg_flags l off) 5 && negb (Z.testbit (seg_flags l off) 6) then SegCode64 dpl else SegOther
    else if Z.testbit a 1 then SegData dpl else SegOther
  else if Z.land a 0x0F =? 9 then SegTss64 else SegOther.

(** The descriptor a selector designates in the table the processor has
    loaded; [None] outside the limit and for the null selector. *)
Definition selects (s : segments) (selector : Z) : option segkind :=
  let off := 8 * Z.shiftr selector 3 in
  if (off =? 0) || (gd_limit (r_gdtr s) <? off + 7) then None else Some (seg_kind (table_bytes (gdt s)) off).

Definition rpl (selector : Z) : Z := Z.land selector 3.

(** The selectors the instructions derive from [STAR]. *)
Definition syscall_cs (star : Z) : Z := Z.land (Z.shiftr star 32) 0xFFFC.
Definition syscall_ss (star : Z) : Z := syscall_cs star + 8.
Definition sysret_cs (star : Z) : Z := Z.lor (Z.land (Z.shiftr star 48) 0xFFFF + 16) 3.
Definition sysret_ss (star : Z) : Z := Z.lor (Z.land (Z.shiftr star 48) 0xFFFF + 8) 3.

(** ** Lemmas *)

(** The masks as powers of two. *)
Ltac masks :=
  change 0xFFFFFFFF with (2 ^ 32 - 1); change 0xFFFF with (2 ^ 16 - 1); change 0xFF with (2 ^ 8 - 1);
  change 0x0F with (2 ^ 4 - 1).

Lemma land_ones_mod x n : 0 <= n → Z.land x (2 ^ n - 1) = x mod 2 ^ n.
Proof. intros Hn. rewrite <- Z.land_ones by done. f_equal. rewrite Z.ones_equiv. lia. Qed.

Lemma shift_field x n w : 0 <= n → 0 <= w → Z.land (Z.shiftr x n) (2 ^ w - 1) = x / 2 ^ n mod 2 ^ w.
Proof. intros Hn Hw. by rewrite land_ones_mod, Z.shiftr_div_pow2. Qed.

Lemma mod_mod_le x n m : 0 <= n <= m → x mod 2 ^ n mod 2 ^ m = x mod 2 ^ n.
Proof.
  intros Hn. apply Z.mod_small. pose proof (Z.mod_pos_bound x (2 ^ n) ltac:(apply Z.pow_pos_nonneg; lia)).
  pose proof (Z.pow_le_mono_r 2 n m ltac:(lia) ltac:(lia)). lia.
Qed.

(** The nibbles of the granularity byte. *)
Lemma granularity_nibbles x f :
  0 <= x → 0 <= f →
  let g := u8 (Z.lor (Z.land x 0x0F) (Z.land f 0xF0)) in
  Z.land g 0x0F = Z.land x 0x0F ∧ Z.land g 0xF0 = Z.land f 0xF0.
Proof.
  intros Hx Hf. cbv zeta.
  assert (Hr : is_u8 (Z.lor (Z.land x 0x0F) (Z.land f 0xF0))).
  { apply (lor_range _ _ 8); [done|..]; rewrite Z.land_comm; by apply (land_range_l _ _ 8). }
  rewrite u8_small by done. rewrite !Z.land_lor_distr_l, <- !Z.land_assoc.
  change (Z.land 15 15) with 15. change (Z.land 240 15) with 0. change (Z.land 15 240) with 0.
  change (Z.land 240 240) with 240. rewrite !Z.land_0_r, Z.lor_0_r, Z.lor_0_l. done.
Qed.

(** The fields of eight bytes. *)
Lemma seg_fields b0 b1 b2 b3 b4 b5 b6 b7 (r : list Z) :
  let l := b0 :: b1 :: b2 :: b3 :: b4 :: b5 :: b6 :: b7 :: r in
  seg_base l 0 = b2 + 256 * b3 + 2 ^ 16 * b4 + 2 ^ 24 * b7 ∧
  seg_limit l 0 = b0 + 256 * b1 + 2 ^ 16 * Z.land b6 0x0F ∧
  seg_access l 0 = b5 ∧ seg_flags l 0 = Z.land b6 0xF0.
Proof.
  intros l. unfold seg_base, seg_limit, seg_access, seg_flags, le_at. cbn [rd_le].
  change (arr_get l (0 + 2)) with b2. change (arr_get l (0 + 2 + 1)) with b3. change (arr_get l 0) with b0.
  change (arr_get l (0 + 1)) with b1. change (arr_get l (0 + 4)) with b4. change (arr_get l (0 + 5)) with b5.
  change (arr_get l (0 + 6)) with b6. change (arr_get l (0 + 7)) with b7. split; [lia|]. split; [lia|]. done.
Qed.

Lemma base_split base : is_u32 base →
  u16 (Z.land base 0xFFFF) mod 256 + 256 * (u16 (Z.land base 0xFFFF) / 256 mod 256) +
  2 ^ 16 * u8 (Z.land (Z.shiftr base 16) 0xFF) + 2 ^ 24 * u8 (Z.land (Z.shiftr base 24) 0xFF) = base.
Proof.
  intros Hb. unfold is_u32, u16, u8 in *. masks. rewrite (land_ones_mod base 16), !(shift_field base _ 8) by lia.
  rewrite !mod_mod_le by lia. zlia.
Qed.

Lemma limit_split limit : 0 <= limit < 2 ^ 20 →
  u16 (Z.land limit 0xFFFF) mod 256 + 256 * (u16 (Z.land limit 0xFFFF) / 256 mod 256) +
  2 ^ 16 * Z.land (Z.shiftr limit 16) 0x0F = limit.
Proof.
  intros Hb. unfold u16. masks. rewrite (land_ones_mod limit 16), (shift_field limit 16 4) by lia. rewrite mod_mod_le by lia. zlia.
Qed.

Lemma sys_base_split base : is_u64 base →
  u16 (Z.land base 0xFFFF) mod 256 + 256 * (u16 (Z.land base 0xFFFF) / 256 mod 256) +
  2 ^ 16 * u8 (Z.land (Z.shiftr base 16) 0xFF) + 2 ^ 24 * u8 (Z.land (Z.shiftr base 24) 0xFF) +
  2 ^ 32 * (u32 (Z.land (Z.shiftr base 32) 0xFFFFFFFF) mod 256 ^ Z.of_nat 4) = base.
Proof.
  intros Hb. unfold is_u64, u16, u8, u32 in *. change (256 ^ Z.of_nat 4) with (2 ^ 32). masks.
  rewrite (land_ones_mod base 16), !(shift_field base _ 8), (shift_field base 32 32) by lia.
  rewrite !mod_mod_le by lia. rewrite (Z.mod_small (base / 2 ^ 32)); zlia.
Qed.

Lemma entry_roundtrip base limit acc flags (r : list Z) :
  0 <= limit < 2 ^ 20 → 0 <= flags → is_u32 base →
  let l := entry_bytes (gdt_set_entry base limit acc flags) ++ r in
  seg_base l 0 = base ∧ seg_limit l 0 = limit ∧ seg_access l 0 = acc ∧ seg_flags l 0 = Z.land flags 0xF0.
Proof.
  intros Hl Hf Hb l.
  destruct (seg_fields (u16 (Z.land limit 65535) mod 256) (u16 (Z.land limit 65535) / 256 mod 256)
    (u16 (Z.land base 65535) mod 256) (u16 (Z.land base 65535) / 256 mod 256) (u8 (Z.land (Z.shiftr base 16) 255)) acc
    (u8 (Z.lor (Z.land (Z.shiftr limit 16) 0x0F) (Z.land flags 0xF0))) (u8 (Z.land (Z.shiftr base 24) 255)) r)
    as (H1 & H2 & H3 & H4).
  destruct (granularity_nibbles (Z.shiftr limit 16) flags) as [Hg1 Hg2]; [apply Z.shiftr_nonneg; lia|done|].
  rewrite base_split in H1 by done. rewrite Hg1, limit_split in H2 by done. rewrite Hg2 in H4. done.
Qed.

Lemma tss_roundtrip base limit (r : list Z) :
  0 <= limit < 2 ^ 20 → is_u64 base →
  let l := tss_entry_bytes (gdt_set_tss base limit) ++ r in
  sys_base l 0 = base ∧ seg_limit l 0 = limit ∧ seg_kind l 0 = SegTss64.
Proof.
  intros Hl Hb l.
  destruct (seg_fields (u16 (Z.land limit 65535) mod 256) (u16 (Z.land limit 65535) / 256 mod 256)
    (u16 (Z.land base 65535) mod 256) (u16 (Z.land base 65535) / 256 mod 256) (u8 (Z.land (Z.shiftr base 16) 255)) 0x89
    (u8 (Z.land (Z.shiftr limit 16) 0x0F)) (u8 (Z.land (Z.shiftr base 24) 255))
    (le_list 4 (u32 (Z.land (Z.shiftr base 32) 0xFFFFFFFF)) ++ le_list 4 0 ++ r)) as (H1 & H2 & H3 & _).
  destruct (granularity_nibbles (Z.shiftr limit 16) 0) as [Hg1 _]; [apply Z.shiftr_nonneg; lia|done|].
  rewrite Z.land_0_l, Z.lor_0_r in Hg1. rewrite Hg1, limit_split in H2 by done.
  split; [|split; [exact H2|]].
  - unfold sys_base. etrans; [apply (f_equal2 Z.add); [exact H1|]|].
    + apply (f_equal (Z.mul (2 ^ 32))). apply (rd_le_le_list 4 _ _ (u32 (Z.land (Z.shiftr base 32) 0xFFFFFFFF))).
      intros i Hi. destruct i as [|[|[|[|i]]]]; [reflexivity..|lia].
    + apply sys_base_split. done.
  - unfold seg_kind. cbv zeta. change (seg_access l 0) with 0x89. reflexivity.
Qed.

(** A register reads back what was written. *)
Lemma msr_same m v r : is_u64 v → rdmsr m (wrmsr m v r) = v.
Proof.
  intros Hv. unfold rdmsr, wrmsr. rewrite Z.eqb_refl. unfold is_u64, u32, u64 in *. masks.
  rewrite land_ones_mod by lia. rewrite mod_mod_le by lia. rewrite Z.shiftr_div_pow2 by lia.
  rewrite (Z.mod_small (v / 2 ^ 32)) by zlia. rewrite Z.shiftl_mul_pow2 by lia.
  rewrite (Z.mod_small (_ * _)) by zlia. rewrite <- Z.shiftl_mul_pow2 by lia.
  apply Z.bits_inj'. intros i Hi. rewrite Z.lor_spec. destruct (Z_lt_le_dec i 32).
  - rewrite Z.shiftl_spec_low, Z.mod_pow2_bits_low by lia. done.
  - rewrite Z.shiftl_spec, Z.mod_pow2_bits_high, orb_false_r by lia. rewrite <- Z.shiftr_div_pow2 by lia.
    rewrite Z.shiftr_spec by lia. f_equal. lia.
Qed.

Lemma msr_other m m' v r : m ≠ m' → rdmsr m' (wrmsr m v r) = rdmsr m' r.
Proof. intros Hm. unfold rdmsr, wrmsr. by rewrite (proj2 (Z.eqb_neq m' m)). Qed.

Definition the_star : Z := 0x0018000800000000.

Lemma syscall_registers entry r :
  is_u64 entry → (∀ m, is_u32 (r m).1 ∧ is_u32 (r m).2) →
  let '(c, r', _) := syscall_cpu_init entry r in
  rdmsr MSR_IA32_STAR r' = the_star ∧ rdmsr MSR_IA32_LSTAR r' = entry ∧ rdmsr MSR_IA32_FMASK r' = RFLAGS_IF ∧
  Z.testbit (rdmsr MSR_IA32_EFER r') 0 = true ∧ cpu_syscall_enabled c = 1.
Proof.
  intros He Hr. unfold syscall_cpu_init. cbv zeta. set (star := Z.lor (u64 _) _).
  assert (Hstar : star = the_star) by reflexivity. rewrite Hstar. clear star Hstar.
  set (efer := Z.lor (rdmsr MSR_IA32_EFER r) IA32_EFER_SCE).
  assert (Hefer : is_u64 efer).
  { apply (lor_range _ _ 64); [done| |done]. unfold rdmsr. destruct (Hr MSR_IA32_EFER) as [Hlo _].
    destruct (r MSR_IA32_EFER) as [lo hi]. apply (lor_range _ _ 64); [done|apply u64_range|]. unfold is_u32 in Hlo. cbn in Hlo. lia. }
  assert (Hbit : Z.testbit efer 0 = true) by (unfold efer; by rewrite Z.lor_spec, orb_true_r).
  assert (Hand : (efer &? IA32_EFER_SCE) = true).
  { apply negb_true_iff, Z.eqb_neq. intros H0'. apply (f_equal (λ x, Z.testbit x 0)) in H0'.
    rewrite Z.land_spec, Hbit in H0'. discriminate H0'. }
  rewrite (msr_same MSR_IA32_EFER efer) by done. cbn [cpu_syscall_enabled]. rewrite Hand.
  repeat (rewrite msr_other; [|vm_compute; discriminate]). rewrite !msr_same by (done || by vm_compute).
  repeat (rewrite msr_other; [|vm_compute; discriminate]). rewrite !msr_same by (done || by vm_compute). done.
Qed.

Lemma seg_drop (l : list Z) k :
  sys_base l (Z.of_nat k) = sys_base (drop k l) 0 ∧ seg_limit l (Z.of_nat k) = seg_limit (drop k l) 0.
Proof.
  assert (Hg : ∀ i, 0 <= i → arr_get l (Z.of_nat k + i) = arr_get (drop k l) (0 + i)).
  { intros i Hi. unfold arr_get. rewrite !list_lookup_total_alt, lookup_drop. do 2 f_equal. lia. }
  unfold sys_base, seg_base, seg_limit, le_at. rewrite !Hg by lia.
  assert (Hr : ∀ n i, 0 <= i → rd_le n (arr_get l) (Z.of_nat k + i) = rd_le n (arr_get (drop k l)) (0 + i)).
  { intros n i Hi. apply rd_le_ext. intros j Hj. rewrite <- !Z.add_assoc. apply Hg. lia. }
  rewrite !Hr by lia. pose proof (Hr 2%nat 0 ltac:(lia)) as H2. rewrite Z.add_0_r in H2. rewrite H2. done.
Qed.

(** ** Properties *)

(** Descriptors are encoded as the processor decodes them. What
    [gdt_set_entry] and [gdt_set_tss] lay out in memory for a base, a limit of
    20 bits, an access byte and flags is read back as exactly that base, limit,
    access and upper four flags; for the task state segment with all 64 bits of
    its base. *)
Theorem gdt_encoding_roundtrip base limit acc flags (r : list Z) :
  0 <= limit < 2 ^ 20 → 0 <= flags →
  (is_u32 base →
   let l := entry_bytes (gdt_set_entry base limit acc flags) ++ r in
   seg_base l 0 = base ∧ seg_limit l 0 = limit ∧ seg_access l 0 = acc ∧ seg_flags l 0 = Z.land flags 0xF0) ∧
  (is_u64 base →
   let l := tss_entry_bytes (gdt_set_tss base limit) ++ r in
   sys_base l 0 = base ∧ seg_limit l 0 = limit ∧ seg_kind l 0 = SegTss64).
Proof. intros Hl Hf. split; intros Hb; [by apply entry_roundtrip|by apply tss_roundtrip]. Qed.

Lemma gdt_encoding_roundtrip_witness :
  seg_base (entry_bytes (gdt_set_entry 0x12345678 0xABCDE 0x9A 0xA0) ++ []) 0 = 0x12345678.
Proof.
  apply (proj1 (gdt_encoding_roundtrip 0x12345678 0xABCDE 0x9A 0xA0 [] ltac:(lia) ltac:(lia)) ltac:(unfold is_u32; lia)).
Defined.

(** C17: every selector designates a segment of its type. After [gdt_init]
    and [syscall_cpu_init], from any state of the processor: the loaded table is
    the one built, whole; the code and stack selectors of the kernel designate
    64-bit code and writable data of ring 0; the task register designates a
    64-bit task state segment, that of the kernel, which holds the kernel stack
    for entries from ring 3 and no port permissions; the selectors that
    [syscall] and [sysret] derive from [STAR] designate code and data of ring 0
    and of ring 3, the latter with the selectors the rest of the kernel uses,
    at their privilege; and [syscall] enters at the kernel's entry, enabled, with interrupts
    off. *)
Theorem segments_well_typed ag at' ak entry s r :
  is_u64 at' → is_u64 entry → (∀ m, is_u32 (r m).1 ∧ is_u32 (r m).2) →
  let s' := (gdt_init ag at' ak s).1 in
  let '(c, r', _) := syscall_cpu_init entry r in
  let star := rdmsr MSR_IA32_STAR r' in
  (r_gdtr s' = gdt_desc s' ∧ gd_base (r_gdtr s') = ag ∧ Zlength (table_bytes (gdt s')) = gd_limit (r_gdtr s') + 1) ∧
  (selects s' (r_cs s') = Some (SegCode64 0) ∧
   Forall (λ sel, selects s' sel = Some (SegData 0)) [r_ds s'; r_es s'; r_ss s'; r_fs s'; r_gs s']) ∧
  (selects s' (r_tr s') = Some SegTss64 ∧ sys_base (table_bytes (gdt s')) (r_tr s') = at' ∧
   seg_limit (table_bytes (gdt s')) (r_tr s') + 1 = Zlength (tss_bytes (tss s')) ∧
   rsp0 (tss s') = gdt_kernel_stack_top ak ∧ Zlength (tss_bytes (tss s')) <= iomap_base (tss s')) ∧
  (selects s' (syscall_cs star) = Some (SegCode64 0) ∧ selects s' (syscall_ss star) = Some (SegData 0) ∧
   syscall_cs star = r_cs s' ∧ syscall_ss star = r_ss s') ∧
  (sysret_cs star = GDT_USER_CODE_SELECTOR ∧ sysret_ss star = GDT_USER_DATA_SELECTOR ∧
   selects s' (sysret_cs star) = Some (SegCode64 (rpl (sysret_cs star))) ∧
   selects s' (sysret_ss star) = Some (SegData (rpl (sysret_ss star))) ∧ rpl (sysret_cs star) = 3 ∧ rpl (sysret_ss star) = 3) ∧
  (rdmsr MSR_IA32_LSTAR r' = entry ∧ Z.testbit (rdmsr MSR_IA32_EFER r') 0 = true ∧ cpu_syscall_enabled c = 1 ∧
   Z.testbit (rdmsr MSR_IA32_FMASK r') 9 = true).
Proof.
  intros Ht He Hr. cbv zeta. pose proof (syscall_registers entry r He Hr) as Hm.
  destruct (syscall_cpu_init entry r) as [[c r'] o]. destruct Hm as (-> & -> & -> & -> & ->).
  split; [done|]. split; [by repeat constructor|]. split; [|split; [done|by split]].
  split; [done|]. destruct (tss_roundtrip at' (sizeof_tss64 - 1) [] ltac:(by vm_compute) Ht) as (Hb & Hl & _).
  destruct (seg_drop (table_bytes (gdt (gdt_init ag at' ak s).1)) 48) as [Hd1 Hd2].
  change (r_tr (gdt_init ag at' ak s).1) with (Z.of_nat 48). rewrite Hd1, Hd2.
  change (drop 48 (table_bytes (gdt (gdt_init ag at' ak s).1))) with (tss_entry_bytes (gdt_set_tss at' (sizeof_tss64 - 1)) ++ []).
  rewrite Hb, Hl. done.
Qed.

Lemma segments_well_typed_witness :
  let s := MkSegments zero_gdt (MkGdtDescriptor 0 0) zero_tss (MkGdtDescriptor 0 0) 8 0 0 0 0 0 0 in
  let s' := (gdt_init 0x104000 0x105000 0x106000 s).1 in
  sys_base (table_bytes (gdt s')) (r_tr s') = 0x105000.
Proof.
  intros s. apply (segments_well_typed 0x104000 0x105000 0x106000 0x100200 s (λ _, (0xD00, 0))).
  - unfold is_u64. lia.
  - unfold is_u64. lia.
  - intros m. unfold is_u32. cbn. lia.
Defined.
