(* ===== verification/Irq.v ===== *)
(** * Interrupts: gates, controller, dispatch and clock
    ([src/kernel/idt.c], [src/kernel/irq.c], [src/kernel/pic.c],
    [src/kernel/pit.c], [src/include/io.h])

    Port accesses are a trace of events. What a device answers to a read is a
    function of the trace, an argument of the operations; what is known of the
    interrupt controller is the class [PicData]. A handler acts on the state of
    the kernel, of any type, and on the trace. *)

From S2P Require Import Prelude Bytes CString Print Alloc Device.

(** ** Ports *)

Inductive io_event := Out (port value : Z) | In (port value : Z).
Definition trace := list io_event.

(** [outb], [inb] and [io_wait]. *)
Definition port_out (port value : Z) (t : trace) : trace := t ++ [Out port (u8 value)].
Definition port_in (dev : trace → Z → Z) (port : Z) (t : trace) : Z * trace :=
  let v := u8 (dev t port) in (v, t ++ [In port v]).
Definition io_wait (t : trace) : trace := port_out 0x80 0 t.

(** ** The interrupt controller *)

Definition PIC1_COMMAND : Z := 0x20.
Definition PIC1_DATA : Z := 0x21.
Definition PIC2_COMMAND : Z := 0xA0.
Definition PIC2_DATA : Z := 0xA1.
Definition PIC_EOI : Z := 0x20.
Definition ICW1_INIT : Z := 0x10.
Definition ICW1_ICW4 : Z := 0x01.
Definition ICW4_8086 : Z := 0x01.
Definition PIC_REMAP_OFFSET_MASTER : Z := 0x20.
Definition PIC_REMAP_OFFSET_SLAVE : Z := 0x28.

Definition pic_remap (master_offset slave_offset : Z) (t : trace) : trace :=
  let t := io_wait (port_out PIC1_COMMAND (Z.lor ICW1_INIT ICW1_ICW4) t) in
  let t := io_wait (port_out PIC2_COMMAND (Z.lor ICW1_INIT ICW1_ICW4) t) in
  let t := io_wait (port_out PIC1_DATA master_offset t) in
  let t := io_wait (port_out PIC2_DATA slave_offset t) in
  let t := io_wait (port_out PIC1_DATA 0x04 t) in
  let t := io_wait (port_out PIC2_DATA 0x02 t) in
  let t := io_wait (port_out PIC1_DATA ICW4_8086 t) in
  io_wait (port_out PIC2_DATA ICW4_8086 t).

Definition pic_init (t : trace) : trace * output :=
  let t := pic_remap PIC_REMAP_OFFSET_MASTER PIC_REMAP_OFFSET_SLAVE t in
  let t := port_out PIC1_DATA 0xFF t in
  let t := port_out PIC2_DATA 0xFF t in
  (t, color_line "PIC remapped and all IRQs masked" COLOR_GREEN_ON_BLACK).

Definition pic_send_eoi (irq : Z) (t : trace) : trace :=
  let t := if 8 <=? irq then port_out PIC2_COMMAND PIC_EOI t else t in
  port_out PIC1_COMMAND PIC_EOI t.

Section Pic.
Context (dev : trace → Z → Z).

Definition pic_set_mask (irq : Z) (t : trace) : trace :=
  let '(port, irq) := if irq <? 8 then (PIC1_DATA, irq) else (PIC2_DATA, irq - 8) in
  let '(value, t) := port_in dev port t in
  port_out port (Z.lor value (u8 (Z.shiftl 1 irq))) t.

Definition pic_clear_mask (irq : Z) (t : trace) : trace :=
  let '(port, irq) := if irq <? 8 then (PIC1_DATA, irq) else (PIC2_DATA, irq - 8) in
  let '(value, t) := port_in dev port t in
  port_out port (Z.land value (u8 (Z.lnot (Z.shiftl 1 irq)))) t.
End Pic.

(** ** Handlers *)

Definition IRQ_COUNT : Z := 16.

Section Handlers.
Context {S : Type}.

Definition irq_handler_t : Type := S → trace → S * trace.

Record machine := MkMachine { irq_handlers : list (option irq_handler_t); m_trace : trace; m_state : S }.

Definition irq_init (m : machine) : machine * output :=
  (MkMachine (replicate (Z.to_nat IRQ_COUNT) None) (m_trace m) (m_state m),
   color_line "IRQ dispatch table initialized" COLOR_GREEN_ON_BLACK).

Definition irq_register_handler (irq : Z) (handler : option irq_handler_t) (m : machine) : Z * machine :=
  if IRQ_COUNT <=? irq then (0, m)
  else match handler with
       | None => (0, m)
       | Some h => (1, MkMachine (arr_set (irq_handlers m) irq (Some h)) (m_trace m) (m_state m))
       end.

Definition irq_unregister_handler (irq : Z) (m : machine) : machine :=
  if IRQ_COUNT <=? irq then m
  else MkMachine (arr_set (irq_handlers m) irq None) (m_trace m) (m_state m).

Definition irq_dispatch (irq : Z) (m : machine) : machine :=
  if IRQ_COUNT <=? irq then m
  else
    let m := match arr_get (irq_handlers m) irq with
             | Some h => let '(s, t) := h (m_state m) (m_trace m) in MkMachine (irq_handlers m) t s
             | None => m
             end in
    MkMachine (irq_handlers m) (pic_send_eoi irq (m_trace m)) (m_state m).

(** The entry [irq_common] calls with the vector its stub pushed. *)
Definition irq_handler (vector : Z) (m : machine) : machine :=
  if (vector <? 32) || (47 <? vector) then m
  else irq_dispatch (u8 (vector - 32)) m.

End Handlers.
Arguments irq_handler_t : clear implicits.
Arguments machine : clear implicits.

(** ** The clock *)

Definition PIT_CHANNEL0 : Z := 0x40.
Definition PIT_COMMAND : Z := 0x43.
Definition PIT_BASE_FREQUENCY : Z := 1193182.

(** [pit_ticks++] and its reading. *)
Definition pit_on_tick (pit_ticks : Z) : Z := u64 (pit_ticks + 1).
Definition pit_get_ticks (pit_ticks : Z) : Z := pit_ticks.

Definition pit_divisor (frequency : Z) : Z :=
  let divisor := PIT_BASE_FREQUENCY / frequency in
  let divisor := if divisor =? 0 then 1 else divisor in
  if 65535 <? divisor then 65535 else divisor.

(** [on_tick] is [pit_on_tick] on the kernel's state. The results: the tick
    counter, the machine, the devices and the heap. *)
Definition pit_init {S} `{Allocator H} (dev : trace → Z → Z) (on_tick : irq_handler_t S) (frequency : Z)
    (m : machine S) (x : devices) (h : H) : Z * machine S * devices * H * output :=
  let frequency := if frequency =? 0 then 100 else frequency in
  let divisor := pit_divisor frequency in
  let t := port_out PIT_COMMAND 0x36 (m_trace m) in
  let t := port_out PIT_CHANNEL0 (u8 (Z.land divisor 0xFF)) t in
  let t := port_out PIT_CHANNEL0 (u8 (Z.land (Z.shiftr divisor 8) 0xFF)) t in
  let m := MkMachine (irq_handlers m) t (m_state m) in
  let '(_, m) := irq_register_handler 0 (Some on_tick) m in
  let m := MkMachine (irq_handlers m) (pic_clear_mask dev 0 (m_trace m)) (m_state m) in
  let '(_, x, h, o) := device_register (Some (s2z "pit0")) DEVICE_TYPE_TIMER DEVICE_STATE_READY (Some (s2z "pit")) x h in
  (0, m, x, h,
   o ++ color_line "PIT initialized and IRQ0 registered" COLOR_GREEN_ON_BLACK ++
   prints "PIT frequency = " ++ print_dec64 frequency ++ prints " Hz" ++ newline ++
   prints "PIT divisor   = " ++ print_dec64 divisor ++ newline).

(** ** Gates *)

Definition IDT_ENTRIES : Z := 256.
Definition KERNEL_CODE_SELECTOR : Z := 0x08.
Definition IDT_TYPE_INTERRUPT_GATE : Z := 0x8E.

Record idt_entry := MkIdtEntry {
  offset_low : Z; selector : Z; ist : Z; type_attr : Z; offset_mid : Z; offset_high : Z; idt_zero : Z
}.
#[export] Instance idt_entry_inhabited : Inhabited idt_entry := populate (MkIdtEntry 0 0 0 0 0 0 0).

Record idt_pointer := MkIdtPointer { idtr_limit : Z; idtr_base : Z }.

Definition idt_set_gate (vector handler sel attr : Z) (idt : list idt_entry) : list idt_entry :=
  arr_set idt vector
    (MkIdtEntry (u16 (Z.land handler 0xFFFF)) sel 0 attr (u16 (Z.land (Z.shiftr handler 16) 0xFFFF))
       (u32 (Z.land (Z.shiftr handler 32) 0xFFFFFFFF)) 0).

Section Gates.
(** The addresses of the stubs [isr0] to [isr31], [irq0] to [irq15] and of the
    table. *)
Context (isr irq : Z → Z) (addr_idt : Z).

(** One call per vector, in order. *)
Definition idt_register_exceptions (idt : list idt_entry) : list idt_entry :=
  foldl (λ idt v, idt_set_gate v (isr v) KERNEL_CODE_SELECTOR IDT_TYPE_INTERRUPT_GATE idt) idt (seqZ 0 32).

Definition idt_register_irqs (idt : list idt_entry) : list idt_entry :=
  foldl (λ idt n, idt_set_gate (32 + n) (irq n) KERNEL_CODE_SELECTOR IDT_TYPE_INTERRUPT_GATE idt) idt (seqZ 0 16).

(** The table and what [lidt] loads. *)
Definition idt_init : list idt_entry * idt_pointer * output :=
  let idt := replicate (Z.to_nat IDT_ENTRIES) (MkIdtEntry 0 0 0 0 0 0 0) in
  let idt := idt_register_exceptions idt in
  let idt := idt_register_irqs idt in
  (idt, MkIdtPointer (u16 (16 * IDT_ENTRIES - 1)) addr_idt, color_line "IDT loaded" COLOR_GREEN_ON_BLACK).
End Gates.

Definition exception_name (vector : Z) : string :=
  if vector =? 0 then "#DE Divide Error"
  else if vector =? 1 then "#DB Debug"
  else if vector =? 2 then "NMI Interrupt"
  else if vector =? 3 then "#BP Breakpoint"
  else if vector =? 4 then "#OF Overflow"
  else if vector =? 5 then "#BR Bound Range Exceeded"
  else if vector =? 6 then "#UD Invalid Opcode"
  else if vector =? 7 then "#NM Device Not Available"
  else if vector =? 8 then "#DF Double Fault"
  else if vector =? 9 then "Coprocessor Segment Overrun"
  else if vector =? 10 then "#TS Invalid TSS"
  else if vector =? 11 then "#NP Segment Not Present"
  else if vector =? 12 then "#SS Stack-Segment Fault"
  else if vector =? 13 then "#GP General Protection Fault"
  else if vector =? 14 then "#PF Page Fault"
  else if vector =? 16 then "#MF x87 Floating-Point Exception"
  else if vector =? 17 then "#AC Alignment Check"
  else if vector =? 18 then "#MC Machine Check"
  else if vector =? 19 then "#XM SIMD Floating-Point Exception"
  else if vector =? 20 then "#VE Virtualization Exception"
  else if vector =? 21 then "#CP Control Protection Exception"
  else if vector =? 29 then "#VC VMM Communication Exception"
  else if vector =? 30 then "#SX Security Exception"
  else "Unknown Exception".

Definition print_page_fault_error (error_code : Z) : output :=
  prints "  present    = " ++ print_dec64 (Z.land error_code 1) ++ newline ++
  prints "  write      = " ++ print_dec64 (Z.land (Z.shiftr error_code 1) 1) ++ newline ++
  prints "  user       = " ++ print_dec64 (Z.land (Z.shiftr error_code 2) 1) ++ newline ++
  prints "  reserved   = " ++ print_dec64 (Z.land (Z.shiftr error_code 3) 1) ++ newline ++
  prints "  instr_fetch= " ++ print_dec64 (Z.land (Z.shiftr error_code 4) 1) ++ newline.

(** What is printed before the processor is halted for good. *)
Definition exception_handler (vector error_code rip cs rflags cr2 : Z) : output :=
  print_color [CH_LF] COLOR_RED_ON_BLACK ++ color_line "[CPU Exception]" COLOR_RED_ON_BLACK ++
  prints "vector = " ++ print_dec64 vector ++ prints " " ++ prints (exception_name vector) ++ newline ++
  prints "error  = " ++ print_hex64 error_code ++ newline ++
  prints "rip    = " ++ print_hex64 rip ++ newline ++
  prints "cs     = " ++ print_hex64 cs ++ newline ++
  prints "rflags = " ++ print_hex64 rflags ++ newline ++
  (if vector =? 14 then prints "cr2    = " ++ print_hex64 cr2 ++ newline ++ print_page_fault_error error_code else []) ++
  color_line "kernel halted by exception" COLOR_RED_ON_BLACK.

(** ** What the hardware makes of it *)

(** The value last written to a port. *)
Fixpoint last_out_from (port acc : Z) (t : trace) : Z :=
  match t with
  | [] => acc
  | Out p v :: r => last_out_from port (if p =? port then v else acc) r
  | In _ _ :: r => last_out_from port acc r
  end.
Definition last_out (port : Z) (t : trace) : Z := last_out_from port 0 t.

(** An initialisation command restarts a controller. *)
Definition is_icw1 (e : io_event) : bool :=
  match e with
  | Out p v => ((p =? PIC1_COMMAND) || (p =? PIC2_COMMAND)) && Z.testbit v 4
  | In _ _ => false
  end.

Definition pic_init_trace : trace := (pic_init []).1.

(** Once initialised, a controller's data port reads as the mask, which is what
    was last written to it. *)
Class PicData (dev : trace → Z → Z) : Prop :=
  pic_data : ∀ t1 t2 p, (p = PIC1_DATA ∨ p = PIC2_DATA) → Forall (λ e, is_icw1 e = false) t2 →
    dev (t1 ++ pic_init_trace ++ t2) p = last_out p (pic_init_trace ++ t2).

(** The vector a controller was told to deliver its line 0 at: the first data
    byte after the last initialisation command. *)
Fixpoint icw2_from (cmd data : Z) (waiting : bool) (acc : Z) (t : trace) : Z :=
  match t with
  | [] => acc
  | Out p v :: r =>
      if (p =? cmd) && Z.testbit v 4 then icw2_from cmd data true acc r
      else if (p =? data) && waiting then icw2_from cmd data false v r
      else icw2_from cmd data waiting acc r
  | In _ _ :: r => icw2_from cmd data waiting acc r
  end.

(** The vector of a line. *)
Definition pic_vector (t : trace) (n : Z) : Z :=
  if n <? 8 then icw2_from PIC1_COMMAND PIC1_DATA false 0 t + n
  else icw2_from PIC2_COMMAND PIC2_DATA false 0 t + (n - 8).

(** A gate as the processor decodes its bytes. *)
Definition gate_bytes (e : idt_entry) : list Z :=
  le_list 2 (offset_low e) ++ le_list 2 (selector e) ++ [ist e; type_attr e] ++ le_list 2 (offset_mid e) ++
  le_list 4 (offset_high e) ++ le_list 4 (idt_zero e).

Definition gate_offset (l : list Z) : Z :=
  rd_le 2 (arr_get l) 0 + 2 ^ 16 * rd_le 2 (arr_get l) 6 + 2 ^ 32 * rd_le 4 (arr_get l) 8.
Definition gate_selector (l : list Z) : Z := rd_le 2 (arr_get l) 2.
Definition gate_type (l : list Z) : Z := arr_get l 5.

(** The operations on the masks, and the set of masked lines. *)
Inductive pic_op := Mask (irq : Z) | Unmask (irq : Z) | Eoi (irq : Z).
Definition op_irq (o : pic_op) : Z := match o with Mask i | Unmask i | Eoi i => i end.

Definition pic_do (dev : trace → Z → Z) (t : trace) (o : pic_op) : trace :=
  match o with
  | Mask i => pic_set_mask dev i t
  | Unmask i => pic_clear_mask dev i t
  | Eoi i => pic_send_eoi i t
  end.

Definition masks_step (masked : Z → bool) (o : pic_op) : Z → bool :=
  match o with
  | Mask i => λ n, if n =? i then true else masked n
  | Unmask i => λ n, if n =? i then false else masked n
  | Eoi _ => masked
  end.

Definition data_port (n : Z) : Z := if n <? 8 then PIC1_DATA else PIC2_DATA.

(** ** Lemmas: the controller *)

Lemma last_out_app p acc t1 t2 : last_out_from p acc (t1 ++ t2) = last_out_from p (last_out_from p acc t1) t2.
Proof. revert acc. induction t1 as [|[q v|q v] t1 IH]; intros acc; cbn; [done|apply IH..]. Qed.

Lemma pic_init_app t : (pic_init t).1 = t ++ pic_init_trace.
Proof. unfold pic_init, pic_remap, io_wait, port_out. cbn [fst]. by rewrite <- !app_assoc. Qed.

(** The masks after the initialisation and some events. *)
Record masks_ok (t : trace) (masked : Z → bool) : Prop := {
  mo_split : ∃ t1 t2, t = t1 ++ pic_init_trace ++ t2 ∧ Forall (λ e, is_icw1 e = false) t2;
  mo_u8 : ∀ n, is_u8 (last_out (data_port n) t);
  mo_bits : ∀ n, 0 <= n < 16 → Z.testbit (last_out (data_port n) t) (n mod 8) = masked n
}.

Lemma init_data_port p t : (p = PIC1_DATA ∨ p = PIC2_DATA) → ∀ acc, last_out_from p acc (pic_init_trace ++ t) = last_out_from p 0xFF t.
Proof. intros [-> | ->] acc; rewrite last_out_app; reflexivity. Qed.

Lemma masks_read dev t masked p :
  PicData dev → masks_ok t masked → (p = PIC1_DATA ∨ p = PIC2_DATA) → u8 (dev t p) = last_out p t.
Proof.
  intros Hd [(t1 & t2 & -> & Hn) Hu _] Hp. rewrite (pic_data t1 t2 p Hp Hn).
  assert (Heq : last_out p (pic_init_trace ++ t2) = last_out p (t1 ++ pic_init_trace ++ t2)).
  { unfold last_out. rewrite (last_out_app _ _ t1), !init_data_port by done. done. }
  rewrite Heq. destruct Hp as [-> | ->]; [exact (u8_small _ (Hu 0))|exact (u8_small _ (Hu 8))].
Qed.

Definition out_u8 (e : io_event) : Prop := match e with Out _ v => is_u8 v | In _ _ => True end.

Lemma last_out_u8 p acc l : Forall out_u8 l → is_u8 acc → is_u8 (last_out_from p acc l).
Proof.
  intros Hl. revert acc. induction Hl as [|[q v|q v] l Hv _ IH]; intros acc Ha; cbn; [done| |by apply IH].
  apply IH. by case_if.
Qed.

(** Events that are no initialisation and leave the data ports alone. *)
Lemma masks_frame t masked l :
  masks_ok t masked → Forall (λ e, is_icw1 e = false) l → Forall out_u8 l →
  (∀ acc p, p = PIC1_DATA ∨ p = PIC2_DATA → last_out_from p acc l = acc) → masks_ok (t ++ l) masked.
Proof.
  intros [(t1 & t2 & -> & Hn) Hu Hb] Hl Hlu Hkeep. split.
  - exists t1, (t2 ++ l). rewrite <- !app_assoc. split; [done|]. by apply Forall_app.
  - intros n. unfold last_out. rewrite last_out_app. apply last_out_u8; [done|apply Hu].
  - intros n Hn'. unfold last_out. rewrite last_out_app, Hkeep; [by apply Hb|]. unfold data_port. case_if; auto.
Qed.

Lemma masks_write t masked masked' i x v :
  masks_ok t masked → 0 <= i < 16 → is_u8 v →
  (∀ n, 0 <= n < 16 → data_port n = data_port i → Z.testbit v (n mod 8) = masked' n) →
  (∀ n, 0 <= n < 16 → data_port n ≠ data_port i → masked' n = masked n) →
  masks_ok ((t ++ [In (data_port i) x]) ++ [Out (data_port i) v]) masked'.
Proof.
  intros [(t1 & t2 & -> & Hn) Hu Hb] Hi Hv Hsame Hother.
  assert (Hlo : ∀ p, last_out p (((t1 ++ pic_init_trace ++ t2) ++ [In (data_port i) x]) ++ [Out (data_port i) v]) =
                     if data_port i =? p then v else last_out p (t1 ++ pic_init_trace ++ t2)).
  { intros p. unfold last_out. by rewrite (last_out_app p 0 (_ ++ [In _ _])), (last_out_app p 0 (t1 ++ _)). }
  split.
  - exists t1, (t2 ++ [In (data_port i) x; Out (data_port i) v]). rewrite <- !app_assoc. split; [done|].
    apply Forall_app. split; [done|]. repeat constructor. cbn. unfold data_port. by case_if.
  - intros n. rewrite Hlo. case_if; [done|apply Hu].
  - intros n Hn'. rewrite Hlo. destruct (Z.eqb_spec (data_port i) (data_port n)) as [He|He].
    + by apply Hsame.
    + rewrite Hother by (done || congruence). by apply Hb.
Qed.

(** The bit of a line in its mask. *)
Lemma line_bit i : 0 <= i < 16 → (if i <? 8 then (PIC1_DATA, i) else (PIC2_DATA, i - 8)) = (data_port i, i mod 8).
Proof. intros Hi. unfold data_port. case_if; btests; f_equal; zlia. Qed.

Lemma same_line n i :
  0 <= n < 16 → 0 <= i < 16 → data_port n = data_port i → (n mod 8 =? i mod 8) = (n =? i).
Proof.
  intros Hn Hi. unfold data_port. intros Hd. apply eq_true_iff_eq. rewrite !Z.eqb_eq.
  destruct (n <? 8) eqn:?, (i <? 8) eqn:?; btests; try done; zlia.
Qed.

Lemma mask_bits v k j :
  is_u8 v → 0 <= k < 8 → 0 <= j < 8 →
  let s := Z.lor v (u8 (Z.shiftl 1 k)) in
  let c := Z.land v (u8 (Z.lnot (Z.shiftl 1 k))) in
  (is_u8 s ∧ Z.testbit s j = if j =? k then true else Z.testbit v j) ∧
  (is_u8 c ∧ Z.testbit c j = if j =? k then false else Z.testbit v j).
Proof.
  intros Hv Hk Hj. cbv zeta.
  assert (Hbit : Z.testbit (u8 (Z.shiftl 1 k)) j = (j =? k)).
  { unfold u8. rewrite Z.mod_pow2_bits_low, Z.shiftl_1_l by lia. rewrite Z.pow2_bits_eqb by lia. apply Z.eqb_sym. }
  assert (Hnot : Z.testbit (u8 (Z.lnot (Z.shiftl 1 k))) j = negb (j =? k)).
  { unfold u8. rewrite Z.mod_pow2_bits_low, Z.lnot_spec, Z.shiftl_1_l by lia. rewrite Z.pow2_bits_eqb by lia.
    by rewrite Z.eqb_sym. }
  split; split.
  - apply (lor_range _ _ 8); [done|done|apply u8_range].
  - rewrite Z.lor_spec, Hbit. destruct (j =? k); [apply orb_true_r|apply orb_false_r].
  - by apply (land_range_l _ _ 8).
  - rewrite Z.land_spec, Hnot. destruct (j =? k); cbn; [apply andb_false_r|apply andb_true_r].
Qed.

(** Changing the bit of one line. *)
Lemma masks_update t masked i x v b :
  masks_ok t masked → 0 <= i < 16 →
  (∀ j, 0 <= j < 8 → is_u8 v ∧ Z.testbit v j = if j =? i mod 8 then b else Z.testbit (last_out (data_port i) t) j) →
  masks_ok (port_out (data_port i) v (t ++ [In (data_port i) x])) (λ n, if n =? i then b else masked n).
Proof.
  intros Hm Hi Hv. destruct (Hv 0 ltac:(lia)) as [Hu _]. unfold port_out. rewrite u8_small by done.
  apply (masks_write t masked); [done..| |].
  - intros n Hn Hp. destruct (Hv (n mod 8) ltac:(zlia)) as [_ ->]. rewrite (same_line n i) by done.
    case_if; [done|]. rewrite <- Hp. by apply (mo_bits _ _ Hm).
  - intros n Hn Hp. destruct (Z.eqb_spec n i) as [->|]; [done|]. done.
Qed.

Lemma pic_do_ok dev t masked o :
  PicData dev → masks_ok t masked → 0 <= op_irq o < 16 → masks_ok (pic_do dev t o) (masks_step masked o).
Proof.
  intros Hd Hm Hi. destruct o as [i|i|i]; cbn [pic_do masks_step op_irq] in *.
  1, 2: unfold pic_set_mask, pic_clear_mask, port_in; rewrite (line_bit i Hi);
    rewrite (masks_read dev t masked (data_port i)) by (done || (unfold data_port; case_if; auto));
    apply masks_update; [done..|]; intros j Hj;
    pose proof (mask_bits (last_out (data_port i) t) (i mod 8) j (mo_u8 _ _ Hm _) ltac:(zlia) Hj) as [? ?]; done.
  unfold pic_send_eoi, port_out. case_if; rewrite <- ?app_assoc; (apply masks_frame; [done|by repeat constructor|by repeat constructor|intros acc p [-> | ->]; reflexivity]).
Qed.

Lemma masks_init t : masks_ok (pic_init t).1 (λ _, true).
Proof.
  rewrite pic_init_app. split.
  - exists t, []. by rewrite app_nil_r.
  - intros k. unfold last_out. rewrite last_out_app, <- (app_nil_r pic_init_trace), init_data_port; [done|].
    unfold data_port. case_if; auto.
  - intros k Hk. unfold last_out. rewrite last_out_app, <- (app_nil_r pic_init_trace), init_data_port.
    + change 0xFF with (Z.ones 8). apply Z.ones_spec_low. zlia.
    + unfold data_port. case_if; auto.
Qed.

(** What the controller shows. *)
Lemma masks_bit dev t masked n :
  PicData dev → masks_ok t masked → 0 <= n < 16 → Z.testbit (dev t (data_port n)) (n mod 8) = masked n.
Proof.
  intros Hd Hm Hn. rewrite <- (mo_bits _ _ Hm n Hn).
  rewrite <- (masks_read dev _ _ (data_port n) Hd Hm) by (unfold data_port; case_if; auto).
  unfold u8. rewrite Z.mod_pow2_bits_low; [done|]. pose proof (Z.mod_pos_bound n 8). lia.
Qed.

(** ** Lemmas: the gates *)

Definition gate_of (handler : Z) : idt_entry :=
  MkIdtEntry (u16 (Z.land handler 0xFFFF)) KERNEL_CODE_SELECTOR 0 IDT_TYPE_INTERRUPT_GATE
    (u16 (Z.land (Z.shiftr handler 16) 0xFFFF)) (u32 (Z.land (Z.shiftr handler 32) 0xFFFFFFFF)) 0.

Lemma gates_fold f base n idt v :
  Zlength idt = 256 → 0 <= base → base + Z.of_nat n <= 256 → 0 <= v < 256 →
  let idt' := foldl (λ idt k, idt_set_gate (base + k) (f k) KERNEL_CODE_SELECTOR IDT_TYPE_INTERRUPT_GATE idt) idt
                (seqZ 0 (Z.of_nat n)) in
  Zlength idt' = 256 ∧
  arr_get idt' v = if (base <=? v) && (v <? base + Z.of_nat n) then gate_of (f (v - base)) else arr_get idt v.
Proof.
  intros Hl Hb. cbv zeta. induction n as [|n IH]; intros Hn Hv.
  { cbn. split; [done|]. case_ifs; [lia|done]. }
  rewrite seqZ_S, foldl_app. rewrite Nat2Z.inj_succ in *. cbn [foldl]. destruct IH as [IHl IHv]; [lia..|].
  split; [unfold idt_set_gate, Zlength; by rewrite arr_set_length|].
  unfold idt_set_gate at 1. rewrite arr_get_set by lia. rewrite IHv, Z.add_0_l.
  destruct (Z.eqb_spec v (base + Z.of_nat n)) as [->|].
  - rewrite (proj2 (Z.leb_le _ _)), (proj2 (Z.ltb_lt _ _)) by lia. cbn [andb]. unfold gate_of.
    by replace (base + Z.of_nat n - base) with (Z.of_nat n) by lia.
  - assert ((v <? base + Z.succ (Z.of_nat n)) = (v <? base + Z.of_nat n)) as ->; [|done].
    destruct (Z.ltb_spec v (base + Z.of_nat n)), (Z.ltb_spec v (base + Z.succ (Z.of_nat n))); (done || lia).
Qed.

Lemma gate_roundtrip handler :
  is_u64 handler →
  let l := gate_bytes (gate_of handler) in
  gate_offset l = handler ∧ gate_selector l = KERNEL_CODE_SELECTOR ∧ gate_type l = IDT_TYPE_INTERRUPT_GATE.
Proof.
  intros Hh l. split; [|done]. unfold gate_offset.
  rewrite (rd_le_le_list 2 _ 0 (offset_low (gate_of handler))) by (intros [|[|i]] Hi; [reflexivity..|lia]).
  rewrite (rd_le_le_list 2 _ 6 (offset_mid (gate_of handler))) by (intros [|[|i]] Hi; [reflexivity..|lia]).
  rewrite (rd_le_le_list 4 _ 8 (offset_high (gate_of handler))) by (intros [|[|[|[|i]]]] Hi; [reflexivity..|lia]).
  cbn [offset_low offset_mid offset_high gate_of]. unfold is_u64, u16, u32 in *.
  change (256 ^ Z.of_nat 2) with (2 ^ 16). change (256 ^ Z.of_nat 4) with (2 ^ 32). rewrite !Z.mod_mod by lia.
  change 0xFFFF with (Z.ones 16). change 0xFFFFFFFF with (Z.ones 32). rewrite !Z.land_ones, !Z.shiftr_div_pow2 by lia.
  rewrite !Z.mod_mod by lia. zlia.
Qed.

(** Every gate. *)
Lemma idt_gates isr irq a v :
  0 <= v < 256 →
  arr_get (idt_init isr irq a).1.1 v =
    if v <? 32 then gate_of (isr v) else if v <? 48 then gate_of (irq (v - 32)) else MkIdtEntry 0 0 0 0 0 0 0.
Proof.
  intros Hv. unfold idt_init, idt_register_irqs, idt_register_exceptions. cbn [fst].
  set (z := replicate (Z.to_nat IDT_ENTRIES) _).
  destruct (gates_fold isr 0 32 z v) as [Hl1 Hg1]; [done|lia..|].
  destruct (gates_fold irq 32 16 (foldl (λ idt v, idt_set_gate (0 + v) (isr v) KERNEL_CODE_SELECTOR
              IDT_TYPE_INTERRUPT_GATE idt) z (seqZ 0 (Z.of_nat 32))) v) as [_ Hg2]; [done|lia..|].
  etrans; [exact Hg2|]. rewrite Hg1. rewrite Z.sub_0_r.
  destruct (Z.leb_spec 32 v), (Z.ltb_spec v 48), (Z.leb_spec 0 v), (Z.ltb_spec v 32); cbn [andb]; try done; try lia.
  all: change (32 + Z.of_nat 16) with 48; change (0 + Z.of_nat 32) with 32.
  all: rewrite ?(proj2 (Z.ltb_ge v 48)), ?(proj2 (Z.ltb_lt v 48)), ?(proj2 (Z.ltb_ge v 32)), ?(proj2 (Z.ltb_lt v 32)) by lia;
    cbn [andb]; try done.
  unfold z, arr_get. rewrite lookup_total_replicate_2; [done|]. unfold IDT_ENTRIES. lia.
Qed.

Lemma icw2_prefix cmd data t r w acc :
  ∃ w' acc', icw2_from cmd data w acc (t ++ r) = icw2_from cmd data w' acc' r.
Proof.
  revert w acc. induction t as [|[p v|p v] t IH]; intros w acc; cbn [app icw2_from]; [by exists w, acc| |apply IH].
  repeat case_if; apply IH.
Qed.

Lemma icw2_quiet cmd data acc t :
  (cmd = PIC1_COMMAND ∨ cmd = PIC2_COMMAND) → Forall (λ e, is_icw1 e = false) t →
  icw2_from cmd data false acc t = acc.
Proof.
  intros Hc. induction 1 as [|[p v|p v] t He _ IH]; [done| |done]. cbn [icw2_from]. rewrite andb_false_r.
  assert (Hi : (p =? cmd) && Z.testbit v 4 = false); [|by rewrite Hi].
  apply not_true_iff_false. intros [Hp Hv]%andb_true_iff. unfold is_icw1 in He. rewrite Hv, andb_true_r in He.
  apply orb_false_iff in He as [? ?]. destruct Hc as [-> | ->]; congruence.
Qed.

Lemma pic_vector_init t t2 n :
  Forall (λ e, is_icw1 e = false) t2 → 0 <= n < 16 → pic_vector ((pic_init t).1 ++ t2) n = 32 + n.
Proof.
  intros Ht Hn. rewrite pic_init_app, <- app_assoc. unfold pic_vector.
  destruct (icw2_prefix PIC1_COMMAND PIC1_DATA t (pic_init_trace ++ t2) false 0) as (w1 & a1 & ->).
  destruct (icw2_prefix PIC2_COMMAND PIC2_DATA t (pic_init_trace ++ t2) false 0) as (w2 & a2 & ->).
  change (icw2_from PIC1_COMMAND PIC1_DATA w1 a1 (pic_init_trace ++ t2)) with (icw2_from PIC1_COMMAND PIC1_DATA false 0x20 t2).
  assert (H2 : icw2_from PIC2_COMMAND PIC2_DATA w2 a2 (pic_init_trace ++ t2) = icw2_from PIC2_COMMAND PIC2_DATA false 0x28 t2)
    by (by destruct w2).
  rewrite H2, !icw2_quiet by auto. case_if; lia.
Qed.

Lemma masks_vector t masked n : masks_ok t masked → 0 <= n < 16 → pic_vector t n = 32 + n.
Proof.
  intros [(t1 & t2 & -> & Hq) _ _] Hn. rewrite app_assoc, <- pic_init_app. by apply pic_vector_init.
Qed.

Lemma pit_divisor_ok f :
  1 <= f →
  let d := pit_divisor f in
  1 <= d <= 65535 ∧ (19 <= f <= PIT_BASE_FREQUENCY → d * f <= PIT_BASE_FREQUENCY < (d + 1) * f) ∧
  (f < 19 → d = 65535) ∧ (PIT_BASE_FREQUENCY < f → d = 1).
Proof.
  intros Hf. cbv zeta. unfold pit_divisor, PIT_BASE_FREQUENCY. cbv zeta.
  assert (H1 : 1193182 / f * f <= 1193182) by (rewrite Z.mul_comm; apply Z.mul_div_le; lia).
  assert (H2 : 1193182 < (1193182 / f + 1) * f) by (pose proof (Z.mul_succ_div_gt 1193182 f); lia).
  assert (H3 : 0 <= 1193182 / f) by (apply Z.div_pos; lia). set (q := 1193182 / f) in *. clearbody q.
  destruct (Z.eqb_spec q 0) as [->|Hq]; [cbn iota; change (65535 <? 1) with false; cbn iota; lia|].
  destruct (Z.ltb_spec 65535 q).
  - assert (f <= 18) by nia. lia.
  - assert (19 <= f) by nia. assert (f <= 1193182) by nia. lia.
Qed.

(** ** Properties *)

(** The masks are what the drivers asked for. With a controller whose
    data port reads back as its mask: after [pic_init] and any sequence of
    masking, unmasking and end-of-interrupt for the lines 0 to 15, the mask bit
    of each line is set exactly if its line was last masked, all lines being
    masked at first. *)
Theorem pic_masks_exact dev t ops n :
  PicData dev → Forall (λ o, 0 <= op_irq o < 16) ops → 0 <= n < 16 →
  let t' := foldl (pic_do dev) (pic_init t).1 ops in
  Z.testbit (dev t' (data_port n)) (n mod 8) = foldl masks_step (λ _, true) ops n.
Proof.
  intros Hd Ho Hn. cbv zeta.
  pose proof (masks_init t) as Hi.
  assert (Hm : masks_ok (foldl (pic_do dev) (pic_init t).1 ops) (foldl masks_step (λ _, true) ops)).
  { revert Hi. generalize ((pic_init t).1), (λ _ : Z, true). induction Ho as [|o ops Ho _ IH]; intros t' m Hm; [done|].
    cbn [foldl]. apply IH. by apply pic_do_ok. }
  by apply masks_bit.
Qed.

Definition sample_dev : trace → Z → Z := λ t p, last_out p t.

Lemma pic_masks_exact_witness :
  let t := foldl (pic_do sample_dev) (pic_init []).1 [Unmask 0; Unmask 12; Eoi 12; Mask 0; Unmask 1] in
  Z.testbit (sample_dev t (data_port 0)) 0 = true ∧ Z.testbit (sample_dev t (data_port 1)) 1 = false ∧
  Z.testbit (sample_dev t (data_port 12)) 4 = false ∧ Z.testbit (sample_dev t (data_port 2)) 2 = true.
Proof.
  intros t.
  assert (Hd : PicData sample_dev).
  { intros t1 t2 p Hp _. unfold sample_dev, last_out. by rewrite (last_out_app _ _ t1), !init_data_port. }
  assert (Ho : Forall (λ o, 0 <= op_irq o < 16) [Unmask 0; Unmask 12; Eoi 12; Mask 0; Unmask 1])
    by (apply (bool_decide_unpack _); by vm_compute).
  split; [|split; [|split]].
  - apply (pic_masks_exact sample_dev [] _ 0 Hd Ho). lia.
  - apply (pic_masks_exact sample_dev [] _ 1 Hd Ho). lia.
  - apply (pic_masks_exact sample_dev [] _ 12 Hd Ho). lia.
  - apply (pic_masks_exact sample_dev [] _ 2 Hd Ho). lia.
Defined.

(** C23: an interrupt reaches its handler. After [pic_init] and [idt_init],
    as long as the controllers are not initialised again: line [n] is delivered
    at vector [32 + n]; the gate of that vector lies within the loaded table and
    is an interrupt gate to the stub of line [n] in the kernel's code segment;
    and the entry the stub calls with that vector runs the handler registered
    for [n], once, on the state, and then acknowledges [n]; a line without a
    handler is only acknowledged. Registering leaves the other lines alone. *)
Theorem irq_delivery {S} isr irq a t t2 (m : machine S) n h :
  0 <= n < 16 → (∀ k, is_u64 (irq k)) → Zlength (irq_handlers m) = 16 → Forall (λ e, is_icw1 e = false) t2 →
  let v := pic_vector ((pic_init t).1 ++ t2) n in
  let '(idt, idtr, _) := idt_init isr irq a in
  let g := gate_bytes (arr_get idt v) in
  let m1 := (irq_register_handler n (Some h) m).2 in
  let m0 := irq_unregister_handler n m in
  let '(s', t') := h (m_state m) (m_trace m) in
  v = 32 + n ∧ 16 * v + 15 <= idtr_limit idtr ∧
  gate_offset g = irq n ∧ gate_selector g = KERNEL_CODE_SELECTOR ∧ gate_type g = IDT_TYPE_INTERRUPT_GATE ∧
  irq_handler v m1 = MkMachine (irq_handlers m1) (pic_send_eoi n t') s' ∧
  irq_handler v m0 = MkMachine (irq_handlers m0) (pic_send_eoi n (m_trace m)) (m_state m) ∧
  ∀ k, 0 <= k < 16 → k ≠ n → arr_get (irq_handlers m1) k = arr_get (irq_handlers m) k.
Proof.
  intros Hn Hu Hl Ht. cbv zeta. rewrite (pic_vector_init t t2 n Ht Hn).
  pose proof (idt_gates isr irq a (32 + n) ltac:(lia)) as Hg.
  destruct (idt_init isr irq a) as [[idt idtr] o] eqn:Hidt. cbn [fst] in Hg.
  assert (Hlim : idtr_limit idtr = 4095) by (by injection Hidt as _ <- _). clear Hidt.
  rewrite (proj2 (Z.ltb_ge _ _)), (proj2 (Z.ltb_lt _ _)) in Hg by lia. rewrite Hg. replace (32 + n - 32) with n by lia.
  destruct (gate_roundtrip (irq n) (Hu n)) as (-> & -> & ->). destruct (h (m_state m) (m_trace m)) as [s' t'] eqn:Hh.
  split; [done|]. split; [lia|]. split; [done|]. split; [done|]. split; [done|].
  unfold irq_handler, irq_register_handler, irq_unregister_handler, irq_dispatch.
  rewrite (proj2 (Z.ltb_ge _ _)), (proj2 (Z.ltb_ge _ _)) by lia. cbn [orb].
  replace (32 + n - 32) with n by lia. rewrite u8_small by (unfold is_u8; lia).
  rewrite (proj2 (Z.leb_gt IRQ_COUNT n)) by (unfold IRQ_COUNT; lia). cbn [snd irq_handlers m_state m_trace].
  rewrite !arr_get_set_eq by lia. rewrite Hh. split; [done|]. split; [done|].
  intros k Hk Hkn. apply arr_get_set_ne; lia.
Qed.

Lemma irq_delivery_witness :
  let m := (irq_init (MkMachine [] [] 5)).1 in
  let h := λ (s : Z) (t : trace), (pit_on_tick s, t) in
  m_state (irq_handler (pic_vector ((pic_init []).1 ++ []) 0) (irq_register_handler 0 (Some h) m).2) = 6.
Proof.
  intros m h.
  pose proof (irq_delivery (λ v, v) (λ n, 0x1000 + u8 n) 0 [] [] m 0 h ltac:(lia)) as Hd.
  destruct Hd as (_ & _ & _ & _ & _ & Hm & _).
  - intros k. pose proof (u8_range k). unfold is_u8, is_u64 in *. lia.
  - done.
  - constructor.
  - exact (f_equal m_state Hm).
Defined.

(** The clock is programmed with the divisor for its frequency. After
    the command byte, the low and the high byte written to channel 0 make up a
    divisor between 1 and 65535; it is the whole quotient of the base frequency
    by the one asked for (100 Hz for 0) whenever that is from 19 to 1193182 Hz,
    so that the clock ticks at least as often as asked, and would tick less
    often with the next divisor; outside it is the nearest end. The handler of
    line 0 is the tick handler. *)
Theorem pit_programs_divisor {S} `{Allocator H} dev (on_tick : irq_handler_t S) frequency m x (h : H) :
  is_u32 frequency → Zlength (irq_handlers m) = 16 →
  let f := if frequency =? 0 then 100 else frequency in
  let '(ticks, m', _, _, _) := pit_init dev on_tick frequency m x h in
  ∃ lo hi r, m_trace m' = m_trace m ++ [Out PIT_COMMAND 0x36; Out PIT_CHANNEL0 lo; Out PIT_CHANNEL0 hi] ++ r ∧
    (let d := lo + 256 * hi in
     is_u8 lo ∧ is_u8 hi ∧ 1 <= d <= 65535 ∧
     (19 <= f <= PIT_BASE_FREQUENCY → d * f <= PIT_BASE_FREQUENCY < (d + 1) * f) ∧
     (f < 19 → d = 65535) ∧ (PIT_BASE_FREQUENCY < f → d = 1)) ∧
    arr_get (irq_handlers m') 0 = Some on_tick ∧ ticks = 0.
Proof.
  intros Hf Hl. cbv zeta. unfold pit_init. set (f := if frequency =? 0 then 100 else frequency). set (d := pit_divisor f).
  assert (Hfp : 1 <= f) by (unfold f, is_u32 in *; case_if; btests; lia).
  pose proof (pit_divisor_ok f Hfp) as Hd. fold d in Hd.
  destruct (device_register _ _ _ _ x h) as [[[i x'] h'] o].
  change (Z.land d 0xFF) with (Z.land d (Z.ones 8)). change (Z.land (Z.shiftr d 8) 0xFF) with (Z.land (Z.shiftr d 8) (Z.ones 8)).
  rewrite !Z.land_ones, Z.shiftr_div_pow2 by lia.
  exists (d mod 2 ^ 8), (d / 2 ^ 8 mod 2 ^ 8). eexists. split.
  - cbn. unfold pic_clear_mask, port_in, port_out. cbn. rewrite <- !app_assoc. unfold u8. rewrite !Z.mod_mod by lia. reflexivity.
  - assert (Heq : d mod 2 ^ 8 + 256 * (d / 2 ^ 8 mod 2 ^ 8) = d) by (destruct Hd as [Hd _]; clearbody d; clear - Hd; zlia). rewrite Heq.
    split; [|split; [apply arr_get_set_eq; change (0 <= 0 < Zlength (irq_handlers m)); lia|done]]. split; [apply u8_range|]. split; [apply u8_range|]. done.
Qed.

Lemma pit_programs_divisor_witness :
  let '(_, m', _, _, _) := pit_init sample_dev (λ (s : Z) t, (pit_on_tick s, t)) 100
                             (irq_init (MkMachine [] [] 0)).1 device_init.1 (MkArena 16 100000 []) in
  ∃ lo hi r, m_trace m' = [Out PIT_COMMAND 0x36; Out PIT_CHANNEL0 lo; Out PIT_CHANNEL0 hi] ++ r ∧ lo + 256 * hi = 11931.
Proof.
  pose proof (pit_programs_divisor sample_dev (λ (s : Z) t, (pit_on_tick s, t)) 100
    (irq_init (MkMachine [] [] 0)).1 device_init.1 (MkArena 16 100000 [])) as Hp.
  destruct (pit_init _ _ _ _ _ _) as [[[[ticks m'] x'] h'] o].
  destruct Hp as (lo & hi & r & Ht & (_ & _ & _ & Hd & _) & _); [unfold is_u32; lia|done|].
  exists lo, hi, r. split; [exact Ht|]. specialize (Hd ltac:(unfold PIT_BASE_FREQUENCY; cbn; lia)).
  unfold PIT_BASE_FREQUENCY in Hd. cbn in Hd. lia.
Defined.
