(* ===== verification/Mouse.v ===== *)
(** * The PS/2 mouse ([src/kernel/mouse.c])

    Packets are put together from the bytes of the interrupts; the wheel
    scrolls the console. Port accesses are the traces of [Irq]. *)

From S2P Require Import Prelude CString Print Console Alloc Device Irq.

Definition PS2_DATA_PORT : Z := 0x60.
Definition PS2_STATUS_PORT : Z := 0x64.
Definition PS2_COMMAND_PORT : Z := 0x64.
Definition PS2_STATUS_OUTPUT_FULL : Z := 0x01.
Definition PS2_STATUS_INPUT_FULL : Z := 0x02.
Definition PS2_CMD_READ_CONFIG : Z := 0x20.
Definition PS2_CMD_WRITE_CONFIG : Z := 0x60.
Definition PS2_CMD_ENABLE_AUX : Z := 0xA8.
Definition PS2_CMD_WRITE_AUX : Z := 0xD4.
Definition MOUSE_ACK : Z := 0xFA.
Definition MOUSE_CMD_SET_DEFAULTS : Z := 0xF6.
Definition MOUSE_CMD_ENABLE_REPORTING : Z := 0xF4.
Definition MOUSE_CMD_SET_SAMPLE_RATE : Z := 0xF3.
Definition MOUSE_CMD_GET_DEVICE_ID : Z := 0xF2.

Record mouse := MkMouse {
  mouse_packet : list Z;
  mouse_packet_index : Z;
  mouse_packet_size : Z;
  mouse_has_wheel : Z;
  packets_received : Z;
  wheel_events : Z;
  wheel_position : Z
}.

(** ** The controller *)

Section Ps2.
Context (dev : trace → Z → Z).

(** The loops poll at most 100000 times. *)
Fixpoint wait_input_loop (fuel : nat) (t : trace) : trace :=
  match fuel with
  | O => t
  | S fuel' =>
      let '(status, t) := port_in dev PS2_STATUS_PORT t in
      if Z.land status PS2_STATUS_INPUT_FULL =? 0 then t else wait_input_loop fuel' t
  end.
Definition ps2_wait_input_empty (t : trace) : trace := wait_input_loop (Z.to_nat 100000) t.

Fixpoint wait_output_loop (fuel : nat) (t : trace) : bool * trace :=
  match fuel with
  | O => (false, t)
  | S fuel' =>
      let '(status, t) := port_in dev PS2_STATUS_PORT t in
      if status &? PS2_STATUS_OUTPUT_FULL then (true, t) else wait_output_loop fuel' t
  end.
Definition ps2_wait_output_full (t : trace) : bool * trace := wait_output_loop (Z.to_nat 100000) t.

Definition ps2_write_command (command : Z) (t : trace) : trace :=
  port_out PS2_COMMAND_PORT command (ps2_wait_input_empty t).
Definition ps2_write_data (data : Z) (t : trace) : trace := port_out PS2_DATA_PORT data (ps2_wait_input_empty t).

Definition ps2_read_data (t : trace) : Z * trace :=
  let '(full, t) := ps2_wait_output_full t in
  if negb full then (0, t) else port_in dev PS2_DATA_PORT t.

Definition mouse_write (value : Z) (t : trace) : trace :=
  ps2_write_data value (ps2_write_command PS2_CMD_WRITE_AUX t).
Definition mouse_read_ack (t : trace) : Z * trace := ps2_read_data t.

Definition mouse_send_command (command : Z) (t : trace) : bool * trace :=
  let '(a, t) := mouse_read_ack (mouse_write command t) in (a =? MOUSE_ACK, t).

Definition mouse_set_sample_rate (rate : Z) (t : trace) : bool * trace :=
  let '(ok, t) := mouse_send_command MOUSE_CMD_SET_SAMPLE_RATE t in
  if negb ok then (false, t)
  else let '(a, t) := mouse_read_ack (mouse_write rate t) in (a =? MOUSE_ACK, t).

Definition mouse_get_device_id (t : trace) : Z * trace :=
  let '(ok, t) := mouse_send_command MOUSE_CMD_GET_DEVICE_ID t in
  if negb ok then (0, t) else ps2_read_data t.

(** The two statics the detection sets. *)
Definition mouse_try_enable_wheel (t : trace) : Z * Z * trace :=
  let '(_, t) := mouse_set_sample_rate 200 t in
  let '(_, t) := mouse_set_sample_rate 100 t in
  let '(_, t) := mouse_set_sample_rate 80 t in
  let '(id, t) := mouse_get_device_id t in
  if id =? 3 then (1, 4, t) else (0, 3, t).

(** ** Packets *)

Definition mouse_decode_wheel (raw : Z) : Z :=
  let value := s8 (Z.land raw 0x0F) in
  if value &? 0x08 then s8 (Z.lor value 0xF0) else value.

Definition mouse_handle_packet (m : mouse) (c : console) : mouse * console :=
  let m := MkMouse (mouse_packet m) (mouse_packet_index m) (mouse_packet_size m) (mouse_has_wheel m)
             (u32 (packets_received m + 1)) (wheel_events m) (wheel_position m) in
  if Z.land (arr_get (mouse_packet m) 0) 0x08 =? 0 then (m, c)
  else if (mouse_has_wheel m =? 0) || (mouse_packet_size m <? 4) then (m, c)
  else
    let wheel := mouse_decode_wheel (arr_get (mouse_packet m) 3) in
    if wheel =? 0 then (m, c)
    else
      (MkMouse (mouse_packet m) (mouse_packet_index m) (mouse_packet_size m) (mouse_has_wheel m)
         (packets_received m) (u32 (wheel_events m + 1)) (s32 (wheel_position m + wheel)),
       if 0 <? wheel then console_scroll_line_down c else console_scroll_line_up c).

(** The part of the handler that has read a byte. *)
Definition mouse_on_byte (data : Z) (m : mouse) (c : console) : mouse * console :=
  if (mouse_packet_index m =? 0) && (Z.land data 0x08 =? 0) then (m, c)
  else
    let m := MkMouse (arr_set (mouse_packet m) (mouse_packet_index m) data) (u32 (mouse_packet_index m + 1))
               (mouse_packet_size m) (mouse_has_wheel m) (packets_received m) (wheel_events m) (wheel_position m) in
    if mouse_packet_size m <=? mouse_packet_index m then
      mouse_handle_packet (MkMouse (mouse_packet m) 0 (mouse_packet_size m) (mouse_has_wheel m)
                             (packets_received m) (wheel_events m) (wheel_position m)) c
    else (m, c).

Definition mouse_on_irq : irq_handler_t (mouse * console) := λ '(m, c) t,
  let '(status, t) := port_in dev PS2_STATUS_PORT t in
  if Z.land status PS2_STATUS_OUTPUT_FULL =? 0 then ((m, c), t)
  else
    let '(data, t) := port_in dev PS2_DATA_PORT t in
    (mouse_on_byte data m c, t).

(** ** Initialisation *)

(** [on_irq] is [mouse_on_irq] on the kernel's state. *)
Definition mouse_init {K} `{Allocator H} (on_irq : irq_handler_t K) (packet : list Z)
    (m : machine K) (x : devices) (h : H) : mouse * machine K * devices * H * output :=
  let t := ps2_write_command PS2_CMD_ENABLE_AUX (m_trace m) in
  let t := ps2_write_command PS2_CMD_READ_CONFIG t in
  let '(config, t) := ps2_read_data t in
  let config := u8 (Z.lor config 0x02) in
  let config := u8 (Z.land config (Z.lnot 0x20)) in
  let t := ps2_write_command PS2_CMD_WRITE_CONFIG t in
  let t := ps2_write_data config t in
  let '(_, t) := mouse_send_command MOUSE_CMD_SET_DEFAULTS t in
  let '(has_wheel, size, t) := mouse_try_enable_wheel t in
  let '(_, t) := mouse_send_command MOUSE_CMD_ENABLE_REPORTING t in
  let '(_, m) := irq_register_handler 12 (Some on_irq) (MkMachine (irq_handlers m) t (m_state m)) in
  let t := pic_clear_mask dev 12 (pic_clear_mask dev 2 (m_trace m)) in
  let '(_, x, h, o) := device_register (Some (s2z "mouse0")) DEVICE_TYPE_INPUT DEVICE_STATE_READY
                         (Some (if negb (has_wheel =? 0) then s2z "ps2-wheel-mouse" else s2z "ps2-mouse")) x h in
  (MkMouse packet 0 size has_wheel 0 0 0, MkMachine (irq_handlers m) t (m_state m), x, h,
   o ++ if negb (has_wheel =? 0)
        then color_line "PS/2 mouse initialized with wheel support" COLOR_GREEN_ON_BLACK
        else color_line "PS/2 mouse initialized without wheel support" COLOR_YELLOW_ON_BLACK).
End Ps2.

Definition print_s32 (value : Z) : output :=
  if value <? 0 then prints "-" ++ print_dec64 (u64 (s32 (- value))) else print_dec64 (u64 value).

Definition cmd_mouseinfo (m : mouse) : output :=
  prints "mouse packet size = " ++ print_dec64 (mouse_packet_size m) ++ newline ++
  prints "mouse has wheel = " ++ print_dec64 (mouse_has_wheel m) ++ newline ++
  prints "mouse packets = " ++ print_dec64 (packets_received m) ++ newline ++
  prints "mouse wheel events = " ++ print_dec64 (wheel_events m) ++ newline ++
  prints "mouse wheel position = " ++ print_s32 (wheel_position m) ++ newline ++
  prints "mouse scroll direction = natural" ++ newline.

(** ** What the bytes mean *)

(** The packet buffer is never overrun, and the packet size goes with the
    wheel. *)
Definition mouse_ok (m : mouse) : Prop :=
  Zlength (mouse_packet m) = 4 ∧
  (mouse_has_wheel m = 0 ∧ mouse_packet_size m = 3 ∨ mouse_has_wheel m = 1 ∧ mouse_packet_size m = 4) ∧
  0 <= mouse_packet_index m < mouse_packet_size m.

(** At an interrupt the controller shows a byte. *)
Definition shows (b : Z) : trace → Z → Z := λ _ port, if port =? PS2_STATUS_PORT then 1 else b.

Definition irq_bytes (bs : list Z) (s : mouse * console) : mouse * console :=
  foldl (λ s b, (mouse_on_irq (shows b) s []).1) s bs.

(** A signed nibble. *)
Definition wheel_delta (b : Z) : Z := let n := b mod 16 in if n <? 8 then n else n - 16.

(** A packet, and the bytes out of step before it. *)
Record packet := MkPacket { pk_noise : list Z; pk_0 : Z; pk_1 : Z; pk_2 : Z; pk_3 : Z }.

Definition packet_ok (p : packet) : Prop :=
  Forall (λ b, is_u8 b ∧ Z.testbit b 3 = false) (pk_noise p) ∧ Z.testbit (pk_0 p) 3 = true ∧
  is_u8 (pk_0 p) ∧ is_u8 (pk_1 p) ∧ is_u8 (pk_2 p) ∧ is_u8 (pk_3 p).

Definition packet_bytes (p : packet) : list Z := pk_noise p ++ [pk_0 p; pk_1 p; pk_2 p; pk_3 p].

Definition scroll (c : console) (delta : Z) : console :=
  if delta =? 0 then c else if 0 <? delta then console_scroll_line_down c else console_scroll_line_up c.

(** ** Lemmas *)

Lemma on_byte_ok b m c : mouse_ok m → mouse_ok (mouse_on_byte b m c).1.
Proof.
  intros (Hl & Hw & Hi). unfold mouse_on_byte. case_if; [done|]. cbn [mouse_packet_size mouse_packet_index].
  assert (Hx : u32 (mouse_packet_index m + 1) = mouse_packet_index m + 1) by (apply u32_small; unfold is_u32; lia).
  rewrite Hx. case_if; btests.
  - unfold mouse_handle_packet. cbv zeta. repeat case_if; cbn [fst];
      (split; [unfold Zlength in *; cbn; by rewrite arr_set_length|]; split; [done|cbn; lia]).
  - cbn [fst]. split; [unfold Zlength in *; cbn; by rewrite arr_set_length|]. split; [done|cbn; lia].
Qed.

Lemma mouse_init_ok {K} `{Allocator H} dev (on_irq : irq_handler_t K) pk mach x (h : H) :
  Zlength pk = 4 → mouse_ok (mouse_init dev on_irq pk mach x h).1.1.1.1.
Proof.
  intros Hl. unfold mouse_init. destruct (ps2_read_data _ _) as [cfg t1]. destruct (mouse_send_command _ _ _) as [b1 t2].
  assert (Hw : ∃ t3, mouse_try_enable_wheel dev t2 = (1, 4, t3) ∨ mouse_try_enable_wheel dev t2 = (0, 3, t3)).
  { unfold mouse_try_enable_wheel. repeat (destruct (mouse_set_sample_rate _ _ _)). destruct (mouse_get_device_id _ _).
    case_if; eauto. }
  destruct Hw as (t3 & [-> | ->]); destruct (mouse_send_command _ _ t3) as [b4 t4];
    destruct (irq_register_handler _ _ _) as [r m']; destruct (device_register _ _ _ _ _ _) as [[[i x'] h'] o];
    (split; [done|]; split; [cbn; lia|cbn; lia]).
Qed.

Lemma land8_testbit b : (Z.land b 0x08 =? 0) = negb (Z.testbit b 3).
Proof.
  apply eq_true_iff_eq. rewrite Z.eqb_eq, negb_true_iff. split; intros Hb.
  - apply (f_equal (λ x, Z.testbit x 3)) in Hb. by rewrite Z.land_spec, andb_true_r in Hb.
  - apply Z.bits_inj'. intros i Hi. rewrite Z.land_spec, Z.bits_0. change 8 with (2 ^ 3). rewrite Z.pow2_bits_eqb by lia.
    destruct (Z.eqb_spec 3 i) as [<-|]; [by rewrite Hb|apply andb_false_r].
Qed.

Lemma decode_wheel_nibble b : mouse_decode_wheel b = wheel_delta b.
Proof.
  unfold mouse_decode_wheel, wheel_delta. change 0x0F with (Z.ones 4). rewrite Z.land_ones by lia.
  change (2 ^ 4) with 16. pose proof (Z.mod_pos_bound b 16 ltac:(lia)) as Hb. set (n := b mod 16) in *. clearbody n. clear b.
  assert (Hall : Forall (λ n, (let value := s8 n in if value &? 0x08 then s8 (Z.lor value 0xF0) else value) =
                              (if n <? 8 then n else n - 16)) (seqZ 0 16))
    by (apply (bool_decide_unpack _); by vm_compute).
  apply (proj1 (Forall_forall _ _) Hall). apply elem_of_seqZ. lia.
Qed.

Lemma s32_add x y : s32 (s32 x + y) = s32 (x + y).
Proof.
  assert (Hm : (s32 x + y) mod 2 ^ 32 = (x + y) mod 2 ^ 32).
  { unfold s32, to_signed. cbv zeta. case_if; [by rewrite Z.add_mod_idemp_l|].
    replace (x mod 2 ^ 32 - 2 ^ 32 + y) with (x mod 2 ^ 32 + y + (-1) * 2 ^ 32) by lia.
    rewrite Z.mod_add by lia. by rewrite Z.add_mod_idemp_l. }
  unfold s32, to_signed in *. cbv zeta in *. by rewrite Hm.
Qed.

Lemma irq_byte b s : is_u8 b → (mouse_on_irq (shows b) s []).1 = mouse_on_byte b s.1 s.2.
Proof.
  intros Hb. destruct s as [m c]. unfold mouse_on_irq, port_in.
  change (u8 (shows b [] PS2_STATUS_PORT)) with 1. change (Z.land 1 PS2_STATUS_OUTPUT_FULL =? 0) with false.
  change (shows b ([] ++ [In PS2_STATUS_PORT 1]) PS2_DATA_PORT) with b. by rewrite u8_small.
Qed.

Lemma irq_bytes_app l1 l2 s : irq_bytes (l1 ++ l2) s = irq_bytes l2 (irq_bytes l1 s).
Proof. apply foldl_app. Qed.

Lemma noise_dropped l m c :
  Forall (λ b, is_u8 b ∧ Z.testbit b 3 = false) l → mouse_packet_index m = 0 → irq_bytes l (m, c) = (m, c).
Proof.
  intros Hl Hi. induction Hl as [|b l [Hb Ht] _ IH]; [done|]. unfold irq_bytes in *. cbn [foldl].
  rewrite irq_byte by done. assert (Hx : mouse_on_byte b m c = (m, c)).
  { unfold mouse_on_byte. by rewrite Hi, land8_testbit, Ht. }
  cbn [fst snd]. rewrite Hx. apply IH.
Qed.

(** One packet, in step. *)
Lemma packet_handled p m c :
  mouse_ok m → mouse_has_wheel m = 1 → mouse_packet_index m = 0 → packet_ok p →
  let d := wheel_delta (pk_3 p) in
  irq_bytes (packet_bytes p) (m, c) =
    (MkMouse [pk_0 p; pk_1 p; pk_2 p; pk_3 p] 0 4 1 (u32 (packets_received m + 1))
       (if d =? 0 then wheel_events m else u32 (wheel_events m + 1))
       (if d =? 0 then wheel_position m else s32 (wheel_position m + d)), scroll c d).
Proof.
  intros (Hl & Hw & _) Hwheel Hi (Hn & Ht & Hb0 & Hb1 & Hb2 & Hb3). destruct Hw as [[? _]|[_ Hs]]; [lia|]. cbv zeta.
  unfold packet_bytes. rewrite irq_bytes_app, noise_dropped by done.
  destruct m as [pk ix sz hw rc ev ps]. cbn [mouse_packet mouse_packet_index mouse_packet_size mouse_has_wheel packets_received
    wheel_events wheel_position] in *. subst ix sz hw.
  destruct pk as [|x0 [|x1 [|x2 [|x3 [|? ?]]]]]; try (unfold Zlength in Hl; cbn in Hl; lia).
  set (mk := λ l i, MkMouse l i 4 1 rc ev ps).
  assert (H0' : mouse_on_byte (pk_0 p) (mk [x0; x1; x2; x3] 0) c = (mk [pk_0 p; x1; x2; x3] 1, c))
    by (unfold mouse_on_byte; cbn [mk mouse_packet_index]; by rewrite land8_testbit, Ht).
  assert (H3 : mouse_on_byte (pk_3 p) (mk [pk_0 p; pk_1 p; pk_2 p; x3] 3) c =
               mouse_handle_packet (mk [pk_0 p; pk_1 p; pk_2 p; pk_3 p] 0) c) by reflexivity.
  unfold irq_bytes. cbn [foldl]. rewrite !irq_byte by done. cbn [fst snd].
  change (MkMouse [x0; x1; x2; x3] 0 4 1 rc ev ps) with (mk [x0; x1; x2; x3] 0). rewrite H0'. cbn [fst snd].
  change (mouse_on_byte (pk_1 p) (mk [pk_0 p; x1; x2; x3] 1) c) with (mk [pk_0 p; pk_1 p; x2; x3] 2, c). cbn [fst snd].
  change (mouse_on_byte (pk_2 p) (mk [pk_0 p; pk_1 p; x2; x3] 2) c) with (mk [pk_0 p; pk_1 p; pk_2 p; x3] 3, c). cbn [fst snd].
  rewrite H3. unfold mouse_handle_packet. cbn [mk mouse_packet mouse_packet_size mouse_has_wheel packets_received wheel_events
    wheel_position mouse_packet_index]. cbv zeta.
  change (arr_get [pk_0 p; pk_1 p; pk_2 p; pk_3 p] 0) with (pk_0 p).
  change (arr_get [pk_0 p; pk_1 p; pk_2 p; pk_3 p] 3) with (pk_3 p).
  rewrite land8_testbit, Ht, decode_wheel_nibble. unfold scroll. by destruct (wheel_delta (pk_3 p) =? 0).
Qed.

(** ** Properties *)

(** C38: the packet buffer is never overrun. Whatever the controller answers
    during [mouse_init] and at any number of interrupts, the buffer keeps its
    four bytes, the packet size is 3 or 4 as the mouse has no wheel or has one,
    and the index stays below the packet size. *)
Theorem mouse_packet_in_bounds {K} `{Allocator H} dev (on_irq : irq_handler_t K) pk mach x (h : H) devs c :
  Zlength pk = 4 →
  mouse_ok (foldl (λ s d, (mouse_on_irq d s []).1) ((mouse_init dev on_irq pk mach x h).1.1.1.1, c) devs).1.
Proof.
  intros Hl.
  pose proof (mouse_init_ok dev on_irq pk mach x h Hl) as Hi.
  generalize dependent (mouse_init dev on_irq pk mach x h).1.1.1.1. intros m Hm. revert m c Hm.
  induction devs as [|d devs IH]; intros m c Hm; [done|]. cbn [foldl].
  assert (Hs : ∃ m' c', (mouse_on_irq d (m, c) []).1 = (m', c') ∧ mouse_ok m').
  { unfold mouse_on_irq. destruct (port_in d _ _) as [st t1]. case_if; [by exists m, c|].
    destruct (port_in d _ _) as [b t2]. cbn [fst]. pose proof (on_byte_ok b m c Hm). by destruct (mouse_on_byte b m c) as [m' c']; exists m', c'. }
  destruct Hs as (m' & c' & -> & Hm'). by apply IH.
Qed.

Lemma mouse_packet_in_bounds_witness :
  mouse_ok (foldl (λ s d, (mouse_on_irq d s []).1)
    ((mouse_init (λ _ _, 0xFF) (λ (s : Z) t, (s, t)) [0; 0; 0; 0] (irq_init (MkMachine [] [] 0)).1 device_init.1
        (MkArena 16 100000 [])).1.1.1.1, sample_console) [shows 8; shows 1; shows 2; shows 3]).1.
Proof. apply mouse_packet_in_bounds. reflexivity. Defined.

(** The wheel scrolls. With a wheel, at a packet boundary, for every
    sequence of packets, each possibly preceded by bytes out of step: one
    interrupt per byte scrolls the console by one line per packet, down for a
    positive and up for a negative signed nibble in the fourth byte and not at
    all for zero; the position is the sum of the nibbles at 32 bits; and the
    packets are counted. *)
Theorem mouse_wheel_scrolls ps m c :
  mouse_ok m → mouse_has_wheel m = 1 → mouse_packet_index m = 0 → s32 (wheel_position m) = wheel_position m →
  Forall packet_ok ps →
  let ds := (λ p, wheel_delta (pk_3 p)) <$> ps in
  let '(m', c') := irq_bytes (concat (packet_bytes <$> ps)) (m, c) in
  c' = foldl scroll c ds ∧ wheel_position m' = s32 (wheel_position m + foldr Z.add 0 ds) ∧
  packets_received m' = (match ps with [] => packets_received m | _ => u32 (packets_received m + Zlength ps) end) ∧
  mouse_packet_index m' = 0.
Proof.
  intros Hm Hw Hi Hp Hps. cbv zeta. revert m c Hm Hw Hi Hp.
  induction Hps as [|p ps Hok Hps IH]; intros m c Hm Hw Hi Hp.
  { cbn. by rewrite Z.add_0_r. }
  rewrite !fmap_cons. cbn [concat foldl foldr]. rewrite irq_bytes_app, packet_handled by done. cbv zeta.
  set (d := wheel_delta (pk_3 p)). set (m1 := MkMouse _ _ _ _ _ _ _).
  assert (Hpos : wheel_position m1 = s32 (wheel_position m + d)).
  { unfold m1. cbn [wheel_position]. destruct (Z.eqb_spec d 0) as [Hd|]; [by rewrite Hd, Z.add_0_r, Hp|done]. }
  specialize (IH m1 (scroll c d)). destruct (irq_bytes (concat (packet_bytes <$> ps)) (m1, scroll c d)) as [m' c'].
  destruct IH as (Hc & Hpos' & Hrc & Hix); [|done|done| |].
  { split; [done|]. split; [by right|]. unfold m1. cbn. lia. }
  { rewrite Hpos. pose proof (s32_add (wheel_position m + d) 0) as Hs. by rewrite !Z.add_0_r in Hs. }
  split; [done|]. split; [rewrite Hpos', Hpos, s32_add; f_equal; lia|]. split; [|done].
  rewrite Hrc. unfold m1. cbn [packets_received]. destruct ps as [|p2 ps]; [by unfold Zlength|].
  unfold u32. rewrite Z.add_mod_idemp_l by lia. f_equal. unfold Zlength. cbn [length]. lia.
Qed.

Lemma mouse_wheel_scrolls_witness :
  let m := MkMouse [0; 0; 0; 0] 0 4 1 7 0 0 in
  let ps := [MkPacket [1; 2] 8 0 0 15; MkPacket [] 9 5 5 1; MkPacket [] 8 0 0 14] in
  wheel_position (irq_bytes (concat (packet_bytes <$> ps)) (m, sample_console)).1 = -2.
Proof.
  intros m ps. pose proof (mouse_wheel_scrolls ps m sample_console) as Hs.
  destruct (irq_bytes _ (m, sample_console)) as [m' c']. destruct Hs as (_ & Hp & _).
  - split; [done|]. split; [by right|]. cbn. lia.
  - done.
  - done.
  - done.
  - unfold ps.
    repeat (apply Forall_cons; split; [split; [repeat constructor; by vm_compute|repeat split; by vm_compute]|]). constructor.
  - exact Hp.
Defined.
