(* ===== verification/UserMode.v ===== *)
(** * User mode ([src/arch/x86_64/user_mode.c])

    Programs are mapped into the window from [USER_EXEC_MIN_VADDR] to
    [USER_EXEC_MAX_VADDR] of the one address space, on the page tables of [Vmm].
    The code writes frames and mapped pages byte by byte: a byte is part of a
    word of [Vmm]'s memory. The program itself runs in [ring3_enter], an
    argument here. The bytes of the file are in a block of the kernel heap, which
    is taken to be apart from the pages of the program. *)

From S2P Require Import Prelude Utils CString Bytes Print Pmm Vmm Alloc Gdt Task Vfs Ramfs Elf Process.

Definition SMOKE_STACK_SIZE : Z := 16384.
Definition USER_EXEC_PATH_MAX : Z := 128.
Definition USER_EXEC_MIN_VADDR : Z := 0x10000000.
Definition USER_EXEC_MAX_VADDR : Z := 0x80000000.
Definition USER_EXEC_STACK_SIZE : Z := 16384.
Definition USER_EXEC_STACK_TOP : Z := 0x70000000.
Definition USER_EXEC_STACK_BOTTOM : Z := USER_EXEC_STACK_TOP - USER_EXEC_STACK_SIZE.

(** ** Bytes of memory *)

(** The byte at a physical address, and its assignment. *)
Definition ld8 (st : vm) (a : Z) : Z := rdw st (a / 8 * 8) / 2 ^ (8 * (a mod 8)) mod 256.
Definition st8 (a b : Z) (st : vm) : vm :=
  let w := rdw st (a / 8 * 8) in
  wrw (a / 8 * 8) (w - ld8 st a * 2 ^ (8 * (a mod 8)) + u8 b * 2 ^ (8 * (a mod 8))) st.

(** The same through a virtual address; [None] is a page fault. *)
Definition load (v : Z) (st : vm) : option Z :=
  if vmm_get_mapping v st =? 0 then None else Some (ld8 st (mmu_addr v st)).
Definition store (v b : Z) (st : vm) : option vm :=
  if vmm_get_mapping v st =? 0 then None else Some (st8 (mmu_addr v st) b st).

(** ** Pages *)

Definition align_down (value align : Z) : Z := Z.land value (u64 (Z.lnot (u64 (align - 1)))).
Definition align_up (value align : Z) : Z := Z.land (u64 (value + align - 1)) (u64 (Z.lnot (u64 (align - 1)))).

(** The addresses of the loops [for (addr = begin; addr < end; addr += PAGE_SIZE)]. *)
Definition pages (begin end_ : Z) : list Z :=
  (λ i, begin + PAGE_SIZE * i) <$> seqZ 0 ((end_ - begin + PAGE_SIZE - 1) / PAGE_SIZE).

Definition table_from_entry (entry : Z) : Z := Z.land entry PTE_ADDR_MASK.

(** [table[index] |= PTE_USER | PTE_WRITABLE] *)
Definition open_entry (a : Z) (st : vm) : vm := wrw a (Z.lor (rdw st a) (Z.lor PTE_USER PTE_WRITABLE)) st.

Definition mark_user_page (vaddr : Z) (st : vm) : vm :=
  let pml4 := Z.land (read_cr3 st) PTE_ADDR_MASK in
  let e4 := slot pml4 (pml4_index vaddr) in
  if negb (rdw st e4 &? PTE_PRESENT) then st
  else
    let st := open_entry e4 st in
    let e3 := slot (table_from_entry (rdw st e4)) (pdpt_index vaddr) in
    if negb (rdw st e3 &? PTE_PRESENT) then st
    else
      let st := open_entry e3 st in
      if rdw st e3 &? PTE_HUGE then st
      else
        let e2 := slot (table_from_entry (rdw st e3)) (pd_index vaddr) in
        if negb (rdw st e2 &? PTE_PRESENT) then st
        else
          let st := open_entry e2 st in
          if rdw st e2 &? PTE_HUGE then st
          else
            let e1 := slot (table_from_entry (rdw st e2)) (pt_index vaddr) in
            if negb (rdw st e1 &? PTE_PRESENT) then st else open_entry e1 st.

(** Loading CR3 with its value. *)
Definition flush_tlb (st : vm) : vm := MkVm (words st) (read_cr3 st) (frames st) (flushed st) (vm_out st).

Definition mark_user_range (start size : Z) (st : vm) : vm :=
  if size =? 0 then st
  else
    let begin := align_down start PAGE_SIZE in
    let end_ := align_up (u64 (start + size)) PAGE_SIZE in
    flush_tlb (foldl (λ st addr, mark_user_page addr st) st (pages begin end_)).

Definition zero_user_page (phys_addr : Z) (st : vm) : vm :=
  foldl (λ st i, st8 (phys_addr + i) 0 st) st (seqZ 0 PAGE_SIZE).

Definition range_ok (start size : Z) : bool :=
  if size =? 0 then false
  else if (start <? USER_EXEC_MIN_VADDR) || (USER_EXEC_MAX_VADDR <=? start) then false
  else if USER_EXEC_MAX_VADDR - start <? size then false
  else true.

Definition file_range_ok (offset size file_size : Z) : bool :=
  if file_size <? offset then false
  else if file_size - offset <? size then false
  else true.

Definition unmap_range (start size : Z) (st : vm) : vm :=
  if size =? 0 then st
  else
    let begin := align_down start PAGE_SIZE in
    let end_ := align_up (u64 (start + size)) PAGE_SIZE in
    foldl (λ st addr, if negb (vmm_get_mapping addr st =? 0) then (vmm_unmap_page addr true st).2 else st)
      st (pages begin end_).

(** The loop of [map_range]. *)
Fixpoint map_pages (begin : Z) (l : list Z) (st : vm) : bool * vm :=
  match l with
  | [] => (true, st)
  | addr :: r =>
      let st := if negb (vmm_get_mapping addr st =? 0) then (vmm_unmap_page addr true st).2 else st in
      let '(phys, st) := alloc_frame st in
      if phys =? 0 then (false, unmap_range begin (addr - begin) st)
      else
        let st := zero_user_page phys st in
        let st := vmm_map_page addr phys (Z.lor PTE_USER PTE_WRITABLE) st in
        if negb (vmm_get_mapping addr st =? phys)
        then (false, unmap_range begin (addr - begin) (free_frame phys st))
        else map_pages begin r st
  end.

Definition map_range (start size : Z) (st : vm) : bool * vm :=
  if negb (range_ok start size) then (false, st)
  else
    let begin := align_down start PAGE_SIZE in
    let end_ := align_up (u64 (start + size)) PAGE_SIZE in
    let '(ok, st) := map_pages begin (pages begin end_) st in
    if negb ok then (false, st) else (true, mark_user_range begin (end_ - begin) st).

(** ** Loading *)

(** [mem_copy] to a virtual address. *)
Fixpoint copy_to (v : Z) (bytes : list Z) (st : vm) : option vm :=
  match bytes with
  | [] => Some st
  | b :: r => st ← store v b st; copy_to (v + 1) r st
  end.

(** [None] on the outside: a read outside the file or a page fault. The
    results: 0 or -1, [*mapped_begin], [*mapped_end] and the memory. *)
Definition map_load_segment (file : list Z) (ph : elf64_phdr) (mapped_begin mapped_end : Z) (st : vm)
    : option (Z * Z * Z * vm) :=
  if negb (p_type ph =? ELF_PT_LOAD) || (p_memsz ph =? 0) then Some (0, mapped_begin, mapped_end, st)
  else if p_memsz ph <? p_filesz ph then Some (-1, mapped_begin, mapped_end, st)
  else if negb (file_range_ok (p_offset ph) (p_filesz ph) (Zlength file)) then Some (-1, mapped_begin, mapped_end, st)
  else if negb (range_ok (p_vaddr ph) (p_memsz ph)) then Some (-1, mapped_begin, mapped_end, st)
  else
    let begin := align_down (p_vaddr ph) PAGE_SIZE in
    let end_ := align_up (u64 (p_vaddr ph + p_memsz ph)) PAGE_SIZE in
    let '(ok, st) := map_range (p_vaddr ph) (p_memsz ph) st in
    if negb ok then Some (-1, mapped_begin, mapped_end, st)
    else
      st ← (if 0 <? p_filesz ph
            then data ← slice file (p_offset ph) (p_filesz ph); copy_to (p_vaddr ph) data st
            else Some st);
      Some (0, if (mapped_begin =? 0) || (begin <? mapped_begin) then begin else mapped_begin,
            if mapped_end <? end_ then end_ else mapped_end, st).

(** The loop over the program headers; [false] when one failed. *)
Fixpoint load_segments (n : nat) (i : Z) (file : list Z) (e_phoff e_phentsize : Z) (mapped_begin mapped_end : Z) (st : vm)
    : option (bool * Z * Z * vm) :=
  match n with
  | O => Some (true, mapped_begin, mapped_end, st)
  | S n' =>
      ph ← read_phdr file (u64 (e_phoff + i * e_phentsize));
      '(r, mapped_begin, mapped_end, st) ← map_load_segment file ph mapped_begin mapped_end st;
      if negb (r =? 0) then Some (false, mapped_begin, mapped_end, st)
      else load_segments n' (i + 1) file e_phoff e_phentsize mapped_begin mapped_end st
  end.

Definition unmap_image (mapped_begin mapped_end : Z) (st : vm) : vm :=
  if negb (mapped_begin =? 0) && (mapped_begin <? mapped_end)
  then unmap_range mapped_begin (mapped_end - mapped_begin) st else st.

Definition validate_elf (file : list Z) : option bool :=
  if Zlength file <? sizeof_ehdr then Some false
  else
    i0 ← rd 1 file 0; i1 ← rd 1 file 1; i2 ← rd 1 file 2; i3 ← rd 1 file 3;
    i4 ← rd 1 file 4; i5 ← rd 1 file 5; i6 ← rd 1 file 6;
    e_type ← rd 2 file 16; e_machine ← rd 2 file 18; e_version ← rd 4 file 20;
    e_phoff ← rd 8 file 32; e_phentsize ← rd 2 file 54; e_phnum ← rd 2 file 56;
    if negb (i0 =? 0x7F) || negb (i1 =? 69) || negb (i2 =? 76) || negb (i3 =? 70) then Some false
    else if negb (i4 =? ELF_CLASS_64) || negb (i5 =? ELF_DATA_LSB) || negb (i6 =? ELF_VERSION_CURRENT) then Some false
    else if negb (e_type =? ELF_TYPE_EXEC) || negb (e_machine =? ELF_MACHINE_X86_64) then Some false
    else if negb (e_version =? ELF_VERSION_CURRENT) then Some false
    else if negb (e_phentsize =? sizeof_phdr) || (e_phnum =? 0) then Some false
    else Some (file_range_ok e_phoff (u64 (e_phentsize * e_phnum)) (Zlength file)).

(** The same function as the ELF loader's. *)
Definition read_file `{Allocator H, TtyDevice W} (path : cstr) (s : fs) (h : H) (w : W) : option (Z * list Z) * H * W :=
  match vfs_lookup s path with
  | None => (None, h, w)
  | Some node =>
      if decide (type_of s node ≠ VFS_NODE_FILE) then (None, h, w)
      else if size_of s node =? 0 then (None, h, w)
      else
        let '(buffer, h) := k_alloc (size_of s node) h in
        if buffer =? 0 then (None, h, w)
        else
          let '(bytes, w) := vfs_read (Some node) 0 true (size_of s node) s w in
          if negb (Zlength bytes =? size_of s node) then (None, k_free buffer h, w)
          else (Some (buffer, bytes), h, w)
  end.

(** ** Running a program *)

Definition with_saved_rsp (r : Z) (t : task) : task :=
  MkTask (id t) (name t) (state t) (wake_tick t) (Task.rsp t) (stack t) (stack_size t) (Task.entry t) (arg t) r (wait_next t).

(** The current task, whose slot [task_current_user_context] gives. *)
Definition task_current_user_context (s : sched) : option nat := current_task s.

Section Run.
(** From the entry point and the stack to the exit code: the program runs, and
    with it whatever system calls and other tasks do to memory and scheduler. *)
Context (ring3_enter : Z → Z → vm → sched → Z * vm * sched).

(** [user_mode_run_path] once the file is in memory. The results: 0 or -1, the
    exit code, memory, scheduler and heap. *)
Definition run_image `{Allocator H} (buffer : Z) (file : list Z) (st : vm) (s : sched) (h : H)
    : option (Z * Z * vm * sched * H) :=
  ok ← validate_elf file;
  if negb ok then Some (-1, 0, st, s, k_free buffer h)
  else
    e_entry ← rd 8 file 24; e_phoff ← rd 8 file 32; e_phentsize ← rd 2 file 54; e_phnum ← rd 2 file 56;
    if negb (range_ok e_entry 1) then Some (-1, 0, st, s, k_free buffer h)
    else
      '(ok, mapped_begin, mapped_end, st) ← load_segments (Z.to_nat e_phnum) 0 file e_phoff e_phentsize 0 0 st;
      if negb ok then Some (-1, 0, unmap_image mapped_begin mapped_end st, s, k_free buffer h)
      else
        let '(ok, st) := map_range USER_EXEC_STACK_BOTTOM USER_EXEC_STACK_SIZE st in
        if negb ok then Some (-1, 0, unmap_image mapped_begin mapped_end st, s, k_free buffer h)
        else
          let st := vm_print (prints "entry = " ++ print_hex64 e_entry ++ newline ++
                              prints "user stack = " ++ print_hex64 USER_EXEC_STACK_BOTTOM ++ prints " - " ++
                              print_hex64 USER_EXEC_STACK_TOP ++ newline) st in
          let h := k_free buffer h in
          match task_current_user_context s with
          | None =>
              let st := vm_print (prints "user_mode_run_path: no current task for ring3 enter" ++ newline) st in
              let st := unmap_range USER_EXEC_STACK_BOTTOM USER_EXEC_STACK_SIZE st in
              Some (-1, 0, unmap_image mapped_begin mapped_end st, s, h)
          | Some i =>
              let st := vm_print (prints "entering user ELF..." ++ newline) st in
              let '(exit_code, st, s) := ring3_enter e_entry USER_EXEC_STACK_TOP st s in
              let s := upd i (with_saved_rsp 0) s in
              let st := unmap_range USER_EXEC_STACK_BOTTOM USER_EXEC_STACK_SIZE st in
              Some (0, exit_code, unmap_image mapped_begin mapped_end st, s, h)
          end.

Definition user_mode_run_path `{Allocator H, TtyDevice W} (path : cstr) (f : fs) (st : vm) (s : sched) (h : H) (w : W)
    : option (Z * Z * vm * sched * H * W) :=
  let '(file, h, w) := read_file path f h w in
  match file with
  | None => Some (-1, 0, st, s, h, w)
  | Some (buffer, bytes) =>
      '(r, code, st, s, h) ← run_image buffer bytes st s h; Some (r, code, st, s, h, w)
  end.
End Run.

(** ** Commands *)

Definition print_result (command_name target : cstr) (exit_code : Z) : output :=
  prints "returned from user ELF" ++ newline ++ print command_name ++ prints ": " ++ print target ++
  prints " exited with code " ++ print_dec64 exit_code ++ newline.

(** [run_command] in two parts: until it waits, and each time it looks at the
    process; [None] is another round of waiting. *)
Definition run_start `{Allocator H} (ent : Z) (command_name target : cstr) (x : proctab) (s : sched) (h : H)
    : Z * proctab * sched * H * output :=
  let '(pid, x, s, h, o) := process_create ent (Some target) x s h in
  (pid, x, s, h,
   prints "loading user ELF: " ++ print target ++ newline ++ o ++
   if pid =? 0 then print command_name ++ prints ": failed to create process" ++ newline
   else prints "pid = " ++ print_dec64 pid ++ newline).

Definition run_wait (pid : Z) (command_name target : cstr) (x : proctab) : option output * proctab :=
  let '(r, x) := process_wait pid x in
  ((λ '(result, exit_code),
      if negb (result =? PROCESS_WAIT_OK) then print command_name ++ prints ": failed to run user ELF" ++ newline
      else print_result command_name target exit_code) <$> r, x).

(** This file's copy of the function. *)
Definition copy_first_arg (args : option cstr) (out_size : Z) : bool * cstr := c_copy_first_arg args out_size.

(** The path a command runs; [None] is the usage message. *)
Definition initrun_target (args : option cstr) : cstr :=
  let '(found, path) := copy_first_arg args USER_EXEC_PATH_MAX in if found : bool then path else s2z "/bin/init".
Definition exec_target (args : option cstr) : option cstr :=
  let '(found, path) := copy_first_arg args USER_EXEC_PATH_MAX in if found : bool then Some path else None.

(** ** The program inside the kernel *)

(** Addresses in the kernel's image. *)
Record smoke := MkSmoke {
  ring3_user_entry : Z; ring3_user_blob_start : Z; ring3_user_blob_end : Z; smoke_stack : Z
}.

Definition user_mode_stack_bottom (m : smoke) : Z := smoke_stack m.
Definition user_mode_stack_top (m : smoke) : Z := smoke_stack m + SMOKE_STACK_SIZE.
Definition user_mode_entry_address (m : smoke) : Z := ring3_user_entry m.
Definition user_mode_blob_start (m : smoke) : Z := ring3_user_blob_start m.
Definition user_mode_blob_end (m : smoke) : Z := ring3_user_blob_end m.

(** The results: [ready], memory and the text. *)
Definition user_mode_init (m : smoke) (st : vm) : Z * vm * output :=
  let st := mark_user_range (ring3_user_blob_start m) (ring3_user_blob_end m - ring3_user_blob_start m) st in
  let st := mark_user_range (smoke_stack m) SMOKE_STACK_SIZE st in
  (1, st, color_line "Ring3 user mode smoke test prepared" COLOR_GREEN_ON_BLACK).

Definition cmd_ring3info (ready : Z) (m : smoke) (g : Gdt.segments) : output :=
  prints "ring3 ready = " ++ print_dec64 ready ++ newline ++
  prints "entry = " ++ print_hex64 (user_mode_entry_address m) ++ newline ++
  prints "blob start = " ++ print_hex64 (user_mode_blob_start m) ++ newline ++
  prints "blob end = " ++ print_hex64 (user_mode_blob_end m) ++ newline ++
  prints "stack bottom = " ++ print_hex64 (user_mode_stack_bottom m) ++ newline ++
  prints "stack top = " ++ print_hex64 (user_mode_stack_top m) ++ newline ++
  prints "user CS = " ++ print_hex64 GDT_USER_CODE_SELECTOR ++ newline ++
  prints "user DS = " ++ print_hex64 GDT_USER_DATA_SELECTOR ++ newline ++
  prints "kernel rsp0 = " ++ print_hex64 (gdt_tss_rsp0 g) ++ newline.

Definition cmd_ring3test (ring3_enter : Z → Z → vm → sched → Z * vm * sched) (ready : Z) (m : smoke) (st : vm) (s : sched)
    : vm * sched * output :=
  if ready =? 0 then (st, s, prints "ring3 is not ready" ++ newline)
  else
    match task_current_user_context s with
    | None => (st, s, prints "ring3test: no current task" ++ newline)
    | Some i =>
        let '(exit_code, st, s) := ring3_enter (user_mode_entry_address m) (user_mode_stack_top m) st s in
        (st, upd i (with_saved_rsp 0) s,
         prints "entering ring3..." ++ newline ++ prints "returned from ring3" ++ newline ++
         prints "exit code = " ++ print_dec64 exit_code ++ newline)
    end.
