(* ===== verification/UserSpace.v ===== *)
(** * User mode: the invariant of the address space

    The programs' pages are leaves of the page tables: page-table entries that
    lead to frames which are neither tables nor free, each to its own. The
    operations of [UserMode] keep that, and change bytes only in frames that
    they have just taken. *)

From S2P Require Import Prelude Utils CString Bytes Print Pmm Vmm Alloc Task Vfs Ramfs Elf Process UserMode.

(** ** Bytes and words *)

Lemma pow_split a b : 0 <= a <= b → 2 ^ (8 * b) = 2 ^ (8 * (b - a)) * 2 ^ (8 * a).
Proof. intros H. rewrite <- Z.pow_add_r by lia. f_equal. lia. Qed.

Lemma byte_replace w y j k :
  0 <= j < 8 → 0 <= k < 8 → 0 <= y < 256 →
  let w' := w - w / 2 ^ (8 * k) mod 256 * 2 ^ (8 * k) + y * 2 ^ (8 * k) in
  w' / 2 ^ (8 * j) mod 256 = if j =? k then y else w / 2 ^ (8 * j) mod 256.
Proof.
  intros Hj Hk Hy. cbv zeta. set (P := λ n, 2 ^ (8 * n)).
  assert (HP : ∀ n, 0 <= n → 0 < P n) by (intros; apply Z.pow_pos_nonneg; lia).
  set (x := w / 2 ^ (8 * k) mod 256). set (q := w / 2 ^ (8 * k) / 256). set (lo := w mod 2 ^ (8 * k)).
  assert (Hw : w = (256 * q + x) * P k + lo).
  { unfold q, x, lo, P. rewrite <- Z.div_mod by lia. rewrite (Z.mul_comm (w / _)). apply Z.div_mod.
    pose proof (HP k ltac:(lia)). unfold P in *. lia. }
  assert (Hlo : 0 <= lo < P k) by (apply Z.mod_pos_bound, HP; lia).
  replace (w - x * 2 ^ (8 * k) + y * 2 ^ (8 * k)) with ((256 * q + y) * P k + lo) by (unfold P in *; lia).
  pose proof (HP j ltac:(lia)). pose proof (HP k ltac:(lia)).
  destruct (Z.eqb_spec j k) as [->|Hne].
  - fold (P k). rewrite Z.div_add_l, (Z.div_small lo) by lia. rewrite Z.add_0_r.
    rewrite Z.add_comm, Z.mul_comm, Z.mod_add by lia. by apply Z.mod_small.
  - fold (P j). destruct (Z_lt_le_dec j k) as [Hlt|Hge].
    + assert (HPk : P k = 256 * P (k - j - 1) * P j).
      { unfold P. change 256 with (2 ^ 8). rewrite <- !Z.pow_add_r by lia. f_equal. lia. }
      rewrite Hw at 1. rewrite HPk.
      replace ((256 * q + y) * (256 * P (k - j - 1) * P j) + lo) with (lo + (256 * q + y) * 256 * P (k - j - 1) * P j) by lia.
      replace ((256 * q + x) * (256 * P (k - j - 1) * P j) + lo) with (lo + (256 * q + x) * 256 * P (k - j - 1) * P j) by lia.
      rewrite !Z.div_add by lia.
      replace ((256 * q + y) * 256 * P (k - j - 1)) with ((256 * q + y) * P (k - j - 1) * 256) by lia.
      replace ((256 * q + x) * 256 * P (k - j - 1)) with ((256 * q + x) * P (k - j - 1) * 256) by lia.
      by rewrite !Z.mod_add by lia.
    + assert (HPj : P j = P k * 256 * P (j - k - 1)).
      { unfold P. change 256 with (2 ^ 8). rewrite <- !Z.pow_add_r by lia. f_equal. lia. }
      pose proof (HP (j - k - 1) ltac:(lia)).
      assert (Hdiv : ∀ z, 0 <= z < 256 → ((256 * q + z) * P k + lo) / P j = q / P (j - k - 1)).
      { intros z Hz. rewrite HPj, <- !Z.div_div by lia. rewrite Z.div_add_l, (Z.div_small lo), Z.add_0_r by lia.
        f_equal. rewrite Z.mul_comm, Z.div_add_l, (Z.div_small z) by lia. lia. }
      rewrite Hw at 1. rewrite !Hdiv; [done| |done]. apply Z.mod_pos_bound. lia.
Qed.

Lemma ld8_st8 a b st c : ld8 (st8 a b st) c = if c =? a then u8 b else ld8 st c.
Proof.
  unfold ld8, st8. rewrite rdw_wrw. destruct (Z.eqb_spec (c / 8 * 8) (a / 8 * 8)) as [Hw|Hw].
  - rewrite Hw. unfold ld8. pose proof (Z.mod_pos_bound c 8). pose proof (Z.mod_pos_bound a 8).
    rewrite byte_replace; [|lia|lia|apply u8_range].
    destruct (Z.eqb_spec (c mod 8) (a mod 8)), (Z.eqb_spec c a); try done; exfalso; zlia.
  - destruct (Z.eqb_spec c a) as [->|]; done.
Qed.

Lemma rdw_st8 a b st c : c ≠ a / 8 * 8 → rdw (st8 a b st) c = rdw st c.
Proof. intros Hc. unfold st8. by rewrite rdw_wrw, (proj2 (Z.eqb_neq _ _)). Qed.

(** The bytes of a page. *)
Definition frame_of (a : Z) : Z := a / 4096 * 4096.

Lemma frame_word a : frame_of (a / 8 * 8) = frame_of a.
Proof. unfold frame_of. zlia. Qed.

(** Two memories that agree except in a set of pages. *)
Definition agree (P : Z → Prop) (st st' : vm) : Prop :=
  cr3 st' = cr3 st ∧ ∀ a, ¬ P (frame_of a) → rdw st' a = rdw st a.

Lemma st8_agree a b st : agree (λ f, f = frame_of a) st (st8 a b st).
Proof. split; [done|]. intros c Hc. apply rdw_st8. intros ->. by rewrite frame_word in Hc. Qed.

Lemma agree_ld8 P st st' a : agree P st st' → ¬ P (frame_of a) → ld8 st' a = ld8 st a.
Proof. intros [_ Hw] Ha. unfold ld8. rewrite Hw; [done|]. by rewrite frame_word. Qed.

Lemma agree_trans P Q st1 st2 st3 : agree P st1 st2 → agree Q st2 st3 → agree (λ f, P f ∨ Q f) st1 st3.
Proof. intros [C1 W1] [C2 W2]. split; [congruence|]. intros a Ha. rewrite W2, W1; tauto. Qed.

Lemma agree_weaken (P Q : Z → Prop) st st' : agree P st st' → (∀ f, P f → Q f) → agree Q st st'.
Proof. intros [C W] H. split; [done|]. intros a Ha. apply W. auto. Qed.

Lemma zero_user_page_spec f st :
  f mod 4096 = 0 →
  let st' := zero_user_page f st in
  frames st' = frames st ∧ flushed st' = flushed st ∧ vm_out st' = vm_out st ∧ agree (λ g, g = f) st st' ∧
  ∀ a, frame_of a = f → ld8 st' a = 0.
Proof.
  intros Hf. unfold zero_user_page.
  assert (Hgen : ∀ n, (n <= 4096)%nat → let st' := foldl (λ st i, st8 (f + i) 0 st) st (seqZ 0 (Z.of_nat n)) in
    frames st' = frames st ∧ flushed st' = flushed st ∧ vm_out st' = vm_out st ∧ agree (λ g, g = f) st st' ∧
    ∀ a, f <= a < f + Z.of_nat n → ld8 st' a = 0).
  { induction n as [|n IH]; intros Hn; cbv zeta.
    { split; [done|]. split; [done|]. split; [done|]. split; [by split|]. intros a Ha. lia. }
    rewrite seqZ_S, foldl_app. cbn [foldl]. destruct IH as (F1 & F2 & F3 & F4 & F5); [lia|].
    split; [done|]. split; [done|]. split; [done|]. split.
    - eapply agree_weaken; [eapply agree_trans; [exact F4|apply st8_agree]|]. intros g [?|Hg]; [done|].
      rewrite Hg. unfold frame_of. zlia.
    - intros a Ha. rewrite ld8_st8. case_if; btests; [done|]. apply F5. lia. }
  destruct (Hgen 4096%nat (reflexivity _)) as (F1 & F2 & F3 & F4 & F5). change (Z.of_nat 4096) with PAGE_SIZE in *.
  do 4 (split; [done|]). intros a Ha. apply F5. unfold frame_of, PAGE_SIZE in *. zlia.
Qed.

(** ** Translations up to the flags of their entries *)

Definition weq (w1 w2 : walk_result) : Prop :=
  match w1, w2 with
  | WNone, WNone => True
  | WHuge l1 e1, WHuge l2 e2 => l1 = l2 ∧ Z.land e1 PTE_ADDR_MASK = Z.land e2 PTE_ADDR_MASK
  | WPage e1, WPage e2 => Z.land e1 PTE_ADDR_MASK = Z.land e2 PTE_ADDR_MASK
  | _, _ => False
  end.

#[export] Instance weq_equiv : Equivalence weq.
Proof.
  split.
  - by intros [| |].
  - intros [| |] [| |]; cbn; try done. intros [-> ->]. done.
  - intros [| |] [| |] [| |]; cbn; try done; [intros [-> ->] [-> ->]; done|congruence].
Qed.

#[export] Instance decode_proper v : Proper (weq ==> eq) (decode v).
Proof. intros [| |] [| |]; cbn; try done; [by intros [-> ->]|by intros ->]. Qed.

Abbreviation wk st v := (walk 4 st (root st) v).

Definition is_huge (w : walk_result) : Prop := match w with WHuge _ _ => True | _ => False end.

#[export] Instance is_huge_proper : Proper (weq ==> iff) is_huge.
Proof. intros [| |] [| |]; cbn; tauto. Qed.

(** ** The invariant *)

(** A frame that holds a page: no table, and not free. *)
Definition leaf_frame (st : vm) (own : owners) (f : Z) : Prop :=
  own !! f = None ∧ 0 < f < 2 ^ 52 ∧ f mod 4096 = 0 ∧ f / 4096 ∉ free_list (frames st).

Record space_ok (st : vm) (own : owners) : Prop := {
  so_tables : tables_ok st own;
  so_leaf : ∀ v e, is_u64 v → wk st v = WPage e → leaf_frame st own (Z.land e PTE_ADDR_MASK);
  so_inj : ∀ v1 v2 e1 e2, is_u64 v1 → is_u64 v2 → wk st v1 = WPage e1 → wk st v2 = WPage e2 →
    Z.land e1 PTE_ADDR_MASK = Z.land e2 PTE_ADDR_MASK → page_no v1 = page_no v2
}.

(** The page of [a] has a frame of its own. *)
Record mine (st : vm) (own : owners) (a f : Z) : Prop := {
  mi_map : vmm_get_mapping a st = f;
  mi_leaf : leaf_frame st own f;
  mi_only : ∀ v e, is_u64 v → wk st v = WPage e → Z.land e PTE_ADDR_MASK = f → page_no v = page_no a
}.

(** What an operation leaves alone outside the pages [X]: translations, the
    pages that have a frame of their own, and their bytes. *)
Record eff (X : Z → Prop) (st : vm) (own : owners) (st' : vm) (own' : owners) : Prop := {
  ef_ok : space_ok st' own';
  ef_walk : ∀ v, is_u64 v → ¬ X (page_no v) → weq (wk st' v) (wk st v);
  ef_huge : ∀ v, is_u64 v → is_huge (wk st v) ∨ is_huge (wk st' v) → weq (wk st' v) (wk st v);
  ef_mine : ∀ a f, is_u64 a → ¬ X (page_no a) → mine st own a f → mine st' own' a f;
  ef_byte : ∀ a f c, is_u64 a → ¬ X (page_no a) → mine st own a f → frame_of c = f → ld8 st' c = ld8 st c
}.

Lemma eff_refl X st own : space_ok st own → eff X st own st own.
Proof. intros Hs. split; [done|reflexivity..|auto|done]. Qed.

Lemma eff_trans X Y st1 o1 st2 o2 st3 o3 :
  eff X st1 o1 st2 o2 → eff Y st2 o2 st3 o3 → eff (λ p, X p ∨ Y p) st1 o1 st3 o3.
Proof.
  intros [S1 W1 H1 M1 B1] [S2 W2 H2 M2 B2]. split.
  - done.
  - intros v Hv Hx. rewrite W2, W1; [reflexivity|tauto..].
  - intros v Hv [Hh|Hh].
    + pose proof (H1 v Hv (or_introl Hh)) as E1. rewrite H2, E1; [reflexivity|done|left; by rewrite E1].
    + pose proof (H2 v Hv (or_intror Hh)) as E2. rewrite E2. apply H1; [done|]. right. by rewrite <- E2.
  - intros a f Ha Hx Hm. apply M2; [done|tauto|]. apply M1; tauto.
  - intros a f c Ha Hx Hm Hc. rewrite (B2 a f) by (try tauto; apply M1; tauto). apply (B1 a f); tauto.
Qed.

Lemma eff_weaken (X Y : Z → Prop) st own st' own' : eff X st own st' own' → (∀ p, X p → Y p) → eff Y st own st' own'.
Proof.
  intros [S W H M B] HXY. split; [done|..].
  - intros v Hv Hy. apply W; auto.
  - done.
  - intros a f Ha Hy. apply M; auto.
  - intros a f c Ha Hy. apply B; auto.
Qed.

Lemma mapping_wk st own v : space_ok st own → is_u64 v → vmm_get_mapping v st = decode v (wk st v).
Proof. intros Hs. exact (get_mapping_walk st own v (so_tables _ _ Hs)). Qed.

Lemma mapping_weq st own st' own' v :
  space_ok st own → space_ok st' own' → is_u64 v → weq (wk st' v) (wk st v) → vmm_get_mapping v st' = vmm_get_mapping v st.
Proof. intros Hs Hs' Hv Hw. rewrite (mapping_wk st own), (mapping_wk st' own') by done. by rewrite Hw. Qed.

Lemma mapping_page st own v e : space_ok st own → is_u64 v → wk st v = WPage e → vmm_get_mapping v st = Z.land e PTE_ADDR_MASK.
Proof.
  intros Hs Hv Hw. rewrite (mapping_wk st own) by done. rewrite Hw. unfold decode.
  destruct (so_leaf _ _ Hs v e Hv Hw) as (_ & Hr & _ & _).
  change (2 ^ 12 - 1) with (Z.ones 12). rewrite Z.land_ones by lia. change (2 ^ 12) with 4096.
  rewrite Z_mod_mult, Z.add_0_r. apply u64_small. unfold is_u64. lia.
Qed.

(** A page of a page-table entry has a frame of its own. *)
Lemma page_mine st own v e : space_ok st own → is_u64 v → wk st v = WPage e → mine st own v (Z.land e PTE_ADDR_MASK).
Proof.
  intros Hs Hv Hw. split.
  - by apply (mapping_page st own).
  - by apply (so_leaf _ _ Hs v).
  - intros v' e' Hv' Hw' He. by apply (so_inj _ _ Hs v' v e' e).
Qed.

(** ** Changes of memory outside the tables *)

Lemma walk_same st st' own l t p v :
  tables_ok st own → own !! t = Some (l, p) → (∀ a, own !! frame_of a ≠ None → rdw st' a = rdw st a) →
  walk l st' t v = walk l st t v.
Proof.
  intros Hok Ht Hr. apply (walk_agree st st' own v l t p Hok Ht). intros t' l' p' i Ht' Hi. left. apply Hr.
  destruct (ok_table _ _ Hok _ _ _ Ht') as (Ha & _).
  replace (frame_of (slot t' i)) with t' by (unfold frame_of, slot; zlia). by rewrite Ht'.
Qed.

Lemma tables_same st st' own :
  tables_ok st own → cr3 st' = cr3 st → frames st' = frames st →
  (∀ a, own !! frame_of a ≠ None → rdw st' a = rdw st a) → tables_ok st' own.
Proof.
  intros Hok Hc Hf Hr. pose proof Hok as [H1 H2 H3 H4 H5 H6].
  assert (Hs : ∀ t l p i, own !! t = Some (l, p) → 0 <= i < 512 → rdw st' (slot t i) = rdw st (slot t i)).
  { intros t l p i Ht Hi. apply Hr. destruct (H2 _ _ _ Ht) as (Ha & _).
    replace (frame_of (slot t i)) with t by (unfold frame_of, slot; zlia). by rewrite Ht. }
  split; rewrite ?Hc, ?Hf; try done.
  - intros t l p i Ht Hi. rewrite (Hs t (S (S l)) p) by done. by apply H3.
  - intros t l q Ht Hl. destruct (H4 t l q Ht Hl) as (t0 & Ht0 & Hx). exists t0. split; [done|].
    rewrite (Hs t0 (S l) (q / 512)); [done|done|]. apply Z.mod_pos_bound. lia.
Qed.

(** ** Operations: bytes *)

Lemma root_cr3 st st' : cr3 st' = cr3 st → root st' = root st.
Proof. unfold root. by intros ->. Qed.

Lemma eff_bytes (X P : Z → Prop) st0 own0 st own st' :
  eff X st0 own0 st own → frames st' = frames st → agree P st st' → (∀ f, P f → own !! f = None) →
  (∀ a f, is_u64 a → mine st0 own0 a f → P f → X (page_no a)) →
  eff X st0 own0 st' own ∧ ∀ v, wk st' v = wk st v.
Proof.
  intros [Hs W H M B] Hf Ha HP HX. pose proof Ha as [Hc Hw].
  assert (Hr : ∀ a, own !! frame_of a ≠ None → rdw st' a = rdw st a).
  { intros a Hn. apply Hw. intros Hp. by apply Hn, HP. }
  assert (Hwk : ∀ v, wk st' v = wk st v).
  { intros v. rewrite (root_cr3 st st' Hc). apply (walk_same st st' own 4 _ 0); [apply Hs|apply Hs|done]. }
  assert (Hleaf : ∀ f, leaf_frame st' own f ↔ leaf_frame st own f) by (intros f; unfold leaf_frame; by rewrite Hf).
  assert (Hok : space_ok st' own).
  { split; [apply (tables_same st); [apply Hs|done..]| |].
    - intros v e Hv. rewrite Hwk, Hleaf. by apply Hs.
    - intros v1 v2 e1 e2 Hv1 Hv2. rewrite !Hwk. by apply Hs. }
  split; [|done]. split; [done|..].
  - intros v Hv Hx. rewrite Hwk. by apply W.
  - intros v Hv. rewrite Hwk. by apply H.
  - intros a f Hau Hx Hm. destruct (M a f Hau Hx Hm) as [M1 M2 M3]. split.
    + rewrite <- M1. apply (mapping_weq st own st' own); [done..|by rewrite Hwk].
    + by apply Hleaf.
    + intros v e Hv. rewrite Hwk. by apply M3.
  - intros a f c Hau Hx Hm Hcf. rewrite <- (B a f c) by done. apply (agree_ld8 P); [done|]. rewrite Hcf.
    intros Hp. apply Hx. by apply (HX a f).
Qed.

(** ** Operations: giving a frame back *)

Lemma free_list_free a st own :
  tables_ok st own → 0 < a →
  ∀ g, g ∈ free_list (frames (free_frame a st)) → g ∈ free_list (frames st) ∨ g = a / 4096.
Proof.
  intros Hok Ha g. destruct (ok_pmm _ _ Hok) as (Hwf & Hbm & _ & _).
  destruct (pmm_bitmap (frames st)) as [bm|] eqn:Hb; [|done]. cbn.
  destruct (decide (frame_addr_ok (pmm_total_frames (frames st)) a)) as [Hfa|Hbad].
  2:{ rewrite (pmm_free_frame_bad _ bm) by (done || lia). by left. }
  destruct Hfa as [Hmod Hr]. unfold PAGE_SIZE in *. assert (Hae : a = a / 4096 * PAGE_SIZE) by (unfold PAGE_SIZE; zlia).
  destruct (decide (a / 4096 ∈ free_list (frames st))) as [Hin|Hnin].
  { rewrite Hae, (pmm_free_frame_again _ bm) by done. by left. }
  destruct (pmm_free_frame_spec (frames st) bm (a / 4096) Hwf Hb Hr Hnin) as (Hp & _). rewrite <- Hae in Hp.
  rewrite Hp. intros [->|?]%elem_of_cons; auto.
Qed.

Lemma eff_free (X : Z → Prop) st0 own0 st own f :
  eff X st0 own0 st own → own !! f = None → 0 < f → f mod 4096 = 0 →
  (∀ v e, is_u64 v → wk st v = WPage e → Z.land e PTE_ADDR_MASK ≠ f) →
  (∀ a, is_u64 a → mine st0 own0 a f → X (page_no a)) →
  eff X st0 own0 (free_frame f st) own.
Proof.
  intros [Hs W H M B] Hown Hf Hal Hno HX. pose proof (free_list_free f st own (so_tables _ _ Hs) Hf) as Hfl.
  assert (Hleaf : ∀ g, leaf_frame st own g → g ≠ f → leaf_frame (free_frame f st) own g).
  { intros g (L1 & L2 & L3 & L4) Hne. split; [done|]. split; [done|]. split; [done|].
    intros [Hg|Hg]%Hfl; [done|]. apply Hne. zlia. }
  assert (Hok : space_ok (free_frame f st) own).
  { split; [by apply free_frame_ok; [apply Hs|..]| |].
    - intros v e Hv Hw. apply Hleaf; [by apply (so_leaf _ _ Hs v)|by apply (Hno v)].
    - exact (so_inj _ _ Hs). }
  split; [done|exact W|exact H| |exact B].
  intros a g Ha Hx Hm. destruct (M a g Ha Hx Hm) as [M1 M2 M3]. split; [done| |done].
  apply Hleaf; [done|]. intros ->. by apply Hx, HX.
Qed.

(** ** Operations: unmapping *)

Lemma set_pte_root a e st : root (wrw a e st) = root st.
Proof. done. Qed.

(** The page-table entry of a page that is mapped by one. *)
Lemma page_pte st own v e :
  space_ok st own → is_u64 v → wk st v = WPage e →
  ∃ pt, vmm_get_pte_ptr v st = Some (slot pt (idx 0 v)) ∧ own !! pt = Some (1%nat, pre 1 v) ∧
    rdw st (slot pt (idx 0 v)) = e ∧ present e = true.
Proof.
  intros Hs Hv Hw. pose proof (get_pte_ptr_spec st own v (so_tables _ _ Hs) Hv) as Hp.
  destruct (vmm_get_pte_ptr v st) as [a|] eqn:Ha; [|by destruct (Hp e)].
  destruct Hp as (pt & -> & Hpt). exists pt. split; [done|]. split; [done|].
  rewrite (walk_page_ptr st own v _ (so_tables _ _ Hs) Hv Ha) in Hw. destruct (present (rdw st _)) eqn:Hpr; [|done].
  injection Hw as <-. done.
Qed.

Lemma align_down_u64_twice v : is_u64 v → align_down_u64 (align_down_u64 v PAGE_SIZE) PAGE_SIZE = align_down_u64 v PAGE_SIZE.
Proof.
  intros Hv. apply align_down_page_id; [apply land_range_l; [lia|done]|by apply align_down_page_bounds].
Qed.

Lemma unmap_shape st own v :
  space_ok st own → is_u64 v →
  (vmm_unmap_page v true st).2 =
    match wk st v with
    | WPage e => match vmm_get_pte_ptr v st with
                 | Some a => free_frame (Z.land e PTE_ADDR_MASK) (invlpg (align_down_u64 v PAGE_SIZE) (wrw a 0 st))
                 | None => st
                 end
    | _ => st
    end.
Proof.
  intros Hs Hv. unfold vmm_unmap_page. cbv zeta.
  assert (Hptr : vmm_get_pte_ptr (align_down_u64 v PAGE_SIZE) st = vmm_get_pte_ptr v st)
    by (unfold vmm_get_pte_ptr; by rewrite align_down_u64_twice).
  rewrite Hptr. pose proof (get_pte_ptr_spec st own v (so_tables _ _ Hs) Hv) as Hp.
  destruct (vmm_get_pte_ptr v st) as [a|] eqn:Ha.
  - pose proof (walk_page_ptr st own v a (so_tables _ _ Hs) Hv Ha) as Hw. rewrite Hw.
    destruct (present (rdw st a)) eqn:Hpr; cbn [negb]; [|done].
    destruct (so_leaf _ _ Hs v _ Hv Hw) as (_ & Hr & _ & _). rewrite (proj2 (Z.eqb_neq _ 0)) by lia. done.
  - destruct (wk st v); [done..|]. done.
Qed.

(** A walk looks at the page number only. *)
Lemma idx_page l v v' : (l < 4)%nat → page_no v' = page_no v → idx l v' = idx l v.
Proof.
  intros Hl Hp. assert (Hpre : ∀ k, (k <= 4)%nat → pre k v' = pre k v).
  { induction k as [|k IH]; intros Hk; [done|]. destruct (pre_parent k v ltac:(lia)) as [<- _].
    destruct (pre_parent k v' ltac:(lia)) as [<- _]. by rewrite IH by lia. }
  destruct (pre_parent l v Hl) as [_ <-]. destruct (pre_parent l v' Hl) as [_ <-]. by rewrite Hpre by lia.
Qed.

Lemma walk_pre l st t v v' : (l <= 4)%nat → page_no v' = page_no v → walk l st t v' = walk l st t v.
Proof.
  intros Hl Hp. revert t. induction l as [|l IH]; intros t; [done|]. cbn [walk]. rewrite (idx_page l v v') by (done || lia).
  case_if; [done|]. destruct l as [|l]; [done|]. case_if; [done|]. apply IH. lia.
Qed.

(** Writing the page-table entry of a page. *)
Lemma set_pte_wk st own pt e v v' :
  tables_ok st own → own !! pt = Some (1%nat, pre 1 v) →
  wk (wrw (slot pt (idx 0 v)) e st) v' =
    if decide (page_no v' = page_no v) then if present e then WPage e else WNone else wk st v'.
Proof.
  intros Hok Hpt. rewrite set_pte_root. case_decide as Hp; [by apply (set_pte_walk_same st own)|].
  apply (set_pte_walk_other st own); [done..|rewrite pre_4; apply Hok|lia].
Qed.

(** A page below a page table is not in a huge page. *)
Lemma pt_not_huge st own pt v : tables_ok st own → own !! pt = Some (1%nat, pre 1 v) → ¬ is_huge (wk st v).
Proof. intros Hok Hpt. rewrite (walk_chain st own pt v Hok Hpt). cbn [walk]. case_if; by intros []. Qed.

(** Page-table entries are not bytes of pages. *)
Lemma ld8_pte st own pt x v e c :
  tables_ok st own → own !! pt = Some x → own !! frame_of c = None →
  ld8 (wrw (slot pt (idx 0 v)) e st) c = ld8 st c.
Proof.
  intros Hok Hpt Hc. destruct x as [l p], (ok_table _ _ Hok _ _ _ Hpt) as (Hpa & _). unfold ld8.
  rewrite rdw_wrw, (proj2 (Z.eqb_neq _ _)); [done|]. intros Heq. pose proof (frame_word c) as Hfw. rewrite Heq in Hfw.
  pose proof (idx_range 0 v). replace (frame_of (slot pt (idx 0 v))) with pt in Hfw by (unfold frame_of, slot; zlia).
  congruence.
Qed.

(** A new entry of the page: none, or one to a frame that no other page has. *)
Lemma eff_pte (X : Z → Prop) st0 own0 st own pt v a e :
  eff X st0 own0 st own → is_u64 v → own !! pt = Some (1%nat, pre 1 v) → X (page_no v) →
  (present e = true →
     leaf_frame st own (Z.land e PTE_ADDR_MASK) ∧
     (∀ v' e', is_u64 v' → wk st v' = WPage e' → Z.land e' PTE_ADDR_MASK = Z.land e PTE_ADDR_MASK → page_no v' = page_no v) ∧
     (∀ b, is_u64 b → mine st0 own0 b (Z.land e PTE_ADDR_MASK) → X (page_no b))) →
  let st' := invlpg a (wrw (slot pt (idx 0 v)) e st) in
  eff X st0 own0 st' own ∧
  ∀ v', wk st' v' = if decide (page_no v' = page_no v) then if present e then WPage e else WNone else wk st v'.
Proof.
  intros [Hs W H M B] Hv Hpt HX Hnew st'. pose proof (so_tables _ _ Hs) as Hok. 
  assert (Hwk : ∀ v', wk st' v' = if decide (page_no v' = page_no v) then if present e then WPage e else WNone else wk st v')
    by (intros v'; exact (set_pte_wk st own pt e v v' Hok Hpt)).
  assert (Hpage : ∀ v' e', wk st' v' = WPage e' →
    page_no v' = page_no v ∧ e' = e ∧ present e = true ∨ page_no v' ≠ page_no v ∧ wk st v' = WPage e').
  { intros v' e'. rewrite Hwk. case_decide; [|by right]. case_if; [|done]. intros [= <-]. by left. }
  assert (Hs' : space_ok st' own).
  { split.
    - apply (tables_ok_ext (wrw (slot pt (idx 0 v)) e st)); [done..|]. eapply set_pte_ok; [done..|apply idx_range].
    - intros v' e' Hv' [(_ & -> & Hp)|[_ Hw]]%Hpage; [by apply Hnew|by apply (so_leaf _ _ Hs v')].
    - intros v1 v2 e1 e2 Hv1 Hv2 [(P1 & -> & Hp1)|[P1 Hw1]]%Hpage [(P2 & -> & Hp2)|[P2 Hw2]]%Hpage Heq.
      + congruence.
      + rewrite P1. symmetry. by apply (proj1 (proj2 (Hnew Hp1)) v2 e2).
      + rewrite P2. by apply (proj1 (proj2 (Hnew Hp2)) v1 e1).
      + by apply (so_inj _ _ Hs v1 v2 e1 e2). }
  split; [|done]. split; [done|..].
  - intros v' Hv' Hx. rewrite Hwk, decide_False; [by apply W|]. intros Heq. apply Hx. by rewrite Heq.
  - intros v' Hv'. rewrite Hwk. case_decide as Hp; [|by apply H].
    pose proof (pt_not_huge st own pt v Hok Hpt) as Hnh. rewrite <- (walk_pre 4 st _ v v') in Hnh by (done || lia).
    intros [Hh|Hh]; [|exfalso; by destruct (present e)]. exfalso. apply Hnh. rewrite (H v' Hv' (or_introl Hh)). done.
  - intros b f Hb Hx Hm. destruct (M b f Hb Hx Hm) as [M1 M2 M3].
    assert (Hne : page_no b ≠ page_no v) by (intros Heq; apply Hx; by rewrite Heq). split; [|done|].
    + rewrite <- M1. apply (mapping_weq st own st' own); [done..|]. by rewrite Hwk, decide_False.
    + intros v' e' Hv' [(Hp & -> & Hpr)|[_ Hw]]%Hpage Hf; [|by apply (M3 v' e')].
      exfalso. apply Hx, (proj2 (proj2 (Hnew Hpr))); [done|]. by rewrite Hf.
  - intros b f c Hb Hx Hm Hc. rewrite <- (B b f c) by done. destruct (M b f Hb Hx Hm) as [_ (L1 & _) _].
    apply (ld8_pte st own pt (1%nat, pre 1 v) v e c); [done..|]. by rewrite Hc.
Qed.

Lemma unmap_eff st own v :
  space_ok st own → is_u64 v →
  let st' := (vmm_unmap_page v true st).2 in
  eff (λ p, p = page_no v) st own st' own ∧
  ∀ v', is_u64 v' → wk st' v' = if decide (page_no v' = page_no v) then match wk st v' with WPage _ => WNone | w => w end
                               else wk st v'.
Proof.
  intros Hs Hv. rewrite (unmap_shape st own v Hs Hv). destruct (wk st v) as [|l e|e] eqn:Hw; cbv zeta.
  1, 2: split; [by apply eff_refl|]; intros v' Hv'; case_decide as Hp; [|done];
    by rewrite (walk_pre 4 st _ v v'), Hw by (done || lia).
  destruct (page_pte st own v e Hs Hv Hw) as (pt & Hptr & Hpt & _). rewrite Hptr.
  destruct (so_leaf _ _ Hs v e Hv Hw) as (L1 & L2 & L3 & _).
  destruct (eff_pte (λ p, p = page_no v) st own st own pt v (align_down_u64 v PAGE_SIZE) 0) as [He Hwk];
    [by apply eff_refl|done..|]. set (st1 := invlpg _ _) in *.
  split.
  - apply (eff_free _ st own st1 own); [done|done|lia|done| |].
    + intros v' e' Hv'. rewrite Hwk. case_decide as Hp; [done|]. intros Hw' Heq. apply Hp. by apply (so_inj _ _ Hs v' v e' e).
    + intros a Ha [_ _ M3]. symmetry. by apply (M3 v e).
  - intros v' Hv'. change (wk (free_frame _ st1) v') with (wk st1 v'). rewrite Hwk. case_decide as Hp; [|done].
    by rewrite (walk_pre 4 st _ v v'), Hw by (done || lia).
Qed.

Definition in_pages (l : list Z) (p : Z) : Prop := Exists (λ a, p = page_no a) l.

#[export] Instance in_pages_dec l p : Decision (in_pages l p).
Proof. unfold in_pages. apply _. Defined.

Definition unmap_step (st : vm) (addr : Z) : vm :=
  if negb (vmm_get_mapping addr st =? 0) then (vmm_unmap_page addr true st).2 else st.

Lemma unmap_step_eff st own v :
  space_ok st own → is_u64 v →
  eff (λ p, p = page_no v) st own (unmap_step st v) own ∧
  ∀ v', is_u64 v' →
    wk (unmap_step st v) v' = if decide (page_no v' = page_no v) then match wk st v' with WPage _ => WNone | w => w end
                             else wk st v'.
Proof.
  intros Hs Hv. unfold unmap_step. destruct (Z.eqb_spec (vmm_get_mapping v st) 0) as [H0'|_]; cbn [negb].
  2:{ by apply unmap_eff. }
  split; [by apply eff_refl|]. intros v' Hv'. case_decide as Hp; [|done].
  destruct (wk st v') as [| |e] eqn:Hw; [done..|]. exfalso. rewrite (walk_pre 4 st _ v v') in Hw by (done || lia).
  rewrite (mapping_page st own v e) in H0' by done. destruct (so_leaf _ _ Hs v e Hv Hw) as (_ & ? & _). lia.
Qed.

Lemma unmap_pages_eff l st own :
  space_ok st own → Forall is_u64 l →
  let st' := foldl unmap_step st l in
  eff (in_pages l) st own st' own ∧
  ∀ v', is_u64 v' → wk st' v' = if decide (in_pages l (page_no v')) then match wk st v' with WPage _ => WNone | w => w end
                               else wk st v'.
Proof.
  intros Hs Hl. cbv zeta. revert st Hs. induction Hl as [|a l Ha Hl IH]; intros st Hs; cbn [foldl].
  { split; [by apply eff_refl|]. intros v' Hv'. by rewrite decide_False by (by intros ?%Exists_nil). }
  destruct (unmap_step_eff st own a Hs Ha) as [E1 W1]. destruct (IH (unmap_step st a) (ef_ok _ _ _ _ _ E1)) as [E2 W2].
  split.
  - eapply eff_weaken; [exact (eff_trans _ _ _ _ _ _ _ _ E1 E2)|]. intros p Hp. by apply Exists_cons.
  - intros v' Hv'. rewrite W2, W1 by done.
    destruct (decide (page_no v' = page_no a)) as [Hp|Hp].
    + rewrite (decide_True (P := in_pages (a :: l) (page_no v'))) by (by apply Exists_cons; left).
      case_decide; [|done]. by destruct (wk st v').
    + destruct (decide (in_pages l (page_no v'))) as [Hi|Hi].
      * by rewrite (decide_True (P := in_pages (a :: l) (page_no v'))) by (by apply Exists_cons; right).
      * rewrite (decide_False (P := in_pages (a :: l) (page_no v'))); [done|].
        intros [?|?]%Exists_cons; [done|]. by apply Hi.
Qed.

(** ** Ranges of pages *)

Lemma page_no_small a : 0 <= a < 2 ^ 48 → page_no a = a / 4096.
Proof. intros Ha. unfold pre. by rewrite Z.mod_small. Qed.

Lemma page_no_range v : 0 <= page_no v < 2 ^ 36.
Proof. unfold pre. pose proof (Z.mod_pos_bound v (2 ^ 48)). change (2 ^ (12 + 9 * Z.of_nat 0)) with 4096. zlia. Qed.

Lemma pages_elem b e a :
  b mod 4096 = 0 → e mod 4096 = 0 → a ∈ pages b e ↔ a mod 4096 = 0 ∧ b <= a < e.
Proof.
  intros Hb He. unfold pages, PAGE_SIZE. rewrite list_elem_of_fmap. split.
  - intros (i & -> & Hi%elem_of_seqZ). split; zlia.
  - intros [Ha Hr]. exists ((a - b) / 4096). split; [zlia|]. apply elem_of_seqZ. zlia.
Qed.

Lemma in_pages_range b e p :
  b mod 4096 = 0 → e mod 4096 = 0 → 0 <= b → e <= 2 ^ 48 →
  in_pages (pages b e) p ↔ b / 4096 <= p < e / 4096.
Proof.
  intros Hb He Hb0 He48. unfold in_pages. rewrite Exists_exists. split.
  - intros (a & Ha & ->). apply pages_elem in Ha as [Ha Hr]; [|done..]. rewrite page_no_small by lia. zlia.
  - intros Hp. exists (p * 4096). split; [apply pages_elem; [done..|]; zlia|]. rewrite page_no_small by zlia. zlia.
Qed.

Lemma pages_u64 b e : b mod 4096 = 0 → e mod 4096 = 0 → 0 <= b → e <= 2 ^ 48 → Forall is_u64 (pages b e).
Proof. intros. apply Forall_forall. intros a [_ Ha]%pages_elem; [|done..]. unfold is_u64. lia. Qed.

Lemma align_down_eq v : is_u64 v → align_down v PAGE_SIZE = v / 4096 * 4096.
Proof. exact (align_down_page v). Qed.

Lemma align_up_eq v : 0 <= v < 2 ^ 48 → align_up v PAGE_SIZE = (v + 4095) / 4096 * 4096.
Proof.
  intros Hv. unfold align_up. replace (v + PAGE_SIZE - 1) with (v + 4095) by (unfold PAGE_SIZE; lia).
  rewrite u64_small by (unfold is_u64; lia). apply (align_down_page (v + 4095)). unfold is_u64. lia.
Qed.

(** The pages from [start] to [start + size]. *)
Definition range_pages (start size p : Z) : Prop := start / 4096 <= p < (start + size + 4095) / 4096.

#[export] Instance range_pages_dec start size p : Decision (range_pages start size p).
Proof. unfold range_pages. apply _. Defined.

Lemma unmap_range_eff start size st own :
  space_ok st own → 0 <= start → 0 <= size → start + size < 2 ^ 47 →
  let st' := unmap_range start size st in
  eff (range_pages start size) st own st' own ∧
  ∀ v', is_u64 v' → wk st' v' = (if decide (size ≠ 0 ∧ range_pages start size (page_no v'))
                                then match wk st v' with WPage _ => WNone | w => w end else wk st v').
Proof.
  intros Hs Hs0 Hz Hr. unfold unmap_range. destruct (Z.eqb_spec size 0) as [->|Hnz].
  { split; [by apply eff_refl|]. intros v' Hv'. by rewrite decide_False by tauto. }
  rewrite u64_small by (unfold is_u64; lia). rewrite align_down_eq by (unfold is_u64; lia). rewrite align_up_eq by lia.
  set (b := start / 4096 * 4096). set (e := (start + size + 4095) / 4096 * 4096).
  assert (Hb : b mod 4096 = 0 ∧ 0 <= b ∧ b / 4096 = start / 4096) by (unfold b; clear - Hs0; zlia).
  assert (He : e mod 4096 = 0 ∧ e <= 2 ^ 48 ∧ e / 4096 = (start + size + 4095) / 4096) by (unfold e; clear - Hr; zlia).
  destruct Hb as (Hb1 & Hb2 & Hb3), He as (He1 & He2 & He3).
  assert (Hin : ∀ p, in_pages (pages b e) p ↔ range_pages start size p).
  { intros p. rewrite in_pages_range by done. unfold range_pages. by rewrite Hb3, He3. }
  destruct (unmap_pages_eff (pages b e) st own Hs) as [E W]; [by apply pages_u64|].
  split; [eapply eff_weaken; [exact E|]; intros p; apply Hin|].
  intros v' Hv'. etrans; [exact (W v' Hv')|]. pose proof (Hin (page_no v')) as Hp. repeat case_decide; tauto || done.
Qed.

(** ** Operations: a new page *)

Lemma eff_alloc X st0 own0 st own f rest st1 :
  eff X st0 own0 st own → free_list (frames st) = f :: rest →
  words st1 = words st → cr3 st1 = cr3 st → free_list (frames st1) = rest → pmm_wf (frames st1) →
  pmm_bitmap (frames st1) ≠ None → pmm_total_frames (frames st1) = pmm_total_frames (frames st) →
  eff X st0 own0 st1 own ∧ ∀ v, wk st1 v = wk st v.
Proof.
  intros [Hs W H M B] Hfl Hw Hc Hfl1 Hwf Hbm Htot.
  assert (Hr : ∀ a, rdw st1 a = rdw st a) by (intros; unfold rdw; by rewrite Hw).
  assert (Hwk : ∀ v, wk st1 v = wk st v) by (intros v; rewrite (root_cr3 st st1 Hc); by apply walk_ext).
  assert (Hleaf : ∀ g, leaf_frame st own g → leaf_frame st1 own g).
  { intros g (L1 & L2 & L3 & L4). split; [done|]. split; [done|]. split; [done|]. rewrite Hfl1. rewrite Hfl in L4.
    by apply not_elem_of_cons in L4 as [_ ?]. }
  assert (Hok : space_ok st1 own).
  { split.
    - pose proof (so_tables _ _ Hs) as [H1 H2 H3 H4 H5 (_ & _ & H6 & H7)]. split; rewrite ?Hc; try done.
      + intros t l p Ht. destruct (H2 t l p Ht) as (? & ? & Hn & ? & ?). split_and!; try done; try lia.
        rewrite Hfl1. rewrite Hfl in Hn. by apply not_elem_of_cons in Hn as [_ ?].
      + intros t l p i Ht Hi. rewrite Hr. by apply H3.
      + intros t l q Ht Hl. destruct (H4 t l q Ht Hl) as (t0 & ? & ?). exists t0. by rewrite Hr.
      + split_and!; [done|done|by rewrite Htot|]. rewrite Hfl1. rewrite Hfl in H7. by apply not_elem_of_cons in H7 as [_ ?].
    - intros v e Hv. rewrite Hwk. intros Hp. by apply Hleaf, (so_leaf _ _ Hs v).
    - intros v1 v2 e1 e2 Hv1 Hv2. rewrite !Hwk. by apply Hs. }
  split; [|done]. split; [done|..].
  - intros v Hv Hx. rewrite Hwk. by apply W.
  - intros v Hv. rewrite Hwk. by apply H.
  - intros a g Ha Hx Hm. destruct (M a g Ha Hx Hm) as [M1 M2 M3]. split; [|by apply Hleaf|].
    + rewrite <- M1. apply (mapping_weq st own st1 own); [done..|by rewrite Hwk].
    + intros v e Hv. rewrite Hwk. by apply M3.
  - intros a g c Ha Hx Hm Hcf. rewrite <- (B a g c) by done. unfold ld8. by rewrite Hr.
Qed.

Lemma grows_leaf st own st' own' f : grows st own st' own' → leaf_frame st own f → leaf_frame st' own' f.
Proof.
  intros [F N O W T] (L1 & L2 & L3 & L4). split.
  - destruct (own' !! f) as [x|] eqn:Hf; [|done]. destruct (N f x Hf) as [?|?]; [congruence|done].
  - split; [done|]. split; [done|]. intros Hin. by apply L4, F.
Qed.

Lemma grows_ld8 st own st' own' c : grows st own st' own' → own' !! frame_of c = None → ld8 st' c = ld8 st c.
Proof.
  intros Hg Hc. unfold ld8. rewrite (gr_word _ _ _ _ Hg); [done|].
  change (own' !! frame_of (c / 8 * 8) = None). by rewrite frame_word.
Qed.

Lemma eff_grows X st0 own0 st own st' own' :
  eff X st0 own0 st own → extends st own st' own' → grows st own st' own' →
  eff X st0 own0 st' own' ∧ ∀ v, wk st' v = wk st v.
Proof.
  intros [Hs W H M B] (Hok & Hc & _ & _ & Hx) Hg.
  assert (Hwk : ∀ v, wk st' v = wk st v).
  { intros v. rewrite (root_cr3 st st' Hc). by apply (Hx v _ _ 0), Hs. }
  assert (Hs' : space_ok st' own').
  { split; [done|..].
    - intros v e Hv. rewrite Hwk. intros Hp. eapply grows_leaf; [done|]. by apply (so_leaf _ _ Hs v).
    - intros v1 v2 e1 e2 Hv1 Hv2. rewrite !Hwk. by apply Hs. }
  split; [|done]. split; [done|..].
  - intros v Hv Hnx. rewrite Hwk. by apply W.
  - intros v Hv. rewrite Hwk. by apply H.
  - intros a g Ha Hnx Hm. destruct (M a g Ha Hnx Hm) as [M1 M2 M3]. split.
    + rewrite <- M1. apply (mapping_weq st own st' own'); [done..|by rewrite Hwk].
    + by eapply grows_leaf.
    + intros v e Hv. rewrite Hwk. by apply M3.
  - intros a g c Ha Hnx Hm Hcf. rewrite <- (B a g c) by done. destruct (M a g Ha Hnx Hm) as [_ M2 _].
    destruct (grows_leaf _ _ _ _ _ Hg M2) as (L1 & _). apply (grows_ld8 _ _ _ _ _ Hg). by rewrite Hcf.
Qed.

Lemma eff_ext X st0 own0 st own st' :
  eff X st0 own0 st own → words st' = words st → cr3 st' = cr3 st → frames st' = frames st → eff X st0 own0 st' own.
Proof.
  intros He Hw Hc Hf. refine (proj1 (eff_bytes X (λ _, False) st0 own0 st own st' He Hf _ _ _)); [|done|done].
  split; [done|]. intros a _. unfold rdw. by rewrite Hw.
Qed.

(** Taking a frame, clearing it and mapping it at a page. *)
Definition new_page (v : Z) (st : vm) : Z * vm :=
  let '(phys, st1) := alloc_frame st in
  (phys, vmm_map_page v phys (Z.lor PTE_USER PTE_WRITABLE) (zero_user_page phys st1)).

Lemma user_entry f :
  f mod 4096 = 0 → 0 <= f < 2 ^ 52 → Z.land (Z.lor (Z.lor f (Z.lor PTE_USER PTE_WRITABLE)) PTE_PRESENT) PTE_ADDR_MASK = f.
Proof. intros Hm Hr. rewrite <- Z.lor_assoc. apply entry_of; [done..|]. split; [by apply Z.leb_le|by apply Z.ltb_lt]. Qed.

(** The number of free frames. *)
Definition nfree (st : vm) : nat := length (free_list (frames st)).

Lemma new_page_eff st own v :
  space_ok st own → is_u64 v → v mod 4096 = 0 →
  let '(phys, st') := new_page v st in
  phys ≠ 0 →
  ∃ own', eff (λ p, p = page_no v) st own st' own' ∧ leaf_frame st' own' phys ∧
    (∀ c, frame_of c = phys → ld8 st' c = 0) ∧
    (∀ b, is_u64 b → ¬ mine st own b phys) ∧
    (nfree st <= 4 + nfree st')%nat ∧
    ((∀ v', wk st' v' = wk st v') ∧ (∀ v' e, is_u64 v' → wk st' v' = WPage e → Z.land e PTE_ADDR_MASK ≠ phys) ∧
       ((nfree st < 4)%nat ∨ is_huge (wk st v))
     ∨ ∃ e, Z.land e PTE_ADDR_MASK = phys ∧ ∀ v', wk st' v' = if decide (page_no v' = page_no v) then WPage e else wk st v').
Proof.
  intros Hs Hv Hva. unfold new_page. pose proof (alloc_frame_spec st own (so_tables _ _ Hs)) as Ha.
  destruct (alloc_frame st) as [phys st1]. destruct Ha as (Hw & Hcr & _ & _ & [(_ & -> & _)|Hsome]); [done|].
  destruct Hsome as (f & rest & Hfl & Hphys & Hn & Hfl1 & Hfr & Hwf & Hbm & Htot). intros _.
  assert (Hin : phys / 4096 ∈ free_list (frames st)) by (rewrite Hphys, Z.div_mul, Hfl by lia; left).
  assert (Hpa : phys mod 4096 = 0) by (rewrite Hphys; apply Z_mod_mult).
  assert (Hown : own !! phys = None).
  { destruct (own !! phys) as [[l p]|] eqn:Ho; [|done]. exfalso.
    by destruct (ok_table _ _ (so_tables _ _ Hs) _ _ _ Ho) as (_ & _ & ? & _). }
  assert (Hnm : ∀ b, is_u64 b → ¬ mine st own b phys) by (intros b _ [_ (_ & _ & _ & ?) _]; done).
  assert (Hnp : ∀ v' e, is_u64 v' → wk st v' = WPage e → Z.land e PTE_ADDR_MASK ≠ phys).
  { intros v' e Hv' Hp Heq. destruct (so_leaf _ _ Hs v' e Hv' Hp) as (_ & _ & _ & Hf). by rewrite Heq in Hf. }
  destruct (eff_alloc (λ p, p = page_no v) st own st own f rest st1 (eff_refl _ _ _ Hs) Hfl) as [E1 W1]; [done..|].
  destruct (zero_user_page_spec phys st1 Hpa) as (Zf & _ & _ & Za & Zb). set (st2 := zero_user_page phys st1) in *.
  destruct (eff_bytes _ (λ g, g = phys) _ _ _ _ st2 E1 Zf Za) as [E2 W2]; [by intros ? ->|by intros a g Hau Hm ->; destruct (Hnm a Hau)|].
  assert (L2 : leaf_frame st2 own phys).
  { split; [done|]. split; [done|]. split; [done|]. by rewrite Zf, Hfl1, Hphys, Z.div_mul by lia. }
  pose proof (map_tables_spec st2 own v (so_tables _ _ (ef_ok _ _ _ _ _ E2))) as Hmt.
  pose proof (vmm_map_page_tables v phys (Z.lor PTE_USER PTE_WRITABLE) st2 Hv) as Hmp.
  assert (Hn2 : nfree st = S (nfree st2)) by (unfold nfree; by rewrite Hfl, Zf, Hfl1).
  fold (nfree st2) in Hmt.
  destruct (map_tables v st2) as [[pt|] st3]; destruct Hmt as (own' & Hext & Hres & Hgr & Hlen); exists own';
    destruct (eff_grows _ _ _ _ _ _ _ E2 Hext Hgr) as [E3 W3]; pose proof (grows_leaf _ _ _ _ _ Hgr L2) as L3;
    assert (Hwk : ∀ v', wk st3 v' = wk st v') by (intros v'; by rewrite W3, W2, W1);
    assert (Hz : ∀ c, frame_of c = phys → ld8 st3 c = 0)
      by (intros c Hc; rewrite <- (Zb c Hc); apply (grows_ld8 _ _ _ _ _ Hgr); rewrite Hc; apply L3).
  - assert (Hpu : is_u64 phys) by (unfold is_u64; clear - Hn; lia).
    rewrite (align_down_page_id phys Hpu Hpa) in Hmp.
    set (e := Z.lor (Z.lor phys (Z.lor PTE_USER PTE_WRITABLE)) PTE_PRESENT) in Hmp.
    assert (He : Z.land e PTE_ADDR_MASK = phys) by (apply user_entry; [done|clear - Hn; lia]).
    assert (Hpe : present e = true) by apply present_lor. rewrite Hmp. clear Hmp.
    destruct (eff_pte _ _ _ _ _ pt v (align_down_u64 v PAGE_SIZE) e E3 Hv Hres (eq_refl _)) as [E4 W4].
    { intros _. rewrite He. split; [done|]. split.
      - intros v' e' Hv'. rewrite Hwk. intros Hp Heq. by destruct (Hnp v' e').
      - intros b Hb Hm. by destruct (Hnm b). }
    split; [done|]. split; [done|]. split; [|split; [done|split; [unfold nfree in *; cbn; lia|]]].
    + intros c Hc. rewrite <- (Hz c Hc). apply (ld8_pte st3 own' pt (1%nat, pre 1 v)); [apply E3|done|]. rewrite Hc. apply L3.
    + right. exists e. split; [done|]. intros v'. rewrite W4, Hpe, Hwk. done.
  - destruct Hmp as (msg & -> & _). split; [by apply (eff_ext _ _ _ st3)|]. split; [done|]. split; [done|]. split; [done|].
    split; [unfold nfree in *; cbn; lia|]. left. split; [done|]. split.
    + intros v' e Hv'. change (wk (vm_print msg st3) v') with (wk st3 v'). rewrite Hwk. by apply Hnp.
    + destruct Hres as [Hr|(k & e & Hh)]; [left; lia|right]. by rewrite <- W1, <- W2, Hh.
Qed.
