(* ===== verification/UserProps.v ===== *)
(** * User mode: loading and running programs

    What [UserMode] does to the address space: the pages of a program are
    mapped, opened to user mode and filled, and unmapped again at its end. *)

From S2P Require Import Prelude Utils CString Bytes Print Pmm Vmm Alloc Task Vfs Ramfs Elf Process UserMode UserSpace.

(** ** Operations: opening entries to user mode *)

(** Entries that lead to the same place. *)
Definition ent_same (x y : Z) : Prop :=
  present x = present y ∧ huge x = huge y ∧ Z.land x PTE_ADDR_MASK = Z.land y PTE_ADDR_MASK.

#[export] Instance ent_same_equiv : Equivalence ent_same.
Proof.
  unfold ent_same. split.
  - done.
  - intros x y (? & ? & ?). by repeat split.
  - intros x y z (-> & -> & ->) (-> & -> & ->). done.
Qed.

Lemma ent_same_open e : ent_same (Z.lor e (Z.lor PTE_USER PTE_WRITABLE)) e.
Proof.
  assert (Hm : ∀ m, Z.land (Z.lor PTE_USER PTE_WRITABLE) m = 0 →
    Z.land (Z.lor e (Z.lor PTE_USER PTE_WRITABLE)) m = Z.land e m).
  { intros m Hm. by rewrite Z.land_lor_distr_l, Hm, Z.lor_0_r. }
  split; [|split; [|by apply Hm]]; by rewrite Hm.
Qed.

(** Memory after some entries of tables have been opened. *)
Record opened (own : owners) (st st' : vm) : Prop := {
  op_cr3 : cr3 st' = cr3 st;
  op_frames : frames st' = frames st;
  op_same : ∀ a, ent_same (rdw st' a) (rdw st a);
  op_page : ∀ a, own !! frame_of a = None → rdw st' a = rdw st a
}.

#[export] Instance opened_preorder own : PreOrder (opened own).
Proof.
  split; [done|]. intros st1 st2 st3 [C1 F1 S1 P1] [C2 F2 S2 P2]. split; [congruence..| |].
  - intros a. by rewrite S2, S1.
  - intros a Ha. by rewrite P2, P1.
Qed.

Lemma opened_walk own st st' l t v : opened own st st' → weq (walk l st' t v) (walk l st t v).
Proof.
  intros [_ _ S _]. revert t. induction l as [|l IH]; intros t; [done|]. cbn [walk].
  destruct (S (slot t (idx l v))) as (-> & Hh & Ha). case_if; [done|]. destruct l as [|l]; [done|].
  rewrite Hh. case_if; [done|]. rewrite Ha. apply IH.
Qed.

Lemma opened_ok own st st' : tables_ok st own → opened own st st' → tables_ok st' own.
Proof.
  intros [H1 H2 H3 H4 H5 H6] [C F S _]. split; rewrite ?C, ?F; try done.
  - intros t l p i Ht Hi. cbv zeta. destruct (S (slot t i)) as (-> & -> & ->). by apply H3.
  - intros t l q Ht Hl. destruct (H4 t l q Ht Hl) as (t0 & ? & ?). exists t0. cbv zeta.
    destruct (S (slot t0 (q mod 512))) as (-> & -> & ->). done.
Qed.

Lemma eff_opened X st0 own0 st own st' :
  eff X st0 own0 st own → opened own st st' → eff X st0 own0 st' own ∧ ∀ v, weq (wk st' v) (wk st v).
Proof.
  intros [Hs W H M B] Ho. pose proof Ho as [C F S P].
  assert (Hwk : ∀ v, weq (wk st' v) (wk st v)) by (intros v; rewrite (root_cr3 st st' C); by apply (opened_walk own)).
  assert (Hpage : ∀ v e, wk st' v = WPage e → ∃ e0, wk st v = WPage e0 ∧ Z.land e0 PTE_ADDR_MASK = Z.land e PTE_ADDR_MASK).
  { intros v e He. specialize (Hwk v). rewrite He in Hwk. destruct (wk st v); try done. by eexists. }
  assert (Hleaf : ∀ f, leaf_frame st' own f ↔ leaf_frame st own f) by (intros f; unfold leaf_frame; by rewrite F).
  assert (Hok : space_ok st' own).
  { split; [by apply (opened_ok own st); [apply Hs|]| |].
    - intros v e Hv (e0 & He0 & <-)%Hpage. rewrite Hleaf. by apply (so_leaf _ _ Hs v).
    - intros v1 v2 e1 e2 Hv1 Hv2 (x1 & Hx1 & <-)%Hpage (x2 & Hx2 & <-)%Hpage. by apply (so_inj _ _ Hs v1 v2 x1 x2). }
  split; [|done]. split; [done|..].
  - intros v Hv Hx. rewrite Hwk. by apply W.
  - intros v Hv. rewrite Hwk. by apply H.
  - intros a f Hau Hx Hm. destruct (M a f Hau Hx Hm) as [M1 M2 M3]. split.
    + rewrite <- M1. by apply (mapping_weq st own st' own).
    + by apply Hleaf.
    + intros v e Hv (e0 & He0 & <-)%Hpage. by apply M3.
  - intros a f c Hau Hx Hm Hcf. rewrite <- (B a f c) by done. destruct (M a f Hau Hx Hm) as [_ (L1 & _) _].
    unfold ld8. rewrite P; [done|]. by rewrite frame_word, Hcf.
Qed.

Lemma open_entry_opened st own t l p i :
  tables_ok st own → own !! t = Some (l, p) → 0 <= i < 512 → opened own st (open_entry (slot t i) st).
Proof.
  intros Hok Ht Hi. destruct (ok_table _ _ Hok _ _ _ Ht) as (Ha & _). split; [done|done|..]; intros a; unfold open_entry.
  - rewrite rdw_wrw. case_if; btests; [subst a; apply ent_same_open|done].
  - intros Hn. rewrite rdw_wrw. case_if; btests; [|done]. subst a. exfalso.
    replace (frame_of (slot t i)) with t in Hn by (unfold frame_of, slot; zlia). congruence.
Qed.

(** [mark_user_page] as a recursion over the levels. *)
Fixpoint mark (l : nat) (t v : Z) (st : vm) : vm :=
  match l with
  | O => st
  | S l' =>
      let a := slot t (idx l' v) in
      if negb (present (rdw st a)) then st
      else
        let st := open_entry a st in
        match l' with
        | O => st
        | S _ => if huge (rdw st a) then st else mark l' (Z.land (rdw st a) PTE_ADDR_MASK) v st
        end
  end.

Lemma mark_user_page_eq st own v : tables_ok st own → mark_user_page v st = mark 4 (root st) v st.
Proof.
  intros Hok. unfold mark_user_page, table_from_entry. cbv zeta. destruct (index_idx v) as (-> & -> & -> & ->).
  change (Z.land (read_cr3 st) PTE_ADDR_MASK) with (root st). cbn [mark].
  destruct (present (rdw st _)) eqn:P4; cbn [negb]; [|done].
  pose proof (idx_range 3 v) as Hi. assert (Hr : own !! root st = Some (4%nat, 0)) by apply Hok.
  destruct (op_same _ _ _ (open_entry_opened st own (root st) 4 0 _ Hok Hr Hi) (slot (root st) (idx 3 v))) as (_ & -> & _).
  destruct (ok_child _ _ Hok _ _ _ _ Hr Hi P4) as [Hh _]. by rewrite Hh.
Qed.

(** The next table on the way of [v]. *)
Lemma child_table st own t l v :
  tables_ok st own → (l < 3)%nat → own !! t = Some (S (S l), pre (S (S l)) v) →
  let e := rdw st (slot t (idx (S l) v)) in
  present e = true → huge e = false → own !! Z.land e PTE_ADDR_MASK = Some (S l, pre (S l) v).
Proof.
  intros Hok Hl Ht e Hp Hh. rewrite (pre_step (S l)) by lia. by apply (ok_child _ _ Hok t l _ _ Ht (idx_range (S l) v) Hp).
Qed.

Lemma mark_opened own l st t v :
  (l <= 4)%nat → tables_ok st own → own !! t = Some (l, pre l v) → opened own st (mark l t v st).
Proof.
  revert st t. induction l as [|l IH]; intros st t Hl Hok Ht; cbn [mark]; [done|].
  destruct (present (rdw st _)) eqn:Hp; cbn [negb]; [|done].
  pose proof (open_entry_opened st own t _ _ _ Hok Ht (idx_range l v)) as Ho. destruct l as [|l]; [done|].
  destruct (huge (rdw (open_entry _ st) _)) eqn:Hh; [done|].
  destruct (op_same _ _ _ Ho (slot t (idx (S l) v))) as (_ & Hh' & ->). rewrite Hh' in Hh.
  etrans; [exact Ho|]. apply IH; [lia|by apply (opened_ok own st)|]. apply (child_table st); [done|lia|done..].
Qed.

Lemma mark_user_page_opened st own v : tables_ok st own → opened own st (mark_user_page v st).
Proof.
  intros Hok. rewrite (mark_user_page_eq st own v Hok). apply mark_opened; [lia|done|]. rewrite pre_4. apply Hok.
Qed.

Lemma mark_user_pages_opened st own l :
  tables_ok st own → opened own st (foldl (λ st addr, mark_user_page addr st) st l).
Proof.
  revert st. induction l as [|v l IH]; intros st Hok; cbn [foldl]; [done|].
  pose proof (mark_user_page_opened st own v Hok) as Ho. etrans; [exact Ho|]. by apply IH, (opened_ok own st).
Qed.

Lemma mark_user_range_opened st own start size : tables_ok st own → opened own st (mark_user_range start size st).
Proof.
  intros Hok. unfold mark_user_range. case_if; [done|]. cbv zeta. etrans; [by apply mark_user_pages_opened|]. done.
Qed.

(** ** Operations: mapping pages *)

Lemma pages_step P n :
  pages (P * 4096) ((P + Z.of_nat (S n)) * 4096) = P * 4096 :: pages ((P + 1) * 4096) ((P + 1 + Z.of_nat n) * 4096).
Proof.
  unfold pages, PAGE_SIZE.
  replace (((P + Z.of_nat (S n)) * 4096 - P * 4096 + 4096 - 1) / 4096) with (Z.of_nat (S n)) by zlia.
  replace (((P + 1 + Z.of_nat n) * 4096 - (P + 1) * 4096 + 4096 - 1) / 4096) with (Z.of_nat n) by zlia.
  rewrite seqZ_cons by lia. cbn [fmap list_fmap]. f_equal; [lia|].
  replace (Z.pred (Z.of_nat (S n))) with (Z.of_nat n) by lia. rewrite <- (Z.add_0_r (Z.succ 0)), <- fmap_add_seqZ, <- list_fmap_compose.
  apply list_fmap_ext. intros i x _. cbn. lia.
Qed.

Lemma pages_none P : pages (P * 4096) ((P + Z.of_nat 0) * 4096) = [].
Proof. unfold pages, PAGE_SIZE. replace (((P + Z.of_nat 0) * 4096 - P * 4096 + 4096 - 1) / 4096) with 0 by zlia. done. Qed.

Definition is_page (w : walk_result) : Prop := match w with WPage _ => True | _ => False end.

#[export] Instance is_page_proper : Proper (weq ==> iff) is_page.
Proof. intros [| |] [| |]; cbn; tauto. Qed.

(** The pages from [P] on, [n] of them, each with a frame of its own that no
    page outside [X] had, all bytes zero. *)
Record fresh_pages (X : Z → Prop) (st0 : vm) (own0 : owners) (st : vm) (own : owners) (P n : Z) (F : Z → Z) : Prop := {
  fp_mine : ∀ p, P <= p < P + n → mine st own (p * 4096) (F p);
  fp_zero : ∀ p c, P <= p < P + n → frame_of c = F p → ld8 st c = 0;
  fp_new : ∀ p a, P <= p < P + n → is_u64 a → mine st0 own0 a (F p) → X (page_no a);
  fp_inj : ∀ p q, P <= p < P + n → P <= q < P + n → F p = F q → p = q
}.

Lemma page_no_page p : 0 <= p < 2 ^ 36 → page_no (p * 4096) = p.
Proof. intros Hp. rewrite page_no_small by lia. by apply Z.div_mul. Qed.

Lemma page_u64 p : 0 <= p < 2 ^ 36 → is_u64 (p * 4096).
Proof. unfold is_u64. lia. Qed.

(** Giving up at page [P], which is not mapped then. *)
Record gave_up (st : vm) (own : owners) (P : Z) (x : vm) (ownx : owners) : Prop := {
  gu_eff : eff (λ p, p = P) st own x ownx;
  gu_at : ∀ v, is_u64 v → page_no v = P → ¬ is_page (wk x v);
  gu_off : ∀ v, is_u64 v → page_no v ≠ P → weq (wk x v) (wk st v)
}.

(** The pages from [B] to [P] are unmapped. *)
Lemma map_fail B P st own x ownx :
  0 <= B <= P → P < 2 ^ 35 → gave_up st own P x ownx →
  let st' := unmap_range (B * 4096) (P * 4096 - B * 4096) x in
  eff (λ p, B <= p < P + 1) st own st' ownx ∧
  ∀ v, is_u64 v → B <= page_no v → ¬ is_page (wk st' v) ∨ P < page_no v ∧ weq (wk st' v) (wk st v).
Proof.
  intros HB HP [He Hat Hoff].
  assert (Hin : ∀ p, range_pages (B * 4096) (P * 4096 - B * 4096) p ↔ B <= p < P)
    by (intros p; unfold range_pages; replace (B * 4096 + (P * 4096 - B * 4096) + 4095) with (P * 4096 + 4095) by lia; zlia).
  destruct (unmap_range_eff (B * 4096) (P * 4096 - B * 4096) x ownx) as [E W]; [apply He|lia..|]. split.
  - eapply eff_weaken; [exact (eff_trans _ _ _ _ _ _ _ _ He E)|]. intros p [->|Hp%Hin]; lia.
  - intros v Hv HBv. rewrite W by done. specialize (Hin (page_no v)). destruct (decide (P * 4096 - B * 4096 ≠ 0 ∧ _)) as [Hd|Hd].
    + left. destruct (wk x v); cbn; tauto.
    + destruct (Z_lt_le_dec P (page_no v)); [right; split; [done|]; apply Hoff; [done|lia]|].
      left. destruct (decide (page_no v = P)); [by apply Hat|]. exfalso. apply Hd. split; [lia|]. apply Hin. lia.
Qed.

(** One round of the loop that succeeds, before the rest. *)
Lemma fresh_cons (X : Z → Prop) st own st1 own1 st' own' P n F f :
  0 <= P → P + 1 + n <= 2 ^ 35 → 0 <= n →
  (∀ p, P <= p < P + 1 + n → X p) →
  eff (λ p, p = P) st own st1 own1 → mine st1 own1 (P * 4096) f → (∀ c, frame_of c = f → ld8 st1 c = 0) →
  (∀ a, is_u64 a → mine st own a f → X (page_no a)) →
  eff (λ p, P + 1 <= p < P + 1 + n) st1 own1 st' own' →
  fresh_pages (λ p, P + 1 <= p < P + 1 + n) st1 own1 st' own' (P + 1) n F →
  fresh_pages X st own st' own' P (n + 1) (λ p, if p =? P then f else F p).
Proof.
  intros HP HPn Hn HX E1 Hm Hz Hf E2 [Fm Fz Fn Fi].
  assert (Hpp : page_no (P * 4096) = P) by (apply page_no_page; lia).
  assert (Hx : ¬ P + 1 <= page_no (P * 4096) < P + 1 + n) by (rewrite Hpp; lia).
  assert (Hpu : is_u64 (P * 4096)) by (apply page_u64; lia).
  assert (Hne : ∀ p, P + 1 <= p < P + 1 + n → F p ≠ f).
  { intros p Hp Heq. apply Hx, (Fn p); [done..|]. by rewrite Heq. }
  split.
  - intros p Hp. case_if; btests; [subst p; by apply (ef_mine _ _ _ _ _ E2)|apply Fm; lia].
  - intros p c Hp. case_if; btests; [|apply Fz; lia]. intros Hc. rewrite (ef_byte _ _ _ _ _ E2 (P * 4096) f c) by done. by apply Hz.
  - intros p a Hp Ha. case_if; btests; [by apply Hf|]. intros Hma.
    destruct (decide (page_no a = P)) as [->|Hna]; [apply HX; lia|].
    apply HX. assert (P + 1 <= page_no a < P + 1 + n); [|lia]. apply (Fn p); [lia|done|]. by apply (ef_mine _ _ _ _ _ E1).
  - intros p q Hp Hq. repeat case_if; btests; subst; try done; intros Heq.
    + exfalso. apply (Hne q); [lia|done].
    + exfalso. apply (Hne p); [lia|done].
    + apply Fi; [lia..|done].
Qed.

Lemma alloc_none st own st1 : space_ok st own → alloc_frame st = (0, st1) → st1 = st ∧ nfree st = 0%nat.
Proof.
  intros Hs Ha. pose proof (alloc_frame_spec st own (so_tables _ _ Hs)) as H. rewrite Ha in H.
  destruct H as (_ & _ & _ & _ & [(Hf & _ & ?)|(f & rest & _ & _ & ? & _)]); [|lia].
  split; [done|]. unfold nfree. by rewrite Hf.
Qed.

Lemma free_frame_wk f st v : wk (free_frame f st) v = wk st v.
Proof. by apply walk_ext. Qed.

(** One round of the loop. *)
Definition round_ok (st : vm) (own : owners) (P phys : Z) (st' : vm) (own' : owners) : Prop :=
  eff (λ p, p = P) st own st' own' ∧ mine st' own' (P * 4096) phys ∧ (∀ c, frame_of c = phys → ld8 st' c = 0) ∧
  (∀ a, is_u64 a → mine st own a phys → page_no a = P) ∧ (∀ v, is_u64 v → page_no v ≠ P → weq (wk st' v) (wk st v)).

Lemma map_round st own P :
  space_ok st own → 0 <= P < 2 ^ 35 →
  let st1 := unmap_step st (P * 4096) in
  gave_up st own P st1 own ∧
  let '(phys, st3) := new_page (P * 4096) st1 in
  phys ≠ 0 → ∃ own',
    (nfree st1 <= 4 + nfree st3)%nat ∧
    if vmm_get_mapping (P * 4096) st3 =? phys then round_ok st own P phys st3 own'
    else gave_up st own P (free_frame phys st3) own' ∧ ((nfree st1 < 4)%nat ∨ is_huge (wk st1 (P * 4096))).
Proof.
  intros Hs HP. cbv zeta. assert (Hpu : is_u64 (P * 4096)) by (apply page_u64; lia).
  assert (Hpp : page_no (P * 4096) = P) by (apply page_no_page; lia).
  destruct (unmap_step_eff st own (P * 4096) Hs Hpu) as [E1 W1]. rewrite Hpp in E1, W1.
  generalize dependent (unmap_step st (P * 4096)). intros st1 E1 W1.
  assert (Hg : gave_up st own P st1 own).
  { split; [done|..]; intros v Hv Hp; rewrite W1 by done; [rewrite decide_True by done|by rewrite decide_False].
    destruct (wk st v); cbn; tauto. }
  split; [done|]. destruct Hg as [_ Hnp Hoff].
  pose proof (new_page_eff st1 own (P * 4096) (ef_ok _ _ _ _ _ E1) Hpu (Z_mod_mult _ _)) as Hnew.
  destruct (new_page (P * 4096) st1) as [phys st3]. rewrite Hpp in Hnew. intros Hz.
  destruct (Hnew Hz) as (own' & E3 & L3 & Z3 & M3 & Hlen & C3). clear Hnew. exists own'. split; [done|].
  assert (E13 : eff (λ p, p = P) st own st3 own')
    by (eapply eff_weaken; [exact (eff_trans _ _ _ _ _ _ _ _ E1 E3)|]; cbn; tauto).
  assert (M13 : ∀ a, is_u64 a → mine st own a phys → page_no a = P).
  { intros a Hau Hm. destruct (decide (page_no a = P)) as [|Hne]; [done|].
    destruct (M3 a Hau). by apply (ef_mine _ _ _ _ _ E1). }
  destruct C3 as [(Wk & Hno & Hwhy)|(e & He & Wk)].
  - destruct (Z.eqb_spec (vmm_get_mapping (P * 4096) st3) phys) as [Hmap|Hmap].
    + split; [done|]. split; [|split; [done|split; [done|]]].
      * split; [done..|]. intros v e Hv Hp Heq. by destruct (Hno v e).
      * intros v Hv Hp. rewrite Wk. by apply Hoff.
    + destruct L3 as (L1 & [L2 _] & L3 & _). split; [|done]. split.
      * by apply eff_free.
      * intros v Hv Hp. rewrite free_frame_wk, Wk. by apply Hnp.
      * intros v Hv Hp. rewrite free_frame_wk, Wk. by apply Hoff.
  - assert (Hw : wk st3 (P * 4096) = WPage e) by (by rewrite Wk, Hpp, decide_True).
    rewrite (mapping_page st3 own' (P * 4096) e (ef_ok _ _ _ _ _ E3) Hpu Hw), He, Z.eqb_refl.
    split; [done|]. split; [|split; [done|split; [done|]]].
    + rewrite <- He. apply page_mine; [apply E3|done..].
    + intros v Hv Hp. rewrite Wk, decide_False by done. by apply Hoff.
Qed.

Lemma map_pages_eff n B P st own :
  0 <= B <= P → P + Z.of_nat n <= 2 ^ 35 → space_ok st own →
  let '(ok, st') := map_pages (B * 4096) (pages (P * 4096) ((P + Z.of_nat n) * 4096)) st in
  ∃ own', eff (λ p, (if ok : bool then P else B) <= p < P + Z.of_nat n) st own st' own' ∧
    if ok then ∃ F, fresh_pages (λ p, P <= p < P + Z.of_nat n) st own st' own' P (Z.of_nat n) F
    else ∀ v, is_u64 v → B <= page_no v → ¬ is_page (wk st' v) ∨ P <= page_no v ∧ weq (wk st' v) (wk st v).
Proof.
  revert P st own. induction n as [|n IH]; intros P st own HB HP Hs.
  { rewrite pages_none. cbn [map_pages]. exists own. split; [by apply eff_refl|].
    exists (λ _, 0). split; intros; lia. }
  assert (Hfail : ∀ x ownx, gave_up st own P x ownx → let st' := unmap_range (B * 4096) (P * 4096 - B * 4096) x in
    eff (λ p, B <= p < P + Z.of_nat (S n)) st own st' ownx ∧
    ∀ v, is_u64 v → B <= page_no v → ¬ is_page (wk st' v) ∨ P <= page_no v ∧ weq (wk st' v) (wk st v)).
  { intros x ownx Hg. destruct (map_fail B P st own x ownx HB ltac:(lia) Hg) as [E W]. split.
    - eapply eff_weaken; [exact E|]. cbn. lia.
    - intros v Hv Hb. destruct (W v Hv Hb) as [?|[? ?]]; [by left|right; split; [lia|done]]. }
  rewrite pages_step. cbn [map_pages]. fold (unmap_step st (P * 4096)).
  destruct (map_round st own P Hs ltac:(lia)) as [Hg Hr]. unfold new_page in Hr.
  destruct (alloc_frame (unmap_step st (P * 4096))) as [phys st2] eqn:Ha.
  destruct (Z.eqb_spec phys 0) as [->|Hz].
  { rewrite (proj1 (alloc_none _ own st2 (ef_ok _ _ _ _ _ (gu_eff _ _ _ _ _ Hg)) Ha)). exists own. by apply Hfail. }
  destruct (Hr Hz) as (own' & _ & Hr'). clear Hr. generalize dependent (vmm_map_page (P * 4096) phys (Z.lor PTE_USER PTE_WRITABLE) (zero_user_page phys st2)).
  intros st3 Hr. destruct (vmm_get_mapping (P * 4096) st3 =? phys); cbn [negb]; [|exists own'; by apply Hfail, Hr].
  destruct Hr as (E3 & Hm & Hzero & Hnew & Hoff).
  specialize (IH (P + 1) st3 own' ltac:(lia) ltac:(lia) (ef_ok _ _ _ _ _ E3)).
  destruct (map_pages (B * 4096) _ st3) as [ok st']. destruct IH as (own'' & E5 & R5). exists own''.
  pose proof (eff_trans _ _ _ _ _ _ _ _ E3 E5) as E. split.
  - eapply eff_weaken; [exact E|]. cbn. intros p. destruct ok; lia.
  - destruct ok.
    + destruct R5 as [F R5]. replace (Z.of_nat (S n)) with (Z.of_nat n + 1) by lia. eexists.
      eapply (fresh_cons _ st own st3 own'); [lia..| |exact E3|exact Hm|exact Hzero| |exact E5|exact R5]; [cbn; lia|].
      intros a Hau Hma. rewrite (Hnew a Hau Hma). lia.
    + intros v Hv Hb. destruct (R5 v Hv Hb) as [?|[Hp Hw]]; [by left|]. right. split; [lia|]. rewrite Hw.
      apply Hoff; [done|lia].
Qed.

(** ** Ranges of the window *)

Definition window (p : Z) : Prop := USER_EXEC_MIN_VADDR / 4096 <= p < USER_EXEC_MAX_VADDR / 4096.

Lemma range_ok_true start size :
  is_u64 start → is_u64 size → range_ok start size = true →
  0 < size ∧ USER_EXEC_MIN_VADDR <= start ∧ start + size <= USER_EXEC_MAX_VADDR.
Proof. intros Hs Hz. unfold range_ok, is_u64 in *. repeat case_if; btests; try done; intros _; lia. Qed.

Lemma range_window start size p :
  is_u64 start → is_u64 size → range_ok start size = true → range_pages start size p → window p.
Proof.
  intros Hs Hz Hr. destruct (range_ok_true start size Hs Hz Hr) as (H1 & H2 & H3).
  unfold range_pages, window, USER_EXEC_MIN_VADDR, USER_EXEC_MAX_VADDR in *. zlia.
Qed.

(** The first page of a range and their number. *)
Definition first_page (start : Z) : Z := start / 4096.
Definition page_count (start size : Z) : Z := (start + size + 4095) / 4096 - start / 4096.

Lemma range_pages_count start size p :
  range_pages start size p ↔ first_page start <= p < first_page start + page_count start size.
Proof. unfold range_pages, first_page, page_count. lia. Qed.

(** What a range looks like once it is mapped: every page has a frame of its
    own, fresh and zeroed. *)
Definition mapped_fresh (st0 : vm) (own0 : owners) (start size : Z) (st : vm) (own : owners) : Prop :=
  ∃ F, fresh_pages (range_pages start size) st0 own0 st own (first_page start) (page_count start size) F.

Lemma fresh_opened X st0 own0 st own st' P n F :
  space_ok st own → 0 <= P → P + n <= 2 ^ 35 →
  fresh_pages X st0 own0 st own P n F → opened own st st' → fresh_pages X st0 own0 st' own P n F.
Proof.
  intros Hs HP HPn [Fm Fz Fn Fi] Ho. destruct (eff_opened (λ _, False) st own st own st' (eff_refl _ _ _ Hs) Ho) as [E _].
  assert (Hu : ∀ p, P <= p < P + n → is_u64 (p * 4096)) by (intros; apply page_u64; lia). split; [..|done|done].
  - intros p Hp. apply (ef_mine _ _ _ _ _ E); [auto|tauto|by apply Fm].
  - intros p c Hp Hc. rewrite (ef_byte _ _ _ _ _ E (p * 4096) (F p) c); [by apply (Fz p)|auto|tauto|by apply Fm|done].
Qed.

Lemma map_range_eff start size st own :
  space_ok st own → is_u64 start → is_u64 size → range_ok start size = true →
  let '(ok, st') := map_range start size st in
  ∃ own', eff (range_pages start size) st own st' own' ∧
    if ok : bool then mapped_fresh st own start size st' own'
    else ∀ v, is_u64 v → weq (wk st' v) (wk st v) ∨ range_pages start size (page_no v) ∧ wk st' v = WNone.
Proof.
  intros Hs Hstart Hsize Hr. destruct (range_ok_true start size Hstart Hsize Hr) as (H1 & H2 & H3).
  unfold USER_EXEC_MIN_VADDR, USER_EXEC_MAX_VADDR in *.
  unfold map_range. rewrite Hr. cbn [negb]. rewrite u64_small by (unfold is_u64; lia).
  rewrite align_down_eq, align_up_eq by (done || lia).
  set (P := first_page start). set (n := page_count start size).
  assert (Hn : 0 <= P ∧ 0 <= n ∧ P + n <= 2 ^ 35) by (unfold P, n, first_page, page_count; zlia).
  replace (start / 4096 * 4096) with (P * 4096) by done.
  replace ((start + size + 4095) / 4096 * 4096) with ((P + Z.of_nat (Z.to_nat n)) * 4096) by (unfold P, n, first_page, page_count in *; lia).
  pose proof (map_pages_eff (Z.to_nat n) P P st own ltac:(lia) ltac:(lia) Hs) as Hm.
  rewrite Z2Nat.id in * by lia. assert (Hrp := range_pages_count start size). fold P n in Hrp.
  destruct (map_pages (P * 4096) _ st) as [ok st1]. destruct Hm as (own' & E1 & R1).
  destruct ok; cbn [negb]; exists own'.
  - pose proof (mark_user_range_opened st1 own' (P * 4096) ((P + n) * 4096 - P * 4096) (so_tables _ _ (ef_ok _ _ _ _ _ E1))) as Ho.
    destruct (eff_opened _ _ _ _ _ _ E1 Ho) as [E2 _]. split; [eapply eff_weaken; [exact E2|]; intros p; apply Hrp|].
    destruct R1 as [F R1]. exists F. fold P n. eapply fresh_opened; [apply E1|lia..| |exact Ho].
    destruct R1 as [Fm Fz Fn Fi]. split; [done..| |done]. intros p a Hp Ha Hma. apply Hrp. by apply (Fn p).
  - split; [eapply eff_weaken; [exact E1|]; intros p; apply Hrp|].
    intros v Hv. destruct (decide (range_pages start size (page_no v))) as [Hin|Hout].
    + destruct (R1 v Hv) as [Hnp|[_ ?]]; [apply Hrp in Hin; lia| |by left].
      destruct (wk st1 v) as [|l e|e] eqn:Hw; [by right| |by destruct Hnp]. left. rewrite <- Hw.
      apply (ef_huge _ _ _ _ _ E1); [done|]. right. by rewrite Hw.
    + left. apply (ef_walk _ _ _ _ _ E1); [done|]. by rewrite <- Hrp.
Qed.

(** ** Enough frames *)

Lemma nfree_free f st own : tables_ok st own → 0 < f → (nfree st <= nfree (free_frame f st))%nat.
Proof.
  intros Hok Ha. destruct (ok_pmm _ _ Hok) as (Hwf & Hbm & _ & _). unfold nfree.
  destruct (pmm_bitmap (frames st)) as [bm|] eqn:Hb; [|done]. cbn.
  destruct (decide (frame_addr_ok (pmm_total_frames (frames st)) f)) as [Hfa|Hbad].
  2:{ by rewrite (pmm_free_frame_bad _ bm) by (done || lia). }
  destruct Hfa as [Hmod Hr]. unfold PAGE_SIZE in *. assert (Hae : f = f / 4096 * PAGE_SIZE) by (unfold PAGE_SIZE; zlia).
  destruct (decide (f / 4096 ∈ free_list (frames st))) as [Hin|Hnin].
  { by rewrite Hae, (pmm_free_frame_again _ bm) by done. }
  destruct (pmm_free_frame_spec (frames st) bm (f / 4096) Hwf Hb Hr Hnin) as (Hp & _). rewrite <- Hae in Hp.
  rewrite Hp. cbn. lia.
Qed.

Lemma nfree_unmap st own v : space_ok st own → is_u64 v → (nfree st <= nfree (unmap_step st v))%nat.
Proof.
  intros Hs Hv. unfold unmap_step. case_if; [|done]. rewrite (unmap_shape st own v Hs Hv).
  destruct (wk st v) as [| |e] eqn:Hw; [done..|]. destruct (page_pte st own v e Hs Hv Hw) as (pt & -> & Hpt & _).
  destruct (so_leaf _ _ Hs v e Hv Hw) as (_ & L2 & _ & _).
  etrans; [|apply (nfree_free _ _ own); [|lia]]; [done|].
  apply (tables_ok_ext (wrw (slot pt (idx 0 v)) 0 st)); [done..|]. eapply set_pte_ok; [apply Hs|done|apply idx_range].
Qed.

Lemma map_pages_room n B P st own :
  0 <= P → P + Z.of_nat n <= 2 ^ 35 → space_ok st own → (4 * n <= nfree st)%nat →
  (∀ p, P <= p < P + Z.of_nat n → ¬ is_huge (wk st (p * 4096))) →
  let '(ok, st') := map_pages B (pages (P * 4096) ((P + Z.of_nat n) * 4096)) st in
  ok = true ∧ (nfree st <= 4 * n + nfree st')%nat.
Proof.
  revert P st own. induction n as [|n IH]; intros P st own HP HPn Hs Hroom Hnh.
  { rewrite pages_none. cbn [map_pages]. split; [done|lia]. }
  rewrite pages_step. cbn [map_pages]. fold (unmap_step st (P * 4096)).
  assert (Hpu : is_u64 (P * 4096)) by (apply page_u64; lia).
  destruct (map_round st own P Hs ltac:(lia)) as [Hg Hr]. unfold new_page in Hr.
  pose proof (nfree_unmap st own (P * 4096) Hs Hpu) as Hmore.
  destruct (unmap_step_eff st own (P * 4096) Hs Hpu) as [E1 _].
  assert (Hh : ¬ is_huge (wk (unmap_step st (P * 4096)) (P * 4096))).
  { intros Hh. apply (Hnh P); [lia|]. by rewrite <- (ef_huge _ _ _ _ _ E1 _ Hpu (or_intror Hh)). }
  destruct (alloc_frame (unmap_step st (P * 4096))) as [phys st2] eqn:Ha.
  destruct (Z.eqb_spec phys 0) as [->|Hz].
  { destruct (alloc_none _ own st2 (ef_ok _ _ _ _ _ E1) Ha). lia. }
  destruct (Hr Hz) as (own' & Hlen & Hr'). clear Hr Hg Ha Hz E1.
  generalize dependent (vmm_map_page (P * 4096) phys (Z.lor PTE_USER PTE_WRITABLE) (zero_user_page phys st2)).
  intros st3 Hlen Hr. destruct (vmm_get_mapping (P * 4096) st3 =? phys); cbn [negb].
  2:{ destruct Hr as [_ [?|?]]; [lia|done]. }
  destruct Hr as (E3 & _ & _ & _ & Hoff).
  specialize (IH (P + 1) st3 own' ltac:(lia) ltac:(lia) (ef_ok _ _ _ _ _ E3) ltac:(lia)).
  destruct (map_pages B _ st3) as [ok st']. destruct IH as [-> ?]; [|split; [done|lia]].
  intros p Hp. rewrite Hoff; [apply Hnh; lia|apply page_u64; lia|rewrite page_no_page; lia].
Qed.

(** The frames that mapping [n] bytes at [start] may take. *)
Definition room_for (start size : Z) : nat := 4 * Z.to_nat (page_count start size).

Lemma map_range_room start size st own :
  space_ok st own → is_u64 start → is_u64 size → range_ok start size = true → (room_for start size <= nfree st)%nat →
  (∀ p, range_pages start size p → ¬ is_huge (wk st (p * 4096))) →
  let '(ok, st') := map_range start size st in
  ok = true ∧ (nfree st <= room_for start size + nfree st')%nat.
Proof.
  intros Hs Hstart Hsize Hr Hroom Hnh. destruct (range_ok_true start size Hstart Hsize Hr) as (H1 & H2 & H3).
  unfold USER_EXEC_MIN_VADDR, USER_EXEC_MAX_VADDR in *.
  unfold map_range. rewrite Hr. cbn [negb]. rewrite u64_small by (unfold is_u64; lia).
  rewrite align_down_eq, align_up_eq by (done || lia).
  assert (Hrp := range_pages_count start size). unfold room_for in *.
  set (P := first_page start) in *. set (n := page_count start size) in *.
  assert (Hn : 0 <= P ∧ 0 <= n ∧ P + n <= 2 ^ 35) by (unfold P, n, first_page, page_count; zlia).
  replace (start / 4096 * 4096) with (P * 4096) by done.
  replace ((start + size + 4095) / 4096 * 4096) with ((P + Z.of_nat (Z.to_nat n)) * 4096) by (unfold P, n, first_page, page_count in *; lia).
  assert (Hnh' : ∀ p, P <= p < P + Z.of_nat (Z.to_nat n) → ¬ is_huge (wk st (p * 4096))) by (intros p Hp; apply Hnh, Hrp; lia).
  pose proof (map_pages_room (Z.to_nat n) (P * 4096) P st own ltac:(lia) ltac:(lia) Hs Hroom Hnh') as Hm.
  pose proof (map_pages_eff (Z.to_nat n) P P st own ltac:(lia) ltac:(lia) Hs) as He.
  destruct (map_pages (P * 4096) _ st) as [ok st1]. destruct Hm as [-> Hm], He as (own' & E1 & _). cbn [negb].
  split; [done|]. unfold nfree in *. rewrite (op_frames own' st1 (mark_user_range _ _ st1)); [exact Hm|]. apply mark_user_range_opened, E1.
Qed.

(** ** Writing bytes *)

Lemma mine_at st own a f :
  space_ok st own → 0 <= a < 2 ^ 48 → mine st own (a / 4096 * 4096) f → vmm_get_mapping a st = f.
Proof.
  intros Hs Ha [<- _ _]. assert (Hr : 0 <= a / 4096 < 2 ^ 36) by zlia.
  rewrite !(mapping_wk st own) by (done || (unfold is_u64; lia) || by apply page_u64).
  rewrite (walk_pre 4 st _ a (a / 4096 * 4096)); [|lia|by rewrite page_no_page, page_no_small by done].
  unfold decode. by rewrite Z.div_mul.
Qed.

Lemma mine_addr st own a f :
  space_ok st own → 0 <= a < 2 ^ 48 → mine st own (a / 4096 * 4096) f → mmu_addr a st = f + a mod 4096 ∧ frame_of (mmu_addr a st) = f.
Proof.
  intros Hs Ha Hm. unfold mmu_addr. rewrite (mine_at st own a f) by done. change 0xFFF with (Z.ones 12).
  rewrite Z.land_ones by lia. change (2 ^ 12) with 4096. split; [done|].
  destruct Hm as [_ (_ & _ & Hf & _) _]. unfold frame_of. zlia.
Qed.

Lemma store_mine st own a f b :
  space_ok st own → 0 <= a < 2 ^ 48 → mine st own (a / 4096 * 4096) f → store a b st = Some (st8 (f + a mod 4096) b st).
Proof.
  intros Hs Ha Hm. unfold store. destruct (mine_addr st own a f Hs Ha Hm) as [-> _].
  rewrite (mine_at st own a f) by done. destruct Hm as [_ (_ & ? & _) _]. by rewrite (proj2 (Z.eqb_neq f 0)) by lia.
Qed.

Lemma load_mine st own a f :
  space_ok st own → 0 <= a < 2 ^ 48 → mine st own (a / 4096 * 4096) f → load a st = Some (ld8 st (f + a mod 4096)).
Proof.
  intros Hs Ha Hm. unfold load. destruct (mine_addr st own a f Hs Ha Hm) as [-> _].
  rewrite (mine_at st own a f) by done. destruct Hm as [_ (_ & ? & _) _]. by rewrite (proj2 (Z.eqb_neq f 0)) by lia.
Qed.

Lemma mine_same st st' own a f :
  space_ok st own → space_ok st' own → is_u64 a → (∀ v, wk st' v = wk st v) → frames st' = frames st →
  mine st own a f → mine st' own a f.
Proof.
  intros Hs Hs' Ha Hw Hf [M1 (L1 & L2 & L3 & L4) M3]. split.
  - rewrite <- M1. apply (mapping_weq st own st' own); [done..|by rewrite Hw].
  - unfold leaf_frame. by rewrite Hf.
  - intros v e Hv. rewrite Hw. by apply M3.
Qed.

Lemma Zlength_cons {A} (x : A) l : Zlength (x :: l) = Zlength l + 1.
Proof. unfold Zlength. cbn [length]. lia. Qed.

(** Where the byte at [a] is, for frames [F]. *)
Definition place (F : Z → Z) (a : Z) : Z := F (a / 4096) + a mod 4096.

Lemma copy_to_eff X st0 own0 F bytes v st own :
  eff X st0 own0 st own → 0 <= v → v + Zlength bytes <= 2 ^ 47 → Forall is_u8 bytes →
  (∀ a, v <= a < v + Zlength bytes → mine st own (a / 4096 * 4096) (F (a / 4096)) ∧
     ∀ b, is_u64 b → mine st0 own0 b (F (a / 4096)) → X (page_no b)) →
  (∀ a b, v <= a < v + Zlength bytes → v <= b < v + Zlength bytes → F (a / 4096) = F (b / 4096) → a / 4096 = b / 4096) →
  ∃ st', copy_to v bytes st = Some st' ∧ eff X st0 own0 st' own ∧ frames st' = frames st ∧ (∀ v', wk st' v' = wk st v') ∧
    (∀ c, (∀ a, v <= a < v + Zlength bytes → c ≠ place F a) → ld8 st' c = ld8 st c) ∧
    (∀ i b, bytes !! i = Some b → ld8 st' (place F (v + Z.of_nat i)) = b).
Proof.
  intros E Hv Hlen Hb. revert v st E Hv Hlen. induction Hb as [|b bytes Hbu Hb IH]; intros v st E Hv Hlen HF Hinj; cbn [copy_to].
  { exists st. by do 5 (split; [done|]). }
  rewrite Zlength_cons in Hlen, HF, Hinj. assert (Hnn : 0 <= Zlength bytes) by (unfold Zlength; lia). pose proof (ef_ok _ _ _ _ _ E) as Hs.
  destruct (HF v) as [Hm HX]; [lia|]. rewrite (store_mine st own v (F (v / 4096))) by (done || lia). cbn [mbind option_bind].
  fold (place F v). set (st1 := st8 (place F v) b st).
  assert (Hfr : frame_of (place F v) = F (v / 4096)).
  { destruct Hm as [_ (_ & _ & Hf & _) _]. unfold frame_of, place. zlia. }
  destruct (eff_bytes X (λ f, f = F (v / 4096)) st0 own0 st own st1 E) as [E1 W1].
  { done. } { rewrite <- Hfr. apply st8_agree. } { intros f ->. apply Hm. } { intros a f Ha Hma ->. by apply HX. }
  destruct (IH (v + 1) st1 E1) as (st' & Hc & E' & F' & W' & O' & I'); [lia..| | |].
  { intros a Ha. destruct (HF a) as [Hma HXa]; [lia|]. split; [|done].
    apply (mine_same st st1); [done|apply E1|apply page_u64; zlia|done..]. }
  { intros a c Ha Hc. apply Hinj; lia. }
  exists st'. split; [done|]. split; [done|]. split; [by rewrite F'|]. split; [intros v'; by rewrite W'|]. split.
  - intros c Hout. rewrite Zlength_cons in Hout. rewrite O' by (intros a Ha; apply Hout; lia). unfold st1. rewrite ld8_st8, (proj2 (Z.eqb_neq _ _)); [done|].
    apply Hout. lia.
  - intros [|i] x Hx.
    + injection Hx as <-. rewrite Z.add_0_r. rewrite O'; [unfold st1; by rewrite ld8_st8, Z.eqb_refl, u8_small|].
      intros a Ha Heq. unfold place in Heq. destruct (HF a) as [[_ (_ & _ & Hfa & _) _] _]; [lia|].
      destruct Hm as [_ (_ & _ & Hfv & _) _].
      assert (HFe : F (v / 4096) = F (a / 4096)) by (clear - Heq Hfa Hfv; zlia).
      pose proof (Hinj v a ltac:(lia) ltac:(lia) HFe). assert (v = a); [|lia]. rewrite HFe in Heq. zlia.
    + replace (v + Z.of_nat (S i)) with (v + 1 + Z.of_nat i) by lia. by apply I'.
Qed.

(** ** Segments *)

(** The memory of a segment: the bytes of the file, then zeros. *)
Definition seg_byte (file : list Z) (ph : elf64_phdr) (k : Z) : Z :=
  if k <? p_filesz ph then file !!! Z.to_nat (p_offset ph + k) else 0.

Definition loaded_at (st : vm) (own : owners) (file : list Z) (ph : elf64_phdr) : Prop :=
  ∀ k, 0 <= k < p_memsz ph →
    ∃ f, mine st own ((p_vaddr ph + k) / 4096 * 4096) f ∧ ld8 st (f + (p_vaddr ph + k) mod 4096) = seg_byte file ph k.

Definition seg_pages (ph : elf64_phdr) (p : Z) : Prop := range_pages (p_vaddr ph) (p_memsz ph) p.

(** The fields are 64-bit numbers. *)
Definition phdr_wf (ph : elf64_phdr) : Prop :=
  is_u64 (p_offset ph) ∧ is_u64 (p_filesz ph) ∧ is_u64 (p_memsz ph) ∧ is_u64 (p_vaddr ph).

Lemma seg_page_of ph k :
  0 <= k < p_memsz ph → seg_pages ph ((p_vaddr ph + k) / 4096).
Proof. intros Hk. unfold seg_pages, range_pages. zlia. Qed.

Lemma loaded_eff (X : Z → Prop) st own st' own' file ph :
  0 <= p_vaddr ph → p_vaddr ph + p_memsz ph <= 2 ^ 47 →
  eff X st own st' own' → (∀ p, seg_pages ph p → ¬ X p) → loaded_at st own file ph → loaded_at st' own' file ph.
Proof.
  intros H0' Hr E HX HL k Hk. destruct (HL k Hk) as (f & Hm & Hb). exists f.
  pose proof (seg_page_of ph k Hk) as Hp. set (a := p_vaddr ph + k) in *.
  assert (Hpr : 0 <= a / 4096 < 2 ^ 36) by (unfold a; zlia).
  assert (Hx : ¬ X (page_no (a / 4096 * 4096))) by (rewrite page_no_page by done; by apply HX).
  assert (Hu : is_u64 (a / 4096 * 4096)) by (by apply page_u64). split.
  - by apply (ef_mine _ _ _ _ _ E).
  - rewrite (ef_byte _ _ _ _ _ E (a / 4096 * 4096) f); [done..|].
    destruct Hm as [_ (_ & _ & Hf & _) _]. unfold frame_of. zlia.
Qed.

Lemma file_range_ok_spec offset size n : file_range_ok offset size n = true ↔ offset <= n ∧ offset + size <= n.
Proof. exact (elf_range_ok_spec offset size n). Qed.

Lemma slice_in file off size :
  0 <= off → 0 <= size → off + size <= Zlength file →
  slice file off size = Some (take (Z.to_nat size) (drop (Z.to_nat off) file)).
Proof.
  intros. unfold slice. rewrite (proj2 (Z.leb_le 0 off)), (proj2 (Z.leb_le 0 size)), (proj2 (Z.leb_le _ (Zlength file))) by lia.
  done.
Qed.

(** Filling a fresh range with the bytes of the file. *)
Lemma fill_segment file ph st0 own0 st own :
  phdr_wf ph → Forall is_u8 file → range_ok (p_vaddr ph) (p_memsz ph) = true →
  p_filesz ph <= p_memsz ph → p_offset ph + p_filesz ph <= Zlength file →
  eff (seg_pages ph) st0 own0 st own → mapped_fresh st0 own0 (p_vaddr ph) (p_memsz ph) st own →
  ∃ st', (if 0 <? p_filesz ph
          then data ← slice file (p_offset ph) (p_filesz ph); copy_to (p_vaddr ph) data st else Some st) = Some st' ∧
    eff (seg_pages ph) st0 own0 st' own ∧ frames st' = frames st ∧ loaded_at st' own file ph.
Proof.
  intros (Ho & Hf & Hm & Hv) Hu8 Hr Hfm Hof E [F Hfp]. unfold is_u64 in *.
  destruct (range_ok_true _ _ Hv Hm Hr) as (R1 & R2 & R3). unfold USER_EXEC_MIN_VADDR, USER_EXEC_MAX_VADDR in *.
  assert (Hpg : ∀ a, p_vaddr ph <= a < p_vaddr ph + p_memsz ph →
    first_page (p_vaddr ph) <= a / 4096 < first_page (p_vaddr ph) + page_count (p_vaddr ph) (p_memsz ph)).
  { intros a Ha. apply range_pages_count. unfold range_pages. zlia. }
  assert (Hcopy : ∃ st', (if 0 <? p_filesz ph
          then data ← slice file (p_offset ph) (p_filesz ph); copy_to (p_vaddr ph) data st else Some st) = Some st' ∧
    eff (seg_pages ph) st0 own0 st' own ∧ frames st' = frames st ∧ (∀ v', wk st' v' = wk st v') ∧
    (∀ c, (∀ a, p_vaddr ph <= a < p_vaddr ph + p_filesz ph → c ≠ place F a) → ld8 st' c = ld8 st c) ∧
    (∀ k, 0 <= k < p_filesz ph → ld8 st' (place F (p_vaddr ph + k)) = file !!! Z.to_nat (p_offset ph + k))).
  { destruct (Z.ltb_spec 0 (p_filesz ph)) as [Hpos|Hz].
    2:{ exists st. do 5 (split; [done|]). intros k Hk. lia. }
    rewrite slice_in by lia. cbn [mbind option_bind]. set (data := take _ _).
    assert (Hdl : Zlength data = p_filesz ph) by (unfold data, Zlength in *; rewrite length_take, length_drop; lia).
    destruct (copy_to_eff (seg_pages ph) st0 own0 F data (p_vaddr ph) st own E) as (st' & ? & ? & ? & ? & ? & HI).
    - lia.
    - lia.
    - by apply Forall_take, Forall_drop.
    - rewrite Hdl. intros a Ha. split; [apply (fp_mine _ _ _ _ _ _ _ _ Hfp), Hpg; lia|].
      intros b Hb. apply (fp_new _ _ _ _ _ _ _ _ Hfp); [apply Hpg; lia|done].
    - rewrite Hdl. intros a b Ha Hb. apply (fp_inj _ _ _ _ _ _ _ _ Hfp); apply Hpg; lia.
    - exists st'. rewrite Hdl in *. do 5 (split; [done|]). intros k Hk. rewrite <- (HI (Z.to_nat k) (file !!! Z.to_nat (p_offset ph + k))).
      + by rewrite Z2Nat.id by lia.
      + unfold data. rewrite lookup_take_lt, lookup_drop by lia. rewrite <- Z2Nat.inj_add by lia.
        apply list_lookup_lookup_total_lt. unfold Zlength in *. lia. }
  destruct Hcopy as (st' & Hc & E' & Hfr & Hw & Hout & Hin). exists st'. do 3 (split; [done|]).
  intros k Hk. exists (F ((p_vaddr ph + k) / 4096)).
  assert (Hpk := Hpg (p_vaddr ph + k) ltac:(lia)). pose proof (fp_mine _ _ _ _ _ _ _ _ Hfp _ Hpk) as Hmk. split.
  - apply (mine_same st st'); [apply E|apply E'|apply page_u64; zlia|done..].
  - unfold seg_byte. destruct (Z.ltb_spec k (p_filesz ph)) as [Hlt|Hge]; [apply Hin; lia|].
    fold (place F (p_vaddr ph + k)). rewrite Hout.
    + apply (fp_zero _ _ _ _ _ _ _ _ Hfp _ _ Hpk). destruct Hmk as [_ (_ & _ & Hf' & _) _]. unfold frame_of, place. clear - Hf'. zlia.
    + intros a Ha Heq. pose proof (Hpg a ltac:(lia)) as Hpa. unfold place in Heq.
      destruct (fp_mine _ _ _ _ _ _ _ _ Hfp _ Hpa) as [_ (_ & _ & Hfa & _) _]. destruct Hmk as [_ (_ & _ & Hfk & _) _].
      assert (HFe : F ((p_vaddr ph + k) / 4096) = F (a / 4096)) by (clear - Heq Hfa Hfk; zlia).
      pose proof (fp_inj _ _ _ _ _ _ _ _ Hfp _ _ Hpk Hpa HFe) as Hpe. rewrite HFe in Heq. clear - Heq Ha Hpe Hge. zlia.
Qed.
