(* ===== verification/UserRun.v ===== *)
(** * User mode: whole programs

    From the bytes of a file to the end of the program: what is in memory when
    it starts, and what is left of it when it is done. *)

From S2P Require Import Prelude Utils CString Bytes Print Pmm Vmm Alloc Task Vfs Ramfs Elf Process UserMode UserSpace UserProps.

(** ** One segment *)

(** The pages from [mapped_begin] to [mapped_end]. *)
Definition cover (mb me p : Z) : Prop := mb / 4096 <= p < me / 4096.

#[export] Instance cover_dec mb me p : Decision (cover mb me p).
Proof. unfold cover. apply _. Defined.

(** Nothing is mapped yet, or a part of the window. *)
Definition span (mb me : Z) : Prop :=
  mb = 0 ∧ me = 0 ∨
  mb mod 4096 = 0 ∧ me mod 4096 = 0 ∧ USER_EXEC_MIN_VADDR <= mb ∧ mb < me ∧ me <= USER_EXEC_MAX_VADDR.

Lemma cover_window mb me p : span mb me → cover mb me p → window p.
Proof.
  unfold span, cover, window, USER_EXEC_MIN_VADDR, USER_EXEC_MAX_VADDR. intros [[-> ->]|(? & ? & ? & ? & ?)]; zlia.
Qed.

Lemma span_add mb me start size :
  is_u64 start → is_u64 size → range_ok start size = true → span mb me →
  let b := align_down start PAGE_SIZE in
  let e := align_up (u64 (start + size)) PAGE_SIZE in
  let mb' := if (mb =? 0) || (b <? mb) then b else mb in
  let me' := if me <? e then e else me in
  span mb' me' ∧ ∀ p, cover mb me p ∨ range_pages start size p → cover mb' me' p.
Proof.
  intros Hs Hz Hr Hsp. destruct (range_ok_true start size Hs Hz Hr) as (H1 & H2 & H3).
  unfold USER_EXEC_MIN_VADDR, USER_EXEC_MAX_VADDR in *. cbv zeta.
  rewrite u64_small by (unfold is_u64; lia). rewrite align_down_eq, align_up_eq by (done || lia).
  set (P := start / 4096). set (Q := (start + size + 4095) / 4096).
  assert (HPQ : 65536 <= P < Q ∧ Q <= 524288) by (unfold P, Q; clear - H1 H2 H3; zlia).
  unfold range_pages. fold P Q. clearbody P Q. unfold span, cover, USER_EXEC_MIN_VADDR, USER_EXEC_MAX_VADDR in *.
  destruct Hsp as [[-> ->]|(A & B & C & D & F)].
  - rewrite (proj2 (Z.ltb_lt 0 (Q * 4096))) by lia. cbn [Z.eqb orb]. split; [right; zlia|]. intros p. zlia.
  - rewrite (proj2 (Z.eqb_neq mb 0)) by lia. cbn [orb].
    destruct (Z.ltb_spec (P * 4096) mb), (Z.ltb_spec me (Q * 4096)); (split; [right; zlia|]); intros p; zlia.
Qed.

(** Translations that are as before, or gone from the window. *)
Definition settled (st0 st : vm) : Prop :=
  ∀ v, is_u64 v → weq (wk st v) (wk st0 v) ∨ window (page_no v) ∧ wk st v = WNone.

(** A segment that the checks let through, and the frames it may take. *)
Definition seg_fits (file : list Z) (ph : elf64_phdr) : Prop :=
  p_filesz ph <= p_memsz ph ∧ p_offset ph + p_filesz ph <= Zlength file ∧ range_ok (p_vaddr ph) (p_memsz ph) = true.

#[export] Instance seg_fits_dec file ph : Decision (seg_fits file ph).
Proof. unfold seg_fits. apply _. Defined.

Definition seg_room (ph : elf64_phdr) : nat := room_for (p_vaddr ph) (p_memsz ph).

(** No page of the range is in a huge page. *)
Definition no_huge (X : Z → Prop) (st : vm) : Prop := ∀ p, X p → ¬ is_huge (wk st (p * 4096)).

Lemma segment_spec file ph mb me st own :
  space_ok st own → phdr_wf ph → Forall is_u8 file →
  ∃ r mb' me' st' own', map_load_segment file ph mb me st = Some (r, mb', me', st') ∧
    (r = 0 ∧ ¬ loadable ph ∧ mb' = mb ∧ me' = me ∧ st' = st ∧ own' = own ∨
     r = -1 ∧ loadable ph ∧ mb' = mb ∧ me' = me ∧ eff window st own st' own' ∧ settled st st' ∨
     r = 0 ∧ loadable ph ∧ eff (seg_pages ph) st own st' own' ∧ loaded_at st' own' file ph ∧
       (∀ p, seg_pages ph p → window p) ∧ 0 <= p_vaddr ph ∧ p_vaddr ph + p_memsz ph <= 2 ^ 47 ∧
       (span mb me → span mb' me' ∧ ∀ p, cover mb me p ∨ seg_pages ph p → cover mb' me' p)) ∧
    (loadable ph → seg_fits file ph → (seg_room ph <= nfree st)%nat → no_huge (seg_pages ph) st →
       r = 0 ∧ (nfree st <= seg_room ph + nfree st')%nat).
Proof.
  intros Hs Hwf Hu8. pose proof Hwf as (Ho & Hf & Hm & Hv). unfold map_load_segment.
  assert (Hfail : eff window st own st own ∧ settled st st) by (split; [by apply eff_refl|by intros v _; left]).
  destruct (negb (p_type ph =? ELF_PT_LOAD) || (p_memsz ph =? 0)) eqn:Hl.
  { assert (Hnl : ¬ loadable ph).
    { intros [Ht Hnz]. rewrite Ht in Hl. by rewrite Z.eqb_refl, (proj2 (Z.eqb_neq _ _)) in Hl. }
    do 5 eexists. split; [reflexivity|]. split; [by left|done]. }
  apply orb_false_iff in Hl as [Hl1%negb_false_iff%Z.eqb_eq Hl2%Z.eqb_neq].
  destruct (Z.ltb_spec (p_memsz ph) (p_filesz ph)) as [|Hfm].
  { do 5 eexists. split; [reflexivity|]. split; [right; by left|]. intros _ [? _]. lia. }
  destruct (file_range_ok _ _ _) eqn:Hfr; cbn [negb].
  2:{ do 5 eexists. split; [reflexivity|]. split; [right; by left|]. intros _ (_ & Hx & _).
      by rewrite (proj2 (file_range_ok_spec _ _ _)) in Hfr by (unfold is_u64 in *; lia). }
  destruct (range_ok (p_vaddr ph) (p_memsz ph)) eqn:Hr; cbn [negb].
  2:{ do 5 eexists. split; [reflexivity|]. split; [right; by left|]. intros _ (_ & _ & ?). congruence. }
  apply file_range_ok_spec in Hfr as [_ Hfr].
  assert (Hwin : ∀ p, seg_pages ph p → window p) by (intros p; by apply range_window).
  pose proof (map_range_eff (p_vaddr ph) (p_memsz ph) st own Hs Hv Hm Hr) as Hmr.
  pose proof (map_range_room (p_vaddr ph) (p_memsz ph) st own Hs Hv Hm Hr) as Hroom.
  destruct (map_range (p_vaddr ph) (p_memsz ph) st) as [ok st1]. destruct Hmr as (own1 & E1 & R1).
  destruct ok; cbn [negb].
  - destruct (fill_segment file ph st own st1 own1 Hwf Hu8 Hr Hfm Hfr E1 R1) as (st2 & -> & E2 & F2 & L2).
    do 5 eexists. split; [reflexivity|]. split.
    + right. right. split; [done|]. split; [done|]. split; [exact E2|]. split; [done|]. split; [done|].
      destruct (range_ok_true _ _ Hv Hm Hr) as (? & ? & ?). unfold USER_EXEC_MIN_VADDR, USER_EXEC_MAX_VADDR in *.
      split; [lia|]. split; [lia|]. by apply span_add.
    + intros _ _ Hle Hnh. split; [done|]. destruct (Hroom Hle Hnh) as [_ Hl]. unfold nfree in *. by rewrite F2.
  - do 5 eexists. split; [reflexivity|]. split; [|by intros _ _ Hle Hnh; destruct (Hroom Hle Hnh)].
    right. left. do 4 (split; [done|]). split; [eapply eff_weaken; [exact E1|done]|]. intros v Hvu. destruct (R1 v Hvu) as [?|[Hp ?]]; [by left|right; split; [by apply Hwin|done]].
Qed.

(** ** All segments *)

(** Between two segments: what is outside the mapped part is settled. *)
Record load_inv (st0 : vm) (own0 : owners) (mb me : Z) (st : vm) (own : owners) : Prop := {
  li_eff : eff window st0 own0 st own;
  li_span : span mb me;
  li_rest : ∀ v, is_u64 v → ¬ cover mb me (page_no v) → weq (wk st v) (wk st0 v) ∨ window (page_no v) ∧ wk st v = WNone
}.

Lemma inv_settle st0 own0 mb me st own st' own' :
  load_inv st0 own0 mb me st own → eff window st own st' own' → settled st st' → load_inv st0 own0 mb me st' own'.
Proof.
  intros [E S R] E' Hs. split; [|done|].
  - eapply eff_weaken; [exact (eff_trans _ _ _ _ _ _ _ _ E E')|]. cbn. tauto.
  - intros v Hv Hc. destruct (Hs v Hv) as [Hw|?]; [|by right]. destruct (R v Hv Hc) as [Hw0|[Hp Hn]].
    + left. by rewrite Hw.
    + right. split; [done|]. rewrite Hn in Hw. by destruct (wk st' v).
Qed.

Lemma inv_segment st0 own0 mb me st own X mb' me' st' own' :
  load_inv st0 own0 mb me st own → eff X st own st' own' → (∀ p, X p → window p) → span mb' me' →
  (∀ p, cover mb me p ∨ X p → cover mb' me' p) → load_inv st0 own0 mb' me' st' own'.
Proof.
  intros [E S R] E' HX Hs Hc. split; [|done|].
  - eapply eff_weaken; [exact (eff_trans _ _ _ _ _ _ _ _ E E')|]. cbn. intros p [?|?]; auto.
  - intros v Hv Hnc. assert (Hw : weq (wk st' v) (wk st v)) by (apply (ef_walk _ _ _ _ _ E'); auto).
    destruct (R v Hv) as [Hw0|[Hp Hn]]; [auto|left; by rewrite Hw|].
    right. split; [done|]. rewrite Hn in Hw. by destruct (wk st' v).
Qed.

(** Outside the pages [K], every translation is as before or gone from the
    window, except for the pages [C], which may be mapped. *)
Record partly (K C : Z → Prop) (st0 st : vm) (own : owners) : Prop := {
  pt_ok : space_ok st own;
  pt_huge : ∀ v, is_u64 v → ¬ K (page_no v) → is_huge (wk st0 v) ∨ is_huge (wk st v) → weq (wk st v) (wk st0 v);
  pt_rest : ∀ v, is_u64 v → ¬ K (page_no v) → ¬ C (page_no v) →
    weq (wk st v) (wk st0 v) ∨ window (page_no v) ∧ wk st v = WNone
}.

Lemma inv_partly st0 own0 mb me st own :
  load_inv st0 own0 mb me st own → partly (λ _, False) (cover mb me) st0 st own.
Proof. intros [E S R]. split; [apply E|intros v Hv _; by apply (ef_huge _ _ _ _ _ E)|intros v Hv _; by apply R]. Qed.

Lemma partly_eff K C X st0 st own st' own' :
  partly K C st0 st own → eff X st own st' own' → partly K (λ p, C p ∨ X p) st0 st' own'.
Proof.
  intros [Hs H R] E. split; [apply E|..].
  - intros v Hv HK [Hh|Hh].
    + pose proof (H v Hv HK (or_introl Hh)) as Hw. rewrite <- Hw. apply (ef_huge _ _ _ _ _ E); [done|]. left. by rewrite Hw.
    + pose proof (ef_huge _ _ _ _ _ E v Hv (or_intror Hh)) as Hw. rewrite Hw. apply H; [done..|]. right. by rewrite <- Hw.
  - intros v Hv HK Hc. assert (Hw : weq (wk st' v) (wk st v)) by (apply (ef_walk _ _ _ _ _ E); tauto).
    destruct (R v Hv HK) as [Hw0|[Hp Hn]]; [tauto|left; by rewrite Hw|].
    right. split; [done|]. rewrite Hn in Hw. by destruct (wk st' v).
Qed.

(** Something else runs, which maps pages in [K] only. *)
Lemma partly_other K C st0 st own st' own' :
  partly (λ _, False) C st0 st own → space_ok st' own' →
  (∀ v, is_u64 v → ¬ K (page_no v) → weq (wk st' v) (wk st v)) → partly K C st0 st' own'.
Proof.
  intros [Hs H R] Hs' Hw. split; [done|..].
  - intros v Hv HK Hh. rewrite (Hw v Hv HK) in *. by apply H; [|tauto|].
  - intros v Hv HK Hc. pose proof (Hw v Hv HK) as Hwv. destruct (R v Hv) as [Hw0|[Hp Hn]]; [tauto..|left; by rewrite Hwv|].
    right. split; [done|]. rewrite Hn in Hwv. by destruct (wk st' v).
Qed.

Lemma partly_unmap K C start size st0 st own :
  partly K C st0 st own → 0 <= start → 0 < size → start + size < 2 ^ 47 → (∀ p, range_pages start size p → window p) →
  partly K (λ p, C p ∧ ¬ range_pages start size p) st0 (unmap_range start size st) own.
Proof.
  intros [Hs H R] H1 H2 H3 Hwin. destruct (unmap_range_eff start size st own Hs) as [E W]; [lia..|].
  set (st' := unmap_range start size st) in *. clearbody st'.
  assert (Hh : ∀ v, is_u64 v → ¬ K (page_no v) → is_huge (wk st0 v) ∨ is_huge (wk st' v) → weq (wk st' v) (wk st0 v)).
  { apply (partly_eff K C (range_pages start size) st0 st own st' own); [by split|exact E]. }
  split; [apply E|done|]. intros v Hv HK Hc. destruct (decide (range_pages start size (page_no v))) as [Hp|Hp].
  - assert (Hnp : ¬ is_page (wk st' v)).
    { rewrite W, decide_True by (done || (split; [lia|done])). destruct (wk st v); cbn; tauto. }
    destruct (wk st' v) as [|l e|e] eqn:Hw; [right; auto| |by destruct Hnp].
    left. rewrite <- Hw. apply Hh; [done..|]. right. by rewrite Hw.
  - rewrite W, decide_False by (done || tauto). apply R; [done..|]. tauto.
Qed.

Lemma partly_weaken K (C D : Z → Prop) st0 st own : partly K C st0 st own → (∀ p, C p → D p) → partly K D st0 st own.
Proof. intros [Hs H R] HCD. split; [done|done|]. intros v Hv HK Hd. apply R; auto. Qed.

Lemma unmap_image_partly K mb me st0 st own :
  partly K (cover mb me) st0 st own → span mb me → partly K (λ _, False) st0 (unmap_image mb me st) own.
Proof.
  intros Hp Hs. unfold unmap_image. destruct (negb (mb =? 0) && (mb <? me)) eqn:Hb.
  - apply andb_true_iff in Hb as [Hb1%negb_true_iff%Z.eqb_neq Hb2%Z.ltb_lt].
    pose proof Hs as [[? _]|(S1 & S2 & S3 & S4 & S5)]; [done|].
    unfold USER_EXEC_MIN_VADDR, USER_EXEC_MAX_VADDR in S3, S5.
    assert (Hrp : ∀ p, range_pages mb (me - mb) p ↔ cover mb me p) by (intros p; unfold range_pages, cover; zlia).
    eapply partly_weaken; [apply partly_unmap; [exact Hp|lia..|]|].
    + intros p Hr%Hrp. by apply (cover_window mb me).
    + cbn. intros p. rewrite Hrp. tauto.
  - eapply partly_weaken; [exact Hp|]. intros p. unfold span, cover, USER_EXEC_MIN_VADDR in *.
    destruct Hs as [[-> ->]|(? & ? & ? & ? & ?)]; [zlia|].
    apply andb_false_iff in Hb as [Hb%negb_false_iff%Z.eqb_eq|Hb%Z.ltb_ge]; lia.
Qed.

(** ** The program headers *)

Definition read_headers (file : list Z) (e_phoff i : Z) (n : nat) : option (list elf64_phdr) :=
  mapM (λ k, read_phdr file (e_phoff + k * 56)) (seqZ i (Z.of_nat n)).

(** Ranges of pages that do not meet. *)
Definition apart (r1 r2 : Z * Z) : Prop :=
  first_page r1.1 + page_count r1.1 r1.2 <= first_page r2.1 ∨ first_page r2.1 + page_count r2.1 r2.2 <= first_page r1.1.

#[export] Instance apart_dec r1 r2 : Decision (apart r1 r2).
Proof. unfold apart. apply _. Defined.

Fixpoint pairwise (l : list (Z * Z)) : Prop :=
  match l with [] => True | r :: l => Forall (apart r) l ∧ pairwise l end.

#[export] Instance pairwise_dec l : Decision (pairwise l).
Proof. induction l as [|r l IH]; cbn [pairwise]; apply _. Defined.

Definition seg_range (ph : elf64_phdr) : Z * Z := (p_vaddr ph, p_memsz ph).

Lemma apart_pages r1 r2 p : apart r1 r2 → range_pages r1.1 r1.2 p → ¬ range_pages r2.1 r2.2 p.
Proof. rewrite !range_pages_count. unfold apart. lia. Qed.

(** The pages of the segments of some headers. *)
Definition segs_pages (l : list elf64_phdr) (p : Z) : Prop := Exists (λ ph, seg_pages ph p) (filter loadable l).

Definition segs_room (l : list elf64_phdr) : nat := sum_list (seg_room <$> filter loadable l).

Lemma read_phdr_wf file off :
  Forall is_u8 file → 0 <= off → off + 56 <= Zlength file → ∃ ph, read_phdr file off = Some ph ∧ phdr_wf ph.
Proof.
  intros Hu Ho Hr. destruct (read_phdr_in file Hu off Ho Hr) as (ph & Hph & H1 & H2 & H3 & H4).
  exists ph. split; [done|]. by unfold phdr_wf, is_u64.
Qed.

Lemma no_huge_eff (X Y : Z → Prop) st own st' own' :
  eff Y st own st' own' → (∀ p, X p → 0 <= p < 2 ^ 36) → no_huge X st → no_huge X st'.
Proof.
  intros E Hr Hn p Hp Hh. apply (Hn p Hp). rewrite <- (ef_huge _ _ _ _ _ E (p * 4096)); [done|by apply page_u64, Hr|by right].
Qed.

(** Every segment that is loaded fits, so its pages are in the window. *)
Definition segs_ok (file : list Z) (l : list elf64_phdr) : Prop := Forall (seg_fits file) (filter loadable l).

Lemma seg_fits_range file ph p : phdr_wf ph → seg_fits file ph → seg_pages ph p → 0 <= p < 2 ^ 36.
Proof.
  intros (_ & _ & Hm & Hv) (_ & _ & Hr) Hp. pose proof (range_window _ _ p Hv Hm Hr Hp) as Hw. revert Hw.
  unfold window, USER_EXEC_MIN_VADDR, USER_EXEC_MAX_VADDR. zlia.
Qed.

Lemma segs_range file l :
  Forall phdr_wf l → segs_ok file l → ∀ p, segs_pages l p → 0 <= p < 2 ^ 36.
Proof.
  intros Hw Hs p (ph & Hph & Hp)%Exists_exists. unfold segs_ok in Hs. rewrite Forall_forall in Hw, Hs.
  apply (seg_fits_range file ph); [|by apply Hs|done]. by apply list_elem_of_filter in Hph as [_ ?%Hw].
Qed.

(** What the loop over the headers leaves: all segments in place, when it got
    to the end and they do not meet. *)
Record segs_loaded (file : list Z) (l : list elf64_phdr) (st : vm) (own : owners) (st' : vm) (own' : owners) : Prop := {
  sl_eff : eff (segs_pages l) st own st' own';
  sl_window : ∀ ph, ph ∈ filter loadable l → 0 <= p_vaddr ph ∧ p_vaddr ph + p_memsz ph <= 2 ^ 47;
  sl_data : pairwise (seg_range <$> filter loadable l) → ∀ ph, ph ∈ filter loadable l → loaded_at st' own' file ph
}.

Lemma filter_skip ph l : ¬ loadable ph → filter loadable (ph :: l) = filter loadable l.
Proof. intros H. by rewrite filter_cons_False. Qed.

Lemma filter_keep ph l : loadable ph → filter loadable (ph :: l) = ph :: filter loadable l.
Proof. intros H. by rewrite filter_cons_True. Qed.

Lemma segs_room_keep ph l : loadable ph → segs_room (ph :: l) = (seg_room ph + segs_room l)%nat.
Proof. intros H. unfold segs_room. by rewrite filter_keep. Qed.

Lemma segs_loaded_skip file ph l st own st' own' :
  ¬ loadable ph → segs_loaded file l st own st' own' → segs_loaded file (ph :: l) st own st' own'.
Proof. intros Hn [E W D]. split; unfold segs_pages in *; by rewrite (filter_skip ph l Hn). Qed.

Lemma segs_loaded_cons file ph l st own st1 own1 st' own' :
  loadable ph → 0 <= p_vaddr ph → p_vaddr ph + p_memsz ph <= 2 ^ 47 →
  eff (seg_pages ph) st own st1 own1 → loaded_at st1 own1 file ph →
  segs_loaded file l st1 own1 st' own' → segs_loaded file (ph :: l) st own st' own'.
Proof.
  intros Hl Hv Hm E1 D1 [E2 W2 D2]. split; unfold segs_pages in *; rewrite (filter_keep ph l Hl).
  - eapply eff_weaken; [exact (eff_trans _ _ _ _ _ _ _ _ E1 E2)|]. cbn. intros p Hp. by apply Exists_cons.
  - intros q [->|Hq]%elem_of_cons; [done|by apply W2].
  - rewrite fmap_cons. intros [Ha Hp] q [->|Hq]%elem_of_cons; [|by apply D2].
    apply (loaded_eff (segs_pages l) st1 own1); [done|done|done| |done]. intros p Hpp (q & Hq & Hqp)%Exists_exists.
    rewrite Forall_fmap, Forall_forall in Ha. by apply (apart_pages _ _ p (Ha q Hq)).
Qed.

Section Segments.
Context (file : list Z) (Hu8 : Forall is_u8 file) (Hlen : Zlength file < 2 ^ 63).
Context (st0 : vm) (own0 : owners).

Lemma load_segments_spec e_phoff n i mb me st own :
  0 <= e_phoff → 0 <= i → e_phoff + 56 * (i + Z.of_nat n) <= Zlength file → load_inv st0 own0 mb me st own →
  ∃ ok mb' me' st' own' l,
    load_segments n i file e_phoff 56 mb me st = Some (ok, mb', me', st') ∧
    read_headers file e_phoff i n = Some l ∧ Forall phdr_wf l ∧ load_inv st0 own0 mb' me' st' own' ∧
    (ok = true → segs_loaded file l st own st' own') ∧
    (segs_ok file l → (segs_room l <= nfree st)%nat → no_huge (segs_pages l) st →
       ok = true ∧ (nfree st <= segs_room l + nfree st')%nat).
Proof.
  intros Hpo. revert i mb me st own. induction n as [|n IH]; intros i mb me st own Hi Hr Hinv; cbn [load_segments].
  { do 6 eexists. split; [reflexivity|]. split; [reflexivity|]. split; [by apply Forall_nil|]. split; [exact Hinv|]. split.
    - intros _. split; [apply eff_refl, Hinv|by intros ? ?%elem_of_nil|by intros _ ? ?%elem_of_nil].
    - intros _ _ _. split; [done|]. cbn. lia. }
  rewrite u64_small by (unfold is_u64; lia).
  destruct (read_phdr_wf file (e_phoff + i * 56) Hu8 ltac:(lia) ltac:(lia)) as (ph & Hph & Hwf).
  assert (Hrest : ∃ l, read_headers file e_phoff (i + 1) n = Some l ∧ Forall phdr_wf l).
  { destruct (IH (i + 1) mb me st own ltac:(lia) ltac:(lia) Hinv) as (? & ? & ? & ? & ? & l & _ & ? & ? & _). by exists l. }
  destruct Hrest as (l & Hl & Hwfl). assert (Hwfs : Forall phdr_wf (ph :: l)) by (by apply Forall_cons).
  assert (Hhd : read_headers file e_phoff i (S n) = Some (ph :: l)).
  { unfold read_headers in *. rewrite seqZ_cons by lia. replace (Z.pred (Z.of_nat (S n))) with (Z.of_nat n) by lia.
    replace (Z.succ i) with (i + 1) by lia. cbn [mapM]. by rewrite Hph; cbn [mbind option_bind]; rewrite Hl. }
  rewrite Hph. cbn [mbind option_bind].
  destruct (segment_spec file ph mb me st own) as (r & mb1 & me1 & st1 & own1 & -> & Hcase & Hroom); [apply Hinv|done..|].
  cbn [mbind option_bind]. destruct Hcase as [(-> & Hnl & -> & -> & -> & ->)|[(-> & Hld & -> & -> & E1 & S1)|(-> & Hld & E1 & D1 & Hw & Hv0 & Hv1 & Hsp)]].
  - destruct (IH (i + 1) mb me st own ltac:(lia) ltac:(lia) Hinv) as (ok & mb' & me' & st' & own' & l' & Hls & Hl' & _ & Hinv' & Hsl & Hrm).
    rewrite Hl in Hl'. injection Hl' as <-. exists ok, mb', me', st', own', (ph :: l). split; [done|]. split; [done|]. split; [done|]. split; [done|].
    unfold segs_ok, segs_room, no_huge, segs_pages in *. rewrite (filter_skip ph l Hnl). split; [|done].
    intros Hok. by apply segs_loaded_skip, Hsl.
  - exists false, mb, me, st1, own1, (ph :: l). split; [done|]. split; [done|]. split; [done|]. split; [by eapply inv_settle|]. split; [done|].
    intros Hso Hro Hnh. exfalso. rewrite (segs_room_keep ph l Hld) in Hro. unfold segs_ok, no_huge, segs_pages in *.
    rewrite (filter_keep ph l Hld) in *. apply Forall_cons in Hso as [Hfit _].
    destruct (Hroom Hld Hfit) as [? _]; [lia| |done]. intros p Hp. apply Hnh. by apply Exists_cons; left.
  - destruct (Hsp (li_span _ _ _ _ _ _ Hinv)) as [Hsp' Hcov].
    pose proof (inv_segment st0 own0 mb me st own (seg_pages ph) mb1 me1 st1 own1 Hinv E1 Hw Hsp' Hcov) as Hinv1.
    destruct (IH (i + 1) mb1 me1 st1 own1 ltac:(lia) ltac:(lia) Hinv1) as (ok & mb' & me' & st' & own' & l' & Hls & Hl' & _ & Hinv' & Hsl & Hrm).
    rewrite Hl in Hl'. injection Hl' as <-. exists ok, mb', me', st', own', (ph :: l). split; [done|]. split; [done|]. split; [done|]. split; [done|].
    split.
    + intros Hok. by apply (segs_loaded_cons file ph l st own st1 own1); [..|apply Hsl].
    + rewrite (segs_room_keep ph l Hld). unfold segs_ok, no_huge, segs_pages in *. rewrite (filter_keep ph l Hld).
      intros [Hfit Hso]%Forall_cons Hro Hnh.
      destruct (Hroom Hld Hfit) as [_ Hl1]; [lia|intros p Hp; apply Hnh; by apply Exists_cons; left|].
      destruct Hrm as [-> Hl2]; [done|lia| |split; [done|lia]].
      apply (no_huge_eff _ _ st own st1 own1 E1); [by apply (segs_range file)|]. intros p Hp. apply Hnh. by apply Exists_cons; right.
Qed.
End Segments.

(** ** Programs *)

(** The header check accepts less than the loader's does. *)
Lemma validate_elf_spec file :
  Forall is_u8 file →
  ∃ ok, validate_elf file = Some ok ∧ (ok = true → ∃ e_entry e_phoff e_phnum, header_ok file e_entry e_phoff e_phnum).
Proof.
  intros Hu. destruct (validate_spec file Hu) as (ok & Hok & Hhd). unfold elf_validate_header in Hok. unfold validate_elf.
  case_if; [by exists false|]. cbv zeta in Hok.
  repeat match type of Hok with (rd ?a ?b ?c ≫= _ = _) => destruct (rd a b c); [cbn [mbind option_bind] in *|done] end.
  repeat (case_if; [by exists false|]). eexists. split; [reflexivity|]. intros Hr. apply Hhd.
  btests. subst. rewrite !Z.eqb_refl in Hok. cbn [negb andb] in Hok.
  rewrite (proj2 (Z.eqb_neq _ 0)) in Hok by done. injection Hok as <-. exact Hr.
Qed.

Definition stack_range : Z * Z := (USER_EXEC_STACK_BOTTOM, USER_EXEC_STACK_SIZE).
Definition stack_pages (p : Z) : Prop := range_pages USER_EXEC_STACK_BOTTOM USER_EXEC_STACK_SIZE p.

Lemma stack_ok : is_u64 USER_EXEC_STACK_BOTTOM ∧ is_u64 USER_EXEC_STACK_SIZE ∧
  range_ok USER_EXEC_STACK_BOTTOM USER_EXEC_STACK_SIZE = true.
Proof. unfold is_u64, USER_EXEC_STACK_BOTTOM, USER_EXEC_STACK_SIZE, USER_EXEC_STACK_TOP. split; [lia|]. split; [lia|reflexivity]. Qed.

Lemma stack_window p : stack_pages p → window p.
Proof. destruct stack_ok as (H1 & H2 & H3). by apply range_window. Qed.

(** What a running program leaves of the address space: pages in [K] aside,
    translations lead where they led. *)
Definition keeps_space (K : Z → Prop) (ring3_enter : Z → Z → vm → sched → Z * vm * sched) : Prop :=
  ∀ entry_point stack_top st own s, space_ok st own →
    ∃ own', space_ok (ring3_enter entry_point stack_top st s).1.2 own' ∧
      ∀ v, is_u64 v → ¬ K (page_no v) → weq (wk (ring3_enter entry_point stack_top st s).1.2 v) (wk st v).

Lemma load_inv_start st own : space_ok st own → load_inv st own 0 0 st own.
Proof. intros Hs. split; [by apply eff_refl|by left|]. intros v Hv _. by left. Qed.

Lemma space_print st own o : space_ok st own → space_ok (vm_print o st) own.
Proof. intros Hs. apply (ef_ok (λ _, False) st own). by apply (eff_ext _ _ _ st); [apply eff_refl|..]. Qed.

Lemma partly_print K C st0 st own o : partly K C st0 st own → partly K C st0 (vm_print o st) own.
Proof. intros [Hs H R]. split; [by apply space_print|done..]. Qed.

(** Both ends of a program: the stack first, then the image. *)
Lemma unmap_both_partly K mb me st0 st own :
  partly K (λ p, cover mb me p ∨ stack_pages p) st0 st own → span mb me →
  partly K (λ _, False) st0 (unmap_image mb me (unmap_range USER_EXEC_STACK_BOTTOM USER_EXEC_STACK_SIZE st)) own.
Proof.
  intros Hp Hs. apply unmap_image_partly; [|done].
  eapply partly_weaken; [apply partly_unmap; [exact Hp|done..|apply stack_window]|]. cbn.
  intros p [[?|?] ?]; [done|by exfalso].
Qed.

Section Program.
Context (K : Z → Prop) (ring3_enter : Z → Z → vm → sched → Z * vm * sched).
Context `{Allocator H} (file : list Z) (Hu8 : Forall is_u8 file) (Hlen : Zlength file < 2 ^ 63).

Lemma run_image_partly buffer st own s h :
  keeps_space K ring3_enter → space_ok st own →
  ∃ r code st' s' h' own',
    run_image ring3_enter buffer file st s h = Some (r, code, st', s', h') ∧ partly K (λ _, False) st st' own'.
Proof.
  intros Hring Hs. unfold run_image. destruct (validate_elf_spec file Hu8) as (ok & -> & Hhd). cbn [mbind option_bind].
  assert (Hsame : partly K (λ _, False) st st own) by (split; [done|reflexivity|by left]).
  destruct ok; cbn [negb]; [|by do 6 eexists].
  destruct (Hhd eq_refl) as (en & po & pn & [Hsz Hen Hpo Hes Hpn (Hr1 & Hr2 & Hr3)]). clear Hhd.
  rewrite Hen, Hpo, Hes, Hpn. cbn [mbind option_bind]. destruct (range_ok en 1); cbn [negb]; [|by do 6 eexists].
  destruct (load_segments_spec file Hu8 Hlen st own po (Z.to_nat pn) 0 0 0 st own) as
    (ok & mb & me & st1 & own1 & l & -> & _ & _ & Hinv & _ & _); [lia..|by apply load_inv_start|]. cbn [mbind option_bind].
  pose proof (inv_partly _ _ _ _ _ _ Hinv) as Hp1. pose proof (li_span _ _ _ _ _ _ Hinv) as Hsp.
  assert (HK : ∀ C x ownx, partly (λ _, False) C st x ownx → partly K C st x ownx).
  { intros C x ownx Hp. apply (partly_other K C st x ownx); [done|apply Hp|reflexivity]. }
  destruct ok; cbn [negb]; [|do 6 eexists; split; [reflexivity|]; by apply unmap_image_partly; [apply HK|]].
  destruct stack_ok as (K1 & K2 & K3). pose proof (map_range_eff _ _ st1 own1 (pt_ok _ _ _ _ _ Hp1) K1 K2 K3) as Hm.
  destruct (map_range USER_EXEC_STACK_BOTTOM USER_EXEC_STACK_SIZE st1) as [ok st2]. destruct Hm as (own2 & E2 & R2).
  destruct ok; cbn [negb].
  2:{ do 6 eexists; split; [reflexivity|]. apply unmap_image_partly; [|done]. apply HK, (inv_partly st own).
      apply (inv_settle _ _ _ _ st1 own1); [done| |]; [eapply eff_weaken; [exact E2|apply stack_window]|].
      intros v Hv. destruct (R2 v Hv) as [?|[Hp ?]]; [by left|right; split; [by apply stack_window|done]]. }
  pose proof (partly_eff _ _ _ _ _ _ _ _ Hp1 E2) as Hp2. fold stack_pages in Hp2.
  destruct (task_current_user_context s) as [i|].
  - set (st3 := vm_print _ (vm_print _ st2)).
    assert (Hp3 : partly (λ _, False) (λ p, cover mb me p ∨ stack_pages p) st st3 own2) by (by apply partly_print, partly_print).
    destruct (Hring en USER_EXEC_STACK_TOP st3 own2 s (pt_ok _ _ _ _ _ Hp3)) as (own4 & Hs4 & Hw4).
    destruct (ring3_enter en USER_EXEC_STACK_TOP st3 s) as [[code st4] s4]. do 6 eexists. split; [reflexivity|].
    apply unmap_both_partly; [|done]. by apply (partly_other K _ st st3 own2).
  - do 6 eexists. split; [reflexivity|]. apply unmap_both_partly; [|done]. by apply HK, partly_print, partly_print.
Qed.

(** The stack, as a segment without bytes of the file. *)
Definition stack_segment : elf64_phdr := MkPhdr ELF_PT_LOAD 0 0 USER_EXEC_STACK_BOTTOM 0 USER_EXEC_STACK_SIZE.

Lemma stack_loaded st own st' own' :
  space_ok st own → eff stack_pages st own st' own' →
  mapped_fresh st own USER_EXEC_STACK_BOTTOM USER_EXEC_STACK_SIZE st' own' → loaded_at st' own' file stack_segment.
Proof.
  intros Hs E Hf. destruct stack_ok as (K1 & K2 & K3).
  destruct (fill_segment file stack_segment st own st' own') as (st2 & Hst & _ & _ & Hl);
    [|done|done|done|unfold Zlength; cbn; lia|done|done|].
  - split; [by unfold is_u64|]. split; [by unfold is_u64|]. by split.
  - by injection Hst as <-.
Qed.

(** The segments of a program whose pages, and those of the stack, do not meet. *)
Lemma program_loaded l st own st1 own1 st2 own2 :
  segs_loaded file l st own st1 own1 → eff stack_pages st1 own1 st2 own2 →
  pairwise (stack_range :: (seg_range <$> filter loadable l)) →
  ∀ ph, ph ∈ filter loadable l → loaded_at st2 own2 file ph.
Proof.
  intros [E1 W1 D1] E2 [Ha Hp] ph Hph. destruct (W1 ph Hph) as [? ?].
  apply (loaded_eff stack_pages st1 own1); [done|done|done| |by apply D1].
  rewrite Forall_fmap, Forall_forall in Ha. intros p Hq Hs. by apply (apart_pages _ _ p (Ha ph Hph)).
Qed.

Lemma loaded_load st own ph k :
  space_ok st own → 0 <= p_vaddr ph → p_vaddr ph + p_memsz ph <= 2 ^ 47 → loaded_at st own file ph →
  0 <= k < p_memsz ph → load (p_vaddr ph + k) st = Some (seg_byte file ph k).
Proof.
  intros Hs H1 H2 Hl Hk. destruct (Hl k Hk) as (f & Hm & <-). apply (load_mine st own); [done|lia|done].
Qed.
End Program.



(** ** A program *)

(** Sixty-four frames, the first three used; the root table in frame 1 is empty. *)
Definition roomy_pmm : pmm := MkPmm (Some [7; 0; 0; 0; 0; 0; 0; 0]) 64 61 8 0x3000 0x4000 0x40000.
Definition roomy_vm : vm := MkVm ∅ 0x1000 roomy_pmm [] [].
Definition roomy_own : owners := {[0x1000 := (4%nat, 0)]}.

Lemma roomy_free : free_list roomy_pmm = seqZ 3 61.
Proof. vm_compute. reflexivity. Qed.

Lemma roomy_walk v : wk roomy_vm v = WNone.
Proof. done. Qed.

Lemma roomy_ok : space_ok roomy_vm roomy_own.
Proof.
  assert (Hr : ∀ a, rdw roomy_vm a = 0) by done. unfold roomy_own. split; [|done|done]. constructor.
  - done.
  - intros t l p [<- [= <- <-]]%lookup_singleton_Some. do 2 (split; [done|]). split; [|lia].
    change (frames roomy_vm) with roomy_pmm. rewrite roomy_free. intros ?%elem_of_seqZ. zlia.
  - intros t l p i _ _ e. unfold e. by rewrite Hr.
  - intros t l q [_ [= <- _]]%lookup_singleton_Some. lia.
  - intros t1 t2 x [<- _]%lookup_singleton_Some [<- _]%lookup_singleton_Some. done.
  - split; [vm_compute; repeat split; done|]. split; [done|]. split; [done|].
    change (frames roomy_vm) with roomy_pmm. rewrite roomy_free. intros ?%elem_of_seqZ. lia.
Qed.

(** A program of four bytes at 0x40000000, in eight bytes of memory. *)
Definition tiny_elf : list Z :=
  [0x7F; 69; 76; 70; 2; 1; 1; 0] ++ replicate 8 0 ++ le_list 2 2 ++ le_list 2 62 ++ le_list 4 1 ++
  le_list 8 0x40000000 ++ le_list 8 64 ++ le_list 8 0 ++ le_list 4 0 ++ le_list 2 64 ++ le_list 2 56 ++
  le_list 2 1 ++ le_list 2 0 ++ le_list 2 0 ++ le_list 2 0 ++
  le_list 4 1 ++ le_list 4 5 ++ le_list 8 120 ++ le_list 8 0x40000000 ++ le_list 8 0x40000000 ++
  le_list 8 4 ++ le_list 8 8 ++ le_list 8 4096 ++ [1; 2; 3; 4].
Definition tiny_phdr : elf64_phdr := MkPhdr 1 5 120 0x40000000 4 8.

Definition tiny_sched : sched := MkSched [sample_task 1] (Some 0%nat) None 2 1 0.

(** A program that does nothing and exits with 7. *)
Definition exit_seven (entry_point stack_top : Z) (st : vm) (s : sched) : Z * vm * sched := (7, st, s).

Lemma exit_seven_keeps : keeps_space (λ _, False) exit_seven.
Proof. intros e t st own s Hs. by exists own. Qed.


