(* ===== verification/UserAccess.v ===== *)
(** * User mode: which pages a program can reach

    A page is open to user mode when the entries of all levels on the way to it
    have the user and the writable bit. *)

From S2P Require Import Prelude Utils CString Bytes Print Pmm Vmm Alloc Task UserMode UserSpace UserProps.

Definition opens (e : Z) : bool := (e &? PTE_USER) && (e &? PTE_WRITABLE).

Fixpoint user_walk (l : nat) (st : vm) (t v : Z) : bool :=
  match l with
  | O => false
  | S l' =>
      let e := rdw st (slot t (idx l' v)) in
      present e && opens e &&
      match l' with
      | O => true
      | S _ => if huge e then true else user_walk l' st (Z.land e PTE_ADDR_MASK) v
      end
  end.

Definition user_access (v : Z) (st : vm) : bool := user_walk 4 st (root st) v.

(** Entries have been opened; of those of page tables only the ones of the
    pages [Q]. *)
Record widened (own : owners) (Q : Z → Prop) (st st' : vm) : Prop := {
  wd_cr3 : cr3 st' = cr3 st;
  wd_same : ∀ a, ent_same (rdw st' a) (rdw st a);
  wd_opens : ∀ a, opens (rdw st a) = true → opens (rdw st' a) = true;
  wd_leaf : ∀ pt p i, own !! pt = Some (1%nat, p) → 0 <= i < 512 → ¬ Q (p * 512 + i) →
    rdw st' (slot pt i) = rdw st (slot pt i)
}.

#[export] Instance widened_preorder own Q : PreOrder (widened own Q).
Proof.
  split; [done|]. intros st1 st2 st3 [C1 S1 O1 L1] [C2 S2 O2 L2]. split.
  - congruence.
  - intros a. by rewrite S2, S1.
  - auto.
  - intros pt p i Hp Hi Hq. by rewrite (L2 pt p), (L1 pt p).
Qed.

Lemma lor_test e m k : 0 <= k → Z.testbit m k = true → Z.lor e m &? 2 ^ k = true.
Proof. intros Hk Hm. rewrite land_pow2_test, Z.lor_spec, Hm by done. apply orb_true_r. Qed.

Lemma opens_open e : opens (Z.lor e (Z.lor PTE_USER PTE_WRITABLE)) = true.
Proof.
  unfold opens. change PTE_USER with (2 ^ 2) at 2. change PTE_WRITABLE with (2 ^ 1) at 3. by rewrite !lor_test.
Qed.

Lemma open_entry_widened (Q : Z → Prop) st own t l v :
  tables_ok st own → (l < 4)%nat → own !! t = Some (S l, pre (S l) v) → Q (page_no v) →
  widened own Q st (open_entry (slot t (idx l v)) st).
Proof.
  intros Hok Hl Ht HQ. destruct (open_entry_opened st own t _ _ _ Hok Ht (idx_range l v)) as [C _ S _].
  split; [done|done|..].
  - intros a Ha. unfold open_entry. rewrite rdw_wrw. case_if; [apply opens_open|done].
  - intros pt p i Hp Hi Hq. unfold open_entry. rewrite rdw_wrw, (proj2 (Z.eqb_neq _ _)); [done|]. intros Heq.
    destruct (ok_table _ _ Hok _ _ _ Ht) as (Ha & _), (ok_table _ _ Hok _ _ _ Hp) as (Hb & _).
    destruct (slot_inj pt i t (idx l v)) as [-> ->]; [done..|apply idx_range|done|].
    rewrite Ht in Hp. injection Hp as -> <-. apply Hq. by rewrite <- pre_step by lia.
Qed.

Lemma user_walk_mono own Q st st' l t v : widened own Q st st' → user_walk l st t v = true → user_walk l st' t v = true.
Proof.
  intros [_ S O _]. revert t. induction l as [|l IH]; intros t; [done|]. cbn [user_walk].
  destruct (S (slot t (idx l v))) as (-> & Hh & Ha). rewrite !andb_true_iff. intros [[Hp Ho] Hr].
  split; [auto|]. destruct l as [|l]; [done|]. rewrite Hh, Ha. case_if; [done|]. by apply IH.
Qed.

(** Marking a page opens it, if it is mapped at all. *)
Lemma mark_opens own (Q : Z → Prop) l st t v :
  (l <= 4)%nat → tables_ok st own → own !! t = Some (l, pre l v) → Q (page_no v) →
  widened own Q st (mark l t v st) ∧ (walk l st t v ≠ WNone → user_walk l (mark l t v st) t v = true).
Proof.
  revert st t. induction l as [|l IH]; intros st t Hl Hok Ht HQ; cbn [mark walk]; [done|].
  destruct (present (rdw st _)) eqn:Hp; cbn [negb]; [|done].
  pose proof (open_entry_widened Q st own t l v Hok ltac:(lia) Ht HQ) as Hw.
  pose proof (open_entry_opened st own t _ _ _ Hok Ht (idx_range l v)) as Ho.
  set (a := slot t (idx l v)) in *. set (st1 := open_entry a st) in *.
  assert (Ha : opens (rdw st1 a) = true) by (unfold st1, open_entry; rewrite rdw_wrw, Z.eqb_refl; apply opens_open).
  destruct (wd_same _ _ _ _ Hw a) as (Hp1 & Hh1 & Ha1). rewrite Hp in Hp1.
  assert (Hup : ∀ st2, widened own Q st1 st2 → ∀ b, 
    match l with O => true | S _ => if huge (rdw st1 a) then true else user_walk l st2 (Z.land (rdw st1 a) PTE_ADDR_MASK) v end = b →
    user_walk (S l) st2 t v = b).
  { intros st2 Hw2 b <-. cbn [user_walk]. fold a. destruct (wd_same _ _ _ _ Hw2 a) as (-> & -> & ->).
    by rewrite Hp1, (wd_opens _ _ _ _ Hw2 a Ha). }
  destruct l as [|l]; [split; [done|]; intros _; by apply Hup|].
  rewrite <- Hh1, <- Ha1. destruct (huge (rdw st1 a)) eqn:Hh.
  { split; [done|]. intros _. by apply Hup. }
  destruct (IH st1 (Z.land (rdw st1 a) PTE_ADDR_MASK)) as [Hw2 Hu]; [lia|by apply (opened_ok own st)| |done|].
  { rewrite Ha1. apply (child_table st); [done|lia|done..]. }
  split; [by etrans|]. intros Hn. apply Hup; [done|]. apply Hu. intros Hx. apply Hn.
  pose proof (opened_walk own st st1 (S l) (Z.land (rdw st1 a) PTE_ADDR_MASK) v Ho) as Hweq. rewrite Hx in Hweq.
  by destruct (walk (S l) st _ v).
Qed.

(** A page outside [Q] keeps its entry. *)
Lemma widened_page own (Q : Z → Prop) st st' l t v e :
  (l <= 4)%nat → tables_ok st own → own !! t = Some (l, pre l v) → widened own Q st st' → ¬ Q (page_no v) →
  walk l st t v = WPage e → walk l st' t v = WPage e.
Proof.
  intros Hl Hok Ht Hw HQ. revert t Hl Ht. induction l as [|l IH]; intros t Hl Ht; cbn [walk]; [done|].
  destruct (wd_same _ _ _ _ Hw (slot t (idx l v))) as (-> & Hh & Ha). destruct (present (rdw st _)) eqn:Hp; cbn [negb]; [|done].
  destruct l as [|l].
  - rewrite (wd_leaf _ _ _ _ Hw t (pre 1 v) (idx 0 v)); [done|done|apply idx_range|]. by rewrite <- pre_step by lia.
  - rewrite Hh, Ha. destruct (huge (rdw st (slot t (idx (S l) v)))) eqn:Hh'; [done|]. apply IH; [lia|].
    apply (child_table st); [done|lia|done..].
Qed.

Lemma user_walk_page l st t v e : user_walk l st t v = true → walk l st t v = WPage e → opens e = true.
Proof.
  revert t. induction l as [|l IH]; intros t; [done|]. cbn [user_walk walk].
  rewrite !andb_true_iff. intros [[Hp Ho] Hr]. rewrite Hp. cbn [negb]. destruct l as [|l]; [by intros [= <-]|].
  destruct (huge (rdw st _)); [done|]. by apply IH.
Qed.

Lemma user_walk_pre l st t v v' : (l <= 4)%nat → page_no v' = page_no v → user_walk l st t v' = user_walk l st t v.
Proof.
  intros Hl Hp. revert t. induction l as [|l IH]; intros t; [done|]. cbn [user_walk].
  rewrite (idx_page l v v') by (done || lia). destruct l as [|l]; [done|]. by rewrite IH by lia.
Qed.

(** A list of pages is marked. *)
Lemma mark_pages_opens own l st :
  tables_ok st own → Forall is_u64 l →
  let st' := foldl (λ st addr, mark_user_page addr st) st l in
  widened own (in_pages l) st st' ∧ (∀ v, in_pages l (page_no v) → wk st v ≠ WNone → user_access v st' = true).
Proof.
  revert st. induction l as [|a l IH]; intros st Hok Hl; cbn [foldl]; [split; [done|]; by intros v ?%Exists_nil|].
  apply Forall_cons in Hl as [Ha Hl]. pose proof (mark_user_page_opened st own a Hok) as Ho.
  assert (Hr : own !! root st = Some (4%nat, pre 4 a)) by (rewrite pre_4; apply Hok).
  destruct (mark_opens own (in_pages (a :: l)) 4 st (root st) a ltac:(lia) Hok Hr) as [Hw Hu]; [by apply Exists_cons; left|].
  rewrite <- (mark_user_page_eq st own a Hok) in Hw, Hu. set (st1 := mark_user_page a st) in *.
  destruct (IH st1 (opened_ok own st st1 Hok Ho) Hl) as [Hw2 Hu2]. split.
  - etrans; [exact Hw|]. destruct Hw2 as [C S O L]. split; [done..|]. intros pt p i Hp Hi Hq. apply (L pt p i Hp Hi).
    intros Hx. apply Hq. by apply Exists_cons; right.
  - intros v Hv Hn. destruct (decide (in_pages l (page_no v))) as [Hi|Hi].
    + apply Hu2; [done|]. intros Hx. apply Hn. pose proof (opened_walk own st st1 4 (root st) v Ho) as Hq.
      rewrite <- (root_cr3 st st1 (op_cr3 _ _ _ Ho)) in Hq at 1. rewrite Hx in Hq. by destruct (wk st v).
    + apply Exists_cons in Hv as [Hv|?]; [|done]. unfold user_access. rewrite (root_cr3 st1 _ (wd_cr3 _ _ _ _ Hw2)).
      apply (user_walk_mono own (in_pages l) st1); [done|]. rewrite (root_cr3 st st1 (op_cr3 _ _ _ Ho)).
      rewrite (user_walk_pre 4 st1 _ a v) by (done || lia). apply Hu. by rewrite <- (walk_pre 4 st _ a v) by (done || lia).
Qed.

(** C22: opening a range to user mode. After [mark_user_range] every mapped
    page of the range can be reached and written from user mode; every address
    leads where it led before; and a page outside the range that a page-table
    entry maps is open afterwards only if its entry was. *)
Theorem mark_user_range_exact start size st own :
  tables_ok st own → 0 <= start → 0 < size → start + size < 2 ^ 47 →
  let st' := mark_user_range start size st in
  tables_ok st' own ∧
  (∀ v, is_u64 v → vmm_get_mapping v st' = vmm_get_mapping v st) ∧
  (∀ v, start <= v < start + size → wk st v ≠ WNone → user_access v st' = true) ∧
  (∀ v e, ¬ range_pages start size (page_no v) → wk st v = WPage e → user_access v st' = true → opens e = true).
Proof.
  intros Hok H1 H2 H3 st'. pose proof (mark_user_range_opened st own start size Hok) as Ho. fold st' in Ho.
  pose proof (opened_ok own st st' Hok Ho) as Hok'. split; [done|].
  assert (Hroot : root st' = root st) by (apply root_cr3, Ho). split.
  { intros v Hv. rewrite (get_mapping_walk st own), (get_mapping_walk st' own) by done. rewrite Hroot.
    apply decode_proper. by apply (opened_walk own). }
  set (b := start / 4096 * 4096). set (e := (start + size + 4095) / 4096 * 4096).
  assert (Hst : st' = flush_tlb (foldl (λ st addr, mark_user_page addr st) st (pages b e))).
  { unfold st', mark_user_range. rewrite (proj2 (Z.eqb_neq size 0)), u64_small by (unfold is_u64; lia).
    by rewrite align_down_eq, align_up_eq by (unfold is_u64; lia). }
  clearbody st'. subst st'.
  assert (Hin : ∀ p, in_pages (pages b e) p ↔ range_pages start size p).
  { intros p. rewrite in_pages_range by (unfold b, e; clear - H1 H3; zlia). unfold range_pages, b, e. by rewrite !Z.div_mul. }
  assert (Hl : Forall is_u64 (pages b e)) by (apply pages_u64; unfold b, e; clear - H1 H3; zlia).
  destruct (mark_pages_opens own (pages b e) st Hok Hl) as [Hw Hu]. split.
  - intros v Hv Hn. apply Hu; [|done]. apply Hin. rewrite page_no_small by lia. unfold range_pages. zlia.
  - intros v x Hr Hx Hacc. eapply (user_walk_page 4); [exact Hacc|]. rewrite Hroot.
    apply (widened_page own (in_pages (pages b e)) st); [lia|done|rewrite pre_4; apply Hok| |by rewrite Hin|done].
    etrans; [exact Hw|]. done.
Qed.

(** The kernel's page at 0x40001000 beside a page for user mode at 0x40000000. *)
Definition two_pages : vm :=
  vmm_map_page 0x40001000 0xE000 PTE_WRITABLE (vmm_map_page 0x40000000 0xF000 PTE_WRITABLE sample_vm).

Lemma map_page_ok st own v phys flags :
  tables_ok st own → is_u64 v → ∃ own', tables_ok (vmm_map_page v phys flags st) own'.
Proof.
  intros Hok Hv. pose proof (map_tables_spec st own v Hok) as Hs. pose proof (vmm_map_page_tables v phys flags st Hv) as Hm.
  destruct (map_tables v st) as [[pt|] st1]; destruct Hs as (own' & (Hok1 & _) & Hpt & _); exists own'.
  - rewrite Hm. eapply tables_ok_ext; [| | |eapply set_pte_ok; [exact Hok1|exact Hpt|apply idx_range]]; reflexivity.
  - destruct Hm as (msg & -> & _). by apply (tables_ok_ext st1).
Qed.

Lemma two_pages_ok : ∃ own, tables_ok two_pages own.
Proof.
  destruct (map_page_ok sample_vm _ 0x40000000 0xF000 PTE_WRITABLE sample_vm_ok) as [own Hok]; [unfold is_u64; lia|].
  destruct (map_page_ok _ own 0x40001000 0xE000 PTE_WRITABLE Hok) as [own' Hok']; [unfold is_u64; lia|]. by exists own'.
Qed.

Lemma mark_user_range_exact_witness :
  user_access 0x40000010 (mark_user_range 0x40000000 100 two_pages) = true ∧
  user_access 0x40001000 (mark_user_range 0x40000000 100 two_pages) = false ∧
  user_access 0x40000010 two_pages = false.
Proof.
  destruct two_pages_ok as [own Hok].
  destruct (mark_user_range_exact 0x40000000 100 two_pages own Hok) as (_ & _ & Hin & Hout); [lia..|].
  split; [|split; [|vm_compute; reflexivity]].
  - apply Hin; [lia|]. vm_compute. discriminate.
  - destruct (user_access 0x40001000 (mark_user_range 0x40000000 100 two_pages)) eqn:Hu; [|reflexivity].
    assert (Hx : opens 0xE003 = true); [|discriminate Hx]. apply (Hout 0x40001000); [|vm_compute; reflexivity|exact Hu].
    vm_compute. intros [_ Hx]. discriminate Hx.
Defined.
