(* ===== verification/UserLib.v ===== *)
(** * The user programs ([src/user/hello.c], [init.c], [readkey.c], [syscall.h])

    The C parts of the programs, over the system calls of [Syscall]: their
    memory is the kernel's view of it, the [syscall] instruction is the
    dispatcher. [_start] calls the main function and exits with its result.
    String literals are at addresses [lit]. *)

From S2P Require Import Prelude CString Bytes Print Alloc Task Process Console Tty Vfs Ramfs Files Fd Syscall.

Definition USER_SYS_READ : Z := 0.
Definition USER_SYS_WRITE : Z := 1.
Definition USER_SYS_GETPID : Z := 39.
Definition USER_SYS_EXIT : Z := 60.
Definition USER_FD_STDIN : Z := 0.
Definition USER_FD_STDOUT : Z := 1.

(** A literal that ends a line. *)
Definition line (s : string) : cstr := s2z s ++ [CH_LF].
Arguments line _%_string_scope.

Section Programs.
Context `{Allocator H, TtyDevice W} (lit : cstr → Z).
Implicit Types k : kernel H W.

(** The registers of arguments that a call does not have hold anything; none of
    the handlers of these numbers reads them. *)
Definition user_syscall0 (number : Z) k : option (Z * kernel H W) := syscall_dispatch number 0 0 0 k.
Definition user_syscall1 (number arg0 : Z) k : option (Z * kernel H W) := syscall_dispatch number arg0 0 0 k.
Definition user_syscall3 (number arg0 arg1 arg2 : Z) k : option (Z * kernel H W) := syscall_dispatch number arg0 arg1 arg2 k.

Definition user_read (fd buffer size : Z) k : option (Z * kernel H W) :=
  '(r, k) ← user_syscall3 USER_SYS_READ fd buffer size k; Some (s64 r, k).
Definition user_write (fd buffer size : Z) k : option (Z * kernel H W) :=
  '(r, k) ← user_syscall3 USER_SYS_WRITE fd buffer size k; Some (s64 r, k).
Definition user_getpid k : option (Z * kernel H W) := user_syscall0 USER_SYS_GETPID k.

(** The call does not come back: the program ends here. *)
Definition user_exit (code : Z) k : option (kernel H W) :=
  '(_, k) ← user_syscall1 USER_SYS_EXIT code k; Some k.

(** The loop looks at 64 bytes at most; all strings here are shorter. *)
Fixpoint strlen_loop (fuel : nat) (m : mem) (s len : Z) : option Z :=
  match fuel with
  | O => None
  | S fuel' => if m (s + len) =? 0 then Some len else strlen_loop fuel' m s (len + 1)
  end.
Definition user_strlen (m : mem) (s : Z) : option Z := if s =? 0 then Some 0 else strlen_loop 64 m s 0.

Definition puts_user (s : Z) k : option (kernel H W) :=
  len ← user_strlen (k_mem k) s; '(_, k) ← user_write USER_FD_STDOUT s len k; Some k.

(** The loop that fills [buffer] from its end; the result is [index]. *)
Fixpoint putu_loop (index : nat) (value buffer : Z) (m : mem) : nat * mem :=
  match index with
  | O => (O, m)
  | S index' =>
      if 0 <? value
      then putu_loop index' (value / 10) buffer (store_bytes m (buffer + Z.of_nat index') [u8 (48 + value mod 10)])
      else (index, m)
  end.

Definition putu_user (buffer value : Z) k : option (kernel H W) :=
  if value =? 0 then '(_, k) ← user_write USER_FD_STDOUT (lit (s2z "0")) 1 k; Some k
  else
    let '(index, m) := putu_loop 32 value buffer (k_mem k) in
    '(_, k) ← user_write USER_FD_STDOUT (buffer + Z.of_nat index) (32 - Z.of_nat index) (with_mem m k); Some k.

Definition hello_main k : option (Z * kernel H W) :=
  k ← puts_user (lit (line "/bin/hello: hello from a second user program")) k;
  k ← puts_user (lit (line "/bin/hello: returning exit code 7")) k;
  Some (7, k).

Definition init_main (buffer : Z) k : option (Z * kernel H W) :=
  k ← puts_user (lit (line "/bin/init: C userland runtime online")) k;
  k ← puts_user (lit (s2z "/bin/init: getpid() = ")) k;
  '(pid, k) ← user_getpid k;
  k ← putu_user buffer pid k;
  k ← puts_user (lit [CH_LF]) k;
  k ← puts_user (lit (line "/bin/init: exiting with code 0")) k;
  Some (0, k).

Definition start (main : kernel H W → option (Z * kernel H W)) k : option (kernel H W) :=
  '(code, k) ← main k; user_exit code k.

(** The two statics are at [readkey_key] and [readkey_printable_line]. The end of
    the program, from the test of the key on: *)
Definition readkey_end (readkey_key readkey_printable_line : Z) k : option (kernel H W) :=
  let key := rd16 (k_mem k) readkey_key in
  k ← (if (0x20 <=? key) && (key <=? 0x7e)
       then
         let k := with_mem (store_bytes (k_mem k) (readkey_printable_line + 26) [u8 key]) k in
         len ← user_strlen (k_mem k) readkey_printable_line;
         '(_, k) ← user_write USER_FD_STDOUT readkey_printable_line len k; Some k
       else Some k);
  user_exit (Z.land (rd16 (k_mem k) readkey_key) 0xff) k.

Definition readkey_main (readkey_key readkey_printable_line buffer : Z) k : option (kernel H W) :=
  k ← puts_user (lit (line "/bin/readkey: waiting for one key...")) k;
  let k := with_mem (store_bytes (k_mem k) readkey_key (le_list 2 0)) k in
  '(read, k) ← user_read USER_FD_STDIN readkey_key 2 k;
  k ← puts_user (lit (s2z "/bin/readkey: read bytes = ")) k;
  k ← putu_user buffer (u64 read) k;
  k ← puts_user (lit [CH_LF]) k;
  k ← puts_user (lit (s2z "/bin/readkey: key code = ")) k;
  k ← putu_user buffer (rd16 (k_mem k) readkey_key) k;
  k ← puts_user (lit [CH_LF]) k;
  readkey_end readkey_key readkey_printable_line k.
End Programs.
