(* ===== verification/UserLibProps.v ===== *)
(** * The user programs: what they print and how they end *)

From S2P Require Import Prelude CString Bytes Print Alloc Task Process Console Tty Vfs Ramfs Files Fd Syscall UserLib.

(** ** Strings in memory *)

(** The string at [a], with its end; short enough for [user_strlen]. *)
Record text_at (m : mem) (a : Z) (s : cstr) : Prop := {
  ta_place : 0 < a;
  ta_bytes : ∀ i b, s !! i = Some b → m (a + Z.of_nat i) = b;
  ta_end : m (a + Zlength s) = 0;
  ta_chars : Forall (λ b, b ≠ 0) s;
  ta_short : (0 < length s < 64)%nat
}.

Lemma strlen_loop_text fuel m a s len :
  (∀ i b, s !! i = Some b → m (a + len + Z.of_nat i) = b) → m (a + len + Zlength s) = 0 → Forall (λ b, b ≠ 0) s →
  (length s < fuel)%nat → strlen_loop fuel m a len = Some (len + Zlength s).
Proof.
  unfold Zlength. revert s len. induction fuel as [|fuel IH]; intros s len Hb He Hc Hf; [lia|]. cbn [strlen_loop].
  destruct s as [|b s].
  - cbn in He. rewrite Z.add_0_r in He. rewrite He. cbn. by rewrite Z.add_0_r.
  - apply Forall_cons in Hc as [Hb0 Hc]. pose proof (Hb 0%nat b eq_refl) as H0'. rewrite Z.add_0_r in H0'.
    rewrite H0', (proj2 (Z.eqb_neq b 0)) by done. cbn [length] in *. rewrite (IH s).
    + f_equal. lia.
    + intros i x Hi. replace (a + (len + 1) + Z.of_nat i) with (a + len + Z.of_nat (S i)) by lia. by apply Hb.
    + replace (a + (len + 1) + Z.of_nat (length s)) with (a + len + Z.of_nat (S (length s))) by lia. done.
    + done.
    + lia.
Qed.

Lemma strlen_text m a s : text_at m a s → user_strlen m a = Some (Zlength s).
Proof.
  intros [Ha Hb He Hc Hs]. unfold user_strlen. rewrite (proj2 (Z.eqb_neq a 0)) by lia.
  rewrite (strlen_loop_text 64 m a s 0); [done| | |done|lia]; rewrite Z.add_0_r; done.
Qed.

Lemma load_bytes_eq m a s : (∀ i b, s !! i = Some b → m (a + Z.of_nat i) = b) → load_bytes m a (Zlength s) = s.
Proof.
  intros Hb. unfold load_bytes, Zlength. apply list_eq_same_length with (length s); [done|by rewrite length_fmap, length_seqZ, Nat2Z.id|].
  intros i x y Hi. rewrite list_lookup_fmap, lookup_seqZ_lt by lia. cbn. intros [= <-] Hy. by apply Hb.
Qed.

(** Memory that differs only inside [P]. *)
Definition same_outside (P : Z → Prop) (m m' : mem) : Prop := ∀ x, ¬ P x → m' x = m x.

Definition text_fixed (P : Z → Prop) (m : mem) (a : Z) (s : cstr) : Prop :=
  text_at m a s ∧ ∀ i, 0 <= i <= Zlength s → ¬ P (a + i).

Lemma text_kept P m m' a s : text_fixed P m a s → same_outside P m m' → text_at m' a s.
Proof.
  intros [[Ha Hb He Hc Hs] Hp] Hm. unfold Zlength in Hp. split; [done| | |done|done].
  - intros i b Hi. pose proof (lookup_lt_Some _ _ _ Hi). rewrite Hm; [by apply Hb|]. apply Hp. lia.
  - rewrite Hm; [done|]. apply Hp. unfold Zlength. lia.
Qed.

Lemma same_outside_trans P m1 m2 m3 : same_outside P m1 m2 → same_outside P m2 m3 → same_outside P m1 m3.
Proof. intros H1 H2 x Hx. by rewrite H2, H1. Qed.

Lemma same_outside_weaken (P Q : Z → Prop) m m' : same_outside P m m' → (∀ x, P x → Q x) → same_outside Q m m'.
Proof. intros H HPQ x Hx. apply H. auto. Qed.

(** ** Numbers *)

Lemma putu_loop_spec fuel v b index buffer m :
  dec_loop fuel v = Some b → (length b <= index)%nat →
  let '(j, m') := putu_loop index v buffer m in
  j = (index - length b)%nat ∧ (∀ i c, rev b !! i = Some c → m' (buffer + Z.of_nat j + Z.of_nat i) = c) ∧
  same_outside (λ x, buffer + Z.of_nat j <= x < buffer + Z.of_nat index) m m'.
Proof.
  revert v b index m. induction fuel as [|fuel IH]; intros v b index m; [done|]. cbn [dec_loop].
  destruct (Z.ltb_spec 0 v) as [Hv|Hv].
  - destruct (dec_loop fuel (v / 10)) as [b'|] eqn:Hd; [|done]. intros [= <-] Hl. cbn [length] in Hl.
    destruct index as [|index]; [lia|]. cbn [putu_loop]. rewrite (proj2 (Z.ltb_lt 0 v)) by done.
    set (c := 48 + v mod 10). set (m1 := store_bytes m (buffer + Z.of_nat index) [u8 c]).
    specialize (IH (v / 10) b' index m1 Hd ltac:(lia)).
    destruct (putu_loop index (v / 10) buffer m1) as [j m']. destruct IH as (-> & Hb & Hm).
    split; [cbn [length]; lia|]. split.
    + intros i x. cbn [rev]. intros [Hi|[Hi Hx]]%lookup_app_Some; [by apply Hb|].
      rewrite length_rev in Hi, Hx. destruct (i - length b')%nat as [|n] eqn:Hn; [|done]. injection Hx as <-.
      replace (buffer + Z.of_nat (index - length b') + Z.of_nat i) with (buffer + Z.of_nat index) by lia.
      rewrite Hm by lia. unfold m1. pose proof (store_bytes_in m (buffer + Z.of_nat index) [u8 c] 0 (u8 c) eq_refl) as Hs.
      rewrite Z.add_0_r in Hs. rewrite Hs. apply u8_small. unfold is_u8, c. zlia.
    + intros x Hx. rewrite Hm by lia. apply store_bytes_out. unfold Zlength. cbn. lia.
  - intros [= <-] _. assert (Hp : putu_loop index v buffer m = (index, m)).
    { destruct index; [done|]. cbn [putu_loop]. by rewrite (proj2 (Z.ltb_ge 0 v)). }
    rewrite Hp. cbn [length]. split; [lia|]. split; [done|]. by intros x _.
Qed.

(** ** Calls on the terminal *)

(** The text on the console and the memory, from a kernel on. *)
Definition reach {H} (k : kernel H terminal) (T : cstr) (m : mem) : kernel H terminal :=
  with_mem m (with_tty (term_show T (k_tty k)) k).

Lemma term_show_app a b w : term_show (a ++ b) w = term_show b (term_show a w).
Proof. unfold term_show. by rewrite foldl_app. Qed.

(** Input and output of a program are the terminal. *)
Record stdio {H} (k : kernel H terminal) : Prop := {
  io_ready : syscalls_ready (k_sys k);
  io_in : ∃ wr, tty_fd true wr USER_FD_STDIN (k_fs k) (k_fds k);
  io_out : ∃ rd, tty_fd rd true USER_FD_STDOUT (k_fs k) (k_fds k)
}.

Section Calls.
Context `{Allocator H} (k : kernel H terminal) (Hio : stdio k).

Lemma write_reach T m a s :
  0 < a → (0 < length s < 64)%nat → (∀ i b, s !! i = Some b → m (a + Z.of_nat i) = b) →
  user_write USER_FD_STDOUT a (Zlength s) (reach k T m) = Some (Zlength s, reach k (T ++ s) m).
Proof.
  intros Ha Hs Hb. unfold user_write, user_syscall3. destruct Hio as [Hr _ [rd Ho]]. rewrite dispatch_ready by done.
  change (syscall_spec USER_SYS_WRITE ?f ?x ?y ?z) with (sys_write f x y z).
  rewrite (sys_write_terminal _ rd) by (done || (unfold Zlength; lia)).
  change (k_mem (reach k T m)) with m. rewrite (load_bytes_eq m a s Hb). cbn [mbind option_bind].
  rewrite s64_small by (unfold Zlength; lia). unfold reach. by rewrite term_show_app.
Qed.

Lemma puts_reach T m a s : text_at m a s → puts_user a (reach k T m) = Some (reach k (T ++ s) m).
Proof.
  intros Ht. unfold puts_user. change (k_mem (reach k T m)) with m. rewrite (strlen_text m a s Ht). cbn [mbind option_bind].
  destruct Ht as [Ha Hb He Hc Hs]. by rewrite (write_reach T m a s).
Qed.

(** The digits are those the kernel's own printer writes. *)
Lemma putu_reach lit T m buffer v :
  is_u64 v → 0 < buffer → text_at m (lit (s2z "0")) (s2z "0") →
  ∃ m', putu_user lit buffer v (reach k T m) = Some (reach k (T ++ text (print_dec64 v)) m') ∧
    same_outside (λ x, buffer <= x < buffer + 32) m m'.
Proof.
  intros [Hv0 Hv] Hbuf Hlit. unfold putu_user, print_dec64. destruct (Z.eqb_spec v 0) as [->|Hne].
  { exists m. destruct Hlit as [Ha Hb _ _ _]. split; [|by intros x _].
    change 1 with (Zlength (s2z "0")). rewrite (write_reach T m _ (s2z "0")); [done|done|cbn; lia|done]. }
  destruct (dec_loop_enough 20 v) as (b & Hd & Hl & _ & Hlast); [lia|].
  unfold dec_buffer. rewrite Hd, text_print. change (default [] (Some b)) with b. change (k_mem (reach k T m)) with m.
  pose proof (putu_loop_spec 21 v b 32 buffer m Hd ltac:(lia)) as Hp.
  destruct (putu_loop 32 v buffer m) as [j m']. destruct Hp as (-> & Hb & Hm). exists m'. split.
  - change (with_mem m' (reach k T m)) with (reach k T m').
    replace (32 - Z.of_nat (32 - length b)) with (Zlength (rev b)) by (unfold Zlength; rewrite length_rev; lia).
    destruct (Hlast ltac:(lia)) as (d & Hd' & _). assert (length b ≠ 0)%nat by (by destruct b).
    rewrite (write_reach T m' _ (rev b)); [done|lia|rewrite length_rev; lia|exact Hb].
  - eapply same_outside_weaken; [exact Hm|]. cbn. lia.
Qed.

Lemma read_reach T m a :
  0 < a →
  user_read USER_FD_STDIN a 2 (reach k T m) =
    Some (2, reach (with_tty (key_taken (k_tty k)) k) T (store_bytes m a (key_bytes (next_key (k_tty k))))).
Proof.
  intros Ha. unfold user_read, user_syscall3. destruct Hio as [Hr [wr Hi] _]. rewrite dispatch_ready by done.
  change (syscall_spec USER_SYS_READ ?f ?x ?y ?z) with (sys_read f x y z).
  rewrite (sys_read_terminal _ wr) by (done || lia). cbn [mbind option_bind]. rewrite s64_small by lia. done.
Qed.
End Calls.

(** ** Whole programs *)

(** The exit that the dispatcher records. *)
Definition exited {H} (code : Z) (k : kernel H terminal) : kernel H terminal :=
  MkKernel (k_mem k) (k_fs k) (k_fds k) (k_heap k) (k_tty k) (k_procs k) (k_sched k)
    (MkSyscalls (syscall_table (k_sys k)) (syscall_initialized (k_sys k)) true code).

Lemma exit_reach `{Allocator H} (k : kernel H terminal) T m code :
  stdio k → user_exit code (reach k T m) = Some (exited code (reach k T m)).
Proof. intros [Hr _ _]. unfold user_exit, user_syscall1. by rewrite dispatch_ready. Qed.

Lemma reach_start {H} (k : kernel H terminal) : k = reach k [] (k_mem k).
Proof. by destruct k as [m s t h [c ks n] x y z]. Qed.

Lemma puts_first `{Allocator H} (k : kernel H terminal) a s :
  stdio k → text_at (k_mem k) a s → puts_user a k = Some (reach k s (k_mem k)).
Proof. intros Hio Ht. pose proof (puts_reach k Hio [] (k_mem k) a s Ht) as Hp. by rewrite <- (reach_start k) in Hp. Qed.

Lemma stdio_taken {H} (k : kernel H terminal) w : stdio k → stdio (with_tty w k).
Proof. by intros [? ? ?]. Qed.

(** The strings of the programs. *)
Definition hello_texts : list cstr :=
  [line "/bin/hello: hello from a second user program"; line "/bin/hello: returning exit code 7"].
Definition init_texts : list cstr :=
  [line "/bin/init: C userland runtime online"; s2z "/bin/init: getpid() = "; [CH_LF]; line "/bin/init: exiting with code 0";
   s2z "0"].
Definition readkey_texts : list cstr :=
  [line "/bin/readkey: waiting for one key..."; s2z "/bin/readkey: read bytes = "; [CH_LF];
   s2z "/bin/readkey: key code = "; s2z "0"].

(** The programs [hello] and [init]. With input and output on the
    terminal, [hello] shows its two lines and exits with 7, and [init] shows its
    lines with the decimal digits of the process number the kernel gives it
    between them, as the kernel's own printer writes them, and exits with 0; of
    the memory only [init]'s buffer changes. *)
Theorem user_greetings `{Allocator H} lit buffer (k : kernel H terminal) :
  let pid := process_current_pid (k_sched k) (k_procs k) in
  let P := λ x, buffer <= x < buffer + 32 in
  stdio k → 0 < buffer → is_u64 pid →
  (∀ s, s ∈ hello_texts ++ init_texts → text_fixed P (k_mem k) (lit s) s) →
  start (hello_main lit) k =
    Some (exited 7 (reach k (line "/bin/hello: hello from a second user program" ++ line "/bin/hello: returning exit code 7") (k_mem k))) ∧
  ∃ m, start (init_main lit buffer) k =
    Some (exited 0 (reach k (line "/bin/init: C userland runtime online" ++ s2z "/bin/init: getpid() = " ++
                             text (print_dec64 pid) ++ [CH_LF] ++ line "/bin/init: exiting with code 0") m)) ∧
    same_outside P (k_mem k) m.
Proof.
  intros pid P Hio Hbuf Hpid Hlit.
  assert (Htx : ∀ m s, same_outside P (k_mem k) m → s ∈ hello_texts ++ init_texts → text_at m (lit s) s).
  { intros m s Hm Hs. by apply (text_kept P (k_mem k)); [apply Hlit|]. }
  assert (Hid : same_outside P (k_mem k) (k_mem k)) by (by intros x _). split.
  - unfold start, hello_main.
    rewrite (puts_first k _ (line "/bin/hello: hello from a second user program")) by (done || (apply Htx; [done|set_solver])).
    cbn [mbind option_bind]. rewrite (puts_reach k Hio _ _ _ (line "/bin/hello: returning exit code 7")) by (apply Htx; [done|set_solver]).
    cbn [mbind option_bind]. by rewrite exit_reach.
  - unfold start, init_main.
    rewrite (puts_first k _ (line "/bin/init: C userland runtime online")) by (done || (apply Htx; [done|set_solver])).
    cbn [mbind option_bind]. rewrite (puts_reach k Hio _ _ _ (s2z "/bin/init: getpid() = ")) by (apply Htx; [done|set_solver]).
    cbn [mbind option_bind].
    assert (Hg : ∀ T, user_getpid (reach k T (k_mem k)) = Some (pid, reach k T (k_mem k))).
    { intros T. unfold user_getpid, user_syscall0. rewrite dispatch_ready by apply Hio. done. }
    rewrite Hg. cbn [mbind option_bind].
    destruct (putu_reach k Hio lit (line "/bin/init: C userland runtime online" ++ s2z "/bin/init: getpid() = ") (k_mem k) buffer pid)
      as (m & -> & Hm); [done|done|apply Htx; [done|set_solver]|]. cbn [mbind option_bind].
    rewrite (puts_reach k Hio _ _ _ [CH_LF]) by (apply Htx; [done|set_solver]).
    cbn [mbind option_bind]. rewrite (puts_reach k Hio _ _ _ (line "/bin/init: exiting with code 0")) by (apply Htx; [done|set_solver]).
    cbn [mbind option_bind]. rewrite exit_reach by done. exists m. split; [|done]. by rewrite <- !app_assoc.
Qed.

(** *** The program that waits for a key *)

Definition printable_line (c : Z) : cstr := s2z "/bin/readkey: printable = " ++ [c; CH_LF].

(** What it shows for a key. *)
Definition readkey_shows (key : Z) : cstr :=
  line "/bin/readkey: waiting for one key..." ++ s2z "/bin/readkey: read bytes = " ++ text (print_dec64 2) ++ [CH_LF] ++
  s2z "/bin/readkey: key code = " ++ text (print_dec64 key) ++ [CH_LF] ++
  (if (0x20 <=? key) && (key <=? 0x7e) then printable_line key else []).

(** Its variables: the buffer of [putu_user], the key and the line, apart. *)
Record readkey_vars (buffer key_at line_at : Z) : Prop := {
  rv_pos : 0 < buffer ∧ 0 < key_at ∧ 0 < line_at;
  rv_key : key_at + 2 <= buffer ∨ buffer + 32 <= key_at;
  rv_line : line_at + 29 <= buffer ∨ buffer + 32 <= line_at;
  rv_both : line_at + 29 <= key_at ∨ key_at + 2 <= line_at
}.
Definition vars_at (buffer key_at line_at x : Z) : Prop :=
  buffer <= x < buffer + 32 ∨ key_at <= x < key_at + 2 ∨ line_at <= x < line_at + 29.

Lemma rd16_key m a key : 0 <= key < 2 ^ 16 → rd16 (store_bytes m a (key_bytes key)) a = key.
Proof.
  intros Hk. destruct (stored_key m a key) as (H1 & H2 & _). unfold rd16. cbn [rd_le]. rewrite H1, H2.
  unfold u8. change (2 ^ 8) with 256. zlia.
Qed.

Lemma rd16_same m m' a : m' a = m a → m' (a + 1) = m (a + 1) → rd16 m' a = rd16 m a.
Proof. intros H1 H2. unfold rd16. cbn [rd_le]. by rewrite H1, H2. Qed.

Lemma printable_line_at m a c :
  text_at m a (printable_line 63) → 0x20 <= c <= 0x7e → text_at (store_bytes m (a + 26) [u8 c]) a (printable_line c).
Proof.
  intros [Ha Hb He _ _] Hc. assert (Hu : u8 c = c) by (apply u8_small; unfold is_u8; lia).
  assert (Hout : ∀ x, x ≠ a + 26 → store_bytes m (a + 26) [u8 c] x = m x).
  { intros x Hx. apply store_bytes_out. unfold Zlength. cbn. lia. }
  assert (Hin : store_bytes m (a + 26) [u8 c] (a + 26) = c).
  { pose proof (store_bytes_in m (a + 26) [u8 c] 0 (u8 c) eq_refl) as Hs. rewrite Z.add_0_r in Hs. by rewrite Hs. }
  split; [done| | | |cbn; lia].
  - intros i b Hi. destruct (decide (i = 26%nat)) as [->|Hne]; [by injection Hi as <-|].
    rewrite Hout by lia. apply Hb. unfold printable_line in *. rewrite lookup_app in *.
    destruct (s2z "/bin/readkey: printable = " !! i) eqn:Hl; [done|]. apply lookup_ge_None in Hl.
    change (length (s2z "/bin/readkey: printable = ")) with 26%nat in *.
    destruct (i - 26)%nat as [|n] eqn:Hn; [lia|done].
  - rewrite Hout; [done|]. change (Zlength (printable_line c)) with 28. lia.
  - unfold printable_line. apply Forall_app. split; [by apply (bool_decide_unpack _)|].
    repeat constructor; [lia|done].
Qed.

Lemma readkey_end_reach `{Allocator H} (k : kernel H terminal) T m key_at line_at key :
  stdio k → rd16 m key_at = key → line_at + 29 <= key_at ∨ key_at + 2 <= line_at →
  text_at m line_at (printable_line 63) →
  ∃ m', readkey_end key_at line_at (reach k T m) =
    Some (exited (Z.land key 0xff)
      (reach k (T ++ if (0x20 <=? key) && (key <=? 0x7e) then printable_line key else []) m')) ∧
    same_outside (λ x, line_at <= x < line_at + 29) m m'.
Proof.
  intros Hio Hk Ha Ht. unfold readkey_end. change (k_mem (reach k T m)) with m. rewrite Hk.
  destruct ((0x20 <=? key) && (key <=? 0x7e)) eqn:Hpr.
  - apply andb_true_iff in Hpr as [H1%Z.leb_le H2%Z.leb_le]. set (m' := store_bytes m (line_at + 26) [u8 key]). exists m'.
    assert (Ht' : text_at m' line_at (printable_line key)) by (by apply printable_line_at).
    assert (Hm : same_outside (λ x, line_at <= x < line_at + 29) m m').
    { intros x Hx. apply store_bytes_out. unfold Zlength. cbn. lia. }
    split; [|done]. change (with_mem m' (reach k T m)) with (reach k T m').
    change (k_mem (reach k T m')) with m'. rewrite (strlen_text m' line_at _ Ht'). cbn [mbind option_bind].
    destruct Ht' as [Hl Hb _ _ Hs]. rewrite (write_reach k Hio T m' line_at) by done. cbn [mbind option_bind].
    change (k_mem (reach k ?X m')) with m'. rewrite (rd16_same m m'), Hk by (apply Hm; lia). by apply exit_reach.
  - exists m. split; [|by intros x _]. cbn [mbind option_bind]. change (k_mem (reach k T m)) with m. rewrite Hk, app_nil_r.
    by apply exit_reach.
Qed.

(** The middle of the program: the two numbers. *)
Lemma readkey_report `{Allocator H} lit buffer key_at (k : kernel H terminal) T m key :
  stdio k → 0 < buffer → is_u64 key → key_at + 2 <= buffer ∨ buffer + 32 <= key_at → rd16 m key_at = key →
  (∀ m' s, same_outside (λ x, buffer <= x < buffer + 32) m m' → s ∈ readkey_texts → text_at m' (lit s) s) →
  ∃ m', same_outside (λ x, buffer <= x < buffer + 32) m m' ∧ ∀ f : kernel H terminal → option (kernel H terminal),
    (k ← puts_user (lit (s2z "/bin/readkey: read bytes = ")) (reach k T m);
     k ← putu_user lit buffer (u64 2) k; k ← puts_user (lit [CH_LF]) k;
     k ← puts_user (lit (s2z "/bin/readkey: key code = ")) k;
     k ← putu_user lit buffer (rd16 (k_mem k) key_at) k; k ← puts_user (lit [CH_LF]) k; f k) =
    f (reach k (T ++ s2z "/bin/readkey: read bytes = " ++ text (print_dec64 2) ++ [CH_LF] ++
                s2z "/bin/readkey: key code = " ++ text (print_dec64 key) ++ [CH_LF]) m').
Proof.
  intros Hio Hb Hku Hk Hkey Htx. assert (H2 : same_outside (λ x, buffer <= x < buffer + 32) m m) by (by intros x _).
  destruct (putu_reach k Hio lit (T ++ s2z "/bin/readkey: read bytes = ") m buffer (u64 2)) as (m3 & Hp2 & H3);
    [done|done|by apply Htx; [|set_solver]|].
  set (T1 := (((T ++ s2z "/bin/readkey: read bytes = ") ++ text (print_dec64 (u64 2))) ++ [CH_LF]) ++ s2z "/bin/readkey: key code = ").
  destruct (putu_reach k Hio lit T1 m3 buffer key) as (m4 & Hp4 & H4); [done|done|by apply Htx; [|set_solver]|].
  pose proof (same_outside_trans _ _ _ _ H3 H4) as H34. exists m4. split; [done|]. intros f.
  rewrite (puts_reach k Hio _ _ _ (s2z "/bin/readkey: read bytes = ")) by (by apply Htx; [|set_solver]).
  cbn [mbind option_bind]. rewrite Hp2. cbn [mbind option_bind].
  rewrite (puts_reach k Hio _ _ _ [CH_LF]) by (by apply Htx; [|set_solver]). cbn [mbind option_bind].
  rewrite (puts_reach k Hio _ _ _ (s2z "/bin/readkey: key code = ")) by (by apply Htx; [|set_solver]). cbn [mbind option_bind].
  change (k_mem (reach k ?T m3)) with m3. rewrite (rd16_same m m3), Hkey by (apply H3; lia). fold T1. rewrite Hp4.
  cbn [mbind option_bind]. rewrite (puts_reach k Hio _ _ _ [CH_LF]) by (by apply Htx; [|set_solver]). cbn [mbind option_bind].
  unfold T1. change (u64 2) with 2. by rewrite <- !app_assoc.
Qed.


(** ** A memory with the programs' strings *)

Definition texts : list cstr := hello_texts ++ init_texts ++ readkey_texts.

(** The strings lie 64 bytes apart from 4096 on, the line at 8192. *)
Definition text_lit (s : cstr) : Z := 4096 + 64 * Z.of_nat (default 0%nat (fst <$> list_find (λ t, t = s) texts)).
Definition text_mem : mem := λ x,
  if (8192 <=? x) && (x <? 8220) then printable_line 63 !!! Z.to_nat (x - 8192)
  else default 0 (t ← texts !! Z.to_nat ((x - 4096) / 64); t !! Z.to_nat ((x - 4096) mod 64)).

Definition textb (m : mem) (a : Z) (s : cstr) : bool :=
  (0 <? a) && bool_decide (load_bytes m a (Zlength s) = s) && (m (a + Zlength s) =? 0) &&
  forallb (λ b, negb (b =? 0)) s && bool_decide (0 < length s < 64)%nat.

Lemma textb_ok m a s : textb m a s = true → text_at m a s.
Proof.
  unfold textb. rewrite !andb_true_iff, Z.ltb_lt, Z.eqb_eq, !bool_decide_eq_true. intros ((((H1 & H2) & H3) & H4) & H5).
  split; [done| |done| |done].
  - intros i b Hi. rewrite <- H2 in Hi. unfold load_bytes in Hi. rewrite list_lookup_fmap in Hi.
    destruct (seqZ a (Zlength s) !! i) as [x|] eqn:Hx; [|done]. injection Hi as <-. apply lookup_seqZ in Hx as [-> _]. done.
  - apply Forall_forall. intros b Hb ->. rewrite forallb_forall in H4. by specialize (H4 0 ltac:(by apply list_elem_of_In)).
Qed.

Lemma texts_ok s : s ∈ texts → text_at text_mem (text_lit s) s ∧ 4096 <= text_lit s ∧ text_lit s + Zlength s < 8192.
Proof.
  assert (Hall : forallb (λ s, textb text_mem (text_lit s) s && (4096 <=? text_lit s) && (text_lit s + Zlength s <? 8192)) texts = true)
    by (vm_compute; reflexivity).
  intros Hs. rewrite forallb_forall in Hall. specialize (Hall s ltac:(by apply list_elem_of_In)).
  rewrite !andb_true_iff, Z.leb_le, Z.ltb_lt in Hall. destruct Hall as [[Ht H1] H2]. split; [by apply textb_ok|done].
Qed.

Lemma texts_fixed (P : Z → Prop) s :
  (∀ x, P x → x < 4096 ∨ 8192 <= x) → s ∈ texts → text_fixed P text_mem (text_lit s) s.
Proof. intros HP Hs. destruct (texts_ok s Hs) as (Ht & H1 & H2). split; [done|]. intros i Hi Hp. apply HP in Hp. lia. Qed.

Lemma sample_stdio : stdio (sample_kernel text_mem).
Proof.
  split; [done|..].
  - exists false, 2%nat, (tty_node "tty0" VFS_NODE_DEVICE (Some FN_TTY) (Some 1%nat) None), 0. by vm_compute.
  - exists false, 2%nat, (tty_node "tty0" VFS_NODE_DEVICE (Some FN_TTY) (Some 1%nat) None), 0. by vm_compute.
Qed.

Lemma user_greetings_witness :
  ∃ m, start (init_main text_lit 100) (sample_kernel text_mem) =
    Some (exited 0 (reach (sample_kernel text_mem)
      (line "/bin/init: C userland runtime online" ++ s2z "/bin/init: getpid() = " ++ s2z "1" ++ [CH_LF] ++
       line "/bin/init: exiting with code 0") m)).
Proof.
  destruct (user_greetings text_lit 100 (sample_kernel text_mem)) as (_ & m & Hm & _).
  - exact sample_stdio.
  - lia.
  - vm_compute. split; [discriminate|reflexivity].
  - intros s Hs. apply texts_fixed; [lia|]. unfold texts. rewrite app_assoc. apply elem_of_app. left. exact Hs.
  - exists m. exact Hm.
Defined.

