(* ===== verification/Jobs.v ===== *)
(** * Deferred messages ([src/kernel/workqueue.c], [src/kernel/timer.c]: the
    commands [wqtest] and [delaytest])

    The two commands copy a message to the heap and hand it to the workqueue, at
    once or through a timer; the work function prints the copy and frees it. The
    model puts the heap beside the queue and the timers, with the strings that
    were copied into its blocks. [wqtest_addr] and [delaytest_addr] are the
    addresses of the two work functions, which schedule nothing themselves. *)

From S2P Require Import Prelude CString Print Alloc Workqueue Timer.

Definition wq_strlen (s : option cstr) : Z := match s with None => 0 | Some s => c_strlen s end.
Definition timer_strlen : option cstr → Z := wq_strlen.

Section Jobs.
Context `{Allocator H} (wqtest_addr delaytest_addr : Z).

Record jobs := MkJobs {
  j_heap : H; j_text : gmap Z cstr; j_wq : workqueue; j_tm : timers; j_out : output
}.

(** The copy's address, or null. *)
Definition wq_strdup (s : option cstr) (h : H) (text : gmap Z cstr) : Z * H * gmap Z cstr :=
  match s with
  | None => (0, h, text)
  | Some m =>
      let len := wq_strlen s in
      let '(copy, h) := k_alloc (u64 (len + 1)) h in
      if copy =? 0 then (0, h, text) else (copy, h, <[copy := m]> text)
  end.
Definition timer_strdup : option cstr → H → gmap Z cstr → Z * H * gmap Z cstr := wq_strdup.

(** The message of a command line, or the default one. *)
Definition message_of (args : option cstr) (deflt : string) : cstr :=
  match args with None | Some [] => s2z deflt | Some m => m end.

(** [print(message)] and [kfree(message)] of the work functions. *)
Definition show_message (message : Z) (st : jobs) : output :=
  (if message =? 0 then prints "(null)" else print (default [] (j_text st !! message))) ++ newline.
Definition drop_message (message : Z) (o : output) (st : jobs) : jobs :=
  MkJobs (if message =? 0 then j_heap st else k_free message (j_heap st)) (j_text st) (j_wq st) (j_tm st) (j_out st ++ o).

Definition wqtest_work (message : Z) (st : jobs) : jobs :=
  drop_message message
    (color_line "[workqueue]" COLOR_YELLOW_ON_BLACK ++ prints "deferred work executed: " ++ show_message message st) st.

Definition delaytest_work (ticks message : Z) (st : jobs) : jobs :=
  drop_message message
    (newline ++ color_line "[timer]" COLOR_YELLOW_ON_BLACK ++ prints "delayed work executed at tick " ++ print_dec64 ticks ++
     prints ": " ++ show_message message st) st.

Definition cmd_wqtest (args : option cstr) (st : jobs) : jobs :=
  let message := message_of args "hello from deferred work" in
  let '(copy, h, text) := wq_strdup (Some message) (j_heap st) (j_text st) in
  if copy =? 0 then
    MkJobs h text (j_wq st) (j_tm st) (j_out st ++ color_line "work schedule failed: no memory" COLOR_RED_ON_BLACK)
  else
    let '(ok, q) := workqueue_schedule wqtest_addr copy (j_wq st) in
    if ok : bool then MkJobs h text q (j_tm st) (j_out st ++ prints "work scheduled" ++ newline)
    else MkJobs (k_free copy h) text q (j_tm st) (j_out st ++ color_line "work schedule failed" COLOR_RED_ON_BLACK).

Definition cmd_delaytest (ticks : Z) (args : option cstr) (st : jobs) : jobs :=
  let message := message_of args "hello from delayed work" in
  let '(copy, h, text) := timer_strdup (Some message) (j_heap st) (j_text st) in
  if copy =? 0 then
    MkJobs h text (j_wq st) (j_tm st) (j_out st ++ color_line "delaytest failed: no memory" COLOR_RED_ON_BLACK)
  else
    let '(ok, t) := timer_schedule_ticks ticks 100 delaytest_addr copy (j_tm st) in
    if ok : bool then MkJobs h text (j_wq st) t (j_out st ++ prints "delayed work scheduled after 100 ticks" ++ newline)
    else MkJobs (k_free copy h) text (j_wq st) t (j_out st ++ color_line "delaytest failed: timer queue full" COLOR_RED_ON_BLACK).

Definition cmd_wqstats (st : jobs) : output :=
  prints "workqueue pending  = " ++ print_dec64 (workqueue_pending_count (j_wq st)) ++ newline ++
  prints "workqueue executed = " ++ print_dec64 (workqueue_executed_count (j_wq st)) ++ newline ++
  prints "workqueue dropped  = " ++ print_dec64 (workqueue_dropped_count (j_wq st)) ++ newline.

Definition cmd_timerstats (ticks : Z) (st : jobs) : output :=
  prints "current ticks  = " ++ print_dec64 ticks ++ newline ++
  prints "timer pending  = " ++ print_dec64 (timer_pending_count (j_tm st)) ++ newline ++
  prints "timer fired    = " ++ print_dec64 (timer_fired_count (j_tm st)) ++ newline ++
  prints "timer failed   = " ++ print_dec64 (timer_failed_count (j_tm st)) ++ newline.

(** [item.func(item.arg)], at the tick [ticks]. *)
Definition call_job (ticks : Z) (it : work_item) (st : jobs) : jobs :=
  if func it =? wqtest_addr then wqtest_work (arg it) st
  else if func it =? delaytest_addr then delaytest_work ticks (arg it) st
  else st.

(** The calls of [workqueue_run_pending], the [i]th at tick [ticks i]. *)
Fixpoint call_jobs (ticks : nat → Z) (i : nat) (items : list work_item) (st : jobs) : jobs :=
  match items with
  | [] => st
  | it :: r => call_jobs ticks (S i) r (call_job (ticks i) it st)
  end.

Definition run_jobs (ticks : nat → Z) (max_items : Z) (st : jobs) : Z * jobs :=
  let '(ran, q) := workqueue_run_pending (λ _ _, []) max_items (j_wq st) in
  (Zlength ran, call_jobs ticks 0 ran (MkJobs (j_heap st) (j_text st) q (j_tm st) (j_out st))).

Definition cmd_wqrun (ticks : nat → Z) (st : jobs) : jobs :=
  let '(ran, st) := run_jobs ticks 0 st in
  MkJobs (j_heap st) (j_text st) (j_wq st) (j_tm st)
    (j_out st ++ prints "work items executed = " ++ print_dec64 ran ++ newline).

Definition poll_jobs (ticks : Z) (st : jobs) : jobs :=
  let '(_, t, q) := timer_poll ticks (j_tm st) (j_wq st) in MkJobs (j_heap st) (j_text st) q t (j_out st).
End Jobs.
Arguments jobs : clear implicits.
Arguments MkJobs {H}.

(** ** Specification: messages, not pointers

    A queue of messages (the flag: it came through a timer) and 64 slots with
    the tick a message is due at; and how many messages were lost: a due message
    for which the queue has no room. *)

Record board := MkBoard { b_queue : list (bool * cstr); b_slots : list (option (Z * cstr)); b_lost : nat }.

Definition b_push (k : bool) (m : cstr) (b : board) : board :=
  if (64 <=? length (b_queue b))%nat then b else MkBoard (b_queue b ++ [(k, m)]) (b_slots b) (b_lost b).

Fixpoint b_fill (x : Z * cstr) (l : list (option (Z * cstr))) : list (option (Z * cstr)) :=
  match l with [] => [] | None :: r => Some x :: r | o :: r => o :: b_fill x r end.

Definition is_due_slot (ticks : Z) (o : option (Z * cstr)) : bool :=
  match o with Some (due, _) => due <=? ticks | None => false end.

Definition b_due (ticks : Z) (l : list (option (Z * cstr))) : list cstr :=
  omap (λ o, match o with Some (due, m) => if due <=? ticks then Some m else None | None => None end) l.

Definition b_keep (ticks : Z) (l : list (option (Z * cstr))) : list (option (Z * cstr)) :=
  (λ o, if is_due_slot ticks o then None else o) <$> l.

(** Handing the due messages over. *)
Fixpoint b_hand (ms : list cstr) (b : board) : board :=
  match ms with
  | [] => b
  | m :: r =>
      b_hand r (if (64 <=? length (b_queue b))%nat then MkBoard (b_queue b) (b_slots b) (S (b_lost b))
                else MkBoard (b_queue b ++ [(true, m)]) (b_slots b) (b_lost b))
  end.

Definition b_poll (ticks : Z) (b : board) : board :=
  b_hand (b_due ticks (b_slots b)) (MkBoard (b_queue b) (b_keep ticks (b_slots b)) (b_lost b)).

(** What is printed when a message's turn comes. *)
Definition b_show (ticks : Z) (x : bool * cstr) : output :=
  (if x.1 then newline ++ color_line "[timer]" COLOR_YELLOW_ON_BLACK ++ prints "delayed work executed at tick " ++
               print_dec64 ticks ++ prints ": "
   else color_line "[workqueue]" COLOR_YELLOW_ON_BLACK ++ prints "deferred work executed: ") ++ print x.2 ++ newline.
Definition b_shown (ticks : nat → Z) (l : list (bool * cstr)) : output := concat (imap (λ i x, b_show (ticks i) x) l).
