(* ===== verification/JobsProps.v ===== *)
(** * Deferred messages: refinement and memory *)

From S2P Require Import Prelude CString Print Alloc Workqueue Timer Jobs.

(** ** The queue without its counters *)

Definition wq_holds (s : workqueue) (L : list work_item) : Prop := ∃ n e d, wq_rep s (spec.MkQueue L n e d).

Lemma holds_schedule f a s L :
  f ≠ 0 → wq_holds s L →
  let '(ok, s') := workqueue_schedule f a s in
  if (64 <=? length L)%nat then ok = false ∧ wq_holds s' L
  else ok = true ∧ ∃ n, wq_holds s' (L ++ [MkWork f a n]).
Proof.
  intros Hf (n & e & d & Hr). destruct (wq_schedule_refines f a s _ Hr) as [H1 H2].
  destruct (workqueue_schedule f a s) as [ok s']. cbn [fst snd] in *. revert H1 H2. unfold spec.schedule.
  rewrite (proj2 (Z.eqb_neq f 0)) by done. cbn [spec.pend]. case_if; cbn [fst snd]; intros -> H2.
  - split; [done|]. by do 3 eexists.
  - split; [done|]. exists n. by do 3 eexists.
Qed.

Lemma spec_run_nil n q :
  (spec.run (λ _ _, []) n q).1 = take n (spec.pend q) ∧ spec.pend (spec.run (λ _ _, []) n q).2 = drop n (spec.pend q).
Proof.
  revert q. induction n as [|n IH]; intros q; [done|]. cbn [spec.run]. destruct (spec.pend q) as [|it rest] eqn:Hp; [cbn; by rewrite Hp|].
  cbn [spec.schedule_all foldl]. specialize (IH (spec.MkQueue rest (spec.nseq q) (u64 (spec.nexec q + 1)) (spec.ndrop q))).
  cbn in IH |- *. destruct (spec.run _ n _) as [ran q2]. cbn in *. destruct IH as [-> ->]. done.
Qed.

Lemma holds_run n s L :
  wq_holds s L → (run_loop (λ _ _, []) n s).1 = take n L ∧ wq_holds (run_loop (λ _ _, []) n s).2 (drop n L).
Proof.
  intros (k & e & d & Hr). destruct (wq_run_refines (λ _ _, []) n s _ Hr) as [-> H2].
  destruct (spec_run_nil n (spec.MkQueue L k e d)) as [-> H4]. split; [done|].
  destruct (spec.run _ n _) as [ran [L' k' e' d']]. cbn in *. subst L'. by exists k', e', d'.
Qed.

(** ** Blocks *)

Section Blocks.
Context `{Allocator H}.

Lemma strdup_spec m (h : H) text base B :
  h_inv h → Zlength m < 2 ^ 62 → live h ≡ₚ base ++ B → Forall (λ x, 0 < x.2) B →
  let '(p, h', text') := wq_strdup (Some m) h text in
  h_inv h' ∧
  (p = 0 ∧ live h' = live h ∧ text' = text ∨
   p ≠ 0 ∧ p ∉ B.*1 ∧ text' = <[p := m]> text ∧ ∃ s, 0 < s ∧ live h' ≡ₚ base ++ (p, s) :: B).
Proof.
  intros Hi Hm Hl Hpos. unfold wq_strdup, wq_strlen. rewrite c_strlen_length.
  assert (Hnn : 0 <= Zlength m) by (unfold Zlength; lia). rewrite u64_small by (unfold is_u64; lia).
  pose proof (k_alloc_ok (Zlength m + 1) h Hi ltac:(lia)) as Hk. destruct (k_alloc _ h) as [p h'].
  destruct Hk as [Hi' [[-> Hs]|(s & u1 & u2 & Hp & Hs & Hu & Hu' & Hd)]]; [split; [done|by left]|].
  rewrite (proj2 (Z.eqb_neq p 0)) by done. split; [done|]. right. split; [done|]. split; [|split; [done|]].
  - intros ([a t] & -> & Hin)%list_elem_of_fmap. rewrite Forall_forall in Hpos. pose proof (Hpos _ Hin). cbn in *.
    destruct (Hd a t); [|lia..]. rewrite Hl. apply elem_of_app. by right.
  - exists s. split; [lia|]. rewrite Hu', <- Permutation_middle, <- Hu, Hl. by rewrite Permutation_middle.
Qed.

Lemma free_spec (h : H) base p s B :
  h_inv h → live h ≡ₚ base ++ (p, s) :: B → h_inv (k_free p h) ∧ live (k_free p h) ≡ₚ base ++ B.
Proof.
  intros Hi Hl. assert (Hin : (p, s) ∈ live h) by (rewrite Hl; apply elem_of_app; right; left).
  apply list_elem_of_split in Hin as (u1 & u2 & Hu). destruct (k_free_ok h p s u1 u2 Hi Hu) as [Hi' ->]. split; [done|].
  rewrite Hu, <- !Permutation_middle in Hl. by apply Permutation_cons_inv in Hl.
Qed.
End Blocks.

(** ** The relation *)

Section Rel.
Context `{Allocator H} (w d : Z) (Hw : w ≠ 0) (Hd : d ≠ 0) (Hwd : w ≠ d).
Implicit Types (st : jobs H) (T : gmap Z cstr).

Definition item_is T (it : work_item) (x : bool * cstr) : Prop :=
  func it = (if x.1 then d else w) ∧ arg it ≠ 0 ∧ T !! arg it = Some x.2.

Definition slot_is T (t : timer_item) (o : option (Z * cstr)) : Prop :=
  match o with
  | None => active t = false
  | Some (due, m) => active t = true ∧ due_tick t = due ∧ t_func t = d ∧ t_arg t ≠ 0 ∧ T !! t_arg t = Some m
  end.

Definition slot_args (l : list timer_item) : list Z := omap (λ t, if active t then Some (t_arg t) else None) l.

(** The blocks of the messages: those in the queue, those in the slots and
    those that were lost. *)
Record job_rel (base : list (Z * Z)) (b : board) st (L : list work_item) (B : list (Z * Z)) (lost : list Z) : Prop := {
  jr_inv : h_inv (j_heap st);
  jr_wq : wq_holds (j_wq st) L;
  jr_queue : Forall2 (item_is (j_text st)) L (b_queue b);
  jr_slots : Forall2 (slot_is (j_text st)) (timer_items (j_tm st)) (b_slots b);
  jr_live : live (j_heap st) ≡ₚ base ++ B;
  jr_blocks : B.*1 ≡ₚ (arg <$> L) ++ slot_args (timer_items (j_tm st)) ++ lost;
  jr_pos : Forall (λ x, 0 < x.2) B;
  jr_lost : length lost = b_lost b
}.

Lemma item_new T p m it x : arg it ≠ p → item_is T it x → item_is (<[p := m]> T) it x.
Proof. intros Hp (H1 & H2 & H3). split; [done|]. split; [done|]. by rewrite lookup_insert_ne. Qed.

Lemma items_new T p m L l : p ∉ arg <$> L → Forall2 (item_is T) L l → Forall2 (item_is (<[p := m]> T)) L l.
Proof.
  intros Hp HF. induction HF as [|it x L l Hi _ IH]; [done|]. rewrite fmap_cons in Hp.
  apply not_elem_of_cons in Hp as [H1 H2]. constructor; [by apply item_new|by apply IH].
Qed.

Lemma slots_new T p m L l : p ∉ slot_args L → Forall2 (slot_is T) L l → Forall2 (slot_is (<[p := m]> T)) L l.
Proof.
  intros Hp HF. induction HF as [|t o L l Hi _ IH]; [done|]. unfold slot_args in Hp. cbn in Hp.
  destruct o as [[due x]|]; cbn in Hi.
  - destruct Hi as (Ha & Hi). rewrite Ha in Hp. apply not_elem_of_cons in Hp as [H1 H2]. constructor; [|by apply IH].
    cbn. rewrite lookup_insert_ne by done. done.
  - rewrite Hi in Hp. constructor; [done|by apply IH].
Qed.

(** The empty slot that is filled. *)
Lemma fill_rel T T' new x L l :
  Forall2 (slot_is T) L l → (∀ t o, slot_is T t o → t ∈ L → slot_is T' t o) → slot_is T' new (Some x) →
  match fill_slot new L with
  | Some L' => Forall2 (slot_is T') L' (b_fill x l) ∧ slot_args L' ≡ₚ t_arg new :: slot_args L
  | None => Forall (λ o, o ≠ None) l ∧ b_fill x l = l
  end.
Proof.
  intros HF HT Hn. induction HF as [|t o L l Hi HF IH]; cbn [fill_slot b_fill]; [done|].
  assert (Hrest : Forall2 (slot_is T') L l).
  { clear IH. assert (HT' : ∀ t o, slot_is T t o → t ∈ L → slot_is T' t o) by (intros; apply HT; [done|by right]).
    clear HT Hi. induction HF as [|u p L l Hu _ IH]; [done|]. constructor; [apply HT'; [done|left]|].
    apply IH. intros. apply HT'; [done|by right]. }
  assert (Hna : slot_args (new :: L) = t_arg new :: slot_args L).
  { destruct x as [due mm]. destruct Hn as (Ha & _). unfold slot_args. cbn. by rewrite Ha. }
  destruct o as [[due m]|].
  - pose proof Hi as (Ha & _). rewrite Ha. cbn [negb].
    specialize (IH ltac:(intros; apply HT; [done|by right])). destruct (fill_slot new L) as [L'|].
    + destruct IH as [IH1 IH2]. split; [constructor; [apply HT; [done|left]|done]|].
      unfold slot_args in *. cbn. rewrite Ha. cbn. rewrite IH2. apply perm_swap.
    + destruct IH as [IH1 IH2]. split; [by constructor|]. by rewrite IH2.
  - cbn in Hi. rewrite Hi. cbn [negb]. split; [by constructor|]. rewrite Hna. unfold slot_args. cbn. by rewrite Hi.
Qed.

Lemma rel_pointer base b st L B lost p :
  job_rel base b st L B lost → p ∉ B.*1 → p ∉ arg <$> L ∧ p ∉ slot_args (timer_items (j_tm st)).
Proof. intros [_ _ _ _ _ HB _ _] Hp. rewrite HB, !elem_of_app in Hp. tauto. Qed.

(** *** The commands *)

(** What a command does and prints, when its allocation succeeded or not. *)
Definition b_wqtest (ok : bool) (m : cstr) (b : board) : board * output :=
  if negb ok then (b, color_line "work schedule failed: no memory" COLOR_RED_ON_BLACK)
  else if (64 <=? length (b_queue b))%nat then (b, color_line "work schedule failed" COLOR_RED_ON_BLACK)
  else (b_push false m b, prints "work scheduled" ++ newline).

Definition b_delaytest (ok : bool) (ticks : Z) (m : cstr) (b : board) : board * output :=
  if negb ok then (b, color_line "delaytest failed: no memory" COLOR_RED_ON_BLACK)
  else if decide (Forall (λ o, o ≠ None) (b_slots b)) then (b, color_line "delaytest failed: timer queue full" COLOR_RED_ON_BLACK)
  else (MkBoard (b_queue b) (b_fill (u64 (ticks + 100), m) (b_slots b)) (b_lost b),
        prints "delayed work scheduled after 100 ticks" ++ newline).

Lemma wqtest_rel base b st L B lost args :
  job_rel base b st L B lost → Zlength (message_of args "hello from deferred work") < 2 ^ 62 →
  ∃ ok L' B', let '(b', o) := b_wqtest ok (message_of args "hello from deferred work") b in
    job_rel base b' (cmd_wqtest w args st) L' B' lost ∧ j_out (cmd_wqtest w args st) = j_out st ++ o.
Proof.
  intros Hrel Hm. set (m := message_of args _) in *. unfold cmd_wqtest. fold m.
  pose proof Hrel as [Hi Hwq Hq Hs Hl HB Hpos Hlost].
  pose proof (strdup_spec m (j_heap st) (j_text st) base B Hi Hm Hl Hpos) as Hdup.
  destruct (wq_strdup (Some m) (j_heap st) (j_text st)) as [[p h] T].
  destruct Hdup as [Hi' [(-> & Hl' & ->)|(Hp & Hnew & -> & sz & Hsz & Hl')]].
  { exists false, L, B. cbn. split; [|done]. split; cbn; try done. by rewrite Hl'. }
  rewrite (proj2 (Z.eqb_neq p 0)) by done. destruct (rel_pointer _ _ _ _ _ _ p Hrel Hnew) as [Hp1 Hp2].
  pose proof (holds_schedule w p (j_wq st) L Hw Hwq) as Hsch. unfold b_wqtest, b_push. rewrite <- (Forall2_length _ _ _ Hq).
  destruct (workqueue_schedule w p (j_wq st)) as [ok q]. destruct (64 <=? length L)%nat eqn:Hfull.
  - destruct Hsch as [-> Hwq']. exists true, L, B. cbn. split; [|done].
    destruct (free_spec h base p sz B Hi' Hl') as [Hi2 Hl2]. split; cbn; try done; [by apply items_new|by apply slots_new].
  - destruct Hsch as [-> [n Hwq']]. exists true, (L ++ [MkWork w p n]), ((p, sz) :: B). cbn. split; [|done].
    split; cbn; try done.
    + apply Forall2_app; [by apply items_new|]. constructor; [|done]. split; [done|]. split; [done|]. by rewrite lookup_insert_eq.
    + by apply slots_new.
    + rewrite fmap_app, HB. cbn. rewrite <- app_assoc. by rewrite Permutation_middle.
    + by constructor.
Qed.

Lemma delaytest_rel base b st L B lost ticks args :
  job_rel base b st L B lost → Zlength (message_of args "hello from delayed work") < 2 ^ 62 →
  ∃ ok B', let '(b', o) := b_delaytest ok ticks (message_of args "hello from delayed work") b in
    job_rel base b' (cmd_delaytest d ticks args st) L B' lost ∧ j_out (cmd_delaytest d ticks args st) = j_out st ++ o.
Proof.
  intros Hrel Hm. set (m := message_of args _) in *. unfold cmd_delaytest, timer_strdup. fold m.
  pose proof Hrel as [Hi Hwq Hq Hs Hl HB Hpos Hlost].
  pose proof (strdup_spec m (j_heap st) (j_text st) base B Hi Hm Hl Hpos) as Hdup.
  destruct (wq_strdup (Some m) (j_heap st) (j_text st)) as [[p h] T].
  destruct Hdup as [Hi' [(-> & Hl' & ->)|(Hp & Hnew & -> & sz & Hsz & Hl')]].
  { exists false, B. cbn. split; [|done]. split; cbn; try done. by rewrite Hl'. }
  rewrite (proj2 (Z.eqb_neq p 0)) by done. destruct (rel_pointer _ _ _ _ _ _ p Hrel Hnew) as [Hp1 Hp2].
  unfold timer_schedule_ticks. rewrite (proj2 (Z.eqb_neq d 0)) by done. cbn [Z.eqb].
  set (new := MkTimer true (u64 (ticks + 100)) d p (timer_next_seq (j_tm st))).
  pose proof (slots_new (j_text st) p m _ _ Hp2 Hs) as Hs'.
  pose proof (fill_rel (<[p := m]> (j_text st)) (<[p := m]> (j_text st)) new (u64 (ticks + 100), m) _ _ Hs') as Hf.
  assert (Hnew' : slot_is (<[p := m]> (j_text st)) new (Some (u64 (ticks + 100), m))).
  { repeat (split; [done|]). cbn. by rewrite lookup_insert_eq. }
  specialize (Hf ltac:(done) Hnew'). exists true. unfold b_delaytest. cbn [negb].
  destruct (fill_slot new (timer_items (j_tm st))) as [items|] eqn:Hfill.
  - destruct Hf as [Hf1 Hf2]. exists ((p, sz) :: B). rewrite decide_False.
    + split; [|done]. split; cbn; try done; [by apply items_new| |by constructor].
      rewrite Hf2, HB. cbn. by rewrite Permutation_middle.
    + intros Hall. pose proof (fill_slot_spec new (timer_items (j_tm st))) as Hsp. rewrite Hfill in Hsp.
      destruct Hsp as (i & _ & (t & Ht & Ha) & _). destruct (Forall2_lookup_l _ _ _ _ _ Hs Ht) as (o & Ho & Hto).
      rewrite Forall_lookup in Hall. pose proof (Hall i o Ho). destruct o as [[due x]|]; [|done]. destruct Hto as [Hx _]. congruence.
  - destruct Hf as [Hf1 Hf2]. exists B. rewrite decide_True by done. split; [|done].
    destruct (free_spec h base p sz B Hi' Hl') as [Hi2 Hl2]. split; cbn; try done. by apply items_new.
Qed.

(** *** Polling the timers *)

Definition due_is T (x : Z * Z) (m : cstr) : Prop := x.1 = d ∧ x.2 ≠ 0 ∧ T !! x.2 = Some m.

Lemma collect_rel T ticks L l :
  Forall2 (slot_is T) L l →
  let '(due, L') := collect_due ticks L in
  Forall2 (slot_is T) L' (b_keep ticks l) ∧ Forall2 (due_is T) due (b_due ticks l) ∧
  slot_args L ≡ₚ due.*2 ++ slot_args L'.
Proof.
  intros HF. induction HF as [|t o L l Hi _ IH]; cbn [collect_due]; [done|].
  destruct (collect_due ticks L) as [due L']. destruct IH as (I1 & I2 & I3). unfold is_due.
  destruct o as [[x m]|].
  - destruct Hi as (Ha & <- & Hf & Hp & Hm). unfold b_keep, b_due, slot_args in *. cbn. rewrite Ha. cbn.
    destruct (due_tick t <=? ticks); cbn.
    + split; [by constructor|]. split; [by constructor|]. by rewrite I3.
    + split; [constructor; [|done]; done|]. split; [done|]. rewrite Ha. cbn. rewrite I3. by rewrite Permutation_middle.
  - cbn in Hi. unfold b_keep, b_due, slot_args in *. cbn. rewrite Hi. cbn. rewrite Hi. split; [by constructor|]. done.
Qed.

Lemma hand_rel T due ms b L lost q :
  wq_holds q L → Forall2 (item_is T) L (b_queue b) → Forall2 (due_is T) due ms → length lost = b_lost b →
  let '(_, _, q') := schedule_due due q in
  ∃ L' lost', wq_holds q' L' ∧ Forall2 (item_is T) L' (b_queue (b_hand ms b)) ∧
    (arg <$> L') ++ lost' ≡ₚ (arg <$> L) ++ due.*2 ++ lost ∧ length lost' = b_lost (b_hand ms b) ∧
    b_slots (b_hand ms b) = b_slots b.
Proof.
  intros Hwq HF HD Hl. revert b L lost q Hwq HF Hl.
  induction HD as [|[f a] m due ms (Hf & Ha & Hm) _ IH]; intros b L lost q Hwq HF Hl; cbn [schedule_due b_hand].
  { exists L, lost. done. }
  cbn in Hf, Ha, Hm. subst f. pose proof (holds_schedule d a q L Hd Hwq) as Hs. rewrite <- (Forall2_length _ _ _ HF).
  destruct (workqueue_schedule d a q) as [ok q1]. destruct (64 <=? length L)%nat.
  - destruct Hs as [-> Hq1].
    specialize (IH (MkBoard (b_queue b) (b_slots b) (S (b_lost b))) L (a :: lost) q1 Hq1 HF ltac:(cbn; by rewrite Hl)).
    destruct (schedule_due due q1) as [[fired failed] q2]. destruct IH as (L' & lost' & I1 & I2 & I3 & I4 & I5).
    exists L', lost'. split; [done|]. split; [done|]. split; [|done]. rewrite I3. cbn. by rewrite Permutation_middle.
  - destruct Hs as [-> [n Hq1]].
    assert (HF1 : Forall2 (item_is T) (L ++ [MkWork d a n]) (b_queue b ++ [(true, m)])) by (apply Forall2_app; [done|by constructor]).
    specialize (IH (MkBoard (b_queue b ++ [(true, m)]) (b_slots b) (b_lost b)) _ lost q1 Hq1 HF1 Hl).
    destruct (schedule_due due q1) as [[fired failed] q2]. destruct IH as (L' & lost' & I1 & I2 & I3 & I4 & I5).
    exists L', lost'. split; [done|]. split; [done|]. split; [|done]. rewrite I3, fmap_app. cbn. by rewrite <- app_assoc.
Qed.

Lemma poll_rel base b st L B lost ticks :
  job_rel base b st L B lost →
  ∃ L' lost', job_rel base (b_poll ticks b) (poll_jobs ticks st) L' B lost' ∧ j_out (poll_jobs ticks st) = j_out st.
Proof.
  intros [Hi Hwq Hq Hs Hl HB Hpos Hlost]. unfold poll_jobs, timer_poll.
  pose proof (collect_rel (j_text st) ticks _ _ Hs) as Hc. destruct (collect_due ticks (timer_items (j_tm st))) as [due items].
  destruct Hc as (C1 & C2 & C3).
  pose proof (hand_rel (j_text st) due _ (MkBoard (b_queue b) (b_keep ticks (b_slots b)) (b_lost b)) L lost (j_wq st) Hwq Hq C2 Hlost) as Hh.
  destruct (schedule_due due (j_wq st)) as [[fired failed] q]. destruct Hh as (L' & lost' & I1 & I2 & I3 & I4 & I5).
  exists L', lost'. split; [|done]. split; cbn; try done.
  - unfold b_poll. by rewrite I5.
  - assert (Hc : (arg <$> L') ++ slot_args items ++ lost' ≡ₚ ((arg <$> L') ++ lost') ++ slot_args items)
      by (rewrite <- app_assoc; f_equiv; apply Permutation_app_comm).
    rewrite HB, C3, Hc, I3. rewrite <- !app_assoc. do 2 f_equiv. apply Permutation_app_comm.
Qed.

(** *** Running the queue *)

Lemma call_job_out T ticks it x st :
  j_text st = T → item_is T it x →
  call_job w d ticks it st =
    MkJobs (k_free (arg it) (j_heap st)) T (j_wq st) (j_tm st) (j_out st ++ b_show ticks x).
Proof.
  intros <- (Hf & Ha & Hm). unfold call_job, wqtest_work, delaytest_work, drop_message, show_message, b_show.
  rewrite (proj2 (Z.eqb_neq (arg it) 0)), Hm by done. destruct x as [[|] m]; cbn [fst snd] in *; rewrite Hf.
  - rewrite (proj2 (Z.eqb_neq d w)), Z.eqb_refl by done. cbn [default from_option]. by rewrite <- !app_assoc.
  - rewrite Z.eqb_refl. cbn [default from_option]. by rewrite <- !app_assoc.
Qed.

Lemma call_jobs_rel base T ticks i items l st B rest :
  j_text st = T → Forall2 (item_is T) items l → h_inv (j_heap st) → live (j_heap st) ≡ₚ base ++ B →
  Forall (λ x, 0 < x.2) B → B.*1 ≡ₚ (arg <$> items) ++ rest →
  ∃ h B', call_jobs w d ticks i items st =
      MkJobs h T (j_wq st) (j_tm st) (j_out st ++ concat (imap (λ k x, b_show (ticks (i + k)%nat) x) l)) ∧
    h_inv h ∧ live h ≡ₚ base ++ B' ∧ Forall (λ x, 0 < x.2) B' ∧ B'.*1 ≡ₚ rest.
Proof.
  intros HT HF. revert i st B HT. induction HF as [|it x items l Hi _ IH]; intros i st B HT Hinv Hl Hpos HB; cbn [call_jobs].
  { exists (j_heap st), B. rewrite app_nil_r, <- HT. by destruct st. }
  rewrite (call_job_out T (ticks i) it x st HT Hi).
  assert (Hin : arg it ∈ B.*1) by (rewrite HB; left). apply list_elem_of_fmap in Hin as ([p sz] & Hp & Hin). cbn in Hp.
  apply elem_of_Permutation in Hin as [B1 HB1]. rewrite HB1 in Hl, HB, Hpos. apply Forall_cons in Hpos as [_ Hpos].
  rewrite <- Hp in Hl. destruct (free_spec (j_heap st) base (arg it) sz B1 Hinv Hl) as [Hi1 Hl1].
  rewrite fmap_cons in HB. cbn in HB. rewrite Hp in HB. apply Permutation_cons_inv in HB.
  destruct (IH (S i) (MkJobs (k_free (arg it) (j_heap st)) T (j_wq st) (j_tm st) (j_out st ++ b_show (ticks i) x)) B1)
    as (h & B' & -> & R); [done..|]. exists h, B'. split; [|done]. cbn. rewrite <- app_assoc. f_equal. f_equal.
  rewrite Nat.add_0_r. f_equal. f_equal. apply imap_ext. intros k y _. cbn. by rewrite Nat.add_succ_r.
Qed.

Definition run_count (max_items : Z) : nat :=
  Z.to_nat (if (max_items =? 0) || (WORKQUEUE_SIZE <? max_items) then WORKQUEUE_SIZE else max_items).

Lemma run_rel base b st L B lost ticks n :
  job_rel base b st L B lost →
  let taken := take (run_count n) (b_queue b) in
  ∃ L' B', job_rel base (MkBoard (drop (run_count n) (b_queue b)) (b_slots b) (b_lost b)) (run_jobs w d ticks n st).2 L' B' lost ∧
    j_out (run_jobs w d ticks n st).2 = j_out st ++ b_shown ticks taken ∧ (run_jobs w d ticks n st).1 = Zlength taken.
Proof.
  intros [Hi Hwq Hq Hs Hl HB Hpos Hlost]. cbv zeta. unfold run_jobs, workqueue_run_pending. fold (run_count n).
  destruct (holds_run (run_count n) _ _ Hwq) as [H1 H2]. destruct (run_loop _ (run_count n) (j_wq st)) as [ran q]. cbn in H1, H2. subst ran.
  assert (HFt : Forall2 (item_is (j_text st)) (take (run_count n) L) (take (run_count n) (b_queue b))) by (by apply Forall2_take).
  rewrite <- (take_drop (run_count n) L), fmap_app, <- app_assoc in HB.
  destruct (call_jobs_rel base (j_text st) ticks 0 _ _ (MkJobs (j_heap st) (j_text st) q (j_tm st) (j_out st)) B _ eq_refl HFt Hi Hl Hpos HB)
    as (h & B' & -> & R1 & R2 & R3 & R4).
  exists (drop (run_count n) L), B'. cbn. split; [|split; [done|]].
  - split; cbn; try done. by apply Forall2_drop.
  - unfold Zlength. by rewrite (Forall2_length _ _ _ HFt).
Qed.
End Rel.

(** ** Sequences of commands, polls and runs *)

Inductive job_op :=
  | JWqtest (args : option cstr)
  | JDelaytest (ticks : Z) (args : option cstr)
  | JPoll (ticks : Z)
  | JRun (ticks : nat → Z) (max_items : Z)
  | JWqrun (ticks : nat → Z).

Definition do_job `{Allocator H} (w d : Z) (st : jobs H) (o : job_op) : jobs H :=
  match o with
  | JWqtest args => cmd_wqtest w args st
  | JDelaytest ticks args => cmd_delaytest d ticks args st
  | JPoll ticks => poll_jobs ticks st
  | JRun ticks n => (run_jobs w d ticks n st).2
  | JWqrun ticks => cmd_wqrun w d ticks st
  end.

(** The same on messages; [ok]: the heap had room for the copy. *)
Definition b_do (o : job_op) (ok : bool) (b : board) : board * output :=
  match o with
  | JWqtest args => b_wqtest ok (message_of args "hello from deferred work") b
  | JDelaytest ticks args => b_delaytest ok ticks (message_of args "hello from delayed work") b
  | JPoll ticks => (b_poll ticks b, [])
  | JRun ticks n =>
      (MkBoard (drop (run_count n) (b_queue b)) (b_slots b) (b_lost b), b_shown ticks (take (run_count n) (b_queue b)))
  | JWqrun ticks =>
      let taken := take (run_count 0) (b_queue b) in
      (MkBoard (drop (run_count 0) (b_queue b)) (b_slots b) (b_lost b),
       b_shown ticks taken ++ prints "work items executed = " ++ print_dec64 (Zlength taken) ++ newline)
  end.

Fixpoint b_run (os : list (job_op * bool)) (b : board) : board * output :=
  match os with
  | [] => (b, [])
  | (o, ok) :: r => let '(b1, o1) := b_do o ok b in let '(b2, o2) := b_run r b1 in (b2, o1 ++ o2)
  end.

Definition op_fits (o : job_op) : Prop :=
  match o with
  | JWqtest (Some m) | JDelaytest _ (Some m) => Zlength m < 2 ^ 62
  | _ => True
  end.

Lemma message_fits args deflt :
  Zlength (s2z deflt) < 2 ^ 62 → (∀ m, args = Some m → Zlength m < 2 ^ 62) → Zlength (message_of args deflt) < 2 ^ 62.
Proof. intros H1 H2. destruct args as [[|c m]|]; [done|by apply H2|done]. Qed.

Definition messages_kept (b : board) : nat := length (b_queue b) + length (omap id (b_slots b)) + b_lost b.

Section Run.
Context `{Allocator H} (w d : Z) (Hw : w ≠ 0) (Hd : d ≠ 0) (Hwd : w ≠ d).

Lemma do_job_rel base b (st : jobs H) L B lost o :
  job_rel w d base b st L B lost → op_fits o →
  ∃ ok L' B' lost', job_rel w d base (b_do o ok b).1 (do_job w d st o) L' B' lost' ∧
    j_out (do_job w d st o) = j_out st ++ (b_do o ok b).2.
Proof.
  intros Hr Hf. destruct o as [args|ticks args|ticks|ticks n|ticks]; cbn [do_job b_do].
  - destruct (wqtest_rel w d Hw base b st L B lost args Hr) as (ok & L' & B' & Hx).
    { apply message_fits; [done|]. intros m ->. done. }
    exists ok, L', B', lost. by destruct (b_wqtest ok _ b).
  - destruct (delaytest_rel w d Hd base b st L B lost ticks args Hr) as (ok & B' & Hx).
    { apply message_fits; [done|]. intros m ->. done. }
    exists ok, L, B', lost. by destruct (b_delaytest ok ticks _ b).
  - destruct (poll_rel w d Hd base b st L B lost ticks Hr) as (L' & lost' & Hx & Ho). exists true, L', B, lost'.
    split; [done|]. by rewrite app_nil_r.
  - destruct (run_rel w d Hwd base b st L B lost ticks n Hr) as (L' & B' & Hx & Ho & _). by exists true, L', B', lost.
  - destruct (run_rel w d Hwd base b st L B lost ticks 0 Hr) as (L' & B' & Hx & Ho & Hn). exists true, L', B', lost.
    unfold cmd_wqrun. destruct (run_jobs w d ticks 0 st) as [n st']. cbn [fst snd] in *. cbn [j_out]. split.
    + by destruct Hx.
    + by rewrite Ho, Hn, <- app_assoc.
Qed.

Lemma run_jobs_rel base os b (st : jobs H) L B lost :
  job_rel w d base b st L B lost → Forall op_fits os →
  ∃ oks, length oks = length os ∧ ∃ L' B' lost',
    job_rel w d base (b_run (zip os oks) b).1 (foldl (do_job w d) st os) L' B' lost' ∧
    j_out (foldl (do_job w d) st os) = j_out st ++ (b_run (zip os oks) b).2.
Proof.
  intros Hr Hf. revert b st L B lost Hr. induction Hf as [|o os Ho _ IH]; intros b st L B lost Hr; cbn [foldl].
  { exists []. split; [done|]. exists L, B, lost. split; [done|]. cbn. by rewrite app_nil_r. }
  destruct (do_job_rel base b st L B lost o Hr Ho) as (ok & L1 & B1 & lost1 & Hr1 & Ho1).
  destruct (IH _ _ _ _ _ Hr1) as (oks & Hl & L2 & B2 & lost2 & Hr2 & Ho2).
  exists (ok :: oks). split; [cbn; by rewrite Hl|]. exists L2, B2, lost2. cbn [zip zip_with b_run].
  destruct (b_do o ok b) as [b1 o1]. cbn [fst snd] in *. destruct (b_run (zip os oks) b1) as [b2 o2]. cbn [fst snd] in *.
  split; [done|]. by rewrite Ho2, Ho1, app_assoc.
Qed.

Lemma slot_args_count T L l : Forall2 (slot_is d T) L l → length (slot_args L) = length (omap id l).
Proof.
  intros HF. induction HF as [|t o L l Hi _ IH]; [done|]. unfold slot_args in *. cbn.
  destruct o as [[due m]|]; cbn in Hi |- *; [destruct Hi as [-> _]|rewrite Hi]; cbn; lia.
Qed.

Lemma rel_kept base b (st : jobs H) L B lost : job_rel w d base b st L B lost → length B = messages_kept b.
Proof.
  intros [_ _ Hq Hs _ HB _ Hl]. apply Permutation_length in HB. rewrite length_fmap in HB. rewrite HB.
  rewrite !length_app, length_fmap, (Forall2_length _ _ _ Hq), (slot_args_count _ _ _ Hs). unfold messages_kept. lia.
Qed.
End Run.

(** C36: deferred messages and their memory. From an empty queue and empty
    timers, over every sequence of [wqtest] and [delaytest] commands, timer
    polls and runs of the queue: what is printed is what the queue of messages
    prints, each accepted message in turn, with its own text; and the heap holds
    exactly the blocks it held before and one block for every message that is
    queued, waits in a timer or was lost because the queue was full when its
    timer was due. So every message that was shown or refused has been freed, and
    only the lost ones leak. *)
Theorem deferred_messages `{Allocator H} w d items os (h : H) :
  w ≠ 0 → d ≠ 0 → w ≠ d → length items = 64%nat → h_inv h → Forall op_fits os →
  let st' := foldl (do_job w d) (MkJobs h ∅ (workqueue_init items) timer_init []) os in
  ∃ oks, length oks = length os ∧
    let '(b', o) := b_run (zip os oks) (MkBoard [] (replicate 64 None) 0) in
    j_out st' = o ∧ h_inv (j_heap st') ∧
    ∃ B, live (j_heap st') ≡ₚ live h ++ B ∧ length B = messages_kept b'.
Proof.
  intros Hw Hd Hwd Hit Hi Hos st'.
  destruct (run_jobs_rel w d Hw Hd Hwd (live h) os (MkBoard [] (replicate 64 None) 0)
    (MkJobs h ∅ (workqueue_init items) timer_init []) [] [] []) as (oks & Hl & L & B & lost & Hr & Ho).
  - assert (Hs : Forall2 (slot_is d ∅) (timer_items timer_init) (replicate 64 None)) by (apply Forall2_replicate; done).
    split; cbn [j_heap j_text j_wq j_tm b_queue b_slots b_lost]; try done; [exists 1, 0, 0; by apply wq_rep_init|by rewrite app_nil_r].
  - done.
  - exists oks. split; [done|]. eassert (Hk : length B = messages_kept _) by (eapply rel_kept; [exact Hw|exact Hd|exact Hwd|exact Hr]).
    destruct (b_run (zip os oks) _) as [b' o]. cbn [fst snd] in *. split; [done|]. split; [apply Hr|].
    exists B. split; [apply Hr|done].
Qed.

(** A message at once and one after a second. *)
Lemma deferred_messages_witness :
  let os := [JWqtest (Some (s2z "now")); JDelaytest 5 None; JRun (λ _, 6) 16; JPoll 104; JPoll 105; JRun (λ _, 105) 16] in
  let st' := foldl (do_job 8 16) (MkJobs (MkArena 1000 9000 []) ∅ (workqueue_init (replicate 64 (MkWork 0 0 0))) timer_init []) os in
  ∃ oks, length oks = 6%nat ∧
    j_out st' = (b_run (zip os oks) (MkBoard [] (replicate 64 None) 0)).2 ∧ live (j_heap st') = [] ∧
    text (j_out st') =
      s2z "work scheduled" ++ [CH_LF] ++ s2z "delayed work scheduled after 100 ticks" ++ [CH_LF] ++
      s2z "[workqueue]" ++ [CH_LF] ++ s2z "deferred work executed: now" ++ [CH_LF] ++
      [CH_LF] ++ s2z "[timer]" ++ [CH_LF] ++ s2z "delayed work executed at tick 105: hello from delayed work" ++ [CH_LF].
Proof.
  intros os st'.
  destruct (deferred_messages 8 16 (replicate 64 (MkWork 0 0 0)) os (MkArena 1000 9000 [])) as (oks & Hl & Hx);
    [lia|lia|lia|reflexivity| |repeat constructor|].
  - split; [reflexivity|]. split; [apply NoDup_nil_2|]. intros a s Ha. inversion Ha.
  - exists oks. split; [exact Hl|]. destruct (b_run (zip os oks) _) as [b' o]. destruct Hx as (Ho & _).
    split; [exact Ho|]. split; vm_compute; reflexivity.
Defined.
