(* ===== verification/Builtins.v ===== *)
(** * The built-in commands (the [*_register_builtin_commands] functions)

    Each component registers its commands at boot. What a command does is a
    function [handler] of the function that was registered, named by the
    enumeration [builtin.t]; the tables of names are those of the sources. *)

From S2P Require Import Prelude CString Print Alloc Command.

(** The C functions behind the names. *)
Module builtin.
Inductive t :=
  | cmd_help | cmd_clear | cmd_ticks | cmd_mem | cmd_echo | cmd_pmmtest | cmd_vmmtest | cmd_heaptest | cmd_pf | cmd_cmds
  | cmd_devices | cmd_devcount
  | cmd_dmesg | cmd_dmesg_clear | cmd_dmesg_info
  | cmd_panic | cmd_asserttest
  | cmd_wqtest | cmd_wqstats | cmd_wqrun
  | cmd_delaytest | cmd_timerstats
  | cmd_date | cmd_rtctest
  | cmd_tasks | cmd_taskdemo | cmd_sleepdemo | cmd_yield | cmd_taskstats
  | cmd_ps | cmd_wait
  | cmd_ls | cmd_cat | cmd_fsinfo
  | cmd_fdinfo | cmd_fdcat | cmd_fdwrite
  | cmd_mouseinfo
  | cmd_initramfsinfo
  | cmd_elfinfo | cmd_elfload | cmd_elflast
  | cmd_syscallinfo | cmd_syscalltest
  | cmd_syscallcpuinfo | cmd_syscallentrytest
  | cmd_gdtinfo
  | cmd_ring3info | cmd_ring3test | cmd_initrun | cmd_exec
  | cmd_history.
#[global] Instance t_eq_dec : EqDecision t.
Proof. solve_decision. Defined.
End builtin.

(** One call of [command_register]: name, description, function. *)
Definition entry : Type := string * string * builtin.t.

Definition command_entries : list entry := [
  ("help", "show command list", builtin.cmd_help);
  ("clear", "clear screen", builtin.cmd_clear);
  ("ticks", "show PIT timer ticks", builtin.cmd_ticks);
  ("mem", "show free physical frames", builtin.cmd_mem);
  ("echo", "print arguments", builtin.cmd_echo);
  ("pmmtest", "run physical memory manager test", builtin.cmd_pmmtest);
  ("vmmtest", "run virtual memory manager tests", builtin.cmd_vmmtest);
  ("heaptest", "run kernel heap allocator test", builtin.cmd_heaptest);
  ("pf", "trigger page fault test", builtin.cmd_pf);
  ("cmds", "show registered command count", builtin.cmd_cmds)].

Definition device_entries : list entry := [
  ("devices", "list registered devices", builtin.cmd_devices);
  ("devcount", "show registered device count", builtin.cmd_devcount)].

Definition klog_entries : list entry := [
  ("dmesg", "dump kernel log buffer", builtin.cmd_dmesg);
  ("dmesgclear", "clear kernel log buffer", builtin.cmd_dmesg_clear);
  ("dmesginfo", "show kernel log buffer info", builtin.cmd_dmesg_info)].

Definition panic_entries : list entry := [
  ("panic", "trigger kernel panic", builtin.cmd_panic);
  ("asserttest", "trigger kernel assertion failure", builtin.cmd_asserttest)].

Definition workqueue_entries : list entry := [
  ("wqtest", "schedule deferred work", builtin.cmd_wqtest);
  ("wqstats", "show workqueue stats", builtin.cmd_wqstats);
  ("wqrun", "run pending work immediately", builtin.cmd_wqrun)].

Definition timer_entries : list entry := [
  ("delaytest", "schedule delayed work after 100 ticks", builtin.cmd_delaytest);
  ("timerstats", "show kernel timer stats", builtin.cmd_timerstats)].

Definition rtc_entries : list entry := [
  ("date", "show CMOS RTC date/time", builtin.cmd_date);
  ("rtctest", "test CMOS RTC driver", builtin.cmd_rtctest)].

Definition task_entries : list entry := [
  ("tasks", "list kernel tasks", builtin.cmd_tasks);
  ("taskdemo", "create demo cooperative tasks", builtin.cmd_taskdemo);
  ("sleepdemo", "create sleeping demo tasks", builtin.cmd_sleepdemo);
  ("yield", "yield current task", builtin.cmd_yield);
  ("taskstats", "show task scheduler stats", builtin.cmd_taskstats)].

Definition process_entries : list entry := [
  ("ps", "list processes", builtin.cmd_ps);
  ("wait", "wait a pid and read its exit code", builtin.cmd_wait)].

Definition vfs_entries : list entry := [
  ("ls", "list VFS directory", builtin.cmd_ls);
  ("cat", "print VFS file", builtin.cmd_cat);
  ("fsinfo", "show VFS info", builtin.cmd_fsinfo)].

Definition fd_entries : list entry := [
  ("fdinfo", "show file descriptor table", builtin.cmd_fdinfo);
  ("fdcat", "cat file through fd_read", builtin.cmd_fdcat);
  ("fdwrite", "write text through fd_write", builtin.cmd_fdwrite)].

Definition mouse_entries : list entry := [("mouseinfo", "show PS/2 mouse stats", builtin.cmd_mouseinfo)].

Definition initramfs_entries : list entry := [
  ("initramfsinfo", "show initramfs load stats", builtin.cmd_initramfsinfo)].

Definition elf_entries : list entry := [
  ("elfinfo", "show ELF64 header and program headers", builtin.cmd_elfinfo);
  ("elfload", "load ELF64 PT_LOAD segments into memory", builtin.cmd_elfload);
  ("elflast", "show last loaded ELF image", builtin.cmd_elflast)].

Definition syscall_entries : list entry := [
  ("syscallinfo", "show syscall table", builtin.cmd_syscallinfo);
  ("syscalltest", "run kernel-side syscall dispatch test", builtin.cmd_syscalltest)].

Definition syscall_cpu_entries : list entry := [
  ("syscallcpuinfo", "show syscall CPU MSR configuration", builtin.cmd_syscallcpuinfo);
  ("syscallentrytest", "test syscall CPU prep path without ring3", builtin.cmd_syscallentrytest)].

Definition gdt_entries : list entry := [("gdtinfo", "show GDT/TSS state", builtin.cmd_gdtinfo)].

Definition user_mode_entries : list entry := [
  ("ring3info", "show ring3 smoke test state", builtin.cmd_ring3info);
  ("ring3test", "enter ring3 and return through SYS_exit", builtin.cmd_ring3test);
  ("initrun", "run /bin/init ELF in a user task", builtin.cmd_initrun);
  ("exec", "run a user ELF in a user task", builtin.cmd_exec)].

Definition shell_entries : list entry := [("history", "show shell command history", builtin.cmd_history)].

Section Registering.
Context {S : Type} `{Allocator H} (handler : builtin.t → command_handler S).

Record registry := MkRegistry { rg_commands : commands S; rg_heap : H; rg_out : output }.

Definition register_entry (r : registry) (e : entry) : registry :=
  let '(name, description, f) := e in
  let '(_, x, h, o) :=
    command_register (Some (s2z name)) (Some (s2z description)) (Some (handler f)) (rg_commands r) (rg_heap r) in
  MkRegistry x h (rg_out r ++ o).

Definition register_entries (l : list entry) (r : registry) : registry := foldl register_entry r l.

(** The line with the number of commands. *)
Definition print_registered (r : registry) : registry :=
  MkRegistry (rg_commands r) (rg_heap r) (rg_out r ++ cmd_cmds (rg_commands r)).

Definition command_register_builtin_commands (r : registry) : registry :=
  print_registered (register_entries command_entries r).
Definition device_register_builtin_commands : registry → registry := register_entries device_entries.
Definition klog_register_builtin_commands : registry → registry := register_entries klog_entries.
Definition panic_register_builtin_commands : registry → registry := register_entries panic_entries.
Definition workqueue_register_builtin_commands : registry → registry := register_entries workqueue_entries.
Definition timer_register_builtin_commands : registry → registry := register_entries timer_entries.
Definition rtc_register_builtin_commands : registry → registry := register_entries rtc_entries.
Definition task_register_builtin_commands : registry → registry := register_entries task_entries.
Definition process_register_builtin_commands : registry → registry := register_entries process_entries.
Definition vfs_register_builtin_commands : registry → registry := register_entries vfs_entries.
Definition fd_register_builtin_commands : registry → registry := register_entries fd_entries.
Definition mouse_register_builtin_commands : registry → registry := register_entries mouse_entries.
Definition initramfs_register_builtin_commands : registry → registry := register_entries initramfs_entries.
Definition elf_register_builtin_commands : registry → registry := register_entries elf_entries.
Definition syscall_register_builtin_commands : registry → registry := register_entries syscall_entries.
Definition syscall_cpu_register_builtin_commands : registry → registry := register_entries syscall_cpu_entries.
Definition gdt_register_builtin_commands : registry → registry := register_entries gdt_entries.
Definition user_mode_register_builtin_commands : registry → registry := register_entries user_mode_entries.
(** The registration in [shell_init]. *)
Definition shell_register_command : registry → registry := register_entries shell_entries.

(** The block of calls in [kernel_main], from [command_init] on. *)
Definition kernel_register_commands (h : H) : registry :=
  let '(x, o) := command_init in
  let r := MkRegistry x h o in
  let r := command_register_builtin_commands r in
  let r := device_register_builtin_commands r in
  let r := klog_register_builtin_commands r in
  let r := panic_register_builtin_commands r in
  let r := workqueue_register_builtin_commands r in
  let r := timer_register_builtin_commands r in
  let r := rtc_register_builtin_commands r in
  let r := task_register_builtin_commands r in
  let r := process_register_builtin_commands r in
  let r := vfs_register_builtin_commands r in
  let r := fd_register_builtin_commands r in
  let r := mouse_register_builtin_commands r in
  let r := initramfs_register_builtin_commands r in
  let r := elf_register_builtin_commands r in
  let r := syscall_register_builtin_commands r in
  let r := syscall_cpu_register_builtin_commands r in
  let r := gdt_register_builtin_commands r in
  user_mode_register_builtin_commands r.
End Registering.
Arguments registry : clear implicits.
Arguments MkRegistry {S H}.

(** ** The table *)

Definition kernel_entries : list entry :=
  command_entries ++ device_entries ++ klog_entries ++ panic_entries ++ workqueue_entries ++ timer_entries ++
  rtc_entries ++ task_entries ++ process_entries ++ vfs_entries ++ fd_entries ++ mouse_entries ++ initramfs_entries ++
  elf_entries ++ syscall_entries ++ syscall_cpu_entries ++ gdt_entries ++ user_mode_entries.
Definition builtin_entries : list entry := kernel_entries ++ shell_entries.

Definition entry_name (e : entry) : cstr := s2z e.1.1.

Lemma entry_names : NoDup (entry_name <$> builtin_entries) ∧ Forall (λ n, CH_SPACE ∉ n ∧ n ≠ []) (entry_name <$> builtin_entries).
Proof. split; apply (bool_decide_unpack _); by vm_compute. Qed.

Section Lemmas.
Context {S : Type} `{Allocator H} (handler : builtin.t → command_handler S).
Implicit Types r : registry S H.

Definition command_of (e : entry) : command S := MkCommand (s2z e.1.1) (s2z e.1.2) (handler e.2).

(** What the registry holds after the entries [l0]: some of them, in order. *)
Definition holds (l0 : list entry) r : Prop :=
  commands_ok (rg_commands r) ∧ ∃ l, l `sublist_of` l0 ∧ command_list (rg_commands r) = command_of <$> l.

Lemma commands_names (l : list entry) : cmd_name <$> (command_of <$> l) = entry_name <$> l.
Proof. rewrite <- list_fmap_compose. done. Qed.

Lemma holds_entry l0 e r :
  CH_SPACE ∉ entry_name e → holds l0 r → holds (l0 ++ [e]) (register_entry handler r e).
Proof.
  intros Hsp [Hok (l & Hl & Hc)]. destruct e as [[name desc] f]. unfold register_entry.
  destruct (command_register _ _ _ (rg_commands r) (rg_heap r)) as [[[v x'] h'] o] eqn:Hr. split; cbn [rg_commands].
  - eapply register_step_ok; [|exact Hok]. exists (s2z name), (Some (s2z desc)), (Some (handler f)), (rg_heap r).
    by rewrite Hr.
  - destruct (command_register_cases _ _ _ _ _ _ _ _ _ Hr) as [[_ ->]|(nm & d & g & [= <-] & [= <-] & [= <-] & _ & _ & ->)].
    + exists l. split; [|done]. by apply sublist_inserts_r.
    + exists (l ++ [(name, desc, f)]). split; [by apply sublist_app|]. cbn [command_list]. by rewrite Hc, fmap_app.
Qed.

Lemma holds_entries l0 l r :
  Forall (λ e, CH_SPACE ∉ entry_name e) l → holds l0 r → holds (l0 ++ l) (register_entries handler l r).
Proof.
  intros Hl. revert l0 r. induction Hl as [|e l He _ IH]; intros l0 r Hr; [by rewrite app_nil_r|].
  change (e :: l) with ([e] ++ l). rewrite app_assoc. apply IH. by apply holds_entry.
Qed.

Lemma holds_printed l0 r : holds l0 r → holds l0 (print_registered r).
Proof. done. Qed.

Lemma entries_plain l : bool_decide (Forall (λ e, CH_SPACE ∉ entry_name e) l) = true → Forall (λ e, CH_SPACE ∉ entry_name e) l.
Proof. apply bool_decide_eq_true_1. Qed.

Lemma holds_none h o : holds [] (MkRegistry (command_init (S:=S)).1 h o).
Proof. split; [split; [constructor|split; [done|constructor]]|]. exists []. split; [constructor|done]. Qed.

Lemma holds_counted r : holds [] r → holds command_entries (command_register_builtin_commands handler r).
Proof.
  intros Hr. apply holds_printed.
  assert (Hp : Forall (λ e, CH_SPACE ∉ entry_name e) command_entries) by (apply entries_plain; vm_compute; reflexivity).
  exact (holds_entries [] command_entries r Hp Hr).
Qed.

Lemma kernel_registered (h : H) :
  let r := kernel_register_commands handler h in holds kernel_entries r ∧ holds builtin_entries (shell_register_command handler r).
Proof.
  cbv zeta. assert (Hk : holds kernel_entries (kernel_register_commands handler h)).
  { unfold kernel_register_commands. cbn [command_init]. cbv zeta. unfold kernel_entries. rewrite !app_assoc.
    do 17 (apply holds_entries; [apply entries_plain; vm_compute; reflexivity|]).
    apply holds_counted, holds_none. }
  split; [exact Hk|]. unfold shell_register_command, builtin_entries.
  apply holds_entries; [apply entries_plain; vm_compute; reflexivity|exact Hk].
Qed.

Lemma first_word_app name args : CH_SPACE ∉ name → first_word (name ++ CH_SPACE :: args) = name.
Proof.
  induction name as [|c n IH]; intros Hn; [done|]. apply not_elem_of_cons in Hn as [Hc Hn]. cbn.
  rewrite (proj2 (Z.eqb_neq c CH_SPACE)) by congruence. by rewrite IH.
Qed.

Lemma entry_line name args :
  CH_SPACE ∉ name → name ≠ [] →
  let line := name ++ CH_SPACE :: args in
  command_skip_spaces line = line ∧ first_word line = name ∧ arguments line = command_skip_spaces args.
Proof.
  intros Hn Hne. cbv zeta. split; [|split; [by apply first_word_app|]].
  - destruct name as [|c n]; [done|]. apply not_elem_of_cons in Hn as [Hc _]. unfold command_skip_spaces. cbn.
    by rewrite (proj2 (Z.eqb_neq c CH_SPACE)) by congruence.
  - unfold arguments. rewrite first_word_app, drop_app_length by done. done.
Qed.

Lemma sublist_full {A} (l1 l2 : list A) : l1 `sublist_of` l2 → length l1 = length l2 → l1 = l2.
Proof.
  induction 1 as [|x l1 l2 _ IH|x l1 l2 Hs IH]; [done|intros [= Hl]; f_equal; auto|].
  apply sublist_length in Hs. cbn. lia.
Qed.

(** A command line, in a registry that holds some of the table. *)
Lemma entry_execute l x (e : entry) args s :
  commands_ok x → command_list x = command_of <$> l → l `sublist_of` builtin_entries →
  e ∈ builtin_entries →
  let line := entry_name e ++ CH_SPACE :: args in
  command_execute (Some line) x s =
    if decide (e ∈ l)
    then (1, (handler e.2 (command_skip_spaces args) s).1, (handler e.2 (command_skip_spaces args) s).2)
    else (0, s, prints "unknown command: " ++ print line ++ newline ++ prints "type 'help'" ++ newline).
Proof.
  intros Hok Hc Hl Hin. destruct entry_names as [Hnd Hpl].
  assert (Hname : entry_name e ∈ entry_name <$> builtin_entries) by (by apply list_elem_of_fmap_2).
  rewrite Forall_forall in Hpl. destruct (Hpl _ Hname) as [Hsp Hne].
  cbv zeta. destruct (entry_line (entry_name e) args Hsp Hne) as (Hsk & Hfw & Har).
  pose proof (execute_by_name x (entry_name e ++ CH_SPACE :: args) s Hok) as He. cbv zeta in He. rewrite Hsk in He.
  destruct (entry_name e ++ CH_SPACE :: args) as [|c0 line] eqn:Hline; [by destruct (entry_name e)|]. destruct He as [Hyes Hno].
  case_decide as Hd.
  - rewrite (Hyes (command_of e)), Har; [done| |by rewrite Hfw].
    rewrite Hc. by apply list_elem_of_fmap_2.
  - apply Hno. rewrite Hfw, Hc, commands_names. intros (e' & Heq & He)%list_elem_of_fmap. apply Hd.
    assert (He' : e' ∈ builtin_entries) by (eapply elem_of_submseteq; [exact He|by apply sublist_submseteq]).
    apply list_elem_of_lookup in He' as [i Hi]. apply list_elem_of_lookup in Hin as [j Hj].
    assert (i = j) as ->; [|by rewrite Hi in Hj; injection Hj as ->].
    apply (NoDup_lookup (entry_name <$> builtin_entries) i j (entry_name e) Hnd);
      rewrite list_lookup_fmap; [by rewrite Hi; cbn; rewrite Heq|by rewrite Hj].
Qed.

Lemma not_registered_yet l0 r pre e post :
  builtin_entries = pre ++ e :: post → holds pre r → l0 = command_list (rg_commands r) →
  command_find_by_name l0 (entry_name e) = None.
Proof.
  intros Hb [_ (l & Hl & Hc)] ->. pose proof (find_by_name_spec (command_list (rg_commands r)) (entry_name e)) as Hf.
  destruct (command_find_by_name _ _) as [c|]; [|done]. exfalso. destruct Hf as [Hin Hn].
  assert (Hin' : entry_name e ∈ entry_name <$> pre).
  { rewrite <- Hn, <- commands_names. apply list_elem_of_fmap_2. rewrite Hc in Hin.
    eapply elem_of_submseteq; [exact Hin|]. by apply sublist_submseteq, fmap_sublist. }
  destruct entry_names as [Hnd _]. rewrite Hb, fmap_app, fmap_cons in Hnd.
  apply NoDup_app in Hnd as (_ & Hd & _). eapply Hd; [exact Hin'|left].
Qed.

End Lemmas.

(** ** Properties *)

