(* ===== verification/BootFs.v ===== *)
(** * The files at boot ([src/kernel/kernel.c], with [ramfs.c], [initramfs.c],
      [tty.c] and [fd.c])

    Between [ramfs_init] and [fd_init] the kernel builds the root, [/dev] and
    [/tmp], loads the archive, and adds [/dev/tty0], which the three standard
    descriptors are then opened on. The archive may hold anything. *)

From S2P Require Import Prelude CString Print Alloc Task Process Console Tty Vfs Ramfs Files Fd Initramfs Syscall.

(** The block of [kernel_main] that registers the terminal. *)
Definition kernel_register_tty0 `{Allocator H} (s : fs) (h : H) : fs * H * output :=
  match vfs_lookup s (s2z "/dev") with
  | Some dev_dir =>
      let '(_, s, h) := ramfs_create_device (Some dev_dir) (Some (s2z "tty0")) (Some FN_TTY) (Some FN_TTY) s h in
      (s, h, color_line "/dev/tty0 registered" COLOR_GREEN_ON_BLACK)
  | None => (s, h, color_line "failed to find /dev for tty0" COLOR_RED_ON_BLACK)
  end.

Section Load.
Context `{Allocator H}.
Implicit Types x : loader H.

(** ** The loader keeps the files and the heap well formed *)

Definition ld_ok x : Prop := fs_safe (ld_fs x, ld_heap x).

(** What a step of the loader may do: the tree grows, in a safe way. *)
Definition ld_step x x' : Prop := ld_ok x' ∧ grown (ld_fs x) (ld_fs x').

Lemma ld_step_refl x : ld_ok x → ld_step x x.
Proof. intros Hx. split; [done|]. apply grown_refl, Hx. Qed.

Lemma ld_step_trans x1 x2 x3 : ld_step x1 x2 → ld_step x2 x3 → ld_step x1 x3.
Proof. intros [_ H1] [H2 H3]. split; [done|]. by eapply grown_trans. Qed.

Lemma find_child_lt s d name i :
  fs_ok s → (d < length (nodes s))%nat → find_child s d name = Some i → (i < length (nodes s))%nat.
Proof.
  intros Hok Hd. unfold find_child.
  rewrite (find_sibling_chain (kids s d)) by (by apply ok_chain || apply kids_length).
  intros [Hi _]%find_some. by apply list_elem_of_In, kids_lt in Hi as [? _].
Qed.

Lemma create_dir_step x d name f n b :
  ld_ok x → (d < length (nodes (ld_fs x)))%nat →
  let '(c, s, h) := ramfs_create_dir (Some d) (Some name) (ld_fs x) (ld_heap x) in
  ld_step x (MkLoader s h f n b) ∧ ∀ i, c = Some i → (i < length (nodes s))%nat.
Proof.
  intros Hx Hd. assert (Hp : ∀ d', Some d = Some d' → (d' < length (nodes (ld_fs x)))%nat) by (by intros ? [= <-]).
  pose proof (create_dir_outcome (ld_fs x) (Some d) (Some name) (ld_heap x) (proj1 Hx) Hp) as Ho.
  destruct (ramfs_create_dir _ _ _ _) as [[c s] h] eqn:He. destruct Ho as [_ Ho]. split; [split|].
  - by eapply create_dir_safe.
  - by eapply outcome_grown; [apply Hx|].
  - intros i ->. destruct Ho as [[? _]|[[? _]|[[= ->] Hc]]]; [done|done|]. rewrite (cr_length _ _ _ _ Hc). lia.
Qed.

Lemma ensure_dir_loop_ok fuel path d x :
  ld_ok x → (d < length (nodes (ld_fs x)))%nat →
  let '(r, x') := ensure_dir_loop fuel path d x in
  ld_step x x' ∧ ∀ i, r = Some i → (i < length (nodes (ld_fs x')))%nat.
Proof.
  revert path d x. induction fuel as [|fuel IH]; intros path d x Hx Hd; (destruct path as [|a path]; cbn [ensure_dir_loop];
    [split; [by apply ld_step_refl|by intros ? [= <-]]|]).
  { split; [by apply ld_step_refl|done]. }
  destruct (c_skip path_is_separator (a :: path)) as [|c p]; [split; [by apply ld_step_refl|by intros ? [= <-]]|].
  destruct (word (c :: p)) as [comp rest]. set (name := copy_component comp VFS_NAME_MAX).
  assert (Hstep : ∃ child x1, (match find_child (ld_fs x) d name with
      | Some c => (Some c, x)
      | None => let '(c, s, h) := ramfs_create_dir (Some d) (Some name) (ld_fs x) (ld_heap x) in
          (c, MkLoader s h (loaded_files x) (u32 (loaded_dirs x + 1)) (loaded_bytes x))
      end) = (child, x1) ∧ ld_step x x1 ∧ ∀ i, child = Some i → (i < length (nodes (ld_fs x1)))%nat).
  { destruct (find_child (ld_fs x) d name) as [i|] eqn:Hf.
    - do 2 eexists. split; [reflexivity|]. split; [by apply ld_step_refl|]. intros j [= <-].
      eapply find_child_lt; [apply Hx|exact Hd|exact Hf].
    - pose proof (create_dir_step x d name (loaded_files x) (u32 (loaded_dirs x + 1)) (loaded_bytes x) Hx Hd) as Hc.
      destruct (ramfs_create_dir _ _ _ _) as [[ci s] h]. do 2 eexists. split; [reflexivity|]. exact Hc. }
  destruct Hstep as (child & x1 & -> & Hs1 & Hi1). destruct child as [i|]; [|by split].
  case_decide; [by split|]. specialize (IH (drop 1 rest) i x1 (proj1 Hs1) (Hi1 i eq_refl)).
  destruct (ensure_dir_loop fuel (drop 1 rest) i x1) as [r x']. destruct IH as [Hs2 Hr].
  split; [by eapply ld_step_trans|done].
Qed.

Lemma ensure_dir_path_ok path x :
  ld_ok x →
  let '(r, x') := ensure_dir_path path x in
  ld_step x x' ∧ ∀ i, r = Some i → (i < length (nodes (ld_fs x')))%nat.
Proof.
  intros Hx. unfold ensure_dir_path, ramfs_root. destruct (ramfs_root_node (ld_fs x)) as [r|] eqn:Hr.
  - apply ensure_dir_loop_ok; [done|]. apply root_lt; [apply Hx|by right].
  - split; [by apply ld_step_refl|done].
Qed.

Lemma ensure_parent_ok path n x :
  ld_ok x →
  let '(p, _, x') := ensure_parent_dir_for_file path n x in
  ld_step x x' ∧ ∀ i, p = Some i → (i < length (nodes (ld_fs x')))%nat.
Proof.
  intros Hx. unfold ensure_parent_dir_for_file. case_if; [split; [by apply ld_step_refl|done]|].
  destruct (split_last path) as [[dir|] base].
  - pose proof (ensure_dir_path_ok (copy_component dir INITRAMFS_PATH_MAX) x Hx) as He.
    by destruct (ensure_dir_path (copy_component dir INITRAMFS_PATH_MAX) x).
  - split; [by apply ld_step_refl|]. unfold ramfs_root. intros i Hi. apply root_lt; [apply Hx|by right].
Qed.

Lemma load_dir_entry_ok path x : ld_ok x → ld_step x (load_dir_entry path x).
Proof.
  intros Hx. unfold load_dir_entry. destruct path as [|c p]; [by apply ld_step_refl|].
  pose proof (ensure_dir_path_ok (c :: p) x Hx) as He. destruct (ensure_dir_path (c :: p) x). apply He.
Qed.

Lemma create_file_step x x' d name data s h r :
  ld_ok x → (d < length (nodes (ld_fs x)))%nat → Zlength data <= 2 ^ 63 →
  ramfs_create_file_from_buffer (Some d) (Some name) (Some data) (ld_fs x) (ld_heap x) = (r, s, h) →
  ld_fs x' = s → ld_heap x' = h → ld_step x x'.
Proof.
  intros Hx Hd Hm He Hs Hh. assert (Hp : ∀ d', Some d = Some d' → (d' < length (nodes (ld_fs x)))%nat) by (by intros ? [= <-]).
  pose proof (create_file_outcome (ld_fs x) (Some d) (Some name) (ld_heap x) (proj1 Hx) Hp (Some data)) as Ho.
  rewrite He in Ho. destruct Ho as (ptr & Ho & _). split.
  - unfold ld_ok. rewrite Hs, Hh. exact (create_file_safe _ _ (Some data) _ _ _ _ _ Hx Hp Hm He).
  - rewrite Hs. by eapply outcome_grown; [apply Hx|].
Qed.

Lemma load_file_entry_ok path data x : ld_ok x → Zlength data <= 2 ^ 63 → ld_step x (load_file_entry path data x).
Proof.
  intros Hx Hm. unfold load_file_entry. destruct path as [|c p]; [by apply ld_step_refl|].
  pose proof (ensure_parent_ok (c :: p) VFS_NAME_MAX x Hx) as He.
  destruct (ensure_parent_dir_for_file (c :: p) VFS_NAME_MAX x) as [[d base] x1]. destruct He as [Hs Hd].
  destruct d as [d|]; [|done]. destruct base as [|b base]; [done|]. destruct (find_child (ld_fs x1) d (b :: base)); [done|].
  destruct (ramfs_create_file_from_buffer _ _ _ _ _) as [[r s] h] eqn:Hc.
  eapply ld_step_trans; [exact Hs|]. eapply (create_file_step x1 _ d); [apply Hs|by apply Hd|exact Hm|exact Hc|..];
    by destruct r.
Qed.

Lemma load_entry_ok mem off x : ld_ok x → ld_step x (load_entry mem off x).2.
Proof.
  intros Hx. unfold load_entry. destruct (tar_get_raw_path _ _) as [raw|]; [|by apply ld_step_refl]. cbn [snd].
  destruct (normalize_path raw INITRAMFS_PATH_MAX) as [path|]; [|by apply ld_step_refl].
  case_if; [by apply load_dir_entry_ok|]. case_if; [|by apply ld_step_refl]. apply load_file_entry_ok; [done|].
  match goal with |- context [tar_parse_octal ?f] =>
    pose proof (tar_size_range f ltac:(rewrite length_take; lia)) as Hs; generalize dependent (tar_parse_octal f) end.
  intros n Hn. unfold bytes_at, Zlength. rewrite length_fmap, length_seqZ. lia.
Qed.

Lemma load_loop_ok fuel mem n off x x' : ld_ok x → load_loop fuel mem n off x = Some x' → ld_step x x'.
Proof.
  revert off x. induction fuel as [|fuel IH]; intros off x Hx; cbn [load_loop]; (case_if;
    [|intros [= <-]; by apply ld_step_refl]); [done|].
  case_if; [intros [= <-]; by apply ld_step_refl|]. pose proof (load_entry_ok mem off x Hx) as Hs.
  destruct (load_entry mem off x) as [step x1]. intros Hl. eapply ld_step_trans; [exact Hs|].
  eapply IH; [apply Hs|exact Hl].
Qed.

(** ** The root, [/dev] and [/tmp] *)

Lemma set_roots_safe s (h : H) a b id :
  fs_safe (s, h) →
  (∀ r, a = Some r ∨ b = Some r → (r < length (nodes s))%nat ∧ parent_of s r = None ∧ type_of s r = VFS_NODE_DIR) →
  fs_safe (MkFs (nodes s) a b id, h).
Proof.
  intros (Hok & Hi & Hf & Hd) Hr. split; [|by split].
  constructor; [apply (ok_parent s Hok)| |apply (ok_names s Hok)|exact Hr].
  intros d Hdl. by eapply chain_frame; [|apply (ok_chain s Hok d Hdl)].
Qed.

(** The first node, once it is a directory, can be the root. *)
Lemma first_is_root s r :
  fs_ok s → (0 < length (nodes s))%nat → type_of s 0 = VFS_NODE_DIR → r = 0%nat →
  (r < length (nodes s))%nat ∧ parent_of s r = None ∧ type_of s r = VFS_NODE_DIR.
Proof.
  intros Hok Hl Ht ->. split; [done|]. split; [|done]. destruct (parent_of s 0) as [d|] eqn:Hp; [|done].
  apply (ok_parent s Hok) in Hp. lia.
Qed.

Lemma create_dir_grown s h name p :
  fs_safe (s, h) → (∀ d, p = Some d → (d < length (nodes s))%nat) →
  let '(_, s', h') := ramfs_create_dir p (Some name) s h in fs_safe (s', h') ∧ grown s s'.
Proof.
  intros Hs Hp. pose proof (create_dir_outcome s p (Some name) h (proj1 Hs) Hp) as Ho.
  destruct (ramfs_create_dir p (Some name) s h) as [[r s'] h'] eqn:He. destruct Ho as [_ Ho].
  split; [by eapply create_dir_safe|]. by eapply outcome_grown; [apply Hs|].
Qed.

Lemma ramfs_init_safe s0 (h : H) :
  nodes s0 = [] → vfs_root_node s0 = None → ramfs_root_node s0 = None → h_inv h →
  fs_safe ((ramfs_init s0 h).1.1, (ramfs_init s0 h).1.2).
Proof.
  intros Hn Hv Hr Hi. unfold ramfs_init. rewrite Hn, Hv, Hr.
  assert (H0' : fs_safe (MkFs [] None None 1, h)) by (by apply fs_empty_safe).
  pose proof (create_dir_outcome (MkFs [] None None 1) None (Some []) h (proj1 H0') ltac:(done)) as Ho.
  destruct (ramfs_create_dir None (Some []) _ h) as [[root s1] h1] eqn:Hc. destruct Ho as [_ Ho].
  assert (Hs1 : fs_safe (s1, h1)) by exact (create_dir_safe None _ _ _ _ _ _ H0' ltac:(done) Hc).
  destruct root as [root|].
  2: { cbn [fst snd]. destruct Ho as [[_ ->]|[[_ Hcr]|[? _]]]; [done| |done].
       apply set_roots_safe; [done|]. destruct (cr_roots _ _ _ _ Hcr) as [-> _]. by intros r [|]. }
  destruct Ho as [[? _]|[[? _]|[[= ->] Hcr]]]; [done|done|]. cbn [length] in *.
  pose proof (cr_length _ _ _ _ Hcr) as Hl1. cbn in Hl1.
  assert (Ht1 : type_of s1 0 = VFS_NODE_DIR)
    by exact (created_new_field vn_type VFS_NODE_UNKNOWN _ _ _ _ (λ _, eq_refl) Hcr).
  set (s2 := MkFs (nodes s1) (vfs_root_node s1) (Some 0%nat) (next_node_id s1)).
  assert (Hs2 : fs_safe (s2, h1)).
  { apply set_roots_safe; [done|]. intros r Hr'. apply first_is_root; [apply Hs1|lia|done|].
    destruct (cr_roots _ _ _ _ Hcr) as [Hv1 _]. cbn in Hv1. rewrite Hv1 in Hr'. by destruct Hr' as [|[= <-]]. }
  pose proof (create_dir_grown s2 h1 (s2z "dev") (Some 0%nat) Hs2 ltac:(intros d [= <-]; cbn; lia)) as H3.
  destruct (ramfs_create_dir (Some 0%nat) (Some (s2z "dev")) s2 h1) as [[r3 s3] h3]. destruct H3 as [Hs3 Hg3].
  assert (Hl3 : (0 < length (nodes s3))%nat) by (pose proof (gr_length _ _ Hg3) as Hg; cbn in Hg; lia).
  pose proof (create_dir_grown s3 h3 (s2z "tmp") (Some 0%nat) Hs3 ltac:(intros d [= <-]; lia)) as H4.
  destruct (ramfs_create_dir (Some 0%nat) (Some (s2z "tmp")) s3 h3) as [[r4 s4] h4]. destruct H4 as [Hs4 Hg4].
  cbn [vfs_init fst snd]. apply set_roots_safe; [done|]. intros r Hr'.
  pose proof (gr_length _ _ Hg4) as Hl4. apply first_is_root; [apply Hs4|lia| |].
  - rewrite (grown_type _ _ 0 Hg4 Hl3), (grown_type _ _ 0 Hg3) by (cbn; lia). exact Ht1.
  - destruct (gr_roots _ _ Hg4) as [_ Hr4], (gr_roots _ _ Hg3) as [_ Hr3]. rewrite Hr4, Hr3 in Hr'. cbn in Hr'.
    by destruct Hr' as [[= <-]|[= <-]].
Qed.

(** ** The terminal and the standard descriptors *)

Lemma dev_lookup s r : fs_ok s → vfs_root_node s = Some r → vfs_lookup s (s2z "/dev") = resolve s r [s2z "dev"].
Proof. intros Hok Hr. rewrite vfs_lookup_resolve, Hr by done. done. Qed.

Lemma tty0_lookup s r :
  fs_ok s → vfs_root_node s = Some r →
  vfs_lookup s (s2z "/dev/tty0") = d ← resolve s r [s2z "dev"]; child_named s d (s2z "tty0").
Proof.
  intros Hok Hr. rewrite vfs_lookup_resolve, Hr by done.
  trans (resolve s r ([s2z "dev"] ++ [s2z "tty0"])); [done|]. rewrite resolve_app.
  destruct (resolve s r [s2z "dev"]) as [d|]; [|done]. cbn. by destruct (child_named s d _).
Qed.

Lemma register_tty0_ok s (h : H) :
  fs_safe (s, h) →
  let '(s', h', _) := kernel_register_tty0 s h in
  fs_safe (s', h') ∧ grown s s' ∧
  (vfs_lookup s (s2z "/dev/tty0") = None →
   vfs_lookup s' (s2z "/dev/tty0") = None ∨
   ∃ n, vfs_lookup s' (s2z "/dev/tty0") = Some (length (nodes s)) ∧ nodes s' !! length (nodes s) = Some n ∧
     vn_type n = VFS_NODE_DEVICE ∧ vn_read n = Some FN_TTY ∧ vn_write n = Some FN_TTY).
Proof.
  intros Hs. pose proof Hs as (Hok & _). unfold kernel_register_tty0.
  destruct (vfs_lookup s (s2z "/dev")) as [d|] eqn:Hd; [|split; [done|]; split; [by apply grown_refl|by left]].
  destruct (vfs_root_node s) as [r|] eqn:Hr; [|by unfold vfs_lookup in Hd; rewrite Hr in Hd].
  pose proof (root_lt s r Hok (or_introl Hr)) as Hrl.
  rewrite (dev_lookup s r) in Hd by done.
  assert (Hdl : (d < length (nodes s))%nat) by (eapply resolve_lt; [exact Hrl|exact Hd]).
  assert (Hp : ∀ d', Some d = Some d' → (d' < length (nodes s))%nat) by (by intros ? [= <-]).
  pose proof (create_device_outcome s (Some d) (Some (s2z "tty0")) h Hok Hp (Some FN_TTY) (Some FN_TTY)) as Ho.
  destruct (ramfs_create_device _ _ _ _ s h) as [[q s'] h'] eqn:He. destruct Ho as [_ Ho].
  assert (Hg : grown s s') by (by eapply outcome_grown).
  split; [by eapply create_device_safe|]. split; [done|]. intros Hno. rewrite (tty0_lookup s r), Hd in Hno by done.
  rewrite (tty0_lookup s' r) by (apply Hg || by destruct (gr_roots _ _ Hg) as [-> _]).
  rewrite (gr_resolve _ _ Hg r _ d Hrl Hd). cbn [mbind option_bind] in Hno |- *.
  destruct Ho as [[_ ->]|[[-> Hc]|[-> Hc]]]; [by left| |];
    rewrite (created_child _ _ _ _ d (s2z "tty0") Hc Hdl), Hno; (case_decide as Hx; [|by left]); [by destruct Hx|].
  right. pose proof (cr_new _ _ _ _ Hc) as Hn. destruct (nodes s' !! length (nodes s)) as [n|]; [|done].
  apply (inj Some) in Hn. exists n. split; [done|]. split; [done|].
  split; [exact (f_equal vn_type Hn)|]. split; [exact (f_equal vn_read Hn)|exact (f_equal vn_write Hn)].
Qed.

End Load.

(** ** The state of files and descriptors after boot *)

Definition std_terminal (s : fs) (t : fd_table) : Prop :=
  tty_fd true false FD_STDIN s t ∧ tty_fd false true FD_STDOUT s t ∧ tty_fd false true FD_STDERR s t.

Definition std_console (t : fd_table) : Prop :=
  arr_get t FD_STDIN = MkFd true FD_TYPE_CONSOLE None 0 false false ∧
  arr_get t FD_STDOUT = MkFd true FD_TYPE_CONSOLE None 0 false true ∧
  arr_get t FD_STDERR = MkFd true FD_TYPE_CONSOLE None 0 false true.

Definition std_ok (s : fs) (t : fd_table) : Prop :=
  fd_ok s t ∧ (std_terminal s t ∨ vfs_lookup s (s2z "/dev/tty0") = None ∧ std_console t).

Lemma fd_init_terminal s2 t0 n :
  Zlength t0 = FD_TABLE_SIZE →
  vfs_lookup s2 (s2z "/dev/tty0") = None ∨
  (∃ m, vfs_lookup s2 (s2z "/dev/tty0") = Some n ∧ nodes s2 !! n = Some m ∧
     vn_type m = VFS_NODE_DEVICE ∧ vn_read m = Some FN_TTY ∧ vn_write m = Some FN_TTY) →
  std_ok s2 (fd_init s2 t0).1.
Proof.
  intros Ht Hcase. split.
  - apply fd_init_ok; [done|]. intros k Hk. destruct Hcase as [Hc|(m & Hc & Hm & Hty & _)]; rewrite Hc in Hk; [done|].
    injection Hk as <-. unfold type_of, node_field. by rewrite Hm, Hty.
  - pose proof (fd_init_std s2 t0 Ht) as Hstd. cbv zeta in Hstd.
    destruct Hcase as [Hc|(m & Hc & Hm & Hdev)]; rewrite Hc in Hstd; [by right|]. left.
    destruct Hstd as (H1 & H2 & H3). split; [|split]; by exists n, m, 0.
Qed.

(** Files at boot, whatever the archive holds. *)
Lemma files_boot `{Allocator H} fuel mem archive_bytes (h : H) t0 :
  h_inv h → 0 <= archive_bytes < 2 ^ 63 → archive_bytes < 512 * Z.of_nat fuel → Zlength t0 = FD_TABLE_SIZE →
  let '(s1, h1, _) := ramfs_init (MkFs [] None None 1) h in
  ∃ x, initramfs_load fuel mem archive_bytes s1 h1 = Some (x, load_report x) ∧
    let '(s2, h2, _) := kernel_register_tty0 (ld_fs x) (ld_heap x) in
    fs_safe (s2, h2) ∧ (∀ path j, vfs_lookup s1 path = Some j → vfs_lookup s2 path = Some j) ∧
    (vfs_lookup (ld_fs x) (s2z "/dev/tty0") = None → std_ok s2 (fd_init s2 t0).1).
Proof.
  intros Hi Ha Hf Ht. pose proof (ramfs_init_safe (MkFs [] None None 1) h eq_refl eq_refl eq_refl Hi) as Hs1.
  destruct (ramfs_init (MkFs [] None None 1) h) as [[s1 h1] o1]. cbn [fst snd] in Hs1.
  destruct (load_loop_ends mem archive_bytes Ha fuel 0 (MkLoader s1 h1 0 0 0)) as [x Hx]; [lia..|].
  exists x. split; [unfold initramfs_load; by rewrite Hx|].
  destruct (load_loop_ok fuel mem archive_bytes 0 (MkLoader s1 h1 0 0 0) x Hs1 Hx) as [Hld Hg1].
  pose proof (register_tty0_ok (ld_fs x) (ld_heap x) Hld) as Hr.
  destruct (kernel_register_tty0 (ld_fs x) (ld_heap x)) as [[s2 h2] o2]. destruct Hr as (Hs2 & Hg2 & Hcase).
  split; [done|]. split.
  - intros path j Hj. eapply grown_lookup; [apply Hld|exact Hg2|]. by eapply grown_lookup; [apply Hs1|exact Hg1|].
  - intros Hno. eapply fd_init_terminal; [done|exact (Hcase Hno)].
Qed.

(** ** Properties *)

(** The files at boot. Whatever the archive holds and whatever the
    allocator grants: loading ends; the tree that results is well formed, every
    file has its own heap buffer, and what [ramfs_init] made is still found under
    the same paths. If the archive does not itself provide [/dev/tty0], the
    descriptors are well formed and the standard ones are the terminal:
    input for reading, output and error for writing, at the device whose
    functions are the terminal's; or, when there was no memory for it, the
    console, with an input that cannot be read. *)
Theorem boot_files_ready `{Allocator H} fuel mem archive_bytes (h : H) t0 :
  h_inv h → 0 <= archive_bytes < 2 ^ 63 → archive_bytes < 512 * Z.of_nat fuel → Zlength t0 = FD_TABLE_SIZE →
  let '(s1, h1, _) := ramfs_init (MkFs [] None None 1) h in
  ∃ x, initramfs_load fuel mem archive_bytes s1 h1 = Some (x, load_report x) ∧
    let '(s2, h2, _) := kernel_register_tty0 (ld_fs x) (ld_heap x) in
    fs_safe (s2, h2) ∧ (∀ path j, vfs_lookup s1 path = Some j → vfs_lookup s2 path = Some j) ∧
    (vfs_lookup (ld_fs x) (s2z "/dev/tty0") = None → std_ok s2 (fd_init s2 t0).1).
Proof. apply files_boot. Qed.

(** An empty archive. *)
Lemma boot_files_ready_witness :
  let h := MkArena 16 100000 [] in
  let '(s1, h1, _) := ramfs_init (MkFs [] None None 1) h in
  ∃ x, initramfs_load 3 (λ _, 0) 1024 s1 h1 = Some (x, load_report x) ∧
    let '(s2, h2, _) := kernel_register_tty0 (ld_fs x) (ld_heap x) in
    tty_fd true false FD_STDIN s2 (fd_init s2 (replicate 32 cleared)).1 ∧ vfs_lookup s2 (s2z "/tmp") = Some 2%nat.
Proof.
  cbv zeta. pose proof (boot_files_ready 3 (λ _, 0) 1024 (MkArena 16 100000 []) (replicate 32 cleared)
    (arena_empty_inv 16 100000 eq_refl) ltac:(lia) ltac:(lia) eq_refl) as Hb.
  assert (H1 : vfs_lookup (ramfs_init (MkFs [] None None 1) (MkArena 16 100000 [])).1.1 (s2z "/dev/tty0") = None ∧
    vfs_lookup (ramfs_init (MkFs [] None None 1) (MkArena 16 100000 [])).1.1 (s2z "/tmp") = Some 2%nat ∧
    let '(s2, h2, _) := kernel_register_tty0 (ramfs_init (MkFs [] None None 1) (MkArena 16 100000 [])).1.1
      (ramfs_init (MkFs [] None None 1) (MkArena 16 100000 [])).1.2 in
    vfs_lookup s2 (s2z "/dev/tty0") = Some 3%nat) by (vm_compute; split_and!; reflexivity).
  destruct (ramfs_init _ _) as [[s1 h1] o1]. cbn [fst snd] in H1. destruct H1 as (Hno & Htmp & Hyes).
  destruct Hb as (x & Hx & Hb). exists x. split; [exact Hx|].
  assert (Hl : x = MkLoader s1 h1 0 0 0) by (cbn in Hx; by injection Hx).
  subst x. cbn [ld_fs ld_heap] in *.
  destruct (kernel_register_tty0 s1 h1) as [[s2 h2] o2]. destruct Hb as (_ & Hk & Hstd).
  split; [|by apply Hk]. destruct (Hstd Hno) as [_ [[Hin _]|[Hn _]]]; [exact Hin|]. rewrite Hyes in Hn. discriminate Hn.
Defined.
