(* ===== verification/BootIrq.v ===== *)
(** * Interrupts at boot ([src/kernel/kernel.c], with [pic.c], [pit.c],
      [keyboard.c] and [mouse.c])

    The last initialisers before [interrupts_enable]: the controller is remapped
    with every line masked, then clock, keyboard and mouse register their
    handlers and open their lines. Whatever the devices answer, exactly the
    lines with a handler are open at the end (and the cascade). *)

From S2P Require Import Prelude Bytes CString Print Console Alloc Device Irq Mouse.

(** [on_irq] is [keyboard_on_irq] on the kernel's state. *)
Definition keyboard_init {K} `{Allocator H} (dev : trace → Z → Z) (on_irq : irq_handler_t K)
    (m : machine K) (x : devices) (h : H) : machine K * devices * H * output :=
  let '(_, m) := irq_register_handler 1 (Some on_irq) m in
  let m := MkMachine (irq_handlers m) (pic_clear_mask dev 1 (m_trace m)) (m_state m) in
  let '(_, x, h, o) := device_register (Some (s2z "kbd0")) DEVICE_TYPE_INPUT DEVICE_STATE_READY (Some (s2z "ps2-keyboard")) x h in
  (m, x, h, o ++ color_line "Keyboard initialized and IRQ1 registered" COLOR_GREEN_ON_BLACK).

(** The block of [kernel_main] from [pic_init] to [mouse_init]: the ticks, the
    mouse, the machine, the devices, the heap and what is printed. *)
Definition kernel_init_interrupts {K} `{Allocator H} (dev : trace → Z → Z)
    (pit_on_tick keyboard_on_irq mouse_on_irq : irq_handler_t K) (packet : list Z)
    (m : machine K) (x : devices) (h : H) : Z * mouse * machine K * devices * H * output :=
  let '(t, o0) := pic_init (m_trace m) in
  let m := MkMachine (irq_handlers m) t (m_state m) in
  let '(ticks, m, x, h, o1) := pit_init dev pit_on_tick 100 m x h in
  let '(m, x, h, o2) := keyboard_init dev keyboard_on_irq m x h in
  let '(mo, m, x, h, o3) := mouse_init dev mouse_on_irq packet m x h in
  (ticks, mo, m, x, h, newline ++ o0 ++ newline ++ o1 ++ newline ++ o2 ++ newline ++ o3).

(** ** Events at other devices *)

Definition event_port (e : io_event) : Z := match e with Out p _ => p | In p _ => p end.

Definition not_pic (e : io_event) : Prop :=
  out_u8 e ∧ event_port e ≠ PIC1_COMMAND ∧ event_port e ≠ PIC1_DATA ∧ event_port e ≠ PIC2_COMMAND ∧ event_port e ≠ PIC2_DATA.

(** [t'] is [t] and then events at other devices. *)
Definition quiet (t t' : trace) : Prop := ∃ l, t' = t ++ l ∧ Forall not_pic l.

Lemma quiet_refl t : quiet t t.
Proof. exists []. by rewrite app_nil_r. Qed.

Lemma quiet_trans t1 t2 t3 : quiet t1 t2 → quiet t2 t3 → quiet t1 t3.
Proof. intros (l1 & -> & H1) (l2 & -> & H2). exists (l1 ++ l2). rewrite app_assoc. split; [done|]. by apply Forall_app. Qed.

Lemma quiet_out t t' p v :
  p ≠ PIC1_COMMAND → p ≠ PIC1_DATA → p ≠ PIC2_COMMAND → p ≠ PIC2_DATA → quiet t t' → quiet t (port_out p v t').
Proof.
  intros H1 H2 H3 H4 Hq. eapply quiet_trans; [exact Hq|]. exists [Out p (u8 v)]. split; [done|].
  constructor; [|constructor]. split; [apply u8_range|]. by split_and!.
Qed.

Lemma quiet_in dev t t' p :
  p ≠ PIC1_COMMAND → p ≠ PIC1_DATA → p ≠ PIC2_COMMAND → p ≠ PIC2_DATA → quiet t t' → quiet t (port_in dev p t').2.
Proof.
  intros H1 H2 H3 H4 Hq. eapply quiet_trans; [exact Hq|]. eexists. split; [reflexivity|].
  constructor; [|constructor]. by split_and!.
Qed.

Lemma masks_quiet t t' masked : quiet t t' → masks_ok t masked → masks_ok t' masked.
Proof.
  intros (l & -> & Hl) Hm. apply masks_frame; [done|..].
  - eapply Forall_impl; [exact Hl|]. intros [p v|p v] (_ & H1 & _ & H3 & _); [|done]. cbn in *.
    by rewrite (proj2 (Z.eqb_neq _ _) H1), (proj2 (Z.eqb_neq _ _) H3).
  - eapply Forall_impl; [exact Hl|]. by intros e [? _].
  - intros acc p Hp. induction Hl as [|[q v|q v] l (_ & _ & H2 & _ & H4) _ IH]; [done| |done]. cbn in *.
    rewrite (proj2 (Z.eqb_neq q p)) by (destruct Hp as [-> | ->]; done). done.
Qed.

(** Every command to the PS/2 controller is quiet. *)
Section Ps2.
Context (dev : trace → Z → Z).

Lemma wait_input_quiet n t t' : quiet t t' → quiet t (wait_input_loop dev n t').
Proof.
  revert t'. induction n as [|n IH]; intros t' Hq; cbn [wait_input_loop]; [done|].
  pose proof (quiet_in dev t t' PS2_STATUS_PORT ltac:(done) ltac:(done) ltac:(done) ltac:(done) Hq) as H1.
  destruct (port_in dev PS2_STATUS_PORT t') as [status t1]. case_if; [done|]. by apply IH.
Qed.

Lemma wait_output_quiet n t t' : quiet t t' → quiet t (wait_output_loop dev n t').2.
Proof.
  revert t'. induction n as [|n IH]; intros t' Hq; cbn [wait_output_loop]; [done|].
  pose proof (quiet_in dev t t' PS2_STATUS_PORT ltac:(done) ltac:(done) ltac:(done) ltac:(done) Hq) as H1.
  destruct (port_in dev PS2_STATUS_PORT t') as [status t1]. case_if; [done|]. by apply IH.
Qed.

Lemma wait_input_empty_quiet t t' : quiet t t' → quiet t (ps2_wait_input_empty dev t').
Proof. unfold ps2_wait_input_empty. generalize (Z.to_nat 100000). intros n. apply wait_input_quiet. Qed.

Lemma wait_output_full_quiet t t' : quiet t t' → quiet t (ps2_wait_output_full dev t').2.
Proof. unfold ps2_wait_output_full. generalize (Z.to_nat 100000). intros n. apply wait_output_quiet. Qed.

#[local] Opaque ps2_wait_input_empty ps2_wait_output_full.

Lemma write_command_quiet c t t' : quiet t t' → quiet t (ps2_write_command dev c t').
Proof. intros Hq. apply quiet_out; [done..|]. by apply wait_input_empty_quiet. Qed.

Lemma write_data_quiet c t t' : quiet t t' → quiet t (ps2_write_data dev c t').
Proof. intros Hq. apply quiet_out; [done..|]. by apply wait_input_empty_quiet. Qed.

Lemma read_data_quiet t t' : quiet t t' → quiet t (ps2_read_data dev t').2.
Proof.
  intros Hq. unfold ps2_read_data. pose proof (wait_output_full_quiet t t' Hq) as H1.
  destruct (ps2_wait_output_full dev t') as [full t1]. case_if; [done|]. by apply quiet_in.
Qed.

Lemma mouse_write_quiet c t t' : quiet t t' → quiet t (mouse_write dev c t').
Proof. intros Hq. unfold mouse_write. apply write_data_quiet. by apply write_command_quiet. Qed.

Lemma send_command_quiet c t t' : quiet t t' → quiet t (mouse_send_command dev c t').2.
Proof.
  intros Hq. unfold mouse_send_command, mouse_read_ack.
  pose proof (read_data_quiet t _ (mouse_write_quiet c t t' Hq)) as H1. by destruct (ps2_read_data dev _).
Qed.

Lemma sample_rate_quiet r t t' : quiet t t' → quiet t (mouse_set_sample_rate dev r t').2.
Proof.
  intros Hq. unfold mouse_set_sample_rate. pose proof (send_command_quiet MOUSE_CMD_SET_SAMPLE_RATE t t' Hq) as H1.
  destruct (mouse_send_command dev _ t') as [ok t1]. case_if; [done|]. unfold mouse_read_ack.
  pose proof (read_data_quiet t _ (mouse_write_quiet r t t1 H1)) as H2. by destruct (ps2_read_data dev _).
Qed.

Lemma enable_wheel_quiet t t' : quiet t t' → quiet t (mouse_try_enable_wheel dev t').2.
Proof.
  intros Hq. unfold mouse_try_enable_wheel.
  pose proof (sample_rate_quiet 200 t t' Hq) as H1. destruct (mouse_set_sample_rate dev 200 t') as [b1 t1].
  pose proof (sample_rate_quiet 100 t t1 H1) as H2. destruct (mouse_set_sample_rate dev 100 t1) as [b2 t2].
  pose proof (sample_rate_quiet 80 t t2 H2) as H3. destruct (mouse_set_sample_rate dev 80 t2) as [b3 t3].
  assert (H4 : quiet t (mouse_get_device_id dev t3).2).
  { unfold mouse_get_device_id. pose proof (send_command_quiet MOUSE_CMD_GET_DEVICE_ID t t3 H3) as H4.
    destruct (mouse_send_command dev _ t3) as [ok t4]. case_if; [done|]. by apply read_data_quiet. }
  destruct (mouse_get_device_id dev t3) as [id t4]. by case_if.
Qed.
End Ps2.

(** ** The three initialisers *)

Section Init.
Context {K : Type} `{Allocator H} (dev : trace → Z → Z).
Implicit Types m : machine K.

Lemma pit_init_machine f m x (h : H) :
  let '(ticks, m', _, _, _) := pit_init dev f 100 m x h in
  ticks = 0 ∧ irq_handlers m' = arr_set (irq_handlers m) 0 (Some f) ∧ m_state m' = m_state m ∧
  ∃ t, quiet (m_trace m) t ∧ m_trace m' = pic_clear_mask dev 0 t.
Proof.
  unfold pit_init. cbn [irq_register_handler IRQ_COUNT]. destruct (device_register _ _ _ _ x h) as [[[i x'] h'] o].
  split; [done|]. split; [done|]. split; [done|]. eexists. split; [|reflexivity].
  do 3 (apply quiet_out; [done..|]). apply quiet_refl.
Qed.

Lemma keyboard_init_machine f m x (h : H) :
  let '(m', _, _, _) := keyboard_init dev f m x h in
  irq_handlers m' = arr_set (irq_handlers m) 1 (Some f) ∧ m_state m' = m_state m ∧
  m_trace m' = pic_clear_mask dev 1 (m_trace m).
Proof. unfold keyboard_init. cbn. by destruct (device_register _ _ _ _ x h) as [[[i x'] h'] o]. Qed.

Lemma mouse_init_machine f packet m x (h : H) :
  let '(_, m', _, _, _) := mouse_init dev f packet m x h in
  irq_handlers m' = arr_set (irq_handlers m) 12 (Some f) ∧ m_state m' = m_state m ∧
  ∃ t, quiet (m_trace m) t ∧ m_trace m' = pic_clear_mask dev 12 (pic_clear_mask dev 2 t).
Proof.
  unfold mouse_init. cbv zeta.
  pose proof (read_data_quiet dev _ _ (write_command_quiet dev PS2_CMD_READ_CONFIG _ _
    (write_command_quiet dev PS2_CMD_ENABLE_AUX _ _ (quiet_refl (m_trace m))))) as H1.
  destruct (ps2_read_data dev _) as [cfg t1]. cbn [snd] in H1.
  match goal with |- context [mouse_send_command dev MOUSE_CMD_SET_DEFAULTS ?t] =>
    assert (H2 : quiet (m_trace m) t) by (apply write_data_quiet; by apply write_command_quiet);
    pose proof (send_command_quiet dev MOUSE_CMD_SET_DEFAULTS _ _ H2) as H3; generalize dependent t end.
  intros t2 _ H3. destruct (mouse_send_command dev MOUSE_CMD_SET_DEFAULTS t2) as [b3 t3]. cbn [snd] in H3.
  pose proof (enable_wheel_quiet dev _ _ H3) as H4. destruct (mouse_try_enable_wheel dev t3) as [[w s] t4]. cbn [snd] in H4.
  pose proof (send_command_quiet dev MOUSE_CMD_ENABLE_REPORTING _ _ H4) as H5.
  destruct (mouse_send_command dev MOUSE_CMD_ENABLE_REPORTING t4) as [b5 t5]. cbn [snd] in H5.
  cbn [irq_register_handler IRQ_COUNT]. destruct (device_register _ _ _ _ x h) as [[[i x'] h'] o].
  split; [done|]. split; [done|]. by exists t5.
Qed.
End Init.

(** ** The state of the interrupts after boot *)

(** The clock's, the keyboard's and the mouse's lines and the cascade are open;
    line [n] arrives at vector [32 + n], runs its function and is
    acknowledged. *)
Definition interrupts_ok {K} dev (on_tick on_key on_mouse : irq_handler_t K) (m : machine K) : Prop :=
  ∀ n, 0 <= n < 16 →
    Z.testbit (dev (m_trace m) (data_port n)) (n mod 8) = negb ((n =? 0) || (n =? 1) || (n =? 2) || (n =? 12)) ∧
    let v := pic_vector (m_trace m) n in
    v = 32 + n ∧
    irq_handler v m =
      let '(s, t) := (if n =? 0 then on_tick else if n =? 1 then on_key else if n =? 12 then on_mouse else pair)
                       (m_state m) (m_trace m) in
      MkMachine (irq_handlers m) (pic_send_eoi n t) s.

Lemma interrupts_boot {K} `{Allocator H} dev (on_tick on_key on_mouse : irq_handler_t K) packet
    (m : machine K) x (h : H) :
  PicData dev → irq_handlers m = replicate 16 None → Zlength packet = 4 →
  let '(ticks, mo, m', _, _, _) := kernel_init_interrupts dev on_tick on_key on_mouse packet m x h in
  ticks = 0 ∧ mouse_ok mo ∧ m_state m' = m_state m ∧ interrupts_ok dev on_tick on_key on_mouse m'.
Proof.
  intros Hd Hh Hp. unfold kernel_init_interrupts.
  pose proof (masks_init (m_trace m)) as Hk. destruct (pic_init (m_trace m)) as [t0 o0]. cbn [fst] in Hk.
  pose proof (pit_init_machine dev on_tick (MkMachine (irq_handlers m) t0 (m_state m)) x h) as H1.
  destruct (pit_init dev on_tick 100 _ x h) as [[[[ticks m1] x1] h1] o1]. destruct H1 as (-> & Hh1 & Hs1 & t1 & Hq1 & Ht1).
  pose proof (keyboard_init_machine dev on_key m1 x1 h1) as H2.
  destruct (keyboard_init dev on_key m1 x1 h1) as [[[m2 x2] h2] o2]. destruct H2 as (Hh2 & Hs2 & Ht2).
  pose proof (mouse_init_machine dev on_mouse packet m2 x2 h2) as H3.
  pose proof (mouse_init_ok dev on_mouse packet m2 x2 h2 Hp) as Hmo.
  destruct (mouse_init dev on_mouse packet m2 x2 h2) as [[[[mo m3] x3] h3] o3]. destruct H3 as (Hh3 & Hs3 & t3 & Hq3 & Ht3).
  split; [done|]. split; [done|]. cbn [m_state m_trace irq_handlers] in *. split; [congruence|].
  assert (Hm : masks_ok (m_trace m3) (foldl masks_step (λ _, true) [Unmask 0; Unmask 1; Unmask 2; Unmask 12])).
  { rewrite Ht3. cbn [foldl].
    apply (pic_do_ok dev _ _ (Unmask 12) Hd); [|cbn; lia]. apply (pic_do_ok dev _ _ (Unmask 2) Hd); [|cbn; lia].
    eapply masks_quiet; [exact Hq3|]. rewrite Ht2. apply (pic_do_ok dev _ _ (Unmask 1) Hd); [|cbn; lia].
    rewrite Ht1. apply (pic_do_ok dev _ _ (Unmask 0) Hd); [|cbn; lia]. by eapply masks_quiet. }
  intros n Hn. split; [|split; [by eapply masks_vector|]].
  - rewrite (masks_bit dev _ _ n Hd Hm Hn). cbn [foldl masks_step].
    destruct (n =? 12), (n =? 2), (n =? 1), (n =? 0); done.
  - rewrite (masks_vector _ _ n Hm Hn). unfold irq_handler, irq_dispatch.
    rewrite (proj2 (Z.ltb_ge (32 + n) 32)), (proj2 (Z.ltb_ge 47 (32 + n))) by lia. cbn [orb].
    replace (32 + n - 32) with n by lia. rewrite u8_small by (unfold is_u8; lia).
    rewrite (proj2 (Z.leb_gt IRQ_COUNT n)) by (unfold IRQ_COUNT; lia).
    assert (Hl : Zlength (replicate 16 (None : option (irq_handler_t K))) = 16) by done.
    assert (Hg : arr_get (irq_handlers m3) n =
      if n =? 12 then Some on_mouse else if n =? 1 then Some on_key else if n =? 0 then Some on_tick else None).
    { rewrite Hh3, Hh2, Hh1, Hh. rewrite !arr_get_set by (unfold Zlength in *; rewrite ?arr_set_length; lia).
      do 3 (case_if; [done|]). unfold arr_get. apply list_lookup_total_correct, lookup_replicate_2. lia. }
    rewrite Hg.
    destruct (Z.eqb_spec n 12) as [->|]; [cbn; by destruct (on_mouse _ _)|].
    destruct (Z.eqb_spec n 1) as [->|]; [cbn; by destruct (on_key _ _)|].
    destruct (Z.eqb_spec n 0) as [->|]; [cbn; by destruct (on_tick _ _)|]. done.
Qed.

(** ** Properties *)

(** Interrupts after boot. From the empty dispatch table, whatever the
    PS/2 controller and the mouse answer: the tick counter is 0 and the mouse's
    packet buffer well formed; a line is open at the controller exactly if it is
    the clock's (0), the keyboard's (1), the mouse's (12) or the cascade (2); the
    controller delivers line [n] at vector [32 + n], where the kernel runs the
    clock's, the keyboard's or the mouse's function for their lines and nothing
    for the others, and then acknowledges [n]. *)
Theorem boot_interrupts_ready {K} `{Allocator H} dev (on_tick on_key on_mouse : irq_handler_t K) packet
    (m : machine K) x (h : H) :
  PicData dev → irq_handlers m = replicate 16 None → Zlength packet = 4 →
  let '(ticks, mo, m', _, _, _) := kernel_init_interrupts dev on_tick on_key on_mouse packet m x h in
  ticks = 0 ∧ mouse_ok mo ∧ m_state m' = m_state m ∧ interrupts_ok dev on_tick on_key on_mouse m'.
Proof. apply interrupts_boot. Qed.

(** With a mouse that does not answer. *)
Lemma boot_interrupts_ready_witness :
  let dev := λ t p, if p =? PS2_STATUS_PORT then 0 else sample_dev t p in
  let '(ticks, mo, m', _, _, _) := kernel_init_interrupts dev (λ s t, (s + 1, t)) (λ s t, (s + 10, t)) (λ s t, (s + 100, t))
      [0; 0; 0; 0] (MkMachine (replicate 16 None) [] 0) device_init.1 (MkArena 16 100000 []) in
  m_state (irq_handler (pic_vector (m_trace m') 1) m') = 10 ∧ Z.testbit (dev (m_trace m') (data_port 3)) 3 = true.
Proof.
  intros dev. assert (Hd : PicData dev).
  { intros t1 t2 p Hp _. unfold dev, sample_dev, last_out. rewrite (last_out_app _ _ t1), !init_data_port by done.
    by destruct Hp as [-> | ->]. }
  pose proof (boot_interrupts_ready dev (λ s t, (s + 1, t)) (λ s t, (s + 10, t)) (λ s t, (s + 100, t)) [0; 0; 0; 0]
    (MkMachine (replicate 16 None) [] 0) device_init.1 (MkArena 16 100000 []) Hd eq_refl eq_refl) as Hb.
  destruct (kernel_init_interrupts dev _ _ _ _ _ _ _) as [[[[[ticks mo] m'] x'] h'] o'].
  destruct Hb as (_ & _ & Hs & Hb). split.
  - destruct (Hb 1 ltac:(lia)) as (_ & _ & Hi). cbv zeta in Hi. rewrite Hi. cbn. by rewrite Hs.
  - destruct (Hb 3 ltac:(lia)) as (Hm & _). exact Hm.
Defined.
