(* ===== verification/Boot.v ===== *)
(** * The kernel entry ([src/kernel/kernel.c])

    [kernel_main] from the boot loader's registers to its idle loop: the
    initialisers of all components in the order of the code, on one heap, one
    device registry and one set of output sinks. What the page-table code
    prints after [heap_init] stays in its own record. *)

From S2P Require Import Prelude Utils CString Bytes Print Klog Workqueue Timer Multiboot2 Pmm Vmm Alloc.
From S2P Require Import Heap Console Task Wait Tty Vfs Ramfs Files Fd Initramfs Gdt Elf Process Syscall.
From S2P Require Import Keyboard Device Command Output Shell Irq Mouse UserMode Builtins BootFs BootIrq.

Definition MB2_BOOTLOADER_MAGIC : Z := 0x36D76289.

(** [sti] and [cli]. *)
Definition interrupts_enable (rflags : Z) : Z := Z.lor rflags RFLAGS_IF.
Definition interrupts_disable (rflags : Z) : Z := Z.ldiff rflags RFLAGS_IF.

(** ** The rest of the initialisers: devices and messages *)

Section Devices.
Context `{Allocator H}.

Definition register_ready (name : string) (ty : device_type) (driver : string) (x : devices) (h : H) : devices * H * output :=
  let '(_, x, h, o) := device_register (Some (s2z name)) ty DEVICE_STATE_READY (Some (s2z driver)) x h in (x, h, o).

(** A device and the message that follows it. *)
Definition with_device (name : string) (ty : device_type) (driver message : string) (x : devices) (h : H)
    : devices * H * output :=
  let '(x, h, o) := register_ready name ty driver x h in (x, h, o ++ color_line message COLOR_GREEN_ON_BLACK).

Definition workqueue_device : devices → H → devices * H * output :=
  with_device "workqueue0" DEVICE_TYPE_VIRTUAL "kernel-workqueue" "Kernel workqueue initialized".
Definition timer_device : devices → H → devices * H * output :=
  with_device "timer0" DEVICE_TYPE_TIMER "kernel-timer" "Kernel timer subsystem initialized".
Definition rtc_init : devices → H → devices * H * output :=
  with_device "rtc0" DEVICE_TYPE_TIMER "cmos-rtc" "CMOS RTC initialized".
Definition scheduler_device : devices → H → devices * H * output :=
  with_device "sched0" DEVICE_TYPE_VIRTUAL "cooperative-scheduler" "Cooperative task scheduler initialized".
Definition tty_device : devices → H → devices * H * output :=
  with_device "tty0" DEVICE_TYPE_TTY "kernel-tty" "TTY input buffer initialized".
End Devices.

(** ** The state *)

Section Kernel.
Context {K : Type}.

(** The statics and registers when [kernel_main] is entered. *)
Record statics := MkStatics {
  z_sinks : sinks; z_segments : Gdt.segments; z_msrs : msrs; z_machine : machine K; z_rflags : Z; z_heap : heap;
  z_items : list work_item; z_tty_buffer : list Z; z_fds : fd_table; z_sys : syscalls; z_packet : list Z; z_shell : shell
}.

(** The components after boot. The output sinks and the file tree are the
    shell's. *)
Record system := MkSystem {
  y_segments : Gdt.segments; y_idt : list idt_entry; y_idtr : idt_pointer; y_machine : machine K; y_rflags : Z;
  y_heap : heap; y_devices : devices; y_wq : workqueue; y_tm : timers; y_sched : sched; y_procs : proctab; y_tty : tty;
  y_loader : loader heap; y_fds : fd_table; y_sys : syscalls; y_cpu : syscall_cpu; y_msrs : msrs; y_ring3 : Z;
  y_image : elf_loaded_image; y_commands : commands shell; y_ticks : Z; y_mouse : mouse; y_shell : shell
}.

(** What the linker, the boot loader and the devices supply. *)
Context (dev : trace → Z → Z) (uart_ready : nat → bool) (m : mem) (kernel_start kernel_end : Z) (isr irq : Z → Z)
  (addr_gdt addr_tss addr_kernel_stack addr_idt syscall_entry shell_task_addr : Z)
  (archive : Z → Z) (archive_bytes : Z) (fuel : nat) (sm : smoke)
  (handler : builtin.t → command_handler shell) (on_tick on_key on_mouse : irq_handler_t K).

Definition say (o : output) (k : sinks) : sinks := emit uart_ready o k.

Definition banner (magic mb2_info_addr : Z) : output :=
  color_line "Hello from x86_64 kernel" COLOR_GREEN_ON_BLACK ++
  prints "Loaded by GRUB Multiboot2" ++ newline ++ prints "Long mode enabled" ++ newline ++ newline ++
  prints "multiboot2 magic = " ++ print_hex32 magic ++ newline ++
  prints "multiboot2 info  = " ++ print_hex64 mb2_info_addr ++ newline ++ newline.

(** Console, serial port and log. *)
Definition kernel_open_sinks (k : sinks) : sinks :=
  let k := on_console console_clear k in
  let '(s, o) := serial_init (out_serial k) in
  let k := say o (MkSinks (out_console k) s (out_klog k)) in
  MkSinks (out_console k) (out_serial k) (klog_init (out_klog k)).

(** Segments, gates, boot information, frames and heap. *)
Definition kernel_init_memory (mb2_info_addr : Z) (z : statics) (k : sinks)
    : option (sinks * Gdt.segments * list idt_entry * idt_pointer * machine K * heap) :=
  let '(sg, o) := gdt_init addr_gdt addr_tss addr_kernel_stack (z_segments z) in
  let k := say (newline ++ o) k in
  let '(idt, idtr, o) := idt_init isr irq addr_idt in
  let k := say (newline ++ o) k in
  let '(mc, o) := irq_init (z_machine z) in
  let k := say (newline ++ o) k in
  '(o, _) ← mb2_dump_info m mb2_info_addr;
  let k := say (newline ++ o) k in
  let v := heap_vm (z_heap z) in
  '(p, o) ← pmm_init m kernel_start kernel_end mb2_info_addr (frames v);
  let k := say (newline ++ o) k in
  h ← heap_init (set_vm (MkVm (words v) (cr3 v) p (flushed v) []) (z_heap z));
  Some (say (newline ++ vm_out (heap_vm h)) k, sg, idt, idtr, mc, h).

(** Devices, deferred work, clock, tasks, processes and terminal. *)
Definition kernel_init_services (z : statics) (k : sinks) (h : heap)
    : sinks * heap * devices * workqueue * timers * sched * proctab * tty :=
  let '(x, o) := device_init in
  let k := say (newline ++ o) k in
  let '(x, h, o) := register_ready "console0" DEVICE_TYPE_DISPLAY "vga-text" x h in
  let k := say o k in
  let '(_, x, h, o) := serial_register_device (out_serial k) x h in
  let k := say o k in
  let q := workqueue_init (z_items z) in
  let '(x, h, o) := workqueue_device x h in
  let k := say (newline ++ o) k in
  let tm := timer_init in
  let '(x, h, o) := timer_device x h in
  let k := say (newline ++ o) k in
  let '(x, h, o) := rtc_init x h in
  let k := say (newline ++ o) k in
  let s := task_init in
  let '(x, h, o) := scheduler_device x h in
  let k := say (newline ++ o) k in
  let '(procs, o) := process_init in
  let k := say (newline ++ o) k in
  let t := tty_init (z_tty_buffer z) in
  let '(x, h, o) := tty_device x h in
  (say (newline ++ o) k, h, x, q, tm, s, procs, t).

(** Files and descriptors. *)
Definition kernel_init_files (z : statics) (k : sinks) (h : heap)
    : option (sinks * heap * fs * loader heap * fd_table) :=
  let '(s, h, o) := ramfs_init (MkFs [] None None 1) h in
  let k := say (newline ++ o) k in
  '(ld, o) ← initramfs_load fuel archive archive_bytes s h;
  let k := say (newline ++ o) k in
  let '(s, h, o) := kernel_register_tty0 (ld_fs ld) (ld_heap ld) in
  let k := say o k in
  let '(t, o) := fd_init s (z_fds z) in
  Some (say (newline ++ o) k, h, s, ld, t).

(** System calls, user mode and commands. *)
Definition kernel_init_calls (z : statics) (k : sinks) (h : heap)
    : sinks * heap * syscalls * syscall_cpu * msrs * Z * commands shell :=
  let '(y, o) := syscall_init (z_sys z) in
  let k := say (newline ++ o) k in
  let '(c, r, o) := syscall_cpu_init syscall_entry (z_msrs z) in
  let k := say (newline ++ o) k in
  let '(ready, v, o) := user_mode_init sm (heap_vm h) in
  let k := say (newline ++ o) k in
  let r0 := kernel_register_commands handler (set_vm v h) in
  (say (newline ++ rg_out r0) k, rg_heap r0, y, c, r, ready, rg_commands r0).

(** The shell and its task. *)
Definition kernel_start_shell (z : statics) (s : fs) (x : commands shell) (sc : sched) (k : sinks) (h : heap)
    : shell * commands shell * sched * heap :=
  let r := shell_register_command handler (MkRegistry x h []) in
  let z0 := z_shell z in
  let sh := shell_init uart_ready
              (MkShell (say (newline ++ rg_out r) k) s (line z0) (prompt_row z0) (prompt_col z0) (last_rendered_length z0)
                 (history z0) (history_count z0) (history_next z0) (history_view z0) (history_draft z0)
                 (history_draft_valid z0)) in
  let '(sc, h, o) := shell_start_task shell_task_addr sc (rg_heap r) in
  (sh_print uart_ready o sh, rg_commands r, sc, h).

(** [inl]: the kernel has halted; [inr]: it is in its idle loop; [None]: a walk
    over the boot information or the archive does not end. *)
Definition kernel_main (magic mb2_info_addr : Z) (z : statics) : option (sinks + system) :=
  let k := kernel_open_sinks (z_sinks z) in
  let k := say (banner magic mb2_info_addr) k in
  if negb (magic =? MB2_BOOTLOADER_MAGIC) then
    Some (inl (say (color_line "Multiboot2 magic INVALID" COLOR_RED_ON_BLACK ++ newline ++ prints "Kernel halted.") k))
  else
    let k := say (color_line "Multiboot2 magic OK" COLOR_GREEN_ON_BLACK) k in
    '(k, sg, idt, idtr, mc, h) ← kernel_init_memory mb2_info_addr z k;
    let '(k, h, x, q, tm, sc, procs, t) := kernel_init_services z k h in
    '(k, h, s, ld, fds) ← kernel_init_files z k h;
    let '(k, h, y, c, r, ready, cmds) := kernel_init_calls z k h in
    let '(ticks, mo, mc, x, h, o) := kernel_init_interrupts dev on_tick on_key on_mouse (z_packet z) mc x h in
    let k := say (o ++ newline) k in
    let rf := interrupts_enable (z_rflags z) in
    let k := say (color_line "Interrupts enabled" COLOR_GREEN_ON_BLACK) k in
    let '(sh, cmds, sc, h) := kernel_start_shell z s cmds sc k h in
    Some (inr (MkSystem sg idt idtr mc rf h x q tm sc procs t ld fds y c r ready elf_clear_image cmds ticks mo sh)).

(** One round of the idle loop, up to the switch to a task: the tick, what the
    work functions schedule and the scheduler's stack pointer are arguments; the
    items that ran, and the stack pointer to switch to, if a task is ready. *)
Definition kernel_idle (now rsp : Z) (spawn : Z → Z → list (Z * Z)) (y : system)
    : list work_item * option Z * system :=
  let '(_, tm, q) := timer_poll now (y_tm y) (y_wq y) in
  let '(ran, q) := workqueue_run_pending spawn 16 q in
  let '(next, sc) := task_run_once_enter now rsp (y_sched y) in
  (ran, next,
   MkSystem (y_segments y) (y_idt y) (y_idtr y) (y_machine y) (y_rflags y) (y_heap y) (y_devices y) q tm sc (y_procs y)
     (y_tty y) (y_loader y) (y_fds y) (y_sys y) (y_cpu y) (y_msrs y) (y_ring3 y) (y_image y) (y_commands y) (y_ticks y)
     (y_mouse y) (y_shell y)).
End Kernel.
