(* ===== verification/BootHeap.v ===== *)
(** * The heap at boot ([heap_init] of [src/kernel/heap.c])

    The first pages of the heap are mapped with frames of the allocator before
    the first block is written. [heap_map_pages] does not look at the result of
    [vmm_map_page]: that the pages are mapped depends on enough frames for the
    page tables. *)

From S2P Require Import Prelude Utils Print Pmm Vmm Alloc Heap.

(** ** A frame is taken *)

Lemma alloc_tables st own :
  tables_ok st own →
  let '(n, st1) := alloc_frame st in
  tables_ok st1 own ∧ root st1 = root st ∧ words st1 = words st ∧
  (free_list (frames st) = [] ∧ n = 0 ∨
   ∃ f rest, free_list (frames st) = f :: rest ∧ n = f * 4096 ∧ 0 < n < 2 ^ 52 ∧ f ∉ rest ∧ free_list (frames st1) = rest).
Proof.
  intros Hok. pose proof (alloc_frame_spec st own Hok) as Ha. destruct (alloc_frame st) as [n st1].
  destruct Ha as (Hw & Hc & _ & _ & [(Hf & -> & ->)|(f & rest & Hf & -> & Hn & Hf1 & Hnin & Hwf & Hbm & Ht)]).
  { split; [done|]. split; [done|]. split; [done|]. by left. }
  split; [|split; [unfold root; by rewrite Hc|split; [done|right; by exists f, rest]]].
  assert (Hr : ∀ a, rdw st1 a = rdw st a) by (intros; unfold rdw; by rewrite Hw).
  destruct Hok as [H1 H2 H3 H4 H5 (_ & _ & H6 & H7)]. split; rewrite ?Hc; try done.
  - intros t l p Hp. destruct (H2 t l p Hp) as (? & ? & Hn' & ? & ?). rewrite Hf in Hn'. apply not_elem_of_cons in Hn' as [_ ?].
    split_and!; try done; try lia. by rewrite Hf1.
  - intros t l p i Hp Hi. rewrite Hr. by apply H3.
  - intros t l q Hq Hl. destruct (H4 t l q Hq Hl) as (t0 & ? & ?). exists t0. by rewrite Hr.
  - split; [done|]. split; [done|]. split; [by rewrite Ht|]. rewrite Hf1. rewrite Hf in H7. by apply not_elem_of_cons in H7 as [_ ?].
Qed.

(** ** A page is mapped, when there are frames for its tables *)

Definition not_huge (st : vm) (v : Z) : Prop := ∀ k e, walk 4 st (root st) v ≠ WHuge k e.

Lemma map_page_maps st own virt phys flags :
  tables_ok st own → is_u64 virt → is_u64 phys → phys mod 4096 = 0 → (3 <= length (free_list (frames st)))%nat →
  not_huge st virt →
  let st' := vmm_map_page virt phys flags st in
  ∃ own', tables_ok st' own' ∧ (length (free_list (frames st)) <= 3 + length (free_list (frames st')))%nat ∧
    free_list (frames st') ⊆ free_list (frames st) ∧
    ∀ v, walk 4 st' (root st') v =
      if decide (page_no v = page_no virt) then WPage (Z.lor (Z.lor phys flags) PTE_PRESENT) else walk 4 st (root st) v.
Proof.
  intros Hok Hv Hp Hpa Hroom Hnh. cbv zeta. pose proof (vmm_map_page_tables virt phys flags st Hv) as Hdef.
  pose proof (map_tables_spec st own virt Hok) as Hspec.
  destruct (map_tables virt st) as [[pt|] st1]; destruct Hspec as (own1 & (Hok1 & Hc1 & _ & _ & Hw1) & Hres & Hgr & Hlen).
  2:{ exfalso. destruct Hres as [|(k & e & He)]; [lia|by apply (Hnh k e)]. }
  rewrite (align_down_page_id phys) in Hdef by done. rewrite Hdef. set (e := Z.lor _ PTE_PRESENT) in *.
  assert (Hr : root st1 = root st) by (unfold root; by rewrite Hc1).
  exists own1. split; [|split; [cbn; lia|split; [exact (gr_free _ _ _ _ Hgr)|]]].
  - apply (tables_ok_ext (wrw (slot pt (idx 0 virt)) e st1)); [done..|]. eapply set_pte_ok; [done..|apply idx_range].
  - intros v. set (st2 := wrw _ _ st1).
    trans (walk 4 st2 (root st1) v); [by apply walk_ext|]. case_decide as Hd.
    + unfold st2. rewrite (set_pte_walk_same st1 own1) by done. unfold e. by rewrite present_lor.
    + unfold st2. rewrite (set_pte_walk_other st1 own1 pt e virt v 4 (root st1)); try done; [|rewrite pre_4; apply Hok1].
      rewrite Hr. destruct (Hw1 v 4%nat (root st) 0 (ok_root _ _ Hok)) as [_ Hw]. exact Hw.
Qed.

(** ** The loop over the pages *)

(** The [i]th page from [B] on. *)
Definition heap_page (B : Z) (i : nat) : Z := B + 4096 * Z.of_nat i.

(** Pages from [B] on have the frames [fs], which were free before. *)
Record heap_mapped (st st' : vm) (B : Z) (dn : nat) (fs : list Z) : Prop := {
  hm_free : ∀ f, f ∈ fs → f ∈ free_list (frames st);
  hm_distinct : NoDup fs;
  hm_walk : ∀ v, walk 4 st' (root st') v = walk 4 st (root st) v ∨ ∃ j, (j < length fs)%nat ∧ page_no v = page_no (heap_page B (dn + j));
  hm_page : ∀ j f v, fs !! j = Some f → page_no v = page_no (heap_page B (dn + j)) →
    walk 4 st' (root st') v = WPage (Z.lor (Z.lor (f * 4096) HEAP_PAGE_FLAGS) PTE_PRESENT)
}.

Lemma heap_page_no B i : 0 <= B → B mod 4096 = 0 → heap_page B i < 2 ^ 48 → page_no (heap_page B i) = B / 4096 + Z.of_nat i.
Proof.
  intros HB Hm Hl. unfold pre, heap_page in *. rewrite Z.mod_small by lia.
  change (2 ^ (12 + 9 * Z.of_nat 0)) with 4096. zlia.
Qed.

Lemma heap_map_loop_maps n dn B st own :
  tables_ok st own → 0 <= B → B mod 4096 = 0 → heap_page B (dn + n) < 2 ^ 48 →
  (4 * n <= length (free_list (frames st)))%nat →
  (∀ j, (j < n)%nat → not_huge st (heap_page B (dn + j))) →
  ∃ st' own' fs, heap_map_loop n dn B st = (true, st') ∧ tables_ok st' own' ∧ length fs = n ∧
    (length (free_list (frames st)) <= 4 * n + length (free_list (frames st')))%nat ∧ heap_mapped st st' B dn fs.
Proof.
  revert dn st own. induction n as [|n IH]; intros dn st own Hok HB Hm Hend Hroom Hnh; cbn [heap_map_loop].
  { exists st, own, []. split; [done|]. split; [done|]. split; [done|]. split; [lia|].
    split; [by intros f Hf%elem_of_nil|constructor|by left|by intros j f v Hj]. }
  assert (Hpg : PAGE_SIZE * Z.of_nat dn = 4096 * Z.of_nat dn) by done. rewrite Hpg.
  change (B + 4096 * Z.of_nat dn) with (heap_page B dn).
  assert (Hlt : ∀ j, (j <= dn + S n)%nat → 0 <= heap_page B j < 2 ^ 48) by (intros j Hj; unfold heap_page in *; lia).
  rewrite u64_small by (unfold is_u64; specialize (Hlt dn ltac:(lia)); lia).
  pose proof (alloc_tables st own Hok) as Ha. destruct (alloc_frame st) as [phys st1].
  destruct Ha as (Hok1 & Hr1 & Hw1 & [[Hf _]|(f & rest & Hf & -> & Hn & Hnin & Hf1)]); [rewrite Hf in Hroom; cbn in Hroom; lia|].
  rewrite (proj2 (Z.eqb_neq (f * 4096) 0)) by lia.
  assert (Hwk1 : ∀ v, walk 4 st1 (root st1) v = walk 4 st (root st) v) by (intros v; rewrite Hr1; by apply walk_ext).
  destruct (map_page_maps st1 own (heap_page B dn) (f * 4096) HEAP_PAGE_FLAGS) as (own2 & Hok2 & Hl2 & Hs2 & Hwk2);
    [done|unfold is_u64; specialize (Hlt dn ltac:(lia)); lia|unfold is_u64; lia|apply Z_mod_mult|..].
  { rewrite Hf in Hroom. rewrite Hf1. cbn in Hroom. lia. }
  { intros k e. rewrite Hwk1, <- (Nat.add_0_r dn). apply Hnh. lia. }
  set (st2 := vmm_map_page _ _ _ st1) in *.
  assert (Hno : ∀ j, (j < S n)%nat → page_no (heap_page B (dn + j)) = B / 4096 + Z.of_nat (dn + j)).
  { intros j Hj. apply heap_page_no; [done..|]. apply Hlt. lia. }
  pose proof (Hno 0%nat ltac:(lia)) as Hno0. rewrite Nat.add_0_r in Hno0.
  destruct (IH (S dn) st2 own2 Hok2 HB Hm) as (st' & own' & fs & -> & Hok' & Hlf & Hl' & [Hfree Hnd Hwalk Hpage]).
  { replace (S dn + n)%nat with (dn + S n)%nat by lia. done. }
  { rewrite Hf in Hroom. rewrite Hf1 in Hl2. cbn in Hroom. lia. }
  { intros j Hj k e. rewrite Hwk2, Hwk1. replace (S dn + j)%nat with (dn + S j)%nat by lia.
    case_decide as Hd; [done|]. apply Hnh. lia. }
  exists st', own', (f :: fs). split; [done|]. split; [done|]. split; [cbn; lia|].
  split; [rewrite Hf in *; rewrite Hf1 in Hl2; cbn; lia|]. split.
  - intros g [->|Hg]%elem_of_cons; rewrite Hf; [left|right]. rewrite <- Hf1. by apply Hs2, Hfree.
  - constructor; [|done]. intros Hin. apply Hnin. rewrite <- Hf1. by apply Hs2, Hfree.
  - intros v. destruct (Hwalk v) as [Hw|(j & Hj & Hp)].
    + rewrite Hw, Hwk2, Hwk1. case_decide as Hd; [|by left]. right. exists 0%nat. rewrite Nat.add_0_r. split; [cbn; lia|done].
    + right. exists (S j). replace (dn + S j)%nat with (S dn + j)%nat by lia. split; [cbn; lia|done].
  - intros [|j] g v Hj Hp.
    + injection Hj as <-. rewrite Nat.add_0_r in Hp. destruct (Hwalk v) as [Hw|(i & Hi & Hp')].
      * by rewrite Hw, Hwk2, decide_True.
      * exfalso. rewrite Hp, Hno0 in Hp'. replace (S dn + i)%nat with (dn + S i)%nat in Hp' by lia.
        rewrite Hno in Hp' by lia. lia.
    + apply (Hpage j g v Hj). replace (S dn + j)%nat with (dn + S j)%nat by lia. done.
Qed.

(** ** The first block *)

Lemma headers_end h prv l fuel :
  seg (hdr h) prv l 0 → (∀ b, b ∈ l → b_addr b ≠ 0) → (length l < fuel)%nat →
  ∃ bs, headers_from fuel (hd_or l 0) h = Some bs.
Proof.
  revert prv fuel. induction l as [|b l IH]; intros prv fuel Hs Hp Hf; (destruct fuel as [|fuel]; [cbn in Hf; lia|]).
  { by eexists. }
  cbn [hd_or headers_from]. rewrite (proj2 (Z.eqb_neq (b_addr b) 0)) by (apply Hp; left). destruct Hs as [Hb Hs]. rewrite Hb.
  destruct (IH (b_addr b) fuel Hs) as [bs Hbs]; [intros c Hc; apply Hp; by right|cbn in Hf; lia|].
  cbn [header next]. rewrite Hbs. by eexists.
Qed.

(** The statics as [heap_init] sets them, before the first expansion. *)
Definition heap_zero (h : heap) : heap :=
  MkHeap (blocks h) 0 KERNEL_HEAP_START KERNEL_HEAP_START (KERNEL_HEAP_START + KERNEL_HEAP_MAX_SIZE) false (heap_vm h).

Definition first_block : ablock := AB KERNEL_HEAP_START (KERNEL_HEAP_INITIAL_SIZE - sizeof_heap_block) true.

Lemma heap_zero_wf h : heap_wf (heap_zero h) [].
Proof. split; try done. Qed.

(** Initialisation ends; if the pages were mapped, there is one free block. *)
Lemma heap_init_total h :
  ∃ h', heap_init h = Some h' ∧
    let '(ok, v) := heap_map_pages KERNEL_HEAP_START KERNEL_HEAP_INITIAL_SIZE (heap_vm h) in
    if ok then heap_ok h' [first_block] ∧ words (heap_vm h') = words v ∧ cr3 (heap_vm h') = cr3 v ∧ frames (heap_vm h') = frames v
    else heap_initialized h' = false.
Proof.
  set (n := KERNEL_HEAP_INITIAL_SIZE - sizeof_heap_block).
  destruct (heap_expand_spec (heap_zero h) [] n (heap_zero_wf h) ltac:(unfold n; done)) as (ok & h1 & He & Hi1 & Hres).
  assert (Hdef : heap_expand n (heap_zero h) =
    let '(ok, v) := heap_map_pages KERNEL_HEAP_START KERNEL_HEAP_INITIAL_SIZE (heap_vm h) in
    if negb ok then Some (false, set_vm v (heap_zero h))
    else Some (true, set_first KERNEL_HEAP_START (heap_init_block KERNEL_HEAP_START n 1
           (set_mapped_end (KERNEL_HEAP_START + KERNEL_HEAP_INITIAL_SIZE) (set_vm v (heap_zero h)))))).
  { unfold heap_expand. cbv zeta.
    replace (if align_up _ PAGE_SIZE <? _ then _ else _) with KERNEL_HEAP_INITIAL_SIZE by reflexivity.
    cbn [heap_zero heap_max_end heap_mapped_end heap_vm].
    destruct (heap_map_pages KERNEL_HEAP_START KERNEL_HEAP_INITIAL_SIZE (heap_vm h)) as [b v]. by destruct b. }
  unfold heap_init. fold (heap_zero h). fold n. rewrite He. rewrite He in Hdef.
  destruct (heap_map_pages KERNEL_HEAP_START KERNEL_HEAP_INITIAL_SIZE (heap_vm h)) as [b v].
  destruct b; cbn [negb] in Hdef; injection Hdef as -> Hh.
  2:{ eexists. split; [reflexivity|]. by rewrite Hh. }
  destruct Hres as [Hwf _]. change (expand_list [] _) with [first_block] in Hwf.
  assert (Hwf2 : heap_wf (set_initialized true h1) [first_block]) by (destruct Hwf; by constructor).
  destruct (headers_end (set_initialized true h1) 0 [first_block] (heap_fuel h1)) as [bs Hbs].
  { apply Hwf2. }
  { by intros b ->%list_elem_of_singleton. }
  { unfold heap_fuel. pose proof (wf_fuel h1 _ Hwf). cbn in *. lia. }
  assert (Ht : heap_total_free_bytes (set_initialized true h1) =
    Some (foldl (λ total b, if counted b then u64 (total + size b) else total) 0 bs)).
  { unfold heap_total_free_bytes, headers. rewrite (wf_first _ _ Hwf2). change (heap_fuel (set_initialized true h1)) with (heap_fuel h1).
    by rewrite Hbs. }
  rewrite Ht. eexists. split; [reflexivity|]. split; [|by rewrite Hh].
  split; [|by split]. destruct Hwf2; by constructor.
Qed.

(** The frames behind the first pages. *)
Lemma heap_pages_mapped st own :
  tables_ok st own → (16 <= length (free_list (frames st)))%nat →
  (∀ j, (j < 4)%nat → not_huge st (heap_page KERNEL_HEAP_START j)) →
  ∃ st' own' fs, heap_map_pages KERNEL_HEAP_START KERNEL_HEAP_INITIAL_SIZE st = (true, st') ∧ tables_ok st' own' ∧
    length fs = 4%nat ∧ (length (free_list (frames st)) <= 16 + length (free_list (frames st')))%nat ∧
    heap_mapped st st' KERNEL_HEAP_START 0 fs.
Proof.
  intros Hok Hroom Hnh. unfold heap_map_pages.
  change (Z.to_nat (align_up KERNEL_HEAP_INITIAL_SIZE PAGE_SIZE / PAGE_SIZE)) with 4%nat.
  apply (heap_map_loop_maps 4 0 KERNEL_HEAP_START st own Hok); done.
Qed.

(** ** Properties *)

(** C16: the heap at boot. [heap_init] always ends. With sixteen free frames,
    well-formed page tables and no huge page over the heap's first pages, the
    heap is afterwards one free block of 16384 bytes less its header; its four
    pages translate to four different frames that were free before; the page
    tables are well formed and the translation of every other page is as it
    was. *)
Theorem heap_init_ready h own :
  tables_ok (heap_vm h) own → (16 <= length (free_list (frames (heap_vm h))))%nat →
  (∀ j, (j < 4)%nat → not_huge (heap_vm h) (heap_page KERNEL_HEAP_START j)) →
  ∃ h' own' fs, heap_init h = Some h' ∧ heap_ok h' [first_block] ∧ tables_ok (heap_vm h') own' ∧
    length fs = 4%nat ∧ NoDup fs ∧ fs ⊆ free_list (frames (heap_vm h)) ∧
    (∀ j f v, fs !! j = Some f → is_u64 v → page_no v = page_no (heap_page KERNEL_HEAP_START j) →
       vmm_get_mapping v (heap_vm h') = f * 4096) ∧
    ∀ v, is_u64 v → (∀ j, (j < 4)%nat → page_no v ≠ page_no (heap_page KERNEL_HEAP_START j)) →
      vmm_get_mapping v (heap_vm h') = vmm_get_mapping v (heap_vm h).
Proof.
  intros Hok Hroom Hnh. destruct (heap_pages_mapped _ own Hok Hroom Hnh) as (st & own' & fs & Hm & Hok' & Hl & _ & [Hf Hnd Hw Hp]).
  destruct (heap_init_total h) as (h' & Hi & Hres). rewrite Hm in Hres. destruct Hres as (Hh & Hwd & Hc & Hfr).
  assert (Hok2 : tables_ok (heap_vm h') own') by (by apply (tables_ok_ext st)).
  assert (Hwk : ∀ v, walk 4 (heap_vm h') (root (heap_vm h')) v = walk 4 st (root st) v).
  { intros v. unfold root. rewrite Hc. by apply walk_ext. }
  exists h', own', fs. split; [done|]. split; [done|]. split; [done|]. split; [done|]. split; [done|]. split; [exact Hf|]. split.
  - intros j f v Hj Hv Hpg. rewrite (get_mapping_walk _ own') by done. rewrite Hwk, (Hp j f v Hj Hpg).
    assert (Hfin : f ∈ fs) by (by eapply list_elem_of_lookup_2). apply Hf in Hfin.
    apply decode_page; [apply Z_mod_mult| |done].
    destruct (ok_pmm _ _ Hok) as (_ & _ & Ht & _). unfold free_list in Hfin. destruct (pmm_bitmap _); [|by apply elem_of_nil in Hfin].
    apply elem_of_free_list_of in Hfin as [Hr _]. lia.
  - intros v Hv Hout. rewrite (get_mapping_walk _ own'), (get_mapping_walk _ own) by done. rewrite Hwk.
    destruct (Hw v) as [->|(j & Hj & Hpg)]; [done|]. exfalso. apply (Hout j); [lia|done].
Qed.

(** A root table in frame 1 that is empty. *)
Definition empty_root (p : pmm) : vm := MkVm ∅ 0x1000 p [] [].

Lemma empty_root_ok p :
  pmm_wf p → pmm_bitmap p ≠ None → pmm_total_frames p <= 2 ^ 40 → 0 ∉ free_list p → 1 ∉ free_list p →
  tables_ok (empty_root p) {[0x1000 := (4%nat, 0)]}.
Proof.
  intros Hwf Hbm Ht H0 H1. assert (Hr : ∀ a, rdw (empty_root p) a = 0) by done. constructor.
  - done.
  - intros t l q [<- [= <- <-]]%lookup_singleton_Some. split_and!; try done; lia.
  - intros t l q i _ _ e. unfold e. by rewrite Hr.
  - intros t l q [_ [= <- _]]%lookup_singleton_Some. lia.
  - intros t1 t2 x [<- _]%lookup_singleton_Some [<- _]%lookup_singleton_Some. done.
  - by split_and!.
Qed.

Lemma empty_root_flat p v : not_huge (empty_root p) v.
Proof. intros k e. by cbn [walk]. Qed.

(** Thirty-two frames, the first three of them taken. *)
Definition boot_vm : vm := empty_root (MkPmm (Some [7; 0; 0; 0]) 32 29 4 0x3000 0x4000 0x20000).

Lemma boot_vm_ok : tables_ok boot_vm {[0x1000 := (4%nat, 0)]}.
Proof.
  apply empty_root_ok; [vm_compute; split_and!; done|done|by vm_compute|..]; intros [_ Hb]%elem_of_free_list_of; discriminate Hb.
Qed.

Lemma heap_init_ready_witness :
  ∃ h, heap_init (MkHeap ∅ 0 0 0 0 false boot_vm) = Some h ∧ heap_ok h [first_block] ∧
    vmm_get_mapping 0x200000 (heap_vm h) = 0 ∧ vmm_get_mapping 0x41003FFF (heap_vm h) ≠ 0.
Proof.
  destruct (heap_init_ready (MkHeap ∅ 0 0 0 0 false boot_vm) _ boot_vm_ok) as (h & own & fs & Hi & Hh & _ & Hl & _ & Hsub & Hp & Ho).
  { vm_compute. lia. }
  { intros j _. apply empty_root_flat. }
  exists h. split; [done|]. split; [done|]. split.
  - rewrite Ho; [reflexivity|unfold is_u64; lia|].
    intros j Hj. rewrite heap_page_no by (unfold heap_page, KERNEL_HEAP_START; lia || done).
    change (page_no 0x200000) with 0x200. change (KERNEL_HEAP_START / 4096) with 0x41000. lia.
  - assert (is_Some (fs !! 3%nat)) as [f Hf] by (apply lookup_lt_is_Some; lia).
    rewrite (Hp 3%nat f _ Hf) by (reflexivity || (unfold is_u64; lia)).
    assert (f ∈ free_list (frames boot_vm)) as [Hr Hb]%elem_of_free_list_of by (eapply Hsub, list_elem_of_lookup_2, Hf).
    intros Hz. assert (f = 0) as -> by lia. discriminate.
Defined.
