(* ===== verification/BootProps.v ===== *)
(** * The kernel entry: the state the idle loop starts from *)

From S2P Require Import Prelude Utils CString Bytes Print Klog Workqueue Timer Multiboot2 Pmm Vmm Alloc.
From S2P Require Import Heap Console Task Wait Tty Vfs Ramfs Files Fd Initramfs Gdt Elf Process Syscall.
From S2P Require Import Keyboard Device Command Output Shell Irq Mouse UserMode Builtins BootFs BootIrq.
From S2P Require Import Boot BootHeap.

(** ** Initialisers only allocate *)

Section Grows.
Context `{Allocator H}.
Implicit Types h : H.

Lemma heap_grows_refl h : h_inv h → heap_grows h h.
Proof. done. Qed.

Lemma heap_grows_trans h1 h2 h3 : heap_grows h1 h2 → heap_grows h2 h3 → heap_grows h1 h3.
Proof. intros [_ H1] [H2 H3]. split; [done|]. by trans (live h2). Qed.

Lemma alloc_grows sz h h0 : heap_grows h0 h → 0 < sz <= 2 ^ 63 → heap_grows h0 (k_alloc sz h).2.
Proof.
  intros Hg Hsz. pose proof (k_alloc_grows sz h (proj1 Hg) Hsz) as Ha. destruct (k_alloc sz h) as [p h'].
  eapply heap_grows_trans; [exact Hg|apply Ha].
Qed.

Lemma strdup_grows s h h0 : heap_grows h0 h → Zlength (default [] s) < 2 ^ 32 → heap_grows h0 (k_strdup s h).2.
Proof.
  intros Hg Hs. unfold k_strdup. destruct s as [s|]; [|done]. cbn [default] in Hs.
  assert (Hl : 0 < Zlength s + 1 <= 2 ^ 63) by (change (Zlength s < 2 ^ 32) in Hs; unfold Zlength in *; lia).
  pose proof (alloc_grows (Zlength s + 1) h h0 Hg Hl) as H1.
  destruct (k_alloc _ h) as [p h1]. by case_if.
Qed.

Lemma device_grows name ty st driver x h h0 :
  heap_grows h0 h → Zlength (default [] name) < 2 ^ 32 → Zlength (default [] driver) < 2 ^ 32 →
  heap_grows h0 (device_register name ty st driver x h).1.2.
Proof.
  intros Hg Hn Hd. unfold device_register, dev_strdup. case_if; [done|].
  destruct name as [nm|]; [|done]. destruct driver as [dr|]; [|done]. destruct (device_find nm x); [done|].
  pose proof (alloc_grows sizeof_device h h0 Hg ltac:(unfold sizeof_device; lia)) as H1.
  destruct (k_alloc sizeof_device h) as [p h1]. case_if; [done|].
  pose proof (strdup_grows (Some nm) h1 h0 H1 Hn) as H2. destruct (k_strdup (Some nm) h1) as [c h2].
  pose proof (strdup_grows (Some dr) h2 h0 H2 Hd) as H3. destruct (k_strdup (Some dr) h2) as [e h3].
  by destruct c, e.
Qed.

Lemma command_grows {S} name desc (f : option (command_handler S)) x h h0 :
  heap_grows h0 h → Zlength (default [] name) < 2 ^ 32 → Zlength (default [] desc) < 2 ^ 32 →
  heap_grows h0 (command_register name desc f x h).1.2.
Proof.
  intros Hg Hn Hd. unfold command_register, command_strdup.
  destruct name as [nm|]; [|done]. destruct desc as [dr|]; [|done]. destruct f as [f|]; [|done].
  destruct (command_find_by_name _ nm); [done|].
  pose proof (alloc_grows sizeof_command h h0 Hg ltac:(unfold sizeof_command; lia)) as H1.
  destruct (k_alloc sizeof_command h) as [p h1]. case_if; [done|].
  pose proof (strdup_grows (Some nm) h1 h0 H1 Hn) as H2. destruct (k_strdup (Some nm) h1) as [c h2].
  pose proof (strdup_grows (Some dr) h2 h0 H2 Hd) as H3. destruct (k_strdup (Some dr) h2) as [e h3].
  by destruct c, e.
Qed.

Lemma task_grows nm e a s h h0 : heap_grows h0 h → heap_grows h0 (task_create nm e a s h).1.2.
Proof.
  intros Hg. unfold task_create, task_strdup_limited. case_if; [done|].
  pose proof (alloc_grows sizeof_task h h0 Hg ltac:(unfold sizeof_task; lia)) as H1.
  destruct (k_alloc sizeof_task h) as [p h1]. case_if; [done|].
  assert (Hl : 0 < Zlength (limited_name nm) + 1 <= 2 ^ 63).
  { unfold limited_name, TASK_NAME_MAX, Zlength. rewrite length_take. case_if; btests; lia. }
  pose proof (alloc_grows _ h1 h0 H1 Hl) as H2. destruct (k_alloc _ h1) as [c h2]. case_if; [done|].
  pose proof (alloc_grows TASK_STACK_SIZE h2 h0 H2 ltac:(unfold TASK_STACK_SIZE; lia)) as H3.
  destruct (k_alloc TASK_STACK_SIZE h2) as [k h3]. by case_if.
Qed.

Lemma safe_grows s h h' : heap_grows h h' → fs_safe (s, h) → fs_safe (s, h').
Proof.
  intros Hg (Hok & _ & Hf & Hd). split; [done|]. split; [apply Hg|]. split; [|done].
  intros i n Hn. destruct (Hf i n Hn). split; [done|]. by eapply owns_grows.
Qed.

(** A list of commands. *)
Lemma entries_grow {S} (handler : builtin.t → command_handler S) l (r : registry S H) h0 :
  Forall (λ e : entry, Zlength (s2z e.1.1) < 2 ^ 32 ∧ Zlength (s2z e.1.2) < 2 ^ 32) l →
  heap_grows h0 (rg_heap r) → heap_grows h0 (rg_heap (register_entries handler l r)).
Proof.
  intros Hl. revert r. induction Hl as [|e l [Hn Hd] _ IH]; intros r Hr; [done|]. apply (IH (register_entry handler r e)).
  destruct e as [[name desc] f]. unfold register_entry.
  pose proof (command_grows (Some (s2z name)) (Some (s2z desc)) (Some (handler f)) (rg_commands r) (rg_heap r) h0 Hr Hn Hd) as Hg.
  by destruct (command_register _ _ _ _ _) as [[[v x] h] o].
Qed.

(** Devices that were registered since [h0]. *)
Definition devices_since h0 (x : devices) h : Prop := heap_grows h0 h ∧ devices_ok x.

(** A registered device: the heap grows, the registry stays well formed. *)
Lemma registered_grows name ty st driver x h h0 :
  devices_since h0 x h → Zlength (s2z name) < 2 ^ 32 → Zlength (s2z driver) < 2 ^ 32 →
  let '(_, x', h', _) := device_register (Some (s2z name)) ty st (Some (s2z driver)) x h in
  devices_since h0 x' h'.
Proof.
  intros [Hg Hx] Hn Hd.
  pose proof (device_grows (Some (s2z name)) ty st (Some (s2z driver)) x h h0 Hg Hn Hd) as H1.
  pose proof (device_register_ok (Some (s2z name)) ty st (Some (s2z driver)) x h Hx) as H2.
  by destruct (device_register _ _ _ _ x h) as [[[i x'] h'] o].
Qed.
End Grows.

(** The goal is about the result of one registration. *)
Ltac registers Hg :=
  match goal with |- context [device_register (Some (s2z ?n)) ?ty ?st (Some (s2z ?d)) ?x ?h] =>
    pose proof (registered_grows n ty st d x h _ Hg ltac:(by vm_compute) ltac:(by vm_compute));
    destruct (device_register (Some (s2z n)) ty st (Some (s2z d)) x h) as [[[? ?] ?] ?]; done
  end.

(** ** The blocks of [kernel_main] *)

Section Blocks.
Context `{Allocator H}.
Implicit Types h : H.

Lemma with_device_grows name ty driver msg x h h0 :
  devices_since h0 x h → Zlength (s2z name) < 2 ^ 32 → Zlength (s2z driver) < 2 ^ 32 →
  let '(x', h', _) := with_device name ty driver msg x h in
  devices_since h0 x' h'.
Proof.
  intros Hg Hn Hd. unfold with_device, register_ready.
  pose proof (registered_grows name ty DEVICE_STATE_READY driver x h h0 Hg Hn Hd) as H1.
  by destruct (device_register _ _ _ _ x h) as [[[i x'] h'] o].
Qed.

Lemma serial_grows s x h h0 :
  devices_since h0 x h →
  let '(_, x', h', _) := serial_register_device s x h in devices_since h0 x' h'.
Proof. intros Hg. unfold serial_register_device. case_if; registers Hg. Qed.

Lemma pit_grows {K} dev (f : irq_handler_t K) m x h h0 :
  devices_since h0 x h →
  let '(_, _, x', h', _) := pit_init dev f 100 m x h in devices_since h0 x' h'.
Proof. intros Hg. unfold pit_init. cbv zeta. destruct (irq_register_handler _ _ _) as [? ?]. registers Hg. Qed.

Lemma keyboard_grows {K} dev (f : irq_handler_t K) m x h h0 :
  devices_since h0 x h →
  let '(_, x', h', _) := keyboard_init dev f m x h in devices_since h0 x' h'.
Proof. intros Hg. unfold keyboard_init. destruct (irq_register_handler _ _ _) as [? ?]. registers Hg. Qed.

Lemma mouse_grows {K} dev (f : irq_handler_t K) packet m x h h0 :
  devices_since h0 x h →
  let '(_, _, x', h', _) := mouse_init dev f packet m x h in devices_since h0 x' h'.
Proof.
  intros Hg. unfold mouse_init. cbv zeta.
  destruct (ps2_read_data dev _) as [cfg t1], (mouse_send_command dev MOUSE_CMD_SET_DEFAULTS _) as [b3 t3],
    (mouse_try_enable_wheel dev t3) as [[w s] t4], (mouse_send_command dev MOUSE_CMD_ENABLE_REPORTING t4) as [b5 t5].
  destruct (irq_register_handler _ _ _) as [? ?]. destruct (negb (w =? 0)); registers Hg.
Qed.

Lemma interrupts_grow {K} dev (f g k : irq_handler_t K) packet m x h h0 :
  devices_since h0 x h →
  let '(_, _, _, x', h', _) := kernel_init_interrupts dev f g k packet m x h in
  devices_since h0 x' h'.
Proof.
  intros Hg. unfold kernel_init_interrupts. destruct (pic_init (m_trace m)) as [t0 o0].
  pose proof (pit_grows dev f (MkMachine (irq_handlers m) t0 (m_state m)) x h h0 Hg) as H1.
  destruct (pit_init dev f 100 _ x h) as [[[[ticks m1] x1] h1] o1]. 
  pose proof (keyboard_grows dev g m1 x1 h1 h0 H1) as H2.
  destruct (keyboard_init dev g m1 x1 h1) as [[[m2 x2] h2] o2]. 
  pose proof (mouse_grows dev k packet m2 x2 h2 h0 H2) as H3.
  by destruct (mouse_init dev k packet m2 x2 h2) as [[[[mo m3] x3] h3] o3].
Qed.
End Blocks.

(** The page tables of the heap can change under it. *)
Lemma set_vm_grows v (h0 h : heap) : heap_grows h0 h → heap_grows h0 (set_vm v h).
Proof.
  intros [[l Hl] Hs]. split.
  - exists l. destruct Hl as ([] & Hn & Hi). split; [|by split]. by constructor.
  - assert (Hv : heap_wf (set_vm v h) l) by (destruct Hl as ([] & _); by constructor).
    change (live (set_vm v h)) with (heap_live (set_vm v h)). change (live h) with (heap_live h) in Hs.
    rewrite (heap_live_used _ l Hv), <- (heap_live_used h l); [done|]. apply Hl.
Qed.

(** The next registration in the goal, on the state of [devices_since]. *)
Ltac next_device :=
  match goal with
  | Hg : devices_since _ ?x ?h |- context [with_device ?n ?ty ?d ?msg ?x ?h] =>
      let Hn := fresh "Hg" in
      pose proof (with_device_grows n ty d msg x h _ Hg ltac:(by vm_compute) ltac:(by vm_compute)) as Hn; clear Hg;
      destruct (with_device n ty d msg x h) as [[? ?] ?]
  | Hg : devices_since _ ?x ?h |- context [serial_register_device ?s ?x ?h] =>
      let Hn := fresh "Hg" in
      pose proof (serial_grows s x h _ Hg) as Hn; clear Hg; destruct (serial_register_device s x h) as [[[? ?] ?] ?]
  end.

Section Main.
Context {K : Type} (uart_ready : nat → bool).
Implicit Types (z : statics (K:=K)) (k : sinks) (h : heap).

Lemma services_boot z k h :
  h_inv h →
  let '(_, h', x, q, tm, s, procs, t) := kernel_init_services uart_ready z k h in
  devices_since h x h' ∧ q = workqueue_init (z_items z) ∧ tm = timer_init ∧ s = task_init ∧
  procs = process_init.1 ∧ t = tty_init (z_tty_buffer z).
Proof.
  intros Hi. unfold kernel_init_services, register_ready.
  assert (Hd0 : devices_ok device_init.1) by (split; [constructor|by split_and!]).
  destruct device_init as [x0 o0]. cbn [fst] in Hd0. cbv zeta.
  pose proof (registered_grows "console0" DEVICE_TYPE_DISPLAY DEVICE_STATE_READY "vga-text" x0 h h
    (conj (heap_grows_refl h Hi) Hd0) ltac:(by vm_compute) ltac:(by vm_compute)) as H1.
  destruct (device_register _ _ _ _ x0 h) as [[[i1 x1] h1] o1].
  unfold workqueue_device, timer_device, rtc_init, scheduler_device, tty_device.
  repeat next_device. destruct process_init as [procs op]. repeat next_device. by split_and!.
Qed.

Definition short (e : entry) : Prop := Zlength (s2z e.1.1) < 2 ^ 32 ∧ Zlength (s2z e.1.2) < 2 ^ 32.

Lemma entries_short l : bool_decide (Forall short l) = true → Forall short l.
Proof. apply bool_decide_eq_true_1. Qed.

Lemma printed_grows (r : registry shell heap) h0 : heap_grows h0 (rg_heap r) → heap_grows h0 (rg_heap (print_registered r)).
Proof. done. Qed.

Lemma counted_grows (handler : builtin.t → command_handler shell) (r : registry shell heap) h0 :
  heap_grows h0 (rg_heap r) → heap_grows h0 (rg_heap (command_register_builtin_commands handler r)).
Proof.
  intros Hg. unfold command_register_builtin_commands. apply printed_grows. apply entries_grow; [apply entries_short; vm_compute; reflexivity|exact Hg].
Qed.

Lemma commands_grow (handler : builtin.t → command_handler shell) h h0 :
  heap_grows h0 h → heap_grows h0 (rg_heap (kernel_register_commands handler h)).
Proof.
  intros Hg. unfold kernel_register_commands. cbn [command_init]. cbv zeta.
  do 17 (apply entries_grow; [apply entries_short; vm_compute; reflexivity|]).
  apply counted_grows. exact Hg.
Qed.

Lemma holds_any_heap (handler : builtin.t → command_handler shell) l (r : registry shell heap) h2 o :
  holds handler l r → holds handler l (MkRegistry (rg_commands r) h2 o).
Proof. done. Qed.

Lemma calls_boot sm entry handler z k h :
  h_inv h →
  let '(_, h', y, c, r, ready, cmds) := kernel_init_calls uart_ready entry sm handler z k h in
  heap_grows h h' ∧ syscalls_ready y ∧ (c, r) = (syscall_cpu_init entry (z_msrs z)).1 ∧ ready = 1 ∧
  ∀ h2 o, holds handler kernel_entries (MkRegistry cmds h2 o).
Proof.
  intros Hi. unfold kernel_init_calls.
  assert (Hy : syscalls_ready (syscall_init (z_sys z)).1) by done. destruct (syscall_init (z_sys z)) as [y oy].
  destruct (syscall_cpu_init entry (z_msrs z)) as [[c r] oc]. cbn [user_mode_init]. cbv zeta.
  match goal with |- context [set_vm ?v h] => set (h1 := set_vm v h) end.
  assert (Hg1 : heap_grows h h1) by (by apply set_vm_grows, heap_grows_refl).
  pose proof (commands_grow handler h1 h Hg1) as Hg. destruct (kernel_registered handler h1) as [Hh _].
  generalize dependent (kernel_register_commands handler h1). intros r0 Hg Hh.
  split; [exact Hg|]. split; [exact Hy|]. split; [done|]. split; [done|]. intros h2 o. by apply (holds_any_heap handler kernel_entries r0).
Qed.

(** The shell's task, at its function, or none for lack of memory. *)
Definition shell_only (addr : Z) (sc : sched) : Prop :=
  sc = task_init ∨ ∃ t, sc = MkSched [t] None None 2 1 0 ∧ state t = TASK_STATE_READY ∧ id t = 1 ∧ Task.entry t = addr.

Lemma shell_task_boot addr h h0 :
  heap_grows h0 h →
  let '(sc, h', o) := shell_start_task addr task_init h in heap_grows h0 h' ∧ shell_only addr sc ∧ (sc = task_init → addr ≠ 0 → o ≠ []).
Proof.
  intros Hg. unfold shell_start_task. pose proof (task_grows (Some (s2z "shell")) addr 0 task_init h h0 Hg) as Hg1.
  assert (Hc : let '(i, s, _, _) := task_create (Some (s2z "shell")) addr 0 task_init h in
    i = 0 ∧ s = task_init ∨ i = 1 ∧ ∃ t, s = MkSched [t] None None 2 1 0 ∧ state t = TASK_STATE_READY ∧ id t = 1 ∧ Task.entry t = addr).
  { unfold task_create. case_if; [by left|]. destruct (k_alloc sizeof_task h) as [p h1]. case_if; [by left|].
    destruct (task_strdup_limited _ h1) as [[nm'|] h2]; [|by left]. destruct (k_alloc TASK_STACK_SIZE h2) as [stk h3].
    case_if; [by left|]. right. split; [done|]. by eexists. }
  destruct (task_create _ addr 0 task_init h) as [[[i s] h'] o]. cbn [fst snd] in Hg1.
  destruct Hc as [[-> ->]|[-> (t & -> & Ht)]].
  - split; [done|]. split; [by left|]. intros _ _ Ho. apply app_nil in Ho as [_ Ho]. discriminate Ho.
  - split; [done|]. split; [right; by exists t|]. intros [=].
Qed.

(** The shell and its task; the file tree is handed to the shell as it is. *)
Lemma shell_boot addr handler z s x k h h0 :
  heap_grows h0 h → (∀ h2 o, holds handler kernel_entries (MkRegistry x h2 o)) →
  let '(sh, cmds, sc, h') := kernel_start_shell uart_ready addr handler z s x task_init k h in
  heap_grows h0 h' ∧ shell_only addr sc ∧ (∀ h2 o, holds handler builtin_entries (MkRegistry cmds h2 o)) ∧
  sh_fs sh = s ∧ line sh = [] ∧ history_count sh = 0 ∧ history_view sh = -1.
Proof.
  intros Hg Hh. unfold kernel_start_shell. cbv zeta.
  assert (Hs : holds handler builtin_entries (shell_register_command handler (MkRegistry x h []))).
  { apply holds_entries; [apply entries_plain; vm_compute; reflexivity|apply Hh]. }
  assert (Hg1 : heap_grows h0 (rg_heap (shell_register_command handler (MkRegistry x h [])))).
  { apply entries_grow; [apply entries_short; vm_compute; reflexivity|exact Hg]. }
  generalize dependent (shell_register_command handler (MkRegistry x h [])). intros r Hs Hg1.
  pose proof (shell_task_boot addr (rg_heap r) h0 Hg1) as Ht.
  destruct (shell_start_task addr task_init (rg_heap r)) as [[sc h'] o]. destruct Ht as (Hg2 & Hsc & _).
  split; [done|]. split; [done|]. split; [|done]. intros h2 o2. by apply (holds_any_heap handler builtin_entries r).
Qed.
End Main.

(** ** The state after boot *)

Record booted {K} dev (isr irq : Z → Z) addr_gdt addr_tss addr_stack addr_idt syscall_entry shell_addr
    (handler : builtin.t → command_handler shell) (on_tick on_key on_mouse : irq_handler_t K)
    (z : statics (K:=K)) (y : system (K:=K)) : Prop := {
  bt_interrupts_on : Z.land (y_rflags y) RFLAGS_IF = RFLAGS_IF;
  bt_segments : y_segments y = (gdt_init addr_gdt addr_tss addr_stack (z_segments z)).1;
  bt_gates : (y_idt y, y_idtr y) = (idt_init isr irq addr_idt).1;
  bt_interrupts : interrupts_ok dev on_tick on_key on_mouse (y_machine y);
  bt_ticks : y_ticks y = 0;
  bt_mouse : mouse_ok (y_mouse y);
  bt_heap : h_inv (y_heap y);
  bt_devices : devices_ok (y_devices y);
  bt_work : y_wq y = workqueue_init (z_items z);
  bt_timers : y_tm y = timer_init;
  bt_tasks : shell_only shell_addr (y_sched y);
  bt_procs : y_procs y = process_init.1;
  bt_tty : y_tty y = tty_init (z_tty_buffer z);
  bt_files : fs_safe (sh_fs (y_shell y), y_heap y);
  bt_std : vfs_lookup (ld_fs (y_loader y)) (s2z "/dev/tty0") = None → std_ok (sh_fs (y_shell y)) (y_fds y);
  bt_syscalls : syscalls_ready (y_sys y);
  bt_cpu : (y_cpu y, y_msrs y) = (syscall_cpu_init syscall_entry (z_msrs z)).1;
  bt_ring3 : y_ring3 y = 1;
  bt_image : y_image y = elf_clear_image;
  bt_commands : ∀ (h : heap) o, holds handler builtin_entries (MkRegistry (y_commands y) h o);
  bt_shell : line (y_shell y) = [] ∧ history_count (y_shell y) = 0 ∧ history_view (y_shell y) = -1
}.

(** The machine when the heap is initialised: the page tables of the boot code
    and the frames [p] of [pmm_init]. *)
Definition boot_tables (p : pmm) (h : heap) : vm :=
  MkVm (words (heap_vm h)) (cr3 (heap_vm h)) p (flushed (heap_vm h)) [].

Lemma heap_boot h own :
  tables_ok (heap_vm h) own → (16 <= length (free_list (frames (heap_vm h))))%nat →
  (∀ j, (j < 4)%nat → not_huge (heap_vm h) (heap_page KERNEL_HEAP_START j)) →
  ∃ h', heap_init h = Some h' ∧ h_inv h'.
Proof.
  intros Hok Hroom Hnh. destruct (heap_pages_mapped _ own Hok Hroom Hnh) as (st & own' & fs & Hm & _).
  destruct (heap_init_total h) as (h' & Hi & Hres). rewrite Hm in Hres. exists h'. split; [done|]. exists [first_block]. exact (proj1 Hres).
Qed.

Lemma enabled rf : Z.land (interrupts_enable rf) RFLAGS_IF = RFLAGS_IF.
Proof. unfold interrupts_enable. apply Z.bits_inj'. intros n _. rewrite Z.land_spec, Z.lor_spec. by destruct (Z.testbit rf n), (Z.testbit RFLAGS_IF n). Qed.

Section Boot.
Context {K : Type} (dev : trace → Z → Z) (uart_ready : nat → bool) (m : mem) (kernel_start kernel_end : Z) (isr irq : Z → Z)
  (addr_gdt addr_tss addr_stack addr_idt syscall_entry shell_addr : Z) (archive : Z → Z) (archive_bytes : Z) (fuel : nat)
  (sm : smoke) (handler : builtin.t → command_handler shell) (on_tick on_key on_mouse : irq_handler_t K).

Lemma memory_boot info z k d p o own :
  mb2_dump_info m info = Some d → pmm_init m kernel_start kernel_end info (frames (heap_vm (z_heap z))) = Some (p, o) →
  tables_ok (boot_tables p (z_heap z)) own → (16 <= length (free_list p))%nat →
  (∀ j, (j < 4)%nat → not_huge (boot_tables p (z_heap z)) (heap_page KERNEL_HEAP_START j)) →
  ∃ k' sg idt idtr mc h,
    kernel_init_memory uart_ready m kernel_start kernel_end isr irq addr_gdt addr_tss addr_stack addr_idt info z k =
      Some (k', sg, idt, idtr, mc, h) ∧
    sg = (gdt_init addr_gdt addr_tss addr_stack (z_segments z)).1 ∧ (idt, idtr) = (idt_init isr irq addr_idt).1 ∧
    mc = (irq_init (z_machine z : machine K)).1 ∧ h_inv h.
Proof.
  intros Hd Hp Hok Hroom Hnh. unfold kernel_init_memory. destruct (gdt_init _ _ _ _) as [sg og].
  destruct (idt_init isr irq addr_idt) as [[idt idtr] oi]. destruct (irq_init (z_machine z)) as [mc om]. rewrite Hd. destruct d as [od xd].
  cbn [mbind option_bind]. cbv zeta. rewrite Hp. cbn [mbind option_bind]. cbv zeta.
  destruct (heap_boot (set_vm (boot_tables p (z_heap z)) (z_heap z)) own Hok Hroom Hnh) as (h & Hh & Hi).
  unfold boot_tables in Hh. rewrite Hh. cbn [mbind option_bind]. do 6 eexists. split; [reflexivity|]. by split_and!.
Qed.

Lemma files_block z k h :
  h_inv h → 0 <= archive_bytes < 2 ^ 63 → archive_bytes < 512 * Z.of_nat fuel → Zlength (z_fds z) = FD_TABLE_SIZE →
  ∃ k' h' s ld fds, kernel_init_files (K:=K) uart_ready archive archive_bytes fuel z k h = Some (k', h', s, ld, fds) ∧
    fs_safe (s, h') ∧ (vfs_lookup (ld_fs ld) (s2z "/dev/tty0") = None → std_ok s fds).
Proof.
  intros Hi Ha Hf Ht. pose proof (files_boot fuel archive archive_bytes h (z_fds z) Hi Ha Hf Ht) as Hb. unfold kernel_init_files.
  destruct (ramfs_init _ h) as [[s1 h1] o1]. destruct Hb as (x & Hx & Hb). rewrite Hx. cbn [mbind option_bind]. cbv zeta.
  destruct (kernel_register_tty0 (ld_fs x) (ld_heap x)) as [[s2 h2] o2]. destruct Hb as (Hs & _ & Hstd).
  destruct (fd_init s2 (z_fds z)) as [t ot]. do 5 eexists. split; [reflexivity|]. by split.
Qed.

Lemma main_boot info z d p o own :
  mb2_dump_info m info = Some d → pmm_init m kernel_start kernel_end info (frames (heap_vm (z_heap z))) = Some (p, o) →
  tables_ok (boot_tables p (z_heap z)) own → (16 <= length (free_list p))%nat →
  (∀ j, (j < 4)%nat → not_huge (boot_tables p (z_heap z)) (heap_page KERNEL_HEAP_START j)) →
  0 <= archive_bytes < 2 ^ 63 → archive_bytes < 512 * Z.of_nat fuel →
  PicData dev → Zlength (z_fds z) = FD_TABLE_SIZE → Zlength (z_packet z) = 4 →
  ∃ y, kernel_main dev uart_ready m kernel_start kernel_end isr irq addr_gdt addr_tss addr_stack addr_idt syscall_entry
         shell_addr archive archive_bytes fuel sm handler on_tick on_key on_mouse MB2_BOOTLOADER_MAGIC info z = Some (inr y) ∧
    booted dev isr irq addr_gdt addr_tss addr_stack addr_idt syscall_entry shell_addr handler on_tick on_key on_mouse z y.
Proof.
  intros Hd Hp Hok Hroom Hnh Ha Hf Hpic Ht Hpk. unfold kernel_main. cbv zeta. rewrite Z.eqb_refl. cbn [negb].
  match goal with |- context [kernel_init_memory _ _ _ _ _ _ _ _ _ _ _ _ ?k] =>
    destruct (memory_boot info z k d p o own Hd Hp Hok Hroom Hnh) as (k1 & sg & idt & idtr & mc & h1 & -> & Hsg & Hidt & Hmc & Hi1) end.
  cbn [mbind option_bind].
  pose proof (services_boot uart_ready z k1 h1 Hi1) as Hs.
  destruct (kernel_init_services uart_ready z k1 h1) as [[[[[[[k2 h2] x2] q] tm] sc] procs] t].
  destruct Hs as ([[Hi2 _] Hx2] & -> & -> & -> & -> & ->).
  destruct (files_block z k2 h2 Hi2 Ha Hf Ht) as (k3 & h3 & s & ld & fds & -> & Hfs & Hstd). cbn [mbind option_bind].
  pose proof (calls_boot uart_ready sm syscall_entry handler z k3 h3 (proj1 (proj2 Hfs))) as Hc.
  destruct (kernel_init_calls _ _ _ _ z k3 h3) as [[[[[[k4 h4] y] c] r] ready] cmds].
  destruct Hc as (Hg4 & Hy & Hcpu & -> & Hcmds).
  pose proof (interrupts_grow dev on_tick on_key on_mouse (z_packet z) mc x2 h4 h3 (conj Hg4 Hx2)) as Hg5.
  pose proof (interrupts_boot dev on_tick on_key on_mouse (z_packet z) mc x2 h4 Hpic ltac:(by rewrite Hmc) Hpk) as Hint.
  destruct (kernel_init_interrupts dev on_tick on_key on_mouse (z_packet z) mc x2 h4) as [[[[[ticks mo] mc'] x5] h5] o5].
  destruct Hg5 as [Hg5 Hx5]. destruct Hint as (-> & Hmo & _ & Hint).
  match goal with |- context [kernel_start_shell _ _ _ z s cmds task_init ?k h5] =>
    pose proof (shell_boot uart_ready shell_addr handler z s cmds k h5 h3 Hg5 Hcmds) as Hsh;
    destruct (kernel_start_shell uart_ready shell_addr handler z s cmds task_init k h5) as [[[sh cmds'] sc'] h6] end.
  destruct Hsh as (Hg6 & Hsc & Hcmds' & Hsfs & Hsh).
  eexists. split; [reflexivity|]. split; cbn [y_segments y_idt y_idtr y_machine y_rflags y_heap y_devices y_wq y_tm y_sched
    y_procs y_tty y_loader y_fds y_sys y_cpu y_msrs y_ring3 y_image y_commands y_ticks y_mouse y_shell]; try done.
  - apply enabled.
  - apply Hg6.
  - rewrite Hsfs. by eapply safe_grows.
  - rewrite Hsfs. exact Hstd.
Qed.
End Boot.

(** ** The first round of the idle loop *)

Lemma nothing_due now n : collect_due now (replicate n cleared_item) = ([], replicate n cleared_item).
Proof. induction n as [|n IH]; [done|]. cbn [replicate collect_due]. by rewrite IH. Qed.

Lemma idle_quiet {K} now rsp0 spawn (y : system (K:=K)) items :
  y_wq y = workqueue_init items → y_tm y = timer_init →
  kernel_idle now rsp0 spawn y =
    let '(next, sc) := task_run_once_enter now rsp0 (y_sched y) in
    ([], next,
     MkSystem (y_segments y) (y_idt y) (y_idtr y) (y_machine y) (y_rflags y) (y_heap y) (y_devices y) (y_wq y) (y_tm y) sc
       (y_procs y) (y_tty y) (y_loader y) (y_fds y) (y_sys y) (y_cpu y) (y_msrs y) (y_ring3 y) (y_image y) (y_commands y)
       (y_ticks y) (y_mouse y) (y_shell y)).
Proof.
  intros Hq Ht. unfold kernel_idle, timer_poll. rewrite Hq, Ht. cbn [timer_init timer_items]. by rewrite nothing_due.
Qed.

(** The scheduler's choice when the shell is the only task. *)
Lemma first_switch now rsp0 addr sc :
  shell_only addr sc →
  let '(next, sc') := task_run_once_enter now rsp0 sc in
  match tasks sc with
  | [] => next = None ∧ sc' = sc
  | t :: _ => next = Some (rsp t) ∧ current_task sc' = Some 0%nat ∧ tasks sc' = [with_state TASK_STATE_RUNNING t]
  end.
Proof.
  intros [->|(t & -> & Hr & _)]; [done|]. unfold task_run_once_enter, task_pick_next_locked, task_wakeup_sleeping_locked, wake_if_due.
  cbn [tasks fmap list_fmap]. rewrite Hr, decide_False by done.
  assert (Hp : pick_loop 1 [t] 0 0 = Some 0%nat) by (cbn; by rewrite Hr).
  change (pick_loop _ _ _ _) with (pick_loop 1 [t] 0 0). by rewrite Hp.
Qed.

(** ** Properties *)


(** The machine of [Pmm]'s sample, with an empty archive and a mouse that does
    not answer. *)
Definition boot_statics : statics (K:=Z) :=
  MkStatics (MkSinks sample_console (MkSerial false 0 []) klog_boot)
    (MkSegments zero_gdt (MkGdtDescriptor 0 0) zero_tss (MkGdtDescriptor 0 0) 8 0 0 0 0 0 0) (λ _, (0, 0))
    (MkMachine [] [] 0) 2 (MkHeap ∅ 0 0 0 0 false (empty_root pmm_boot)) (replicate 64 (MkWork 0 0 0)) (replicate 256 0)
    (replicate 32 cleared) (MkSyscalls [] false false 0) [0; 0; 0; 0]
    (MkShell (MkSinks sample_console (MkSerial false 0 []) klog_boot) (MkFs [] None None 1) [] 0 0 0 [] 0 0 0 [] false).

