(* ===== verification/HeapTest.v ===== *)
(** * The heap's self test ([heap_test] of [src/kernel/heap.c])

    The command [heaptest] allocates, writes, reads back, frees and makes the
    heap grow, on the kernel's own heap while it is in use. The bytes of the
    heap are a function of the address, as in [Heap]; what the page-table code
    prints meanwhile stays in the record of the page tables. *)

From S2P Require Import Prelude Utils CString Bytes Print Pmm Vmm Alloc Heap BootHeap.

Definition print_bytes (label : string) (n : Z) : output := prints label ++ print_dec64 n ++ prints " bytes" ++ newline.

(** Stores through a [u64] and a [u8] pointer. *)
Definition wr64 (a x : Z) (m : mem) : mem := λ y, if (a <=? y) && (y <? a + 8) then arr_get (le_list 8 x) (y - a) else m y.
Definition wr8 (a x : Z) (m : mem) : mem := λ y, if y =? a then u8 x else m y.

(** The first part: three blocks of 32, 128 and 4096 bytes. *)
Definition heap_test_stores (a b c : Z) (m : mem) : mem :=
  let m := wr64 a 0x1111222233334444 m in
  let m := wr64 b 0x5555666677778888 m in
  wr64 c 0x9999AAAABBBBCCCC m.

Definition heap_test_values (a b c : Z) (m : mem) : output :=
  print_field_hex "A value = " (rd64 m a) ++ print_field_hex "B value = " (rd64 m b) ++ print_field_hex "C value = " (rd64 m c).

(** The last part: what remains is freed. *)
Definition heap_test_cleanup (a c d e : Z) (h : heap) : option (heap * output) :=
  let h := kfree a h in
  let h := kfree c h in
  let h := kfree d h in
  let h := kfree e h in
  n ← heap_total_free_bytes h;
  l ← heap_largest_free_block h;
  Some (h, print_bytes "free after cleanup = " n ++ print_bytes "largest free after cleanup = " l ++
           color_line "Heap OK" COLOR_GREEN_ON_BLACK).

(** The second part: a freed block is used again, and the heap grows. *)
Definition heap_test_grow (a b c : Z) (h : heap) (m : mem) : option (heap * mem * output) :=
  let h := kfree b h in
  '(d, h) ← kmalloc 64 h;
  let o := prints "freed B" ++ newline ++ print_field_hex "alloc D 64    = " d ++
           (if d =? b then color_line "reuse freed block OK" COLOR_GREEN_ON_BLACK
            else color_line "reuse freed block not exact, but allocator still valid" COLOR_YELLOW_ON_BLACK) in
  '(e, h) ← kmalloc 20000 h;
  let o := o ++ print_field_hex "alloc E 20000 = " e in
  if e =? 0 then Some (h, m, o ++ color_line "Heap expansion FAILED" COLOR_RED_ON_BLACK)
  else
    let m := wr8 (e + 19999) 0xCD (wr8 e 0xAB m) in
    let o := o ++ print_field_hex "E first byte  = " (rd8 m e) ++ print_field_hex "E last byte   = " (rd8 m (e + 19999)) ++
             print_field_hex "heap mapped end = " (heap_mapped_end h) in
    k ← heap_block_count h;
    l ← heap_largest_free_block h;
    '(h, o') ← heap_test_cleanup a c d e h;
    Some (h, m, o ++ print_field_dec "block count = " k ++ print_bytes "largest free = " l ++ o').

Definition heap_test (h : heap) (m : mem) : option (heap * mem * output) :=
  n ← heap_total_free_bytes h;
  let o := color_line "[Heap test]" COLOR_YELLOW_ON_BLACK ++ print_bytes "block header size = " sizeof_heap_block ++
           print_bytes "free before = " n in
  '(a, h) ← kmalloc 32 h;
  '(b, h) ← kmalloc 128 h;
  '(c, h) ← kmalloc 4096 h;
  let o := o ++ print_field_hex "alloc A 32    = " a ++ print_field_hex "alloc B 128   = " b ++
           print_field_hex "alloc C 4096  = " c in
  if (a =? 0) || (b =? 0) || (c =? 0) then Some (h, m, o ++ color_line "Heap alloc FAILED" COLOR_RED_ON_BLACK)
  else
    let m := heap_test_stores a b c m in
    let o := o ++ heap_test_values a b c m in
    n ← heap_total_free_bytes h;
    let o := o ++ print_bytes "free after allocs = " n in
    '(h, m, o') ← heap_test_grow a b c h m;
    Some (h, m, o ++ o').

(** ** The walks end *)

Lemma headers_total (h : heap) : h_inv h → ∃ bs, headers h = Some bs.
Proof.
  intros [l (Hwf & _)]. unfold headers. rewrite (wf_first _ _ Hwf).
  apply (headers_end h 0 l); [apply Hwf| |].
  - intros b Hb. pose proof (addr_pos h l b Hwf Hb). unfold KERNEL_HEAP_START in *. lia.
  - unfold heap_fuel. pose proof (wf_fuel h l Hwf). lia.
Qed.

Lemma walks_end (h : heap) :
  h_inv h → is_Some (heap_total_free_bytes h) ∧ is_Some (heap_largest_free_block h) ∧ is_Some (heap_block_count h).
Proof.
  intros Hi. destruct (headers_total h Hi) as [bs Hb].
  unfold heap_total_free_bytes, heap_largest_free_block, heap_block_count. rewrite Hb. by split_and!.
Qed.

(** ** Blocks, null pointers included *)

Definition blk (p s : Z) : list (Z * Z) := if p =? 0 then [] else [(p, s)].

Lemma kmalloc_step (h : heap) L sz :
  h_inv h → live h ≡ₚ L → 0 < sz <= 2 ^ 63 →
  ∃ p s h', kmalloc sz h = Some (p, h') ∧ h_inv h' ∧ live h' ≡ₚ blk p s ++ L ∧
    (p ≠ 0 → sz <= s ∧ ∀ a t, (a, t) ∈ L → a + t <= p ∨ p + s <= a).
Proof.
  intros Hi HL Hsz. pose proof Hi as [l Hl]. destruct (kmalloc_live h l sz Hl Hsz) as (p & h' & Hk & _).
  pose proof (k_alloc_ok sz h Hi Hsz) as Ha. cbn [k_alloc heap_allocator] in Ha. rewrite Hk in Ha. cbn [default from_option] in Ha.
  destruct Ha as [Hi' [[-> Hl']|(s & u1 & u2 & Hp & Hs & Hu & Hu' & Hd)]].
  - exists 0, 0, h'. split; [done|]. split; [done|]. split; [|done]. trans (live h); [|exact HL]. exact (reflexive_eq _ _ Hl').
  - exists p, s, h'. split; [done|]. split; [done|]. unfold blk. rewrite (proj2 (Z.eqb_neq p 0)) by done. split.
    + trans ((p, s) :: live h); [|by rewrite HL]. trans (u1 ++ (p, s) :: u2); [by apply reflexive_eq|].
      rewrite <- Permutation_middle. constructor. by apply reflexive_eq.
    + intros _. split; [done|]. intros a t Hat. apply Hd. change ((a, t) ∈ live h). by rewrite HL.
Qed.

Lemma kfree_step (h : heap) L p s :
  h_inv h → live h ≡ₚ blk p s ++ L → h_inv (kfree p h) ∧ live (kfree p h) ≡ₚ L.
Proof.
  unfold blk. destruct (Z.eqb_spec p 0) as [->|Hp]; [done|]. intros Hi HL.
  assert (Hin : (p, s) ∈ live h) by (rewrite HL; left). apply list_elem_of_split in Hin as (u1 & u2 & Hu).
  destruct (k_free_ok h p s u1 u2 Hi Hu) as [Hi' Hl']. split; [exact Hi'|]. change (k_free p h) with (kfree p h) in Hl'.
  rewrite Hl'. rewrite Hu in HL. apply (Permutation_cons_inv (a:=(p, s))). rewrite <- HL. by rewrite Permutation_middle.
Qed.

(** ** Bytes *)

Lemma wr64_same a x m : is_u64 x → rd64 (wr64 a x m) a = x.
Proof.
  intros Hx. unfold rd64. rewrite (rd_le_le_list 8 _ a x).
  - apply Z.mod_small. unfold is_u64 in Hx. change (256 ^ Z.of_nat 8) with (2 ^ 64). lia.
  - intros i Hi. unfold wr64. rewrite (proj2 (Z.leb_le _ _)), (proj2 (Z.ltb_lt _ _)) by lia. cbn [andb].
    unfold arr_get. f_equal. lia.
Qed.

Lemma wr64_out a x m y : y < a ∨ a + 8 <= y → wr64 a x m y = m y.
Proof. intros Hy. unfold wr64. destruct (Z.leb_spec a y), (Z.ltb_spec y (a + 8)); cbn [andb]; done || lia. Qed.

Lemma wr64_other a x m b : a + 8 <= b ∨ b + 8 <= a → rd64 (wr64 a x m) b = rd64 m b.
Proof. intros Hab. apply rd_le_ext. intros i Hi. apply wr64_out. lia. Qed.

Lemma wr8_out a x m y : y ≠ a → wr8 a x m y = m y.
Proof. intros Hy. unfold wr8. by rewrite (proj2 (Z.eqb_neq y a)). Qed.

Lemma wr8_same a x m : wr8 a x m a = u8 x.
Proof. unfold wr8. by rewrite Z.eqb_refl. Qed.

(** The bytes of the blocks [L] are the same. *)
Definition bytes_kept (L : list (Z * Z)) (m m' : mem) : Prop := ∀ p s x, (p, s) ∈ L → p <= x < p + s → m' x = m x.

(** [x] is a part of the text [o]. *)
Definition shows (x o : output) : Prop := ∃ o1 o2, o = o1 ++ x ++ o2.

Lemma shows_app_l x o1 o2 : shows x o2 → shows x (o1 ++ o2).
Proof. intros (a & b & ->). exists (o1 ++ a), b. by rewrite <- app_assoc. Qed.
Lemma shows_app_r x o1 o2 : shows x o1 → shows x (o1 ++ o2).
Proof. intros (a & b & ->). exists a, (b ++ o2). by rewrite <- !app_assoc. Qed.
Lemma shows_refl x : shows x x.
Proof. exists [], []. by rewrite app_nil_r. Qed.
#[local] Hint Resolve shows_refl : shows.

Lemma stores_values a b c m :
  a + 8 <= b ∨ b + 8 <= a → a + 8 <= c ∨ c + 8 <= a → b + 8 <= c ∨ c + 8 <= b →
  heap_test_values a b c (heap_test_stores a b c m) =
    print_field_hex "A value = " 0x1111222233334444 ++ print_field_hex "B value = " 0x5555666677778888 ++
    print_field_hex "C value = " 0x9999AAAABBBBCCCC.
Proof.
  intros Hab Hac Hbc. unfold heap_test_values, heap_test_stores. cbv zeta.
  rewrite (wr64_same c), (wr64_other c _ _ b), (wr64_same b), (wr64_other c _ _ a), (wr64_other b _ _ a), (wr64_same a); try lia; done || (unfold is_u64; lia).
Qed.

Lemma stores_kept a b c sa sb sc L m :
  (∀ p s, (p, s) ∈ L → p + s <= a ∨ a + sa <= p) → (∀ p s, (p, s) ∈ L → p + s <= b ∨ b + sb <= p) →
  (∀ p s, (p, s) ∈ L → p + s <= c ∨ c + sc <= p) → 8 <= sa → 8 <= sb → 8 <= sc →
  bytes_kept L m (heap_test_stores a b c m).
Proof.
  intros Ha Hb Hc H1 H2 H3 p s x Hin Hx. unfold heap_test_stores. cbv zeta.
  destruct (Ha p s Hin), (Hb p s Hin), (Hc p s Hin); rewrite !wr64_out by lia; done.
Qed.

Lemma cleanup_ok a c d e sa sc sd se L h :
  h_inv h → live h ≡ₚ blk e se ++ blk d sd ++ blk c sc ++ blk a sa ++ L →
  ∃ h' o, heap_test_cleanup a c d e h = Some (h', o) ∧ h_inv h' ∧ live h' ≡ₚ L ∧
    color_line "Heap OK" COLOR_GREEN_ON_BLACK `suffix_of` o.
Proof.
  intros Hi HL. unfold heap_test_cleanup. cbv zeta.
  destruct (kfree_step h (blk e se ++ blk d sd ++ blk c sc ++ L) a sa Hi) as [H1 L1]; [rewrite HL; solve_Permutation|].
  destruct (kfree_step _ (blk e se ++ blk d sd ++ L) c sc H1) as [H2 L2]; [rewrite L1; solve_Permutation|].
  destruct (kfree_step _ (blk e se ++ L) d sd H2) as [H3 L3]; [rewrite L2; solve_Permutation|].
  destruct (kfree_step _ L e se H3 L3) as [H4 L4].
  destruct (walks_end _ H4) as ([n Hn] & [l Hl] & _). rewrite Hn. cbn [mbind option_bind]. rewrite Hl. cbn [mbind option_bind].
  do 2 eexists. split; [reflexivity|]. split; [exact H4|]. split; [exact L4|].
  apply suffix_app_r, suffix_app_r. done.
Qed.

Definition e_bytes : output := print_field_hex "E first byte  = " 0xAB ++ print_field_hex "E last byte   = " 0xCD.
Definition abc_values : output :=
  print_field_hex "A value = " 0x1111222233334444 ++ print_field_hex "B value = " 0x5555666677778888 ++
  print_field_hex "C value = " 0x9999AAAABBBBCCCC.

Lemma e_written e m :
  rd8 (wr8 (e + 19999) 0xCD (wr8 e 0xAB m)) e = 0xAB ∧ rd8 (wr8 (e + 19999) 0xCD (wr8 e 0xAB m)) (e + 19999) = 0xCD.
Proof. unfold rd8. rewrite (wr8_out (e + 19999) _ _ e), !wr8_same by lia. done. Qed.

Lemma e_kept e se L m :
  (∀ p s, (p, s) ∈ L → p + s <= e ∨ e + se <= p) → 20000 <= se → bytes_kept L m (wr8 (e + 19999) 0xCD (wr8 e 0xAB m)).
Proof. intros Hd Hs p s x Hin Hx. destruct (Hd p s Hin); rewrite !wr8_out by lia; done. Qed.

Lemma grow_ok a b c sa sb sc L h m :
  h_inv h → live h ≡ₚ blk c sc ++ blk b sb ++ blk a sa ++ L →
  ∃ h' m' o rest, heap_test_grow a b c h m = Some (h', m', o) ∧ h_inv h' ∧ live h' ≡ₚ rest ++ L ∧ bytes_kept L m m' ∧
    (rest = [] ∧ shows e_bytes o ∧ color_line "Heap OK" COLOR_GREEN_ON_BLACK `suffix_of` o ∨
     color_line "Heap expansion FAILED" COLOR_RED_ON_BLACK `suffix_of` o).
Proof.
  intros Hi HL. unfold heap_test_grow. cbv zeta.
  destruct (kfree_step h (blk c sc ++ blk a sa ++ L) b sb Hi) as [H1 L1]; [rewrite HL; solve_Permutation|].
  destruct (kmalloc_step _ _ 64 H1 L1 ltac:(lia)) as (d & sd & h2 & -> & H2 & L2 & _). cbn [mbind option_bind].
  destruct (kmalloc_step _ _ 20000 H2 L2 ltac:(lia)) as (e & se & h3 & -> & H3 & L3 & De). cbn [mbind option_bind].
  destruct (Z.eqb_spec e 0) as [->|He].
  { do 3 eexists. exists (blk d sd ++ blk c sc ++ blk a sa). split; [reflexivity|]. split; [exact H3|].
    split; [rewrite L3; cbn [blk Z.eqb app]; solve_Permutation|]. split; [by intros p s x|]. right. by apply suffix_app_r. }
  destruct (De He) as [Hse Hd]. destruct (walks_end _ H3) as (_ & [l Hl] & [k Hk]). rewrite Hk, Hl. cbn [mbind option_bind].
  destruct (cleanup_ok a c d e sa sc sd se L h3 H3 L3) as (h4 & o4 & -> & H4 & L4 & Hok). cbn [mbind option_bind].
  do 3 eexists. exists []. split; [reflexivity|]. split; [exact H4|]. split; [exact L4|]. split.
  - apply (e_kept e se); [|done]. intros p s Hin. apply Hd. by do 3 (apply elem_of_app; right).
  - left. split; [done|]. destruct (e_written e m) as [-> ->]. split; [|by repeat apply suffix_app_r].
    apply shows_app_r, shows_app_l. exists [], (print_field_hex "heap mapped end = " (heap_mapped_end h3)).
    unfold e_bytes. by rewrite <- app_assoc.
Qed.

(** ** Properties *)


