(* ===== verification/Faults.v ===== *)
(** * Panics, the page-fault test and the diagnostic commands
      ([src/kernel/panic.c], [idt_test_page_fault] of [idt.c], the tests of
      [command.c], [dmesg] of [klog.c])

    A function that halts the processor is what it prints and the state it
    halts in. *)

From S2P Require Import Prelude Utils CString Bytes Print Klog Pmm Vmm Alloc Heap Console Device Command.
From S2P Require Import Output Irq Mouse Gdt Builtins BootFs BootIrq Boot BootHeap HeapTest.

(** ** Panics *)

Record panic_state := MkPanic { panic_active : bool; cpu_rflags : Z }.

(** [cli], then [hlt] for ever. *)
Definition kernel_panic_halt (s : panic_state) : panic_state := MkPanic (panic_active s) (interrupts_disable (cpu_rflags s)).

Definition panic_print_location (file : option cstr) (line : Z) : output :=
  match file with
  | None => []
  | Some f => prints "at      = " ++ print f ++ prints ":" ++ print_dec64 line ++ newline
  end.

(** [inl]: halted, because a panic was being handled already. *)
Definition panic_begin (s : panic_state) : (panic_state * output) + panic_state :=
  let s := MkPanic (panic_active s) (interrupts_disable (cpu_rflags s)) in
  if panic_active s then
    inl (kernel_panic_halt s,
         print_color [CH_LF] COLOR_RED_ON_BLACK ++ color_line "[RECURSIVE PANIC]" COLOR_RED_ON_BLACK ++
         prints "panic while already handling panic" ++ newline)
  else inr (MkPanic true (cpu_rflags s)).

Definition panic_report (label : string) (text file : option cstr) (line : Z) (s : panic_state) : panic_state * output :=
  match panic_begin s with
  | inl r => r
  | inr s =>
      (kernel_panic_halt s,
       print_color [CH_LF] COLOR_RED_ON_BLACK ++ color_line "[KERNEL PANIC]" COLOR_RED_ON_BLACK ++
       prints label ++ print (default (s2z "(null)") text) ++ newline ++
       panic_print_location file line ++ color_line "system halted" COLOR_RED_ON_BLACK)
  end.

Definition kernel_panic_at : option cstr → option cstr → Z → panic_state → panic_state * output := panic_report "message = ".
Definition kernel_panic_assert : option cstr → option cstr → Z → panic_state → panic_state * output :=
  panic_report "assertion failed: ".

(** [KASSERT]; [None]: execution goes on. *)
Definition KASSERT (expr : bool) (text file : cstr) (line : Z) (s : panic_state) : option (panic_state * output) :=
  if expr then None else Some (kernel_panic_assert (Some text) (Some file) line s).

(** The first [KPANIC] does not return. *)
Definition cmd_panic (args : option cstr) (s : panic_state) : panic_state * output :=
  let file := Some (s2z "kernel/panic.c") in
  match args with
  | None | Some [] => kernel_panic_at (Some (s2z "manual panic")) file 87 s
  | Some _ => kernel_panic_at args file 90 s
  end.

Definition cmd_asserttest (s : panic_state) : option (panic_state * output) :=
  KASSERT (1 =? 0) (s2z "1 == 0") (s2z "kernel/panic.c") 96 s.

(** ** The deliberate page fault *)

Definition PF_TEST_ADDRESS : Z := 0x50000000.

(** The read by the kernel of an address that is not mapped ends in the
    exception handler with the error code 0: not present, read, supervisor.
    [true]: halted. [rip], [cs] and [rflags] are the processor's. *)
Definition idt_test_page_fault (rip cs rflags : Z) (st : vm) : bool * output :=
  let o := color_line "[IDT page fault test]" COLOR_YELLOW_ON_BLACK ++
           prints "about to read unmapped address 0x0000000050000000" ++ newline in
  match walk 4 st (root st) PF_TEST_ADDRESS with
  | WNone => (true, o ++ exception_handler 14 0 rip cs rflags PF_TEST_ADDRESS)
  | _ => (false, o ++ color_line "page fault test unexpectedly returned" COLOR_RED_ON_BLACK)
  end.

Definition cmd_pf (rip cs rflags : Z) (st : vm) : bool * output :=
  let '(halted, o) := idt_test_page_fault rip cs rflags st in (halted, prints "triggering page fault..." ++ newline ++ o).

(** ** The other tests *)

Definition cmd_clear (k : sinks) : sinks := on_console console_clear k.
Definition cmd_pmmtest (s : pmm) : pmm * output := pmm_test s.
Definition cmd_vmmtest (st : vm) : vm := vmm_test_unmap (vm_print newline (vmm_test_mapping st)).
Definition cmd_heaptest (h : heap) (m : mem) : option (heap * mem * output) := heap_test h m.

(** ** The kernel log *)

Section Dmesg.
Context (uart_ready : nat → bool).

(** The dump goes past [print]: to the console and the serial port only. *)
Definition cmd_dmesg (k : sinks) : sinks :=
  let l := klog_dump (out_klog k) in
  MkSinks (foldl (λ c x, console_put_char x c) (out_console k) l)
    (foldl (λ s x, serial_write_char uart_ready x s) (out_serial k) l) (out_klog k).

Definition cmd_dmesg_clear (k : sinks) : sinks :=
  emit uart_ready (prints "klog cleared" ++ newline) (MkSinks (out_console k) (out_serial k) (klog_clear (out_klog k))).

Definition cmd_dmesg_info (k : sinks) : sinks :=
  emit uart_ready (print_bytes "klog size     = " (klog_size (out_klog k)) ++ print_bytes "klog capacity = " klog_capacity) k.

(** The log gets the characters of what is printed, whatever their colour. *)
Lemma emit_klog o k : out_klog (emit uart_ready o k) = foldl (λ l c, klog_write_char c l) (out_klog k) (snd <$> o).
Proof.
  revert k. induction o as [|[[c|] x] o IH]; intros k; [done|..]; cbn [emit foldl fmap list_fmap snd];
    change (foldl _ ?a o) with (emit uart_ready o a); by rewrite IH.
Qed.

Lemma klog_writes l k h : klog_rep k h → klog_rep (foldl (λ l c, klog_write_char c l) k l) (h ++ l).
Proof.
  revert k h. induction l as [|c l IH]; intros k h Hk; [by rewrite app_nil_r|]. cbn [foldl].
  replace (h ++ c :: l) with ((h ++ [c]) ++ l) by (by rewrite <- app_assoc). apply IH. by apply klog_rep_write.
Qed.
End Dmesg.

(** ** Lemmas: the frame test *)

(** The lowest free frame comes first. *)
Lemma free_list_head s f rest g : free_list s = f :: rest → g ∈ rest → f < g.
Proof. unfold free_list. destruct (pmm_bitmap s); [|done]. apply filter_seqZ_least. Qed.

Lemma freed_first s s' f :
  free_list s' ≡ₚ f :: free_list s → (∀ g, g ∈ free_list s → f < g) → ∃ l, free_list s' = f :: l ∧ l ≡ₚ free_list s.
Proof.
  intros Hp Hlow. destruct (free_list s') as [|g l] eqn:Hl; [by apply Permutation_nil_cons in Hp|].
  assert (Hg : g = f).
  { assert (Hin : g ∈ f :: free_list s) by (rewrite <- Hp; left). apply elem_of_cons in Hin as [|Hin]; [done|].
    assert (Hf : f ∈ g :: l) by (rewrite Hp; left). apply elem_of_cons in Hf as [|Hf]; [done|].
    pose proof (free_list_head s' g l f Hl Hf). pose proof (Hlow g Hin). lia. }
  subst g. exists l. split; [done|]. by apply Permutation_cons_inv in Hp.
Qed.

(** ** Properties *)

(** C37: [dmesg] replays what was printed. After any text, from the kernel or
    from a command, [dmesg] sends to the console and the serial port exactly the
    last 8192 characters of what was printed since the log was initialised or
    cleared, in order and without their colours, and does not itself enter the
    log; after [dmesgclear] the log is the line that command prints. *)
Theorem dmesg_replays uart_ready o k h :
  klog_rep (out_klog k) h →
  let k1 := emit uart_ready o k in
  let w := last_n KLOG_N (h ++ (snd <$> o)) in
  let k2 := cmd_dmesg uart_ready k1 in
  out_console k2 = foldl (λ c x, console_put_char x c) (out_console k1) w ∧
  out_serial k2 = foldl (λ s x, serial_write_char uart_ready x s) (out_serial k1) w ∧
  out_klog k2 = out_klog k1 ∧
  klog_dump (out_klog (cmd_dmesg_clear uart_ready k2)) = s2z "klog cleared" ++ [CH_LF].
Proof.
  intros Hk. cbv zeta.
  assert (Hk1 : klog_rep (out_klog (emit uart_ready o k)) (h ++ (snd <$> o))) by (rewrite emit_klog; by apply klog_writes).
  unfold cmd_dmesg. rewrite (klog_dump_rep _ _ Hk1). split; [done|]. split; [done|]. split; [done|].
  unfold cmd_dmesg_clear. rewrite emit_klog. cbn [out_klog].
  assert (Hc : klog_rep (klog_clear (out_klog (emit uart_ready o k))) []) by (by eapply klog_rep_clear).
  rewrite (klog_dump_rep _ _ (klog_writes (snd <$> (prints "klog cleared" ++ newline)) _ [] Hc)). done.
Qed.

Lemma dmesg_replays_witness :
  let k := MkSinks sample_console (MkSerial false 0 []) (klog_init klog_boot) in
  let k1 := emit (λ _, true) (color_line "hi" COLOR_RED_ON_BLACK) k in
  out_console (cmd_dmesg (λ _, true) k1) = foldl (λ c x, console_put_char x c) (out_console k1) (s2z "hi" ++ [CH_LF]).
Proof.
  intros k k1. assert (Hk : klog_rep (out_klog k) []) by (apply klog_rep_init; reflexivity).
  destruct (dmesg_replays (λ _, true) (color_line "hi" COLOR_RED_ON_BLACK) k [] Hk) as [Hc _]. exact Hc.
Defined.

(** The frame test. With three free frames [pmmtest] always finds the
    freed frame again; afterwards the three lowest frames that were free are in
    use for good: the command never returns them. *)
Theorem pmm_test_reuses s bm :
  pmm_wf s → pmm_bitmap s = Some bm → (3 <= length (free_list s))%nat →
  let '(s', o) := cmd_pmmtest s in
  shows (color_line "reuse freed frame OK" COLOR_GREEN_ON_BLACK) o ∧ pmm_wf s' ∧
  free_list s' ≡ₚ drop 3 (free_list s) ∧ pmm_free_frame_count s' = pmm_free_frame_count s - 3.
Proof.
  intros Hwf Hbm Hl. unfold cmd_pmmtest, pmm_test.
  pose proof (pmm_alloc_frame_spec s bm Hwf Hbm) as H1.
  destruct (free_list s) as [|fa [|fb [|fc rest]]] eqn:Hf; [cbn in Hl; lia..|].
  destruct (pmm_alloc_frame s) as [a s1]. destruct H1 as (-> & Hf1 & Hwf1 & Hbm1 & Ht1 & Hc1 & _).
  pose proof (pmm_alloc_frame_spec s1 _ Hwf1 Hbm1) as H2. rewrite Hf1 in H2.
  destruct (pmm_alloc_frame s1) as [b s2]. destruct H2 as (-> & Hf2 & Hwf2 & Hbm2 & Ht2 & Hc2 & Hbr).
  pose proof (pmm_alloc_frame_spec s2 _ Hwf2 Hbm2) as H3. rewrite Hf2 in H3.
  destruct (pmm_alloc_frame s2) as [c s3]. destruct H3 as (-> & Hf3 & Hwf3 & Hbm3 & Ht3 & Hc3 & _).
  assert (Hlow : ∀ g, g ∈ free_list s3 → fb < g).
  { intros g Hg. rewrite Hf3 in Hg. apply (free_list_head s1 fb (fc :: rest)); [done|by right]. }
  destruct (pmm_free_frame_spec s3 _ fb Hwf3 Hbm3) as (Hp & Hwf4 & Hbm4 & _ & Hc4); [lia|intros Hx%Hlow; lia|].
  destruct (freed_first s3 _ fb Hp Hlow) as (l & Hl4 & Hlp).
  pose proof (pmm_alloc_frame_spec _ _ Hwf4 Hbm4) as H5. rewrite Hl4 in H5.
  destruct (pmm_alloc_frame (pmm_free_frame _ s3)) as [d s5]. destruct H5 as (-> & Hf5 & Hwf5 & _ & _ & Hc5 & _).
  rewrite Z.eqb_refl. split; [|split; [done|split]].
  - do 9 apply shows_app_l. apply shows_app_r, shows_refl.
  - rewrite Hf5, Hlp, Hf3. done.
  - unfold pmm_free_frame_count. lia.
Qed.

Lemma pmm_test_reuses_witness : pmm_free_frame_count (cmd_pmmtest sample_pmm).1 = 10.
Proof.
  pose proof (pmm_test_reuses sample_pmm [7; 0] sample_pmm_wf eq_refl ltac:(vm_compute; lia)) as H.
  destruct (cmd_pmmtest sample_pmm) as [s o]. destruct H as (_ & _ & _ & Hc). exact Hc.
Defined.

(** A panic ends the system: every way into it halts with interrupts
    off and marks the panic; the first one prints its own text (or [(null)]) and
    where it happened, one during its handling prints only that. An assertion
    that holds does nothing. *)
Theorem panic_halts label text file line s :
  let '(s', o) := panic_report label text file line s in
  panic_active s' = true ∧ Z.land (cpu_rflags s') RFLAGS_IF = 0 ∧
  (panic_active s = false → shows (prints label ++ print (default (s2z "(null)") text) ++ newline) o ∧
     color_line "system halted" COLOR_RED_ON_BLACK `suffix_of` o) ∧
  (panic_active s = true → ∀ text' file' line', panic_report label text' file' line' s = (s', o)).
Proof.
  assert (Hd : ∀ r, Z.land (interrupts_disable r) RFLAGS_IF = 0).
  { intros r. unfold interrupts_disable. apply Z.bits_inj'. intros n _. rewrite Z.land_spec, Z.ldiff_spec, Z.bits_0.
    by destruct (Z.testbit r n), (Z.testbit RFLAGS_IF n). }
  unfold panic_report, panic_begin. destruct s as [[|] r]; cbn [panic_active cpu_rflags kernel_panic_halt].
  - split; [done|]. split; [apply Hd|]. done.
  - split; [done|]. split; [apply Hd|]. split; [intros _|done].
    split; [|do 6 apply suffix_app_r; done].
    apply shows_app_l, shows_app_l. eexists [], _. cbn [app]. by rewrite <- !app_assoc.
Qed.

(** The page-fault test does fault: the heap's initialisation leaves
    the test's address unmapped when the boot code does, so [pf] halts, with a
    report of a read of that address by the kernel of a page not present. *)
Theorem page_fault_test_halts h own rip cs rflags :
  tables_ok (heap_vm h) own → (16 <= length (free_list (frames (heap_vm h))))%nat →
  (∀ j, (j < 4)%nat → not_huge (heap_vm h) (heap_page KERNEL_HEAP_START j)) →
  walk 4 (heap_vm h) (root (heap_vm h)) PF_TEST_ADDRESS = WNone →
  ∃ h', heap_init h = Some h' ∧
    let '(halted, o) := cmd_pf rip cs rflags (heap_vm h') in
    halted = true ∧ shows (prints "cr2    = " ++ print_hex64 0x50000000 ++ newline ++ print_page_fault_error 0) o.
Proof.
  intros Hok Hroom Hnh Hpf. destruct (heap_pages_mapped _ own Hok Hroom Hnh) as (st & own' & fs & Hm & _ & Hl & _ & [_ _ Hw _]).
  destruct (heap_init_total h) as (h' & Hi & Hres). rewrite Hm in Hres. destruct Hres as (_ & Hwd & Hc & _).
  exists h'. split; [exact Hi|]. unfold cmd_pf, idt_test_page_fault.
  assert (Hn : walk 4 (heap_vm h') (root (heap_vm h')) PF_TEST_ADDRESS = WNone).
  { trans (walk 4 st (root st) PF_TEST_ADDRESS); [unfold root; rewrite Hc; by apply walk_ext|].
    destruct (Hw PF_TEST_ADDRESS) as [->|(j & Hj & Hp)]; [exact Hpf|]. exfalso. rewrite Nat.add_0_l in Hp.
    rewrite heap_page_no in Hp by (done || (unfold heap_page, KERNEL_HEAP_START; lia)).
    change (page_no PF_TEST_ADDRESS) with 0x50000 in Hp. change (KERNEL_HEAP_START / 4096) with 0x41000 in Hp. lia. }
  rewrite Hn. split; [done|]. apply shows_app_l, shows_app_l, shows_app_l. unfold exception_handler. cbn [Z.eqb Pos.eqb].
  do 19 apply shows_app_l. apply shows_app_r, shows_refl.
Qed.
