(* ===== verification/Demo.v ===== *)
(** * Kernel tasks at work: the demo tasks of [src/kernel/task.c]

    A task's function is what it does between two switches: on its [i]-th turn
    it prints and then calls into the scheduler. A slot is one round of
    [task_run_once] with the turn of the task it picks; [task_trampoline] is the
    call of [task_exit] when the function returns. *)

From S2P Require Import Prelude Utils CString Print Alloc Task.

(** How a turn ends. *)
Inductive turn_end := Yields | Sleeps (ticks : Z) | Returns.

(** The turn's number and the tick it reads; what it prints. *)
Definition body : Type := nat → Z → output * turn_end.

Definition DEMO_ITERATIONS : nat := 5.
Definition SLEEPY_ITERATIONS : nat := 3.

Definition demo_task (nm : cstr) : body := λ i tick,
  if (i <? DEMO_ITERATIONS)%nat then
    (newline ++ color_line "[task]" COLOR_YELLOW_ON_BLACK ++
     prints "task " ++ print nm ++ prints " iteration " ++ print_dec64 (Z.of_nat i) ++
     prints " tick=" ++ print_dec64 tick ++ newline, Yields)
  else
    (newline ++ color_line "[task]" COLOR_YELLOW_ON_BLACK ++ prints "task " ++ print nm ++ prints " done" ++ newline, Returns).

Definition sleepy_task (nm : cstr) : body := λ i tick,
  if (i <? SLEEPY_ITERATIONS)%nat then
    (newline ++ color_line "[sleepy task]" COLOR_YELLOW_ON_BLACK ++
     prints "task " ++ print nm ++ prints " awake iteration " ++ print_dec64 (Z.of_nat i) ++
     prints " tick=" ++ print_dec64 tick ++ newline ++
     prints "task " ++ print nm ++ prints " sleeping 100 ticks" ++ newline, Sleeps 100)
  else
    (newline ++ color_line "[sleepy task]" COLOR_YELLOW_ON_BLACK ++
     prints "task " ++ print nm ++ prints " done at tick=" ++ print_dec64 tick ++ newline, Returns).

Definition cmd_tasks (now : Z) (s : sched) : sched * output := task_print_all now s.
Definition cmd_yield (r : Z) (s : sched) : option Z * sched := task_yield r s.

(** When the function has returned: [None] is the panic without a current
    task. *)
Definition task_trampoline (r : Z) (s : sched) : option Z * sched := task_exit r s.

(** ** Slots *)

(** What the hardware supplies: the tick when the scheduler looks for sleepers,
    when the task reads it and when it goes to sleep, and the stack pointers of
    the two switches. *)
Record slot := MkSlot { sl_now : Z; sl_tick : Z; sl_sleep : Z; sl_sched_rsp : Z; sl_rsp : Z }.

Definition end_turn (e : turn_end) (x : slot) (s : sched) : sched :=
  match e with
  | Yields => (task_yield (sl_rsp x) s).2
  | Sleeps n => (task_sleep_ticks (sl_sleep x) n (sl_rsp x) s).2
  | Returns => (task_trampoline (sl_rsp x) s).2
  end.

(** One [task_run_once], of tasks with the functions [bodies] and [pos] turns
    behind them: the task that ran and what it printed. *)
Definition run_slot (bodies : nat → body) (x : slot) (s : sched) (pos : nat → nat)
    : option (nat * output) * sched * (nat → nat) :=
  let '(next, s) := task_run_once_enter (sl_now x) (sl_sched_rsp x) s in
  match next, task_current s with
  | Some _, Some i =>
      let '(o, e) := bodies i (pos i) (sl_tick x) in
      (Some (i, o), task_run_once_leave (end_turn e x s), λ j, if (j =? i)%nat then S (pos j) else pos j)
  | _, _ => (None, s, pos)
  end.

Fixpoint run_slots (bodies : nat → body) (xs : list slot) (s : sched) (pos : nat → nat)
    : list (option (nat * output)) * sched * (nat → nat) :=
  match xs with
  | [] => ([], s, pos)
  | x :: xs =>
      let '(e, s, pos) := run_slot bodies x s pos in
      let '(es, s, pos) := run_slots bodies xs s pos in (e :: es, s, pos)
  end.

(** ** Round robin *)

(** After [k] slots of [n] tasks: how often task [i] has run. *)
Definition turns (n k i : nat) : nat := (k / n + if (i <? k mod n)%nat then 1 else 0)%nat.

Lemma turns_step n k i :
  (0 < n)%nat → (i < n)%nat → turns n (S k) i = if (i =? k mod n)%nat then S (turns n k i) else turns n k i.
Proof.
  intros Hn Hi. unfold turns. pose proof (Nat.mod_upper_bound k n ltac:(lia)) as Hr.
  pose proof (Nat.div_mod_eq k n) as Hk. set (q := (k / n)%nat) in *. set (r := (k mod n)%nat) in *.
  destruct (decide (S r < n)%nat).
  - assert (Hd : (S k / n = q)%nat) by (symmetry; apply (Nat.div_unique (S k) n q (S r)); lia).
    assert (Hm : (S k mod n = S r)%nat) by (symmetry; apply (Nat.mod_unique (S k) n q (S r)); lia).
    rewrite Hd, Hm. destruct (Nat.ltb_spec i (S r)), (Nat.ltb_spec i r), (Nat.eqb_spec i r); lia.
  - assert (Hd : (S k / n = S q)%nat) by (symmetry; apply (Nat.div_unique (S k) n (S q) 0); lia).
    assert (Hm : (S k mod n = 0)%nat) by (symmetry; apply (Nat.mod_unique (S k) n (S q) 0); lia).
    rewrite Hd, Hm. destruct (Nat.ltb_spec i 0), (Nat.ltb_spec i r), (Nat.eqb_spec i r); lia.
Qed.

Lemma turns_current n k : (0 < n)%nat → turns n k (k mod n) = (k / n)%nat.
Proof. intros Hn. unfold turns. rewrite Nat.ltb_irrefl. lia. Qed.

(** The scheduler after [k] slots: every task is ready until it has returned,
    and the next one to look at is [k mod n]. *)
Record demo_inv (n k : nat) (s : sched) (pos : nat → nat) : Prop := {
  di_length : length (tasks s) = n;
  di_current : current_task s = None;
  di_start : pick_start s = (k mod n)%nat;
  di_pos : ∀ i, (i < n)%nat → pos i = turns n k i;
  di_state : ∀ i, (i < n)%nat →
    state_at s i = Some (if (turns n k i <? S DEMO_ITERATIONS)%nat then TASK_STATE_READY else TASK_STATE_DONE)
}.

Lemma demo_no_sleeper n k s pos now : demo_inv n k s pos → task_wakeup_sleeping_locked now s = s.
Proof.
  intros Hi. unfold task_wakeup_sleeping_locked. destruct s as [ts c cu ni tc sr]. unfold with_tasks. cbn [tasks current_task
    schedule_cursor next_task_id total_task_count scheduler_rsp]. f_equal.
  apply list_eq. intros i. rewrite list_lookup_fmap. destruct (ts !! i) as [t|] eqn:Ht; [|done]. cbn. f_equal.
  assert (Hin : (i < n)%nat) by (rewrite <- (di_length _ _ _ _ Hi); by eapply lookup_lt_Some).
  pose proof (di_state _ _ _ _ Hi i Hin) as Hs. unfold state_at in Hs. cbn [tasks] in Hs. rewrite Ht in Hs. cbn in Hs.
  injection Hs as Hs. unfold wake_if_due. rewrite decide_False; [done|]. rewrite Hs. by case_if.
Qed.

(** The first task the scan looks at is ready. *)
Lemma pick_first now s i :
  task_wakeup_sleeping_locked now s = s → pick_start s = i → state_at s i = Some TASK_STATE_READY →
  task_pick_next_locked now s = (Some i, with_cursor (Some i) s).
Proof.
  intros Hw Hp Hs. unfold state_at in Hs. destruct (tasks s !! i) as [t|] eqn:Ht; [|done]. injection Hs as Hs.
  pose proof (lookup_lt_Some _ _ _ Ht) as Hl.
  assert (Hne : tasks s ≠ []) by (intros Hx; rewrite Hx in Hl; cbn in Hl; lia).
  assert (Hts : wake_if_due now <$> tasks s = tasks s) by (apply (f_equal tasks) in Hw; exact Hw).
  pose proof (pick_spec now s Hne) as Hspec. cbv zeta in Hspec. rewrite Hts, Hw, Hp in Hspec.
  assert (Hr : is_ready (tasks s) i = true) by (unfold is_ready; rewrite Ht; by rewrite Hs, bool_decide_eq_true_2).
  assert (H0 : scan_pos (length (tasks s)) i 0 = i) by (unfold scan_pos; rewrite Nat.add_0_r; by apply Nat.mod_small).
  destruct (task_pick_next_locked now s) as [[j|] s']; [|destruct Hspec as [_ Hx]; by rewrite Hx in Hr].
  destruct Hspec as (-> & k & _ & -> & _ & Hbefore). destruct k as [|k]; [by rewrite H0|].
  specialize (Hbefore 0%nat ltac:(lia)). rewrite H0, Hr in Hbefore. done.
Qed.

(** A turn of task [i] that ends with [e]: the next scan begins behind [i]. *)
Lemma turn_states e x s i :
  e = Yields ∨ e = Returns → (i < length (tasks s))%nat → current_task s = None →
  let s1 := with_sched_rsp (sl_sched_rsp x) (upd i (with_state TASK_STATE_RUNNING) (with_current (Some i) (with_cursor (Some i) s))) in
  let s' := task_run_once_leave (end_turn e x s1) in
  length (tasks s') = length (tasks s) ∧ current_task s' = None ∧ pick_start s' = next_pos (length (tasks s)) i ∧
  ∀ j, state_at s' j = if decide (j = i) then Some (match e with Yields => TASK_STATE_READY | _ => TASK_STATE_DONE end) else state_at s j.
Proof.
  intros He Hi Hc. cbv zeta. destruct (lookup_lt_is_Some_2 _ _ Hi) as [t Ht].
  set (s1 := with_sched_rsp _ _).
  assert (Hf : ∃ f, end_turn e x s1 = upd i (with_rsp (sl_rsp x)) (upd i f s1) ∧
    ∀ u, state (f (with_state TASK_STATE_RUNNING u)) = match e with Yields => TASK_STATE_READY | _ => TASK_STATE_DONE end).
  { destruct He as [-> | ->]; (eexists; split; [reflexivity|]); intros u; cbn; by rewrite ?decide_True. }
  destruct Hf as (f & -> & Hf).
  assert (Hl : ∀ g u, length (tasks (upd i g u)) = length (tasks u)) by (intros; cbn; by rewrite length_alter).
  split; [|split; [done|split]].
  - change (length (tasks (upd i (with_rsp (sl_rsp x)) (upd i f (upd i (with_state TASK_STATE_RUNNING) s)))) = length (tasks s)).
    by rewrite !Hl.
  - change (next_pos (length (tasks (upd i (with_rsp (sl_rsp x)) (upd i f (upd i (with_state TASK_STATE_RUNNING) s))))) i =
      next_pos (length (tasks s)) i). by rewrite !Hl.
  - intros j. change (state_at (task_run_once_leave ?u) j) with (state_at u j).
    rewrite !state_at_upd. case_decide as Hj.
    + subst j. unfold s1. cbn. rewrite !list_lookup_alter_eq, Ht. cbn. by rewrite Hf.
    + change (state_at (upd i (with_state TASK_STATE_RUNNING) s) j = state_at s j). by rewrite state_at_upd, decide_False.
Qed.

Lemma next_pos_mod n k : (0 < n)%nat → next_pos n (k mod n) = (S k mod n)%nat.
Proof.
  intros Hn. replace (k mod n)%nat with (scan_pos n 0 k) by done. rewrite next_pos_scan by done. done.
Qed.

Section RoundRobin.
Context (nm : nat → cstr) (n : nat) (Hn : (0 < n)%nat).

Definition demo_total : nat := (S DEMO_ITERATIONS * n)%nat.

(** What slot [k] shows. *)
Definition demo_event (k : nat) (x : slot) : option (nat * output) :=
  if (k <? demo_total)%nat then Some ((k mod n)%nat, (demo_task (nm (k mod n)%nat) (k / n)%nat (sl_tick x)).1) else None.

Lemma demo_slot_runs k x s pos :
  (k < demo_total)%nat → demo_inv n k s pos →
  let '(e, s', pos') := run_slot (λ i, demo_task (nm i)) x s pos in
  e = demo_event k x ∧ demo_inv n (S k) s' pos'.
Proof.
  intros Hk Hi. pose proof Hi as [Hlen Hcur Hst Hpos Hstate]. unfold demo_total in Hk.
  pose proof (Nat.mod_upper_bound k n ltac:(lia)) as Hr. set (i := (k mod n)%nat) in *.
  assert (Hq : (k / n < S DEMO_ITERATIONS)%nat) by (apply Nat.Div0.div_lt_upper_bound; lia).
  assert (Ht : turns n k i = (k / n)%nat) by (by apply turns_current).
  assert (Hready : state_at s i = Some TASK_STATE_READY).
  { rewrite Hstate, Ht by done. by rewrite (proj2 (Nat.ltb_lt _ _)). }
  unfold run_slot, task_run_once_enter. rewrite (pick_first _ s i) by (done || by eapply demo_no_sleeper).
  cbn [task_current with_sched_rsp upd with_tasks with_current with_cursor current_task]. rewrite (Hpos i Hr), Ht.
  set (e := (demo_task (nm i) (k / n)%nat (sl_tick x)).2).
  assert (He : e = if (k / n <? DEMO_ITERATIONS)%nat then Yields else Returns) by (unfold e, demo_task; by case_if).
  assert (Hee : e = Yields ∨ e = Returns) by (rewrite He; case_if; [by left|by right]).
  destruct (turn_states e x s i Hee ltac:(lia) Hcur) as (Hl' & Hc' & Hp' & Hs').
  replace (demo_task (nm i) (k / n)%nat (sl_tick x)) with ((demo_task (nm i) (k / n)%nat (sl_tick x)).1, e) by (unfold e; by destruct (demo_task _ _ _)).
  split.
  - unfold demo_event, demo_total. by rewrite (proj2 (Nat.ltb_lt _ _)).
  - constructor.
    + by rewrite <- Hlen.
    + exact Hc'.
    + rewrite <- next_pos_mod by done. rewrite <- Hlen at 1. exact Hp'.
    + intros j Hj. rewrite turns_step by done. fold i. destruct (j =? i)%nat; by rewrite Hpos.
    + intros j Hj. trans (if decide (j = i) then Some (match e with Yields => TASK_STATE_READY | _ => TASK_STATE_DONE end) else state_at s j); [apply Hs'|].
      rewrite turns_step by done. fold i. case_decide as Hji.
      * subst j. rewrite Nat.eqb_refl, Ht, He. destruct (Nat.ltb_spec (k / n)%nat DEMO_ITERATIONS), (Nat.ltb_spec (S (k / n)%nat) (S DEMO_ITERATIONS)); done || lia.
      * rewrite (proj2 (Nat.eqb_neq j i)) by done. by apply Hstate.
Qed.

(** When all have returned there is nothing to run. *)
Lemma demo_slot_idle k x s pos :
  (demo_total <= k)%nat → demo_inv n demo_total s pos →
  run_slot (λ i, demo_task (nm i)) x s pos = (demo_event k x, s, pos).
Proof.
  intros Hk Hi. unfold demo_event. rewrite (proj2 (Nat.ltb_ge _ _)) by done.
  pose proof (demo_no_sleeper _ _ _ _ (sl_now x) Hi) as Hw. destruct Hi as [Hlen _ _ _ Hstate].
  assert (Hd : ∀ i, is_ready (tasks s) i = false).
  { intros i. unfold is_ready. destruct (tasks s !! i) as [t|] eqn:Ht; [|done]. pose proof (lookup_lt_Some _ _ _ Ht) as Hl.
    specialize (Hstate i ltac:(lia)). unfold state_at in Hstate. rewrite Ht in Hstate. injection Hstate as Hs.
    apply bool_decide_eq_false_2. rewrite Hs. unfold turns, demo_total. rewrite Nat.div_mul, Nat.Div0.mod_mul by lia. done. }
  assert (Hne : tasks s ≠ []) by (intros Hx; rewrite Hx in Hlen; cbn in Hlen; lia).
  pose proof (pick_spec (sl_now x) s Hne) as Hp. cbv zeta in Hp.
  assert (Hts : wake_if_due (sl_now x) <$> tasks s = tasks s) by (apply (f_equal tasks) in Hw; exact Hw).
  rewrite Hts, Hw in Hp. unfold run_slot, task_run_once_enter.
  destruct (task_pick_next_locked (sl_now x) s) as [[j|] s'].
  - destruct Hp as (_ & j' & _ & _ & Hr & _). by rewrite Hd in Hr.
  - by destruct Hp as [-> _].
Qed.

Lemma demo_runs xs k s pos :
  demo_inv n (k `min` demo_total) s pos →
  let '(es, s', pos') := run_slots (λ i, demo_task (nm i)) xs s pos in
  es = imap (λ j x, demo_event (k + j) x) xs ∧ demo_inv n ((k + length xs) `min` demo_total) s' pos'.
Proof.
  revert k s pos. induction xs as [|x xs IH]; intros k s pos Hi; cbn [run_slots].
  { split; [done|]. cbn [length]. by rewrite Nat.add_0_r. }
  assert (Hstep : let '(e, s', pos') := run_slot (λ i, demo_task (nm i)) x s pos in
    e = demo_event k x ∧ demo_inv n (S k `min` demo_total) s' pos').
  { destruct (decide (k < demo_total)%nat) as [Hlt|Hge].
    - rewrite Nat.min_l in Hi by lia. pose proof (demo_slot_runs k x s pos Hlt Hi) as Hs.
      destruct (run_slot _ x s pos) as [[e s'] pos']. by rewrite Nat.min_l by lia.
    - rewrite Nat.min_r in Hi by lia. rewrite (demo_slot_idle k x s pos) by (done || lia). split; [done|].
      by rewrite Nat.min_r by lia. }
  destruct (run_slot _ x s pos) as [[e s'] pos']. destruct Hstep as [-> Hi'].
  specialize (IH (S k) s' pos' Hi'). destruct (run_slots _ xs s' pos') as [[es s''] pos'']. destruct IH as [-> Hi''].
  split.
  - rewrite imap_cons. f_equal; [by rewrite Nat.add_0_r|]. apply imap_ext. intros j y _. cbn. f_equal. lia.
  - cbn [length]. by rewrite Nat.add_succ_r.
Qed.
End RoundRobin.

(** ** Sleeping *)

Section Sleep.
Context (bodies : nat → body).

(** When a task may be resumed after its turn. *)
Definition due_after (x : slot) (e : turn_end) : Z :=
  match e with Sleeps n => if n =? 0 then 0 else sl_sleep x + n | _ => 0 end.

(** The slots, with what ran in them, respect the due times. *)
Fixpoint on_time (xs : list slot) (es : list (option (nat * output))) (pos : nat → nat) (due : nat → Z) : Prop :=
  match xs, es with
  | x :: xs, Some (i, _) :: es =>
      due i <= sl_now x ∧
      let e := (bodies i (pos i) (sl_tick x)).2 in
      on_time xs es (λ j, if (j =? i)%nat then S (pos j) else pos j) (λ j, if (j =? i)%nat then due_after x e else due j)
  | _ :: xs, None :: es => on_time xs es pos due
  | _, _ => True
  end.

(** The clock does not run backwards and does not overflow. *)
Fixpoint clock_ok (T : Z) (xs : list slot) : Prop :=
  match xs with
  | [] => True
  | x :: xs => T <= sl_now x ∧ 0 <= sl_sleep x < 2 ^ 63 ∧ clock_ok (sl_now x) xs
  end.

Definition naps_ok : Prop := ∀ i k tick n, (bodies i k tick).2 = Sleeps n → 0 <= n < 2 ^ 63.

(** At tick [T]: a ready task was due, a sleeping one is woken when it is. *)
Definition due_ok (T : Z) (due : nat → Z) (s : sched) : Prop :=
  current_task s = None ∧
  ∀ i t, tasks s !! i = Some t →
    state t = TASK_STATE_READY ∧ due i <= T ∨ state t = TASK_STATE_SLEEPING ∧ wake_tick t = due i ∨ state t = TASK_STATE_DONE.

Lemma due_wakeup T now due s : due_ok T due s → T <= now → due_ok now due (task_wakeup_sleeping_locked now s).
Proof.
  intros [Hc Hd] HT. split; [done|]. intros i t Ht. cbn in Ht. rewrite list_lookup_fmap in Ht.
  destruct (tasks s !! i) as [u|] eqn:Hu; [|done]. injection Ht as <-. unfold wake_if_due.
  destruct (Hd i u Hu) as [[Hs Hle]|[[Hs Hw]|Hs]].
  - rewrite decide_False by (by rewrite Hs). left. split; [done|lia].
  - rewrite decide_True by done. destruct (Z.leb_spec (wake_tick u) now) as [Hb|Hb]; [|by right; left]. left. split; [done|]. lia.
  - rewrite decide_False by (by rewrite Hs). by right; right.
Qed.

(** The end of a turn: a task that is not running any more. *)
Lemma due_turn T due s i x e :
  due_ok T due s → naps_ok → (∃ k tick, (bodies i k tick).2 = e) → 0 <= T → 0 <= sl_sleep x < 2 ^ 63 →
  let s1 := with_sched_rsp (sl_sched_rsp x) (upd i (with_state TASK_STATE_RUNNING) (with_current (Some i) (with_cursor (Some i) s))) in
  due_ok T (λ j, if (j =? i)%nat then due_after x e else due j) (task_run_once_leave (end_turn e x s1)).
Proof.
  intros [Hc Hd] Hn (k & tick & He) HT Hx. cbv zeta. set (s1 := with_sched_rsp _ _). split; [done|]. intros j t Ht.
  assert (Hf : ∃ f, end_turn e x s1 = upd i (with_rsp (sl_rsp x)) (upd i f s1) ∧ ∀ u,
    state (f (with_state TASK_STATE_RUNNING u)) = TASK_STATE_READY ∧ due_after x e <= T ∨
    state (f (with_state TASK_STATE_RUNNING u)) = TASK_STATE_SLEEPING ∧ wake_tick (f (with_state TASK_STATE_RUNNING u)) = due_after x e ∨
    state (f (with_state TASK_STATE_RUNNING u)) = TASK_STATE_DONE).
  { destruct e as [|m|]; cbn [due_after].
    - eexists. split; [reflexivity|]. intros u. left. cbn. by rewrite decide_True.
    - pose proof (Hn i k tick m He) as Hm. unfold end_turn, task_sleep_ticks. cbn [current_task s1 with_sched_rsp upd with_tasks with_current].
      destruct (Z.eqb_spec m 0) as [->|Hz].
      + eexists. split; [reflexivity|]. intros u. left. cbn. by rewrite decide_True.
      + eexists. split; [reflexivity|]. intros u. right. left. cbn. rewrite u64_small by (unfold is_u64; lia). done.
    - eexists. split; [reflexivity|]. intros u. by right; right. }
  destruct Hf as (f & Hend & Hf). rewrite Hend in Ht.
  change (tasks (task_run_once_leave ?u)) with (tasks u) in Ht. cbn in Ht.
  destruct (Nat.eqb_spec j i) as [->|Hj].
  - rewrite !list_lookup_alter_eq in Ht. destruct (tasks s !! i) as [u|]; [|done]. injection Ht as <-. exact (Hf u).
  - rewrite !list_lookup_alter_ne in Ht by done. by apply Hd.
Qed.

Lemma run_slots_cons x xs s pos :
  (run_slots bodies (x :: xs) s pos).1.1 =
    (run_slot bodies x s pos).1.1 :: (run_slots bodies xs (run_slot bodies x s pos).1.2 (run_slot bodies x s pos).2).1.1.
Proof. cbn [run_slots]. destruct (run_slot bodies x s pos) as [[e s'] pos']. cbn. by destruct (run_slots bodies xs s' pos') as [[es s''] pos'']. Qed.

Lemma due_slots xs T due s pos :
  due_ok T due s → naps_ok → 0 <= T → clock_ok T xs →
  on_time xs (run_slots bodies xs s pos).1.1 pos due.
Proof.
  revert T due s pos. induction xs as [|x xs IH]; intros T due s pos Hd Hn HT Hx; [done|]. destruct Hx as (Hle & Hsl & Hx).
  rewrite run_slots_cons. unfold run_slot, task_run_once_enter.
  destruct (pick_cases (sl_now x) s) as [(i & s1 & -> & Hi & -> & Hr)|Hnone].
  - set (s1 := task_wakeup_sleeping_locked (sl_now x) s) in *.
    pose proof (due_wakeup T (sl_now x) due s Hd Hle) as Hd1. fold s1 in Hd1.
    cbn [task_current with_sched_rsp upd with_tasks with_current with_cursor current_task].
    set (e := (bodies i (pos i) (sl_tick x)).2).
    replace (bodies i (pos i) (sl_tick x)) with ((bodies i (pos i) (sl_tick x)).1, e) by (unfold e; by destruct (bodies _ _ _)).
    pose proof (due_turn (sl_now x) due s1 i x e Hd1 Hn ltac:(by eexists _, _) ltac:(lia) Hsl) as Hd2. cbv zeta in Hd2.
    specialize (IH (sl_now x) _ _ (λ j, if (j =? i)%nat then S (pos j) else pos j) Hd2 Hn ltac:(lia) Hx).
    cbn [fst snd on_time]. split; [|exact IH].
    unfold state_at in Hr. cbn in Hr. change (tasks s1) with (tasks s1) in Hr.
    destruct (tasks s1 !! i) as [t|] eqn:Ht; [|unfold s1 in Ht; cbn in Ht; rewrite Ht in Hr; done].
    unfold s1 in Ht; cbn in Ht. rewrite Ht in Hr. injection Hr as Hr.
    destruct (proj2 Hd1 i t) as [[_ ?]|[[Hs _]|Hs]]; [exact Ht|done|congruence|congruence].
  - assert (Hs : ∃ s', task_pick_next_locked (sl_now x) s = (None, s') ∧ due_ok (sl_now x) due s').
    { destruct Hnone as [-> | ->]; eexists; (split; [reflexivity|]); [by eapply due_wakeup|].
      destruct Hd as [Hc Hd]. split; [done|]. intros i t Ht. destruct (Hd i t Ht) as [[? ?]|?]; [left; split; [done|lia]|by right]. }
    destruct Hs as (s' & -> & Hd'). specialize (IH (sl_now x) due s' pos Hd' Hn ltac:(lia) Hx).
    exact IH.
Qed.
End Sleep.

(** ** Properties *)

(** C26: cooperative round robin. [n] tasks that run the demo function, all
    ready and with the scan at the first: whatever the ticks, slot [k] runs task
    [k mod n] and shows its iteration [k / n], so every task has its turn before
    any has the next; the sixth turn of each is its last line, after which it is
    done and its function is not entered again; from slot [6 n] on there is
    nothing to run. *)
Theorem demo_round_robin nm n xs s :
  (0 < n)%nat → length (tasks s) = n → current_task s = None → pick_start s = 0%nat →
  (∀ i, (i < n)%nat → state_at s i = Some TASK_STATE_READY) →
  let '(es, s', _) := run_slots (λ i, demo_task (nm i)) xs s (λ _, 0%nat) in
  es = imap (demo_event nm n) xs ∧
  ∀ i, (i < n)%nat → state_at s' i = Some (if (turns n (length xs `min` demo_total n) i <? 6)%nat then TASK_STATE_READY else TASK_STATE_DONE).
Proof.
  intros Hn Hlen Hc Hp Hs.
  assert (Ht : ∀ i, turns n 0 i = 0%nat) by (intros i; unfold turns; by rewrite Nat.Div0.div_0_l, Nat.Div0.mod_0_l).
  assert (Hi : demo_inv n (0 `min` demo_total n) s (λ _, 0%nat)).
  { cbn [Nat.min]. constructor; [done|done|by rewrite Nat.Div0.mod_0_l|intros i _; symmetry; apply Ht|].
    intros i Hi. rewrite Ht. by apply Hs. }
  pose proof (demo_runs nm n Hn xs 0 s (λ _, 0%nat) Hi) as Hr.
  destruct (run_slots _ xs s _) as [[es s'] pos']. destruct Hr as [-> [_ _ _ _ Hst]]. split; [done|exact Hst].
Qed.

(** The two tasks of [taskdemo]. *)
Lemma demo_round_robin_witness :
  let '(s, _, _) := cmd_taskdemo 1 2 3 task_init (MkArena 16 100000 []) in
  let nm := λ i, if (i =? 0)%nat then s2z "A" else s2z "B" in
  let xs := replicate 13 (MkSlot 7 7 7 0 0) in
  let '(es, s', _) := run_slots (λ i, demo_task (nm i)) xs s (λ _, 0%nat) in
  es !! 3%nat = Some (Some (1%nat, (demo_task (s2z "B") 1%nat 7).1)) ∧ es !! 12%nat = Some None ∧
  state_at s' 1 = Some TASK_STATE_DONE.
Proof.
  assert (Hs : let s := (cmd_taskdemo 1 2 3 task_init (MkArena 16 100000 [])).1.1 in
    length (tasks s) = 2%nat ∧ current_task s = None ∧ pick_start s = 0%nat ∧
    state_at s 0 = Some TASK_STATE_READY ∧ state_at s 1 = Some TASK_STATE_READY) by (vm_compute; split_and!; reflexivity).
  cbv zeta in Hs. destruct (cmd_taskdemo 1 2 3 task_init _) as [[s h] o]. cbn [fst] in Hs.
  destruct Hs as (Hl & Hc & Hp & H0 & H1). cbv zeta.
  pose proof (demo_round_robin (λ i, if (i =? 0)%nat then s2z "A" else s2z "B") 2 (replicate 13 (MkSlot 7 7 7 0 0)) s
    ltac:(lia) Hl Hc Hp ltac:(intros [|[|i]] Hi; [exact H0|exact H1|lia])) as Hr.
  destruct (run_slots _ _ s _) as [[es s'] pos']. destruct Hr as [-> Hst]. split; [reflexivity|]. split; [reflexivity|].
  exact (Hst 1%nat ltac:(lia)).
Defined.

(** C20: nobody sleeps too short. For tasks with any functions, with a clock
    that neither runs backwards nor overflows: over every sequence of slots, a
    task that went to sleep for [n] ticks is not resumed before [n] ticks have
    passed since it called. *)
Theorem sleep_not_short bodies xs s T :
  naps_ok bodies → 0 <= T → clock_ok T xs → current_task s = None →
  (∀ i t, tasks s !! i = Some t → state t = TASK_STATE_READY ∨ state t = TASK_STATE_DONE) →
  on_time bodies xs (run_slots bodies xs s (λ _, 0%nat)).1.1 (λ _, 0%nat) (λ _, 0).
Proof.
  intros Hn HT Hx Hc Hs. apply (due_slots bodies xs T); try done. split; [done|]. intros i t Ht.
  destruct (Hs i t Ht); [by left|by right; right].
Qed.

(** The two tasks of [sleepdemo]: the second look at tick 60 finds nobody, the
    one at 120 wakes the first. *)
Lemma sleep_not_short_witness :
  let '(s, _, _) := cmd_sleepdemo 1 2 3 task_init (MkArena 16 100000 []) in
  let nm := λ i, if (i =? 0)%nat then s2z "A" else s2z "B" in
  let xs := [MkSlot 10 10 10 0 0; MkSlot 50 50 50 0 0; MkSlot 60 60 60 0 0; MkSlot 120 121 122 0 0] in
  let es := (run_slots (λ i, sleepy_task (nm i)) xs s (λ _, 0%nat)).1.1 in
  on_time (λ i, sleepy_task (nm i)) xs es (λ _, 0%nat) (λ _, 0) ∧ es !! 2%nat = Some None ∧
  es !! 3%nat = Some (Some (0%nat, (sleepy_task (s2z "A") 1%nat 121).1)).
Proof.
  destruct (cmd_sleepdemo 1 2 3 task_init (MkArena 16 100000 [])) as [[s h] o] eqn:He. cbv zeta.
  assert (Hs : s = (cmd_sleepdemo 1 2 3 task_init (MkArena 16 100000 [])).1.1) by (by rewrite He). clear He.
  split.
  - apply (sleep_not_short _ _ s 0).
    + intros i k tick n. unfold sleepy_task. cbn [snd]. case_if; [intros [= <-]; lia|done].
    + lia.
    + cbn. lia.
    + rewrite Hs. reflexivity.
    + rewrite Hs. intros [|[|i]] t [= <-]; by left.
  - rewrite Hs. split; vm_compute; reflexivity.
Defined.
